(** * g1: assembler, binary codec and virtual machine

    A shallow embedding of the Python sources of the g1 toolchain
    (g1/instructions/instructions.py, g1/assembler/assembler.py,
    g1/assembler/data.py, g1/binary/binary_format.py and
    g1/virtual_machine/g1.py) together with the properties of the
    specification that were checked against them.

    Conventions.  Python integers are unbounded and are modelled by [Z];
    Python lists by [list]; the [labels] dictionary of the assembler by a
    [gmap]; a Python exception or a call of [sys.exit] by the [Err] branch
    of a result type. *)

From Stdlib Require Import ZArith List String Ascii Bool Lia.
From Stdlib Require Import DecimalString DecimalZ DecimalPos.
From stdpp Require Import base option list strings gmap.

Local Open Scope string_scope.
Local Open Scope list_scope.
Local Open Scope Z_scope.

(** ** Python values shared by the three components *)

Inductive result (E A : Type) : Type :=
| Ok (a : A)
| Err (e : E).
Arguments Ok {E A} a.
Arguments Err {E A} e.

(** Exceptions of the Python runtime that the sources can raise without
    catching them. *)
Inductive py_exception : Type :=
| IndexError
| KeyError (key : string)
| ValueError (text : string)   (* the text or numeral that could not be converted *)
| TypeError
| StopIteration
| FileNotFoundError (path : string)
| UnidentifiedImageError.

(** [sys.get_int_max_str_digits()]: the default limit on the number of
    digits in a conversion between [int] and [str]. *)
Definition int_max_str_digits : nat := 4300.

(** [str.isspace] on a character below 256, and the decimal digits. *)
Definition is_space (a : ascii) : bool :=
  let n := nat_of_ascii a in
  ((9 <=? n) && (n <=? 13) || (28 <=? n) && (n <=? 32) || (n =? 133) || (n =? 160))%nat.

Definition is_decimal (a : ascii) : bool :=
  let n := nat_of_ascii a in ((48 <=? n) && (n <=? 57))%nat.

Fixpoint lstrip (s : string) : string :=
  match s with
  | EmptyString => EmptyString
  | String a s' => if is_space a then lstrip s' else s
  end.

Fixpoint rstrip (s : string) : string :=
  match s with
  | EmptyString => EmptyString
  | String a s' =>
      match rstrip s' with
      | EmptyString => if is_space a then EmptyString else String a EmptyString
      | r => String a r
      end
  end.

(** The digits of a literal without its sign: digits, with single
    underscores allowed between two digits.  [after_digit] tells whether
    the character before is a digit. *)
Fixpoint digits_of (after_digit : bool) (s : string) : option string :=
  match s with
  | EmptyString => if after_digit then Some EmptyString else None
  | String a s' =>
      if is_decimal a then option_map (String a) (digits_of true s')
      else if Ascii.eqb a "_" && after_digit then digits_of false s'
      else None
  end.

(** [int(s)] on a string: white space around, an optional sign, decimal
    digits with single underscores between them; [None] stands for
    [ValueError], which is also raised when there are more than
    [int_max_str_digits] digits. *)
Definition py_int (s : string) : option Z :=
  let t := rstrip (lstrip s) in
  let '(negative, body) :=
    match t with
    | String a b =>
        if Ascii.eqb a "-" then (true, b)
        else if Ascii.eqb a "+" then (false, b)
        else (false, t)
    | EmptyString => (false, t)
    end in
  match digits_of false body with
  | None => None
  | Some ds =>
      if (int_max_str_digits <? String.length ds)%nat then None
      else option_map (fun u => if negative : bool then - Z.of_uint u else Z.of_uint u)
             (NilEmpty.uint_of_string ds)
  end.

(** The decimal numeral of an integer. *)
Definition numeral (z : Z) : string := NilZero.string_of_int (Z.to_int z).

(** [str(z)], as used by [print] and by the f-strings: [None] stands for
    the [ValueError] raised for more than [int_max_str_digits] digits. *)
Definition py_str (z : Z) : option string :=
  match Z.to_int z with
  | Decimal.Pos d | Decimal.Neg d =>
      if (int_max_str_digits <? Decimal.nb_digits d)%nat then None
      else Some (numeral z)
  end.

(** [s[1:]] *)
Definition tail_str (s : string) : string :=
  match s with
  | EmptyString => EmptyString
  | String _ s' => s'
  end.

(** [s[:-1]] *)
Fixpoint init_str (s : string) : string :=
  match s with
  | EmptyString => EmptyString
  | String _ EmptyString => EmptyString
  | String a s' => String a (init_str s')
  end.

(** [l[i]] with Python's negative indices. *)
Definition py_index {A : Type} (l : list A) (i : Z) : result py_exception A :=
  let n := Z.of_nat (length l) in
  let j := if i <? 0 then i + n else i in
  if (j <? 0) || (n <=? j) then Err IndexError
  else match l !! Z.to_nat j with
       | Some x => Ok x
       | None => Err IndexError
       end.

(** [l[a:b] = vals] for a list [l] (slice assignment with step 1): the
    bounds are normalised as Python does, the slice is replaced by [vals]
    and the list grows or shrinks accordingly. *)
Definition py_slice_bound {A : Type} (l : list A) (i : Z) : nat :=
  let n := Z.of_nat (length l) in
  Z.to_nat (if i <? 0 then Z.max (i + n) 0 else Z.min i n).

Definition py_slice_assign {A : Type} (l : list A) (a b : Z) (vals : list A) : list A :=
  let lo := py_slice_bound l a in
  let hi := Nat.max (py_slice_bound l b) lo in
  take lo l ++ vals ++ drop hi l.

(** An instruction argument is an [int] (a literal) or a [str] (an address
    written [$n]). *)
Inductive argument : Type :=
| AInt (z : Z)
| AStr (s : string).

(** [[name, args]], or [[name, args, line]] in debug mode. *)
Record instruction : Type := Instruction {
  ins_name : string;
  ins_args : list argument;
  ins_line : option Z
}.

Record meta_variables : Type := Meta {
  meta_memory : Z;
  meta_width : Z;
  meta_height : Z;
  meta_tickrate : Z
}.

Definition data_entry : Type := Z * list Z.

(** The program dictionary, keys ['meta'], ['instructions'], ['start'],
    ['tick'], ['data'] and ['source'], and the key ['data_entry_count'] that
    the decoder of the binary format can leave in it.  An optional key is
    an [option]; the key ['data'] can be present with the value [None]
    ([Some None]). *)
Record program : Type := Program {
  p_meta : meta_variables;
  p_instructions : list instruction;
  p_start : option Z;
  p_tick : option Z;
  p_data : option (option (list data_entry));
  p_source : option (list string);
  p_data_entry_count : option Z
}.

(** ** g1/instructions/instructions.py *)

Module Instructions.

Definition INSTRUCTIONS : list string :=
  ["mov"; "movp"; "add"; "sub"; "mul"; "div"; "mod"; "less"; "equal"; "not";
   "jmp"; "color"; "point"; "line"; "rect"; "log"].

Definition ARGUMENT_COUNTS : list nat :=
  [2; 2; 3; 3; 3; 3; 3; 3; 3; 2; 2; 3; 2; 4; 4; 1]%nat.

Definition ARGUMENT_COUNT_LOOKUP : gmap string nat :=
  list_to_map (zip INSTRUCTIONS ARGUMENT_COUNTS).

End Instructions.

(** ** The token stream

    The lexer is built with rply's [LexerGenerator] from the rules listed
    in assembler.py.  At each position the ignored pattern (one space) is
    skipped as often as it matches; then the rules are tried in the order
    they were added and the first that matches produces the token; when
    none matches, [LexingError] is raised. *)

Module Lexer.

Inductive token_name : Type :=
| META_VARIABLE | NUMBER | ADDRESS | LABEL_NAME | NAME | COMMENT | NEWLINE.

#[global] Instance token_name_eq_dec : EqDecision token_name.
Proof. solve_decision. Defined.

(** [source_pos] has a 1-based line and column. *)
Record Token : Type := Tok {
  name : token_name;
  value : string;
  lineno : Z;
  colno : Z
}.

Definition code (a : ascii) : nat := nat_of_ascii a.

(** [\d] (ASCII), [[A-z]] and [[A-z0-9_]] *)
Definition is_digit (a : ascii) : bool :=
  (48 <=? code a)%nat && (code a <=? 57)%nat.
Definition is_A_z (a : ascii) : bool :=
  (65 <=? code a)%nat && (code a <=? 122)%nat.
Definition is_word (a : ascii) : bool :=
  is_A_z a || is_digit a || Ascii.eqb a "_".

Definition newline : ascii := ascii_of_nat 10.

(** The longest prefix of characters satisfying [p], and what follows. *)
Fixpoint span (p : ascii -> bool) (s : string) : string * string :=
  match s with
  | EmptyString => (EmptyString, EmptyString)
  | String a s' =>
      if p a then let '(w, r) := span p s' in (String a w, r)
      else (EmptyString, s)
  end.

(** A regular expression matched at the head of [s]: the lexeme and the
    rest of the input. *)
Definition plus (p : ascii -> bool) (s : string) : option (string * string) :=
  match span p s with
  | (EmptyString, _) => None
  | (w, r) => Some (w, r)
  end.

Definition prefixed (a : ascii) (m : option (string * string)) : option (string * string) :=
  match m with
  | Some (w, r) => Some (String a w, r)
  | None => None
  end.

(** [#[A-z]+] *)
Definition re_META_VARIABLE (s : string) : option (string * string) :=
  match s with
  | String "#" s' => prefixed "#" (plus is_A_z s')
  | _ => None
  end.

(** [-?\d+] *)
Definition re_NUMBER (s : string) : option (string * string) :=
  match s with
  | String "-" s' => prefixed "-" (plus is_digit s')
  | _ => plus is_digit s
  end.

(** [\$\d+] *)
Definition re_ADDRESS (s : string) : option (string * string) :=
  match s with
  | String "$" s' => prefixed "$" (plus is_digit s')
  | _ => None
  end.

(** [[A-z0-9_]+:] *)
Definition re_LABEL_NAME (s : string) : option (string * string) :=
  match plus is_word s with
  | Some (w, String ":" r) => Some ((w ++ ":")%string, r)
  | _ => None
  end.

(** [[A-z_][A-z0-9_]*] *)
Definition re_NAME (s : string) : option (string * string) :=
  match s with
  | String a s' =>
      if is_A_z a || Ascii.eqb a "_"
      then let '(w, r) := span is_word s' in Some (String a w, r)
      else None
  | EmptyString => None
  end.

(** [\([^)]*\)] *)
Definition re_COMMENT (s : string) : option (string * string) :=
  match s with
  | String "(" s' =>
      match span (fun a => negb (Ascii.eqb a ")")) s' with
      | (w, String ")" r) => Some (String "(" (w ++ ")")%string, r)
      | _ => None
      end
  | _ => None
  end.

(** [\n] *)
Definition re_NEWLINE (s : string) : option (string * string) :=
  match s with
  | String a r => if Ascii.eqb a newline then Some (String a EmptyString, r) else None
  | EmptyString => None
  end.

Definition rules : list (token_name * (string -> option (string * string))) :=
  [(META_VARIABLE, re_META_VARIABLE);
   (NUMBER, re_NUMBER);
   (ADDRESS, re_ADDRESS);
   (LABEL_NAME, re_LABEL_NAME);
   (NAME, re_NAME);
   (COMMENT, re_COMMENT);
   (NEWLINE, re_NEWLINE)].

Fixpoint first_match (rs : list (token_name * (string -> option (string * string))))
    (s : string) : option (token_name * string * string) :=
  match rs with
  | [] => None
  | (n, re) :: rs' =>
      match re s with
      | Some (w, r) => Some (n, w, r)
      | None => first_match rs' s
      end
  end.

(** The position after the characters of [w]. *)
Fixpoint advance (w : string) (line col : Z) : Z * Z :=
  match w with
  | EmptyString => (line, col)
  | String a w' =>
      if Ascii.eqb a newline then advance w' (line + 1) 1
      else advance w' line (col + 1)
  end.

(** The tokens of [s] and, when lexing stops at an unrecognised lexeme,
    the position of the [LexingError]: the current line and the column
    kept in [_colno], which is the column of the last token returned (1
    before the first).  [line] and [col] are the position of the head of
    [s].  The stream is lazy in the source: the error is met only when the
    consumer asks for that token. *)
Fixpoint lex_from (fuel : nat) (s : string) (line col _colno : Z)
  : list Token * option (Z * Z) :=
  match fuel with
  | O => ([], None)
  | S fuel' =>
      match s with
      | EmptyString => ([], None)
      | String " " s' => lex_from fuel' s' line (col + 1) _colno
      | _ =>
          match first_match rules s with
          | None => ([], Some (line, _colno))
          | Some (n, w, r) =>
              let '(line', col') := advance w line col in
              let '(ts, e) := lex_from fuel' r line' col' col in
              (Tok n w line col :: ts, e)
          end
      end
  end.

(** Every token takes at least one character, so the length of the text
    is fuel enough (see [lex_from_fuel]). *)
Definition lex (s : string) : list Token * option (Z * Z) :=
  lex_from (String.length s) s 1 1 1.

End Lexer.

(** ** g1/assembler/data.py *)

Module Data.

(** [s.split('\n')] *)
Fixpoint split_lines (s : string) : list string :=
  match s with
  | EmptyString => [EmptyString]
  | String a s' =>
      if Ascii.eqb a Lexer.newline then EmptyString :: split_lines s'
      else match split_lines s' with
           | l :: ls => String a l :: ls
           | [] => [String a EmptyString]
           end
  end.

Definition ord (a : ascii) : Z := Z.of_nat (nat_of_ascii a).

Definition ords (s : string) : list Z := map ord (list_ascii_of_string s).

(** [^(\d+) ([fFbs]) (.+)$] matched against one line (which holds no
    newline): the three groups. *)
Definition is_data_type (a : ascii) : bool :=
  Ascii.eqb a "f" || Ascii.eqb a "F" || Ascii.eqb a "b" || Ascii.eqb a "s".

Definition DATA_LINE_REGEX (line : string) : option (string * ascii * string) :=
  match Lexer.plus Lexer.is_digit line with
  | Some (address_str, String " " (String t (String " " (String a rest)))) =>
      if is_data_type t then Some (address_str, t, String a rest) else None
  | _ => None
  end.

Definition hex_value (a : ascii) : option Z :=
  let n := ord a in
  if (48 <=? n) && (n <=? 57) then Some (n - 48)
  else if (97 <=? n) && (n <=? 102) then Some (n - 87)
  else if (65 <=? n) && (n <=? 70) then Some (n - 55)
  else None.

(** [[int(data[i:i+2], base=16) for i in range(0, len(data), 2)]] on a
    string of hexadecimal digit pairs; [None] when [data] is not one. *)
Fixpoint hex_pairs (data : string) : option (list Z) :=
  match data with
  | EmptyString => Some []
  | String a (String b rest) =>
      match hex_value a, hex_value b, hex_pairs rest with
      | Some x, Some y, Some l => Some ((16 * x + y) :: l)
      | _, _, _ => None
      end
  | String _ EmptyString => None
  end.

(** [([0-9a-fA-F]{2})+$] matched at the start of [data]. *)
Definition HEX_REGEX (data : string) : bool :=
  match data with
  | EmptyString => false
  | _ => match hex_pairs data with Some _ => true | None => false end
  end.

Inductive data_message : Type :=
| ExpectedSyntax (line_number : Z)
| ExpectedHex (line_number : Z)
| ExceedsCapacity (line_number : Z)
| NotAFile (line_number : Z)
| InvalidDataType (line_number : Z)
| DataOverlap (a b : Z * Z).

(** A decoded image, as far as [img_to_simg] looks at it. *)
Record Image : Type := {
  img_width : Z;
  img_height : Z;
  getpixel : Z -> Z -> Z * Z * Z   (* [getpixel((x, y))]: red, green, blue *)
}.

Definition range (n : Z) : list Z := map Z.of_nat (seq 0 (Z.to_nat n)).

Definition img_to_simg (img : Image) : list Z :=
  [img_width img; img_height img] ++
  flat_map (fun i =>
    map (fun j =>
      let '(r, g, b) := getpixel img j i in
      Z.lor (Z.shiftl (Z.lor (Z.shiftl b 8) g) 8) r)
      (range (img_width img)))
    (range (img_height img)).

(** [os.path.splitext(p)[1]] (posixpath) *)
Fixpoint rfind (a : ascii) (s : string) (i : Z) : Z :=
  match s with
  | EmptyString => -1
  | String b s' =>
      let r := rfind a s' (i + 1) in
      if 0 <=? r then r else if Ascii.eqb a b then i else -1
  end.

Definition substring_from (i : Z) (s : string) : string :=
  String.substring (Z.to_nat i) (String.length s - Z.to_nat i) s.

Definition splitext_ext (p : string) : string :=
  let sepIndex := rfind "/" p 0 in
  let dotIndex := rfind "." p 0 in
  if sepIndex <? dotIndex then
    (* a name made of leading dots only has no extension *)
    let filename := String.substring (Z.to_nat (sepIndex + 1))
                      (Z.to_nat (dotIndex - (sepIndex + 1))) p in
    if forallb (fun c => Ascii.eqb c ".") (list_ascii_of_string filename)
    then EmptyString
    else substring_from dotIndex p
  else EmptyString.

Definition lower_ascii (a : ascii) : ascii :=
  let n := nat_of_ascii a in
  if (65 <=? n)%nat && (n <=? 90)%nat then ascii_of_nat (n + 32) else a.

Definition lower (s : string) : string :=
  string_of_list_ascii (map lower_ascii (list_ascii_of_string s)).

Section WithFiles.

(** The file system: [files path] is the content of the regular file at
    [path], when there is one ([os.path.isfile], [open(...).read()]). *)
Variable files : string -> option string.

(** [Image.open] of PIL, the external decoder. *)
Variable image_open : string -> option Image.

Definition parse_file (file_bytes : string) (file_extension : string)
  : result py_exception (list Z) :=
  let e := lower file_extension in
  if String.eqb e ".png" || String.eqb e ".jpg" || String.eqb e ".bmp" then
    match image_open file_bytes with
    | Some img => Ok (img_to_simg img)
    | None => Err UnidentifiedImageError
    end
  else Ok (ords file_bytes).

(** [add_data_entry]: [None] stands for the returned [False]. *)
Definition add_data_entry (parsed_data : list data_entry) (memory_size : Z)
    (line_number : Z) (entry : data_entry)
  : list data_message * option (list data_entry) :=
  let '(address, numbers) := entry in
  if memory_size <? address + Z.of_nat (length numbers)
  then ([ExceedsCapacity line_number], None)
  else ([], Some (parsed_data ++ [entry])).

(** The body of the [for] loop of [parse_data] on one line: the messages
    printed and the new value of [parsed_data], or [None] when the
    function returns [None] there. *)
Definition parse_line (parsed_data : list data_entry) (memory_size : Z)
    (line_number : Z) (line : string)
  : result py_exception (list data_message * option (list data_entry)) :=
  match DATA_LINE_REGEX line with
  | None => Ok ([ExpectedSyntax line_number], None)
  | Some (address_str, data_type, data) =>
      match py_int address_str with
      | None => Err (ValueError address_str)
      | Some address =>
          if Ascii.eqb data_type "b" then
            if negb (HEX_REGEX data) then Ok ([ExpectedHex line_number], None)
            else match hex_pairs data with
                 | Some data_numbers =>
                     Ok (add_data_entry parsed_data memory_size line_number
                           (address, data_numbers))
                 | None => Err (ValueError data)
                 end
          else if Ascii.eqb data_type "s" then
            let data_numbers := Z.of_nat (String.length data) :: ords data in
            Ok (add_data_entry parsed_data memory_size line_number
                  (address, data_numbers))
          else if Ascii.eqb data_type "f" || Ascii.eqb data_type "F" then
            match files data with
            | None => Ok ([NotAFile line_number], None)
            | Some file_bytes =>
                if Ascii.eqb data_type "F" then
                  Ok ([], Some (parsed_data ++ [(address, ords file_bytes)]))
                else
                  match parse_file file_bytes (splitext_ext data) with
                  | Err e => Err e
                  | Ok numbers =>
                      Ok (add_data_entry parsed_data memory_size line_number
                            (address, numbers))
                  end
            end
          else Ok ([InvalidDataType line_number], None)
      end
  end.

Fixpoint parse_lines (lines : list string) (line_number : Z)
    (parsed_data : list data_entry) (memory_size : Z)
  : result py_exception (list data_message * option (list data_entry)) :=
  match lines with
  | [] => Ok ([], Some parsed_data)
  | line :: rest =>
      match parse_line parsed_data memory_size line_number line with
      | Err e => Err e
      | Ok (msgs, None) => Ok (msgs, None)
      | Ok (msgs, Some parsed_data') =>
          match parse_lines rest (line_number + 1) parsed_data' memory_size with
          | Err e => Err e
          | Ok (msgs', r) => Ok (msgs ++ msgs', r)
          end
      end
  end.

(** [spans.sort(key=lambda x: x[0])]: a stable sort on the first bound. *)
Fixpoint insert_span (x : Z * Z) (l : list (Z * Z)) : list (Z * Z) :=
  match l with
  | [] => [x]
  | y :: l' => if fst x <? fst y then x :: l else y :: insert_span x l'
  end.

Definition sort_spans (l : list (Z * Z)) : list (Z * Z) :=
  fold_left (fun acc x => insert_span x acc) l [].

Fixpoint overlaps (spans : list (Z * Z)) : list data_message :=
  match spans with
  | [] => []
  | si :: rest =>
      omap (fun sj => if fst sj <=? snd si then Some (DataOverlap si sj) else None) rest
      ++ overlaps rest
  end.

Definition overlap_warnings (parsed_data : list data_entry) : list data_message :=
  overlaps (sort_spans
    (map (fun e => (fst e, fst e + Z.of_nat (length (snd e)) - 1)) parsed_data)).

(** [parse_data]: the messages printed and the returned list, [None] for
    Python's [None]. *)
Definition parse_data (data_entries : string) (memory_size : Z)
  : result py_exception (list data_message * option (list data_entry)) :=
  match parse_lines (split_lines data_entries) 0 [] memory_size with
  | Err e => Err e
  | Ok (msgs, None) => Ok (msgs, None)
  | Ok (msgs, Some parsed_data) =>
      Ok (msgs ++ overlap_warnings parsed_data, Some parsed_data)
  end.

End WithFiles.

End Data.

(** ** g1/binary/binary_format.py *)

Module Binary.

Import Instructions.

(** [{ins: i for i, ins in enumerate(INSTRUCTIONS)}] *)
Definition INSTRUCTION_IDS : gmap string Z :=
  list_to_map (zip INSTRUCTIONS (map Z.of_nat (seq 0 (length INSTRUCTIONS)))).

Definition SIGNATURE : list Byte.byte := [Byte.x67; Byte.x31].   (* b'g1' *)

Definition ARG_TYPE_LITERAL : Z := 0.
Definition ARG_TYPE_ADDRESS : Z := 1.

(** *** The [construct] library

    What [build] raises and [parse] raises: a value that does not fit its
    field ([FormatFieldError]), an array whose length differs from its
    count ([RangeError]), a wrong constant ([ConstError]), the end of the
    input before the end of a field ([StreamError]), or an exception of a
    [Computed] expression. *)
Inductive construct_error : Type :=
| FormatFieldError
| RangeError
| ConstError
| StreamError
| ComputedError (e : py_exception).

Definition byte_of_Z (z : Z) : Byte.byte :=
  match Byte.of_N (Z.to_N (z mod 256)) with
  | Some b => b
  | None => Byte.x00
  end.

Definition Z_of_byte (b : Byte.byte) : Z := Z.of_N (Byte.to_N b).

(** Big-endian digits in base 256. *)
Fixpoint be_encode (n : nat) (v : Z) : list Byte.byte :=
  match n with
  | O => []
  | S n' => be_encode n' (v / 256) ++ [byte_of_Z (v mod 256)]
  end.

Definition be_decode (bs : list Byte.byte) : Z :=
  fold_left (fun acc b => acc * 256 + Z_of_byte b) bs 0.

(** An integer field of [n] bytes, unsigned ([Int8ub], [Int16ub],
    [Int32ub]) or two's complement ([Int32sb]). *)
Record int_format : Type := IntFormat { size : nat; signed : bool }.

Definition Int8ub := IntFormat 1 false.
Definition Int16ub := IntFormat 2 false.
Definition Int32ub := IntFormat 4 false.
Definition Int32sb := IntFormat 4 true.

Definition modulus (f : int_format) : Z := 256 ^ Z.of_nat (size f).

Definition in_range (f : int_format) (v : Z) : bool :=
  if signed f then (- (modulus f / 2) <=? v) && (v <? modulus f / 2)
  else (0 <=? v) && (v <? modulus f).

Definition build_int (f : int_format) (v : Z) : result construct_error (list Byte.byte) :=
  if in_range f v then Ok (be_encode (size f) (v mod modulus f))
  else Err FormatFieldError.

(** Parsers consume a prefix of the input. *)
Definition Parser (A : Type) : Type :=
  list Byte.byte -> result construct_error (A * list Byte.byte).

#[local] Instance Parser_ret : MRet Parser := fun A a bs => Ok (a, bs).
#[local] Instance Parser_bind : MBind Parser := fun A B f m bs =>
  match m bs with
  | Ok (a, bs') => f a bs'
  | Err e => Err e
  end.
Definition fail {A} (e : construct_error) : Parser A := fun _ => Err e.

Definition read (n : nat) : Parser (list Byte.byte) := fun bs =>
  if (n <=? length bs)%nat then Ok (take n bs, drop n bs) else Err StreamError.

Definition parse_int (f : int_format) : Parser Z :=
  bs ← read (size f);
  let u := be_decode bs in
  mret (if signed f && (modulus f / 2 <=? u) then u - modulus f else u).

(** [Array(count, subcon)] *)
Fixpoint parse_array {A} (count : nat) (p : Parser A) : Parser (list A) :=
  match count with
  | O => mret []
  | S count' => x ← p; xs ← parse_array count' p; mret (x :: xs)
  end.

Definition Builder (A : Type) : Type := A -> result construct_error (list Byte.byte).

Definition seq_build (a b : result construct_error (list Byte.byte))
  : result construct_error (list Byte.byte) :=
  match a with
  | Err e => Err e
  | Ok x => match b with
            | Err e => Err e
            | Ok y => Ok (x ++ y)
            end
  end.
Infix "+++" := seq_build (at level 60, right associativity).

Fixpoint build_each {A} (b : Builder A) (objs : list A)
  : result construct_error (list Byte.byte) :=
  match objs with
  | [] => Ok []
  | x :: xs => b x +++ build_each b xs
  end.

Definition build_array {A} (count : Z) (b : Builder A) : Builder (list A) := fun objs =>
  if (count <? 0) || negb (Z.of_nat (length objs) =? count) then Err RangeError
  else build_each b objs.

(** *** The dictionary [format_json] makes and [G1BinaryFormat] reads *)

Record G1Argument_t : Type := VArg { type : Z; arg_value : Z }.

Record G1Instruction_t : Type := VIns { id : Z; arguments : list G1Argument_t }.

Record G1DataEntry_t : Type := VData { address : Z; data_size : Z; values : list Z }.

Record G1BinaryFormat_t : Type := VProgram {
  f_meta : meta_variables;
  f_tick : Z;
  f_start : Z;
  instruction_count : Z;
  f_instructions : list G1Instruction_t;
  data_entry_count : Z;
  f_data : list G1DataEntry_t
}.

Definition build_G1Argument : Builder G1Argument_t := fun a =>
  build_int Int8ub (type a) +++ build_int Int32sb (arg_value a).

Definition parse_G1Argument : Parser G1Argument_t :=
  t ← parse_int Int8ub; v ← parse_int Int32sb; mret (VArg t v).

(** [Computed(lambda ctx: ARGUMENT_COUNTS[ctx.id])] *)
Definition argument_count (id : Z) : result construct_error Z :=
  match py_index ARGUMENT_COUNTS id with
  | Ok c => Ok (Z.of_nat c)
  | Err e => Err (ComputedError e)
  end.

Definition build_G1Instruction : Builder G1Instruction_t := fun i =>
  build_int Int8ub (id i) +++
  match argument_count (id i) with
  | Ok count => build_array count build_G1Argument (arguments i)
  | Err e => Err e
  end.

Definition parse_G1Instruction : Parser G1Instruction_t :=
  i ← parse_int Int8ub;
  match argument_count i with
  | Ok count => args ← parse_array (Z.to_nat count) parse_G1Argument; mret (VIns i args)
  | Err e => fail e
  end.

Definition build_G1DataEntry : Builder G1DataEntry_t := fun d =>
  build_int Int32ub (address d) +++
  build_int Int32ub (data_size d) +++
  build_array (data_size d) (build_int Int32sb) (values d).

Definition parse_G1DataEntry : Parser G1DataEntry_t :=
  a ← parse_int Int32ub;
  n ← parse_int Int32ub;
  vs ← parse_array (Z.to_nat n) (parse_int Int32sb);
  mret (VData a n vs).

Definition build_meta : Builder meta_variables := fun m =>
  build_int Int32ub (meta_memory m) +++
  build_int Int16ub (meta_width m) +++
  build_int Int16ub (meta_height m) +++
  build_int Int16ub (meta_tickrate m).

Definition parse_meta : Parser meta_variables :=
  m ← parse_int Int32ub;
  w ← parse_int Int16ub;
  h ← parse_int Int16ub;
  t ← parse_int Int16ub;
  mret (Meta m w h t).

(** [G1BinaryFormat.build] *)
Definition G1BinaryFormat_build : Builder G1BinaryFormat_t := fun f =>
  Ok SIGNATURE +++
  build_meta (f_meta f) +++
  build_int Int32sb (f_tick f) +++
  build_int Int32sb (f_start f) +++
  build_int Int32ub (instruction_count f) +++
  build_array (instruction_count f) build_G1Instruction (f_instructions f) +++
  build_int Int32ub (data_entry_count f) +++
  build_array (data_entry_count f) build_G1DataEntry (f_data f).

#[local] Instance byte_eq_dec : EqDecision Byte.byte := Byte.byte_eq_dec.

Definition bytes_eqb (a b : list Byte.byte) : bool :=
  bool_decide (a = b).

(** [G1BinaryFormat.parse]; bytes after the last field are ignored. *)
Definition G1BinaryFormat_parse (file_content : list Byte.byte)
  : result construct_error G1BinaryFormat_t :=
  match
    (sig ← read (length SIGNATURE);
     if negb (bytes_eqb sig SIGNATURE) then fail ConstError else
     m ← parse_meta;
     t ← parse_int Int32sb;
     s ← parse_int Int32sb;
     ic ← parse_int Int32ub;
     ins ← parse_array (Z.to_nat ic) parse_G1Instruction;
     dc ← parse_int Int32ub;
     ds ← parse_array (Z.to_nat dc) parse_G1DataEntry;
     mret (VProgram m t s ic ins dc ds)) file_content
  with
  | Ok (f, _) => Ok f
  | Err e => Err e
  end.

(** *** [format_json] and [parse_to_program_data] *)

Definition verbose_argument (a : argument) : result py_exception G1Argument_t :=
  match a with
  | AInt z => Ok (VArg ARG_TYPE_LITERAL z)
  | AStr s => match py_int (tail_str s) with
              | Some v => Ok (VArg ARG_TYPE_ADDRESS v)
              | None => Err (ValueError (tail_str s))
              end
  end.

Fixpoint mapM {E A B} (f : A -> result E B) (l : list A) : result E (list B) :=
  match l with
  | [] => Ok []
  | x :: xs =>
      match f x with
      | Err e => Err e
      | Ok y => match mapM f xs with
                | Err e => Err e
                | Ok ys => Ok (y :: ys)
                end
      end
  end.

Definition verbose_instruction (i : instruction) : result py_exception G1Instruction_t :=
  match mapM verbose_argument (ins_args i) with
  | Err e => Err e
  | Ok verbose_arguments =>
      match INSTRUCTION_IDS !! ins_name i with
      | Some instruction_id => Ok (VIns instruction_id verbose_arguments)
      | None => Err (KeyError (ins_name i))
      end
  end.

Definition verbose_data_entry (e : data_entry) : G1DataEntry_t :=
  VData (fst e) (Z.of_nat (length (snd e))) (snd e).

Definition format_json (program_json : program) : result py_exception G1BinaryFormat_t :=
  match mapM verbose_instruction (p_instructions program_json) with
  | Err e => Err e
  | Ok verbose_instructions =>
      let mk count entries :=
        VProgram (p_meta program_json)
          (default (-1) (p_tick program_json))
          (default (-1) (p_start program_json))
          (Z.of_nat (length (p_instructions program_json)))
          verbose_instructions count entries in
      match p_data program_json with
      | Some (Some entries) =>
          let verbose_data_entries := map verbose_data_entry entries in
          Ok (mk (Z.of_nat (length verbose_data_entries)) verbose_data_entries)
      | Some None => Err TypeError      (* iterating over [None] *)
      | None => Ok (mk 0 [])
      end
  end.

(** [f'${arg_data["value"]}'] for an address. *)
Definition convert_argument (arg_data : G1Argument_t) : result py_exception argument :=
  if type arg_data =? ARG_TYPE_LITERAL then Ok (AInt (arg_value arg_data))
  else match py_str (arg_value arg_data) with
       | Some text => Ok (AStr (String "$" text))
       | None => Err (ValueError (numeral (arg_value arg_data)))
       end.

Definition convert_instruction (instruction_data : G1Instruction_t)
  : result py_exception instruction :=
  match py_index INSTRUCTIONS (id instruction_data) with
  | Err e => Err e
  | Ok instruction_name =>
      match mapM convert_argument (arguments instruction_data) with
      | Err e => Err e
      | Ok converted_args => Ok (Instruction instruction_name converted_args None)
      end
  end.

Inductive decode_error : Type :=
| Construct (e : construct_error)
| Python (e : py_exception).

Definition parse_to_program_data (file_content : list Byte.byte)
  : result decode_error program :=
  match G1BinaryFormat_parse file_content with
  | Err e => Err (Construct e)
  | Ok program_data =>
      match mapM convert_instruction (f_instructions program_data) with
      | Err e => Err (Python e)
      | Ok new_instructions =>
          Ok (Program (f_meta program_data)
                new_instructions
                (if f_start program_data =? -1 then None else Some (f_start program_data))
                (if f_tick program_data =? -1 then None else Some (f_tick program_data))
                (match f_data program_data with
                 | [] => None
                 | entries => Some (Some (map (fun d => (address d, values d)) entries))
                 end)
                None
                (* ['data_entry_count'] is deleted only with an empty ['data'] *)
                (match f_data program_data with
                 | [] => None
                 | _ => Some (data_entry_count program_data)
                 end))
      end
  end.

(** What [assemble] writes for the g1b format. *)
Definition encode (p : program) : result decode_error (list Byte.byte) :=
  match format_json p with
  | Err e => Err (Python e)
  | Ok formatted_json =>
      match G1BinaryFormat_build formatted_json with
      | Err e => Err (Construct e)
      | Ok file_content => Ok file_content
      end
  end.

End Binary.

(** ** g1/assembler/assembler.py *)

Module Assembler.

Import Instructions.
Import Lexer.

Inductive AssemblerState : Type := META | PROCEDURES.

#[global] Instance AssemblerState_eq_dec : EqDecision AssemblerState.
Proof. solve_decision. Defined.

Definition META_VARIABLES : meta_variables := Meta 128 100 100 60.

Definition META_VARIABLE_NAMES : list string := ["memory"; "width"; "height"; "tickrate"].

(** [output_json['meta'][meta_variable_name] = v], for one of the four keys. *)
Definition set_meta (m : meta_variables) (key : string) (v : Z) : meta_variables :=
  if String.eqb key "memory" then Meta v (meta_width m) (meta_height m) (meta_tickrate m)
  else if String.eqb key "width" then Meta (meta_memory m) v (meta_height m) (meta_tickrate m)
  else if String.eqb key "height" then Meta (meta_memory m) (meta_width m) v (meta_tickrate m)
  else if String.eqb key "tickrate" then Meta (meta_memory m) (meta_width m) (meta_height m) v
  else m.

Definition ASSIGNMENT_INSTRUCTIONS : list string :=
  ["mov"; "movp"; "add"; "sub"; "mul"; "div"; "mod"; "less"; "equal"; "not"].

Definition mem_string (x : string) (l : list string) : bool :=
  existsb (String.eqb x) l.

(** The messages of [error], which prints ASSEMBLER ERROR and exits. *)
Inductive error_message : Type :=
| MetaOutsideHeader
| UnrecognizedMetaVariable (meta_variable_name : string)
| UnrecognizedInstruction (instruction_name : string)
| WrongArgumentCount (expected : nat) (instruction_name : string) (got : nat)
| ValueOutsideInstruction
| UndefinedLabel (label_name : string)
| UnrecognizedToken.

(** How assembling stops: [error] at a token, the [LexingError] of the
    token stream, or an exception that nothing in the module raises on
    purpose. *)
Inductive failure : Type :=
| Fatal (message : error_message) (line col : Z)
| LexingError (line col : Z)
| Raised (e : py_exception).

Inductive warning : Type :=
| DeclaredMoreThanOnce (label_name : string) (line col : Z)
| ReservedAssignment (line col : Z)
| TickNotFound.

Definition error {A} (token : Token) (message : error_message) : result failure A :=
  Err (Fatal message (lineno token) (colno token)).

(** A token stream is the list of the tokens still to come and the way
    it ends: [Some pos] when asking for one more token raises
    [LexingError], [None] when it raises [StopIteration]. *)
Section Stream.

Variable ending : option (Z * Z).

Definition exhausted : failure :=
  match ending with
  | Some (line, col) => LexingError line col
  | None => Raised StopIteration
  end.

(** [tokens.next()] *)
Definition next (tokens : list Token) : result failure (Token * list Token) :=
  match tokens with
  | t :: rest => Ok (t, rest)
  | [] => Err exhausted
  end.

(** [get_until_newline]: the collected tokens and the rest of the stream. *)
Fixpoint get_until_newline_from (returned_tokens : list Token) (tokens : list Token)
  : result failure (list Token * list Token) :=
  match tokens with
  | [] => Err exhausted
  | token :: rest =>
      match name token with
      | COMMENT => get_until_newline_from returned_tokens rest
      | NEWLINE => Ok (returned_tokens, rest)
      | _ => get_until_newline_from (returned_tokens ++ [token]) rest
      end
  end.

Definition get_until_newline (tokens : list Token)
  : result failure (list Token * list Token) :=
  get_until_newline_from [] tokens.

(** The variables of the first loop of [assemble_tokens]. *)
Record collection : Type := Collection {
  compiler_state : AssemblerState;
  meta : meta_variables;
  labels : gmap string Z;
  raw_instructions : list (Token * list Token);
  instruction_index : Z;
  warnings : list warning
}.

(** The body of the first loop for [token]; [rest] is the stream after
    it.  The result is the stream the loop goes on with. *)
Definition collect_token (token : Token) (rest : list Token) (c : collection)
  : result failure (list Token * collection) :=
  match name token with
  | META_VARIABLE =>
      if negb (bool_decide (compiler_state c = META))
      then error token MetaOutsideHeader
      else
        let meta_variable_name := tail_str (value token) in
        if negb (mem_string meta_variable_name META_VARIABLE_NAMES)
        then error token (UnrecognizedMetaVariable meta_variable_name)
        else
          match next rest with
          | Err e => Err e
          | Ok (v, rest') =>
              match py_int (value v) with
              | None => Err (Raised (ValueError (value v)))
              | Some z =>
                  Ok (rest', Collection (compiler_state c)
                               (set_meta (meta c) meta_variable_name z)
                               (labels c) (raw_instructions c)
                               (instruction_index c) (warnings c))
              end
          end
  | LABEL_NAME =>
      let label_name := init_str (value token) in
      match labels c !! label_name with
      | Some _ =>
          Ok (rest, Collection PROCEDURES (meta c) (labels c) (raw_instructions c)
                      (instruction_index c)
                      (warnings c ++ [DeclaredMoreThanOnce label_name (lineno token) (colno token)]))
      | None =>
          Ok (rest, Collection PROCEDURES (meta c)
                      (<[label_name := instruction_index c]> (labels c))
                      (raw_instructions c) (instruction_index c) (warnings c))
      end
  | NAME =>
      if negb (mem_string (value token) INSTRUCTIONS)
      then error token (UnrecognizedInstruction (value token))
      else
      match ARGUMENT_COUNT_LOOKUP !! value token with
      | None => Err (Raised (KeyError (value token)))
      | Some instruction_arg_amount =>
          match get_until_newline rest with
          | Err e => Err e
          | Ok (instruction_args, rest') =>
              if negb (length instruction_args =? instruction_arg_amount)%nat
              then error token (WrongArgumentCount instruction_arg_amount (value token)
                                  (length instruction_args))
              else Ok (rest', Collection (compiler_state c) (meta c) (labels c)
                                (raw_instructions c ++ [(token, instruction_args)])
                                (instruction_index c + 1) (warnings c))
          end
      end
  | NUMBER | ADDRESS => error token ValueOutsideInstruction
  | COMMENT | NEWLINE => Ok (rest, c)
  end.

(** The first loop, [for token in tokens].  Every turn consumes a token,
    so [fuel] larger than the length of the stream is never used up. *)
Fixpoint collect (fuel : nat) (tokens : list Token) (c : collection)
  : option (result failure collection) :=
  match tokens with
  | [] => match ending with
          | Some (line, col) => Some (Err (LexingError line col))
          | None => Some (Ok c)
          end
  | token :: rest =>
      match fuel with
      | O => None
      | S fuel' =>
          match collect_token token rest c with
          | Err e => Some (Err e)
          | Ok (rest', c') => collect fuel' rest' c'
          end
      end
  end.

End Stream.

Definition parse_argument_token (token : Token) (labels : gmap string Z)
  : result failure argument :=
  match name token with
  | NUMBER => match py_int (value token) with
              | Some z => Ok (AInt z)
              | None => Err (Raised (ValueError (value token)))
              end
  | NAME => match labels !! value token with
            | None => error token (UndefinedLabel (value token))
            | Some index => Ok (AInt index)
            end
  | _ => Ok (AStr (value token))
  end.

Definition parse_instruction (labels : gmap string Z) (debug : bool)
    (raw : Token * list Token) : result failure (instruction * list warning) :=
  let '(instruction_name_token, instruction_args_tokens) := raw in
  let instruction_name := value instruction_name_token in
  match Binary.mapM (fun t => parse_argument_token t labels) instruction_args_tokens with
  | Err e => Err e
  | Ok instruction_args =>
      match instruction_args, instruction_args_tokens with
      | first_argument :: _, first_token :: _ =>
          let w :=
            match first_argument with
            | AInt z =>
                if mem_string instruction_name ASSIGNMENT_INSTRUCTIONS && (z <=? 11)
                then [ReservedAssignment (lineno first_token) (colno first_token)]
                else []
            | AStr _ => []
            end in
          Ok (Instruction instruction_name instruction_args
                (if debug then Some (lineno instruction_name_token - 1) else None), w)
      | _, _ => Err (Raised IndexError)
      end
  end.

(** The second loop, over [raw_instructions]. *)
Fixpoint parse_instructions (labels : gmap string Z) (debug : bool)
    (raws : list (Token * list Token)) : result failure (list instruction * list warning) :=
  match raws with
  | [] => Ok ([], [])
  | raw :: rest =>
      match parse_instruction labels debug raw with
      | Err e => Err e
      | Ok (i, w) =>
          match parse_instructions labels debug rest with
          | Err e => Err e
          | Ok (is_, ws) => Ok (i :: is_, w ++ ws)
          end
      end
  end.

Definition initial (compiler_state : AssemblerState) : collection :=
  Collection compiler_state META_VARIABLES ∅ [] 0 [].

(** [assemble_tokens]: the program and the warnings printed, oldest first. *)
Definition assemble_tokens (tokens : list Token) (ending : option (Z * Z))
    (source_lines : list string) (compiler_state : AssemblerState) (debug : bool)
  : result failure (program * list warning) :=
  match collect ending (S (length tokens)) tokens (initial compiler_state) with
  | None => Err (Raised StopIteration)     (* not reached, see [collect_total] *)
  | Some (Err e) => Err e
  | Some (Ok c) =>
      match parse_instructions (labels c) debug (raw_instructions c) with
      | Err e => Err e
      | Ok (instructions, ws) =>
          Ok (Program (meta c) instructions
                (labels c !! "start")
                (labels c !! "tick")
                None
                (if debug then Some source_lines else None)
                None,
              warnings c ++ ws ++
              match labels c !! "tick" with Some _ => [] | None => [TickNotFound] end)
      end
  end.

(** What [assemble] writes to the output file. *)
Inductive output : Type :=
| Json (output_json : program)
| G1b (file_content : list Byte.byte).

Inductive assemble_error : Type :=
| Assembly (e : failure)
| DataException (e : py_exception)
| Encoding (e : Binary.decode_error).

Section WithFiles.

Variable files : string -> option string.
Variable image_open : string -> option Data.Image.

(** [assemble]: the content of the output file together with the
    warnings and data messages printed on the way. *)
Definition assemble (input_path : string) (data_file_path : option string)
    (debug : bool) (output_format : string)
  : result assemble_error (output * list warning * list Data.data_message) :=
  match files input_path with
  | None => Err (Assembly (Raised (FileNotFoundError input_path)))
  | Some source_code =>
      let source_lines := Data.split_lines source_code in
      let '(tokens, ending) := lex (source_code ++ String newline EmptyString) in
      match assemble_tokens tokens ending source_lines META debug with
      | Err (LexingError line col) => Err (Assembly (Fatal UnrecognizedToken line col))
      | Err e => Err (Assembly e)
      | Ok (output_json, ws) =>
          let attached :=
            match data_file_path with
            | Some path =>
                match files path with
                | Some content =>
                    match Data.parse_data files image_open content
                            (meta_memory (p_meta output_json)) with
                    | Err e => Err (DataException e)
                    | Ok (msgs, data) =>
                        Ok (Program (p_meta output_json) (p_instructions output_json)
                              (p_start output_json) (p_tick output_json)
                              (Some data) (p_source output_json)
                              (p_data_entry_count output_json), msgs)
                    end
                | None => Ok (output_json, [])
                end
            | None => Ok (output_json, [])
            end in
          match attached with
          | Err e => Err e
          | Ok (output_json', msgs) =>
              if String.eqb output_format "json" then Ok (Json output_json', ws, msgs)
              else match Binary.encode output_json' with
                   | Err e => Err (Encoding e)
                   | Ok file_content => Ok (G1b file_content, ws, msgs)
                   end
          end
      end
  end.

End WithFiles.

End Assembler.

(** ** g1/virtual_machine/g1.py *)

Module VM.

(** What the rendering collaborator (pygame) is asked to draw. *)
Inductive draw_call : Type :=
| SetAt (x y : Z) (c : Z * Z * Z)
| DrawLine (c : Z * Z * Z) (x0 y0 x1 y1 : Z)
| DrawRect (c : Z * Z * Z) (x y w h : Z).

Record ProgramContext : Type := NewContext {
  program_data : program;
  memory : list Z;
  program_counter : Z;
  color : Z * Z * Z;
  surface : list draw_call;   (* calls made on [surface], oldest first *)
  stdout : list Z             (* values printed by [log], oldest first *)
}.

Definition set_memory (c : ProgramContext) (m : list Z) : ProgramContext :=
  NewContext (program_data c) m (program_counter c) (color c) (surface c) (stdout c).
Definition set_program_counter (c : ProgramContext) (pc : Z) : ProgramContext :=
  NewContext (program_data c) (memory c) pc (color c) (surface c) (stdout c).
Definition set_color (c : ProgramContext) (k : Z * Z * Z) : ProgramContext :=
  NewContext (program_data c) (memory c) (program_counter c) k (surface c) (stdout c).
Definition draw (c : ProgramContext) (d : draw_call) : ProgramContext :=
  NewContext (program_data c) (memory c) (program_counter c) (color c) (surface c ++ [d]) (stdout c).
Definition print (c : ProgramContext) (v : Z) : ProgramContext :=
  NewContext (program_data c) (memory c) (program_counter c) (color c) (surface c) (stdout c ++ [v]).

(** The messages [error] is called with. *)
Inductive runtime_error : Type :=
| GetOutOfBounds (index : Z)
| SetOutOfBounds (index : Z)
| DivisionByZero.

(** How a run stops abnormally: [error] ([sys.exit] after the message
    RUNTIME ERROR and, in debug mode, the source line); [error] again, when
    printing the source line raises an exception after the message was
    printed; the exception raised by the constructor of [ProgramContext];
    or an exception Python raises by itself. *)
Inductive fault : Type :=
| RuntimeError (msg : runtime_error)
| ErrorRaised (msg : runtime_error) (e : py_exception)
| G1PyException (address upper_bound amount_memory : Z)
| Uncaught (e : py_exception).

(** [ProgramContext.__init__].  The exception is kept as the three
    numbers its message is made of; the formatting of the message is not
    part of this function. *)
Fixpoint load_data (amount_memory : Z) (mem : list Z) (entries : list data_entry)
  : result fault (list Z) :=
  match entries with
  | [] => Ok mem
  | (address, data_numbers) :: rest =>
      let upper_bound := address + Z.of_nat (length data_numbers) in
      if amount_memory <? upper_bound
      then Err (G1PyException address upper_bound amount_memory)
      else load_data amount_memory
             (py_slice_assign mem address upper_bound data_numbers) rest
  end.

Definition new_ProgramContext (pd : program) (data : option (list data_entry))
  : result fault ProgramContext :=
  let amount_memory := meta_memory (p_meta pd) in
  let mem := replicate (Z.to_nat amount_memory) 0 in
  match (match data with
         | Some entries => load_data amount_memory mem entries
         | None => Ok mem
         end) with
  | Ok mem' => Ok (NewContext pd mem' 0 (0, 0, 0) [] [])
  | Err e => Err e
  end.

(** Instructions run in a state-and-exception monad: the context is
    mutated in place and survives a fault. *)
Definition M (A : Type) : Type := ProgramContext -> result fault A * ProgramContext.

Definition ret {A} (a : A) : M A := fun c => (Ok a, c).
Definition bind {A B} (m : M A) (f : A -> M B) : M B :=
  fun c => match m c with
           | (Ok a, c') => f a c'
           | (Err e, c') => (Err e, c')
           end.
Definition raise {A} (e : fault) : M A := fun c => (Err e, c).
Definition update (f : ProgramContext -> ProgramContext) : M unit :=
  fun c => (Ok tt, f c).

#[local] Instance M_ret : MRet M := @ret.
#[local] Instance M_bind : MBind M := fun A B f m => bind m f.

(** The source line [error] prints when the program has the key
    ['source']: [instructions[program_counter][2]] is the line number, and
    the f-string formats [line_number+1] and [source_lines[line_number]]. *)
Definition source_line (c : ProgramContext) : result py_exception (option string) :=
  match p_source (program_data c) with
  | None => Ok None
  | Some source_lines =>
      match py_index (p_instructions (program_data c)) (program_counter c) with
      | Err e => Err e
      | Ok ins =>
          match ins_line ins with
          | None => Err IndexError
          | Some line_number =>
              match py_str (line_number + 1) with
              | None => Err (ValueError (numeral (line_number + 1)))
              | Some _ =>
                  match py_index source_lines line_number with
                  | Err e => Err e
                  | Ok text => Ok (Some text)
                  end
              end
          end
      end
  end.

(** [error]: prints the message, then the source line when there is
    one, and calls [sys.exit]. *)
Definition error {A} (message : runtime_error) : M A := fun c =>
  match source_line c with
  | Ok _ => (Err (RuntimeError message), c)
  | Err e => (Err (ErrorRaised message e), c)
  end.

Definition out_of_bounds (c : ProgramContext) (index : Z) : bool :=
  (index <? 0) || (Z.of_nat (length (memory c)) <=? index).

(** The f-string of a message that names an index: [str(index)]. *)
Definition format_index {A} (index : Z) (k : M A) : M A :=
  match py_str index with
  | Some _ => k
  | None => raise (Uncaught (ValueError (numeral index)))
  end.

Definition memget (index : Z) : M Z := fun c =>
  if out_of_bounds c index then format_index index (error (GetOutOfBounds index)) c
  else match memory c !! Z.to_nat index with
       | Some v => (Ok v, c)
       | None => (Err (Uncaught IndexError), c)
       end.

Definition memset (index value : Z) : M unit := fun c =>
  if out_of_bounds c index then format_index index (error (SetOutOfBounds index)) c
  else (Ok tt, set_memory c (<[Z.to_nat index := value]> (memory c))).

(** [memget(program_context, int(arg[1:])) if isinstance(arg, str) else arg] *)
Definition parse_argument (arg : argument) : M Z :=
  match arg with
  | AInt z => ret z
  | AStr s => match py_int (tail_str s) with
              | Some index => memget index
              | None => raise (Uncaught (ValueError (tail_str s)))
              end
  end.

Fixpoint parse_arguments (args : list argument) : M (list Z) :=
  match args with
  | [] => ret []
  | arg :: rest =>
      v ← parse_argument arg;
      vs ← parse_arguments rest;
      ret (v :: vs)
  end.

(** [args[i]] for a constant [i >= 0]. *)
Definition at_ (args : list Z) (i : nat) : M Z :=
  match args !! i with
  | Some v => ret v
  | None => raise (Uncaught IndexError)
  end.

Definition int_of_bool (b : bool) : Z := if b then 1 else 0.

Definition ins_mov (args : list Z) : M (option Z) :=
  a0 ← at_ args 0; a1 ← at_ args 1;
  memset a0 a1 ;; ret None.

Definition ins_movp (args : list Z) : M (option Z) :=
  a0 ← at_ args 0; a1 ← at_ args 1;
  v ← memget a1;
  memset a0 v ;; ret None.

Definition ins_add (args : list Z) : M (option Z) :=
  a0 ← at_ args 0; a1 ← at_ args 1; a2 ← at_ args 2;
  memset a0 (a1 + a2) ;; ret None.

Definition ins_sub (args : list Z) : M (option Z) :=
  a0 ← at_ args 0; a1 ← at_ args 1; a2 ← at_ args 2;
  memset a0 (a1 - a2) ;; ret None.

Definition ins_mul (args : list Z) : M (option Z) :=
  a0 ← at_ args 0; a1 ← at_ args 1; a2 ← at_ args 2;
  memset a0 (a1 * a2) ;; ret None.

(** [//] and [%] are floor division and its remainder: [Z.div], [Z.modulo]. *)
Definition ins_div (args : list Z) : M (option Z) :=
  a2 ← at_ args 2;
  (if a2 =? 0 then error DivisionByZero else ret tt) ;;
  a0 ← at_ args 0; a1 ← at_ args 1;
  memset a0 (a1 / a2) ;; ret None.

Definition ins_mod (args : list Z) : M (option Z) :=
  a2 ← at_ args 2;
  (if a2 =? 0 then error DivisionByZero else ret tt) ;;
  a0 ← at_ args 0; a1 ← at_ args 1;
  memset a0 (a1 mod a2) ;; ret None.

Definition ins_less (args : list Z) : M (option Z) :=
  a0 ← at_ args 0; a1 ← at_ args 1; a2 ← at_ args 2;
  memset a0 (int_of_bool (a1 <? a2)) ;; ret None.

Definition ins_equal (args : list Z) : M (option Z) :=
  a0 ← at_ args 0; a1 ← at_ args 1; a2 ← at_ args 2;
  memset a0 (int_of_bool (a1 =? a2)) ;; ret None.

Definition ins_not (args : list Z) : M (option Z) :=
  a0 ← at_ args 0; a1 ← at_ args 1;
  memset a0 (int_of_bool (a1 =? 0)) ;; ret None.

(** [if args[1]: return args[0]]; otherwise the function returns [None]. *)
Definition ins_jmp (args : list Z) : M (option Z) :=
  a1 ← at_ args 1;
  if a1 =? 0 then ret None
  else a0 ← at_ args 0; ret (Some a0).

Definition ins_color (args : list Z) : M (option Z) :=
  a0 ← at_ args 0; a1 ← at_ args 1; a2 ← at_ args 2;
  update (fun c => set_color c (a0, a1, a2)) ;; ret None.

Definition ins_point (args : list Z) : M (option Z) :=
  a0 ← at_ args 0; a1 ← at_ args 1;
  update (fun c => draw c (SetAt a0 a1 (color c))) ;; ret None.

Definition ins_line (args : list Z) : M (option Z) :=
  a0 ← at_ args 0; a1 ← at_ args 1; a2 ← at_ args 2; a3 ← at_ args 3;
  update (fun c => draw c (DrawLine (color c) a0 a1 a2 a3)) ;; ret None.

Definition ins_rect (args : list Z) : M (option Z) :=
  a0 ← at_ args 0; a1 ← at_ args 1; a2 ← at_ args 2; a3 ← at_ args 3;
  update (fun c => draw c (DrawRect (color c) a0 a1 a2 a3)) ;; ret None.

(** [print(args[0])] converts with [str]. *)
Definition ins_log (args : list Z) : M (option Z) :=
  a0 ← at_ args 0;
  match py_str a0 with
  | Some _ => update (fun c => print c a0)
  | None => raise (Uncaught (ValueError (numeral a0)))
  end ;; ret None.

Definition INSTRUCTION_FUNCTIONS : list (list Z -> M (option Z)) :=
  [ins_mov; ins_movp;
   ins_add; ins_sub; ins_mul; ins_div; ins_mod;
   ins_less; ins_equal; ins_not;
   ins_jmp;
   ins_color; ins_point; ins_line; ins_rect;
   ins_log].

Definition INSTRUCTION_LOOKUP : gmap string (list Z -> M (option Z)) :=
  list_to_map (zip Instructions.INSTRUCTIONS INSTRUCTION_FUNCTIONS).

(** One turn of the [while] loop of [start_program_thread], entered with
    [program_counter < len(instructions)].  The interactive step mode
    ([step=True]) only prints and reads commands; it is not modelled. *)
Definition cycle (disable_log : bool) : M unit := fun c =>
  match py_index (p_instructions (program_data c)) (program_counter c) with
  | Err e => (Err (Uncaught e), c)
  | Ok ins =>
      if disable_log && String.eqb (ins_name ins) "log"
      then (Ok tt, set_program_counter c (program_counter c + 1))
      else
        (parsed_arguments ← parse_arguments (ins_args ins);
         new_program_counter ←
           match INSTRUCTION_LOOKUP !! ins_name ins with
           | Some f => f parsed_arguments
           | None => raise (Uncaught (KeyError (ins_name ins)))
           end;
         update (fun c' =>
           match new_program_counter with
           | Some pc => set_program_counter c' pc
           | None => set_program_counter c' (program_counter c' + 1)
           end)) c
  end.

(** The [while] loop; [None] when [fuel] turns were not enough. *)
Fixpoint run_loop (fuel : nat) (disable_log : bool) (c : ProgramContext)
  : option (result fault unit * ProgramContext) :=
  if Z.of_nat (length (p_instructions (program_data c))) <=? program_counter c
  then Some (Ok tt, c)
  else match fuel with
       | O => None
       | S fuel' =>
           match cycle disable_log c with
           | (Ok _, c') => run_loop fuel' disable_log c'
           | (Err e, c') => Some (Err e, c')
           end
       end.

Definition start_program_thread (fuel : nat) (c : ProgramContext) (index : Z)
    (disable_log : bool) : option (result fault unit * ProgramContext) :=
  run_loop fuel disable_log (set_program_counter c index).

(** The eight keys read from [pygame.key.get_pressed()], in the order
    RETURN, RSHIFT, z, x, UP, DOWN, LEFT, RIGHT. *)
Record keys_pressed : Type := Keys {
  K_RETURN : bool; K_RSHIFT : bool; K_z : bool; K_x : bool;
  K_UP : bool; K_DOWN : bool; K_LEFT : bool; K_RIGHT : bool
}.

Definition reserved_values (m : meta_variables) (keys : keys_pressed) (delta_ms : Z)
  : list Z :=
  [int_of_bool (K_RETURN keys);
   int_of_bool (K_RSHIFT keys);
   int_of_bool (K_z keys);
   int_of_bool (K_x keys);
   int_of_bool (K_UP keys);
   int_of_bool (K_DOWN keys);
   int_of_bool (K_LEFT keys);
   int_of_bool (K_RIGHT keys);
   meta_memory m;
   meta_width m;
   meta_height m;
   meta_tickrate m;
   delta_ms].

Definition update_reserved_memory (c : ProgramContext) (keys : keys_pressed)
    (delta_ms : Z) : ProgramContext :=
  let values := reserved_values (p_meta (program_data c)) keys delta_ms in
  set_memory c (py_slice_assign (memory c) 0 (Z.of_nat (length values)) values).

(** The two entries of [run] into the machine: the start phase, entered
    once when the program has a ['start'] key, and one frame of the tick
    loop.  Both update the reserved cells right before the thread starts;
    the start phase passes 0 for [delta_ms]. *)
Definition run_start (fuel : nat) (c : ProgramContext) (keys : keys_pressed)
    (disable_log : bool) : option (result fault unit * ProgramContext) :=
  match p_start (program_data c) with
  | Some index =>
      start_program_thread fuel (update_reserved_memory c keys 0) index disable_log
  | None => Some (Ok tt, c)
  end.

Definition run_tick (fuel : nat) (c : ProgramContext) (keys : keys_pressed)
    (delta_ms : Z) (disable_log : bool) : option (result fault unit * ProgramContext) :=
  match p_tick (program_data c) with
  | Some tick_label_index =>
      start_program_thread fuel (update_reserved_memory c keys delta_ms)
        tick_label_index disable_log
  | None => Some (Ok tt, c)
  end.

End VM.

(** ** The pipeline on a source text

    [assemble] up to the point where data is attached, and a run of the
    machine from a given instruction index. *)

Module Pipeline.

Definition nl : string := String Lexer.newline EmptyString.

(** The lines of a source file, joined with newlines. *)
Fixpoint unlines (lines : list string) : string :=
  match lines with
  | [] => EmptyString
  | [l] => l
  | l :: ls => (l ++ nl ++ unlines ls)%string
  end.

Definition assemble_source (source_code : string) (debug : bool)
  : result Assembler.failure (program * list Assembler.warning) :=
  let '(tokens, ending) := Lexer.lex (source_code ++ nl) in
  Assembler.assemble_tokens tokens ending (Data.split_lines source_code)
    Assembler.META debug.

(** [start_program_thread] from [index] on the context [run] makes for
    the program; [None] when [fuel] turns were not enough or the context
    could not be made. *)
Definition execute (fuel : nat) (p : program) (index : Z)
  : option (result VM.fault unit * VM.ProgramContext) :=
  match VM.new_ProgramContext p (default None (p_data p)) with
  | Ok c => VM.start_program_thread fuel c index false
  | Err e => None
  end.

End Pipeline.

(** ** Concrete programs and contexts used below *)

Module Examples.

Import Pipeline.

Definition fresh_context (p : program) : VM.ProgramContext :=
  VM.NewContext p (replicate (Z.to_nat (meta_memory (p_meta p))) 0) 0 (0, 0, 0) [] [].

Definition one_instruction (i : instruction) : program :=
  Program Assembler.META_VARIABLES [i] None None None None None.

Definition jmp (target cond : Z) : instruction :=
  Instruction "jmp" [AInt target; AInt cond] None.

(** [div $0 10 0] *)
Definition div_by_zero : instruction :=
  Instruction "div" [AStr "$0"; AInt 10; AInt 0] None.

(** Five instructions with [jmp 0 cond] at index 3, and the context of
    a run of a program that has come to the instruction at [index]. *)
Definition jump_at_three (cond : Z) : program :=
  Program Assembler.META_VARIABLES
    [Instruction "mov" [AInt 20; AInt 1] None;
     Instruction "mov" [AInt 21; AInt 2] None;
     Instruction "mov" [AInt 22; AInt 3] None;
     jmp 0 cond;
     Instruction "mov" [AInt 23; AInt 4] None]
    None None None None None.

Definition at_index (p : program) (index : Z) : VM.ProgramContext :=
  VM.set_program_counter (fresh_context p) index.

(** A hand-written program with the key ['source'] whose instruction has
    no line number. *)
Definition div_without_line : program :=
  Program Assembler.META_VARIABLES [div_by_zero] None None None
    (Some ["div 0 10 0"]) None.

(** A tick routine that prints the cells 2, 9 and 12, and the keyboard
    with only the key [z] held down. *)
Definition log_reserved : program :=
  Program (Meta 128 100 80 60)
    [Instruction "log" [AStr "$2"] None;
     Instruction "log" [AStr "$9"] None;
     Instruction "log" [AStr "$12"] None;
     Instruction "log" [AStr "$13"] None]
    None (Some 0) None None None.

Definition z_held : VM.keys_pressed :=
  VM.Keys false false true false false false false false.

(** [mov 20 $007]: the assembler keeps the text of the address token. *)
Definition padded_address : program :=
  Program Assembler.META_VARIABLES
    [Instruction "mov" [AInt 20; AStr "$007"] None]
    None None None None None.

(** [mov $5 10] then [mov $6 $5], and the same with literal destinations. *)
Definition mov_address_destinations : string := unlines ["mov $5 10"; "mov $6 $5"].
Definition mov_literal_destinations : string := unlines ["mov 5 10"; "mov 6 $5"].

(** The memory a source text leaves when it is assembled and run from
    instruction 0 to the end. *)
Definition final_memory (fuel : nat) (source_code : string) : option (list Z) :=
  match assemble_source source_code false with
  | Ok (p, _) =>
      match execute fuel p 0 with
      | Some (Ok _, c) => Some (VM.memory c)
      | _ => None
      end
  | Err _ => None
  end.

(** A meta variable after an instruction, and overridden twice. *)
Definition meta_after_instruction : string :=
  unlines ["log 1"; "#memory 256"; "#memory 300"].

(** A meta variable after a label. *)
Definition meta_after_label : string := unlines ["a:"; "#memory 5"].

(** A jump to a label declared further down, and one to no label. *)
Definition forward_reference : string := unlines ["jmp end 1"; "log 1"; "end:"].
Definition undefined_reference : string := unlines ["a:"; "jmp b 1"].

Definition tokens_of (source_code : string) : list Lexer.Token :=
  fst (Lexer.lex (source_code ++ nl)).

(** A file system with a program, a ten-byte file and three data files:
    one with a bad hexadecimal payload after a good line, one with an
    entry of type [F] that ends beyond the memory, one with the same entry
    of type [f]. *)
Definition files (path : string) : option string :=
  if String.eqb path "prog.g1" then Some (unlines ["tick:"; "log 1"])
  else if String.eqb path "ten.bin" then Some "0123456789"
  else if String.eqb path "bad.g1d" then Some (unlines ["20 b 0102"; "30 b zz"])
  else if String.eqb path "raw.g1d" then Some "120 F ten.bin"
  else if String.eqb path "checked.g1d" then Some "120 f ten.bin"
  else None.

Definition no_images (file_bytes : string) : option Data.Image := None.

(** A debug-mode program with a literal, an address spelled with leading
    zeros, an entry index and one data entry. *)
Definition debug_program : program :=
  Program (Meta 128 100 100 60)
    [Instruction "mov" [AInt 20; AStr "$007"] (Some 1);
     Instruction "jmp" [AInt 0; AInt (-1)] (Some 2)]
    None (Some 0) (Some (Some [(3, [1; -2; 3])]))
    (Some ["tick:"; "mov 20 $007"; "jmp tick -1"]) None.

End Examples.

(** ** Positions reached by the first loop of [assemble_tokens]

    [reaches ending (ts, c) (ts', c')]: started on the stream [ts] with the
    variables [c], the loop comes, after some turns without error, to the
    head of a turn with the stream [ts'] and the variables [c']. *)

Module Trace.

Import Assembler.

Inductive reaches (ending : option (Z * Z))
  : list Lexer.Token * collection -> list Lexer.Token * collection -> Prop :=
| reaches_here s : reaches ending s s
| reaches_turn token rest c rest' c' s :
    collect_token ending token rest c = Ok (rest', c') ->
    reaches ending (rest', c') s ->
    reaches ending (token :: rest, c) s.

(** The outcome of the first loop of [assemble_tokens] on a stream. *)
Definition collected (tokens : list Lexer.Token) (ending : option (Z * Z))
    (compiler_state : AssemblerState) : option (result failure collection) :=
  collect ending (S (length tokens)) tokens (initial compiler_state).

(** A collected line has as many operand tokens as the arity table gives
    for its instruction name. *)
Definition table_arity (raw : Lexer.Token * list Lexer.Token) : Prop :=
  Instructions.ARGUMENT_COUNT_LOOKUP !! Lexer.value (fst raw) = Some (length (snd raw)).

(** The text of every NUMBER token among the operands is one [int]
    accepts, as the lexer's rule for numbers makes sure. *)
Definition numbers_well_formed (raws : list (Lexer.Token * list Lexer.Token)) : Prop :=
  Forall (fun raw =>
            Forall (fun t => Lexer.name t = Lexer.NUMBER -> py_int (Lexer.value t) <> None)
                   (snd raw)) raws.

(** A name among the operands that the label table does not hold. *)
Definition undefined_name (labels : gmap string Z) (t : Lexer.Token) : Prop :=
  Lexer.name t = Lexer.NAME /\ labels !! Lexer.value t = None.

End Trace.

(** ** Faults of a data line

    The ways a line of a data file can be wrong: it does not have the
    shape [address type payload]; its type is [b] and the payload is not a
    string of hexadecimal digit pairs; its type is [f] or [F] and the
    payload names no file; its type is [b], [s] or [f] and the entry ends
    beyond the memory. *)

Module DataFaults.

Import Data.

Section WithFiles.

Variable files : string -> option string.
Variable image_open : string -> option Image.
Variable memory_size : Z.

Inductive data_fault (line : string) : Prop :=
| Malformed :
    DATA_LINE_REGEX line = None -> data_fault line
| BadHex address_str payload :
    DATA_LINE_REGEX line = Some (address_str, "b"%char, payload) ->
    HEX_REGEX payload = false -> data_fault line
| MissingFile address_str data_type payload :
    DATA_LINE_REGEX line = Some (address_str, data_type, payload) ->
    data_type = "f"%char \/ data_type = "F"%char ->
    files payload = None -> data_fault line
| BytesBeyondMemory address_str payload address numbers :
    DATA_LINE_REGEX line = Some (address_str, "b"%char, payload) ->
    py_int address_str = Some address ->
    hex_pairs payload = Some numbers ->
    memory_size < address + Z.of_nat (length numbers) -> data_fault line
| StringBeyondMemory address_str payload address :
    DATA_LINE_REGEX line = Some (address_str, "s"%char, payload) ->
    py_int address_str = Some address ->
    memory_size < address + Z.of_nat (length (Z.of_nat (String.length payload) :: ords payload)) ->
    data_fault line
| FileBeyondMemory address_str payload address file_bytes numbers :
    DATA_LINE_REGEX line = Some (address_str, "f"%char, payload) ->
    py_int address_str = Some address ->
    files payload = Some file_bytes ->
    parse_file image_open file_bytes (splitext_ext payload) = Ok numbers ->
    memory_size < address + Z.of_nat (length numbers) -> data_fault line.

(** [parse_data] returned a list. *)
Definition loaded (r : result py_exception (list data_message * option (list data_entry)))
  : Prop :=
  exists msgs entries, r = Ok (msgs, Some entries).

End WithFiles.

End DataFaults.

(** ** Programs the binary format can hold

    A program is valid for the codec when every number fits the field
    that stores it and every instruction has a known name with the
    operand count of the arity table. *)

Module Codec.

Import Binary.

Definition fits (f : int_format) (v : Z) : Prop := in_range f v = true.

Definition valid_argument (a : argument) : Prop :=
  match a with
  | AInt z => fits Int32sb z
  | AStr s => exists v, py_int (tail_str s) = Some v /\ 0 <= v /\ fits Int32sb v
  end.

Definition valid_instruction (i : instruction) : Prop :=
  Instructions.ARGUMENT_COUNT_LOOKUP !! ins_name i = Some (length (ins_args i)) /\
  Forall valid_argument (ins_args i).

(** An entry index: unsigned, and stored in a signed field. *)
Definition valid_index (o : option Z) : Prop :=
  match o with
  | Some i => 0 <= i /\ fits Int32sb i
  | None => True
  end.

Definition valid_entry (e : data_entry) : Prop :=
  fits Int32ub (fst e) /\
  fits Int32ub (Z.of_nat (length (snd e))) /\
  Forall (fits Int32sb) (snd e).

Definition valid_data (d : option (option (list data_entry))) : Prop :=
  match d with
  | None => True
  | Some None => False
  | Some (Some entries) =>
      fits Int32ub (Z.of_nat (length entries)) /\ Forall valid_entry entries
  end.

Definition valid_meta (m : meta_variables) : Prop :=
  fits Int32ub (meta_memory m) /\ fits Int16ub (meta_width m) /\
  fits Int16ub (meta_height m) /\ fits Int16ub (meta_tickrate m).

Definition valid_program (p : program) : Prop :=
  valid_meta (p_meta p) /\
  valid_index (p_start p) /\
  valid_index (p_tick p) /\
  fits Int32ub (Z.of_nat (length (p_instructions p))) /\
  Forall valid_instruction (p_instructions p) /\
  valid_data (p_data p).

(** The operand an argument stands for: a literal, or the address whose
    number follows the [$]. *)
Inductive Operand : Type :=
| Literal (z : Z)
| Address (n : Z).

Definition operand_of (a : argument) : option Operand :=
  match a with
  | AInt z => Some (Literal z)
  | AStr s => option_map Address (py_int (tail_str s))
  end.

Definition data_entries (p : program) : list data_entry :=
  match p_data p with
  | Some (Some entries) => entries
  | _ => []
  end.

(** Equality of programs up to what the format does not keep: the source
    text and the line numbers are ignored, an empty data list and an
    absent one are the same, and arguments are compared as operands. *)
Definition same_program (p q : program) : Prop :=
  p_meta p = p_meta q /\
  p_start p = p_start q /\
  p_tick p = p_tick q /\
  Forall2 (fun i j => ins_name i = ins_name j /\
                      map operand_of (ins_args i) = map operand_of (ins_args j))
          (p_instructions p) (p_instructions q) /\
  data_entries p = data_entries q.

(** The program that decoding gives back: addresses are spelled as the
    decoder spells them, [$] and the decimal digits of the number. *)
Definition respell (a : argument) : argument :=
  match a with
  | AInt z => AInt z
  | AStr s => match py_int (tail_str s) with
              | Some v => AStr (String "$" (numeral v))
              | None => a
              end
  end.

Definition persisted_instruction (i : instruction) : instruction :=
  Instruction (ins_name i) (map respell (ins_args i)) None.

Definition persisted (p : program) : program :=
  Program (p_meta p)
    (map persisted_instruction (p_instructions p))
    (p_start p) (p_tick p)
    (match p_data p with
     | Some (Some (e :: entries)) => Some (Some (e :: entries))
     | _ => None
     end)
    None
    (match p_data p with
     | Some (Some (e :: entries)) => Some (Z.of_nat (length (e :: entries)))
     | _ => None
     end).

(** The input without its debug fields and with an empty data list
    dropped: what a round trip that is the identity up to these gives. *)
Definition stripped (p : program) : program :=
  Program (p_meta p)
    (map (fun i => Instruction (ins_name i) (ins_args i) None) (p_instructions p))
    (p_start p) (p_tick p)
    (match p_data p with
     | Some (Some (e :: entries)) => Some (Some (e :: entries))
     | _ => None
     end)
    None
    (p_data_entry_count p).

(** An address spelled [$] and the decimal digits of its number, without
    leading zeros. *)
Definition canonical_argument (a : argument) : Prop :=
  match a with
  | AInt _ => True
  | AStr s => exists v, s = String "$" (numeral v)
  end.

Definition canonical (p : program) : Prop :=
  Forall (fun i => Forall canonical_argument (ins_args i)) (p_instructions p).

End Codec.

(** ** Proof automation *)

(** Runs the monadic code of an instruction on a known argument list. *)
Ltac vm_run :=
  unfold VM.at_; cbn;
  unfold mbind, VM.M_bind, VM.bind, VM.ret, VM.error, VM.raise, VM.update; cbn.

(** ** Further notions used by the properties of the machine *)

Module Machine.

(** The program of [c] has no source text, or its instruction at the
    program counter carries the number of a line of that text (a number
    that [str] can print: less than 4301 digits): what [error] needs to
    print the source line. *)
Definition source_known (c : VM.ProgramContext) : Prop :=
  match p_source (VM.program_data c) with
  | None => True
  | Some source_lines =>
      exists ins line_number text,
        py_index (p_instructions (VM.program_data c)) (VM.program_counter c) = Ok ins /\
        ins_line ins = Some line_number /\
        Z.abs (line_number + 1) < 10 ^ 4300 /\
        py_index source_lines line_number = Ok text
  end.

Import VM.

(** A program without [jmp]. *)
Definition jump_free (p : program) : Prop :=
  Forall (fun i => ins_name i <> "jmp") (p_instructions p).

(** The cell [i] is one of those the data entry [e] is stored in. *)
Definition covers (e : data_entry) (i : Z) : Prop :=
  fst e <= i < fst e + Z.of_nat (length (snd e)).

(** The data entry [e] lies inside a memory of [amount_memory] cells. *)
Definition fits_memory (amount_memory : Z) (e : data_entry) : Prop :=
  0 <= fst e /\ fst e + Z.of_nat (length (snd e)) <= amount_memory.

(** An argument as the assembler writes it: a literal, or [$] followed
    by a number [int] accepts. *)
Definition well_formed_argument (a : argument) : Prop :=
  match a with
  | AInt _ => True
  | AStr s => py_int (tail_str s) <> None
  end.

(** The outcomes of a computation entered on [c] that come from the
    program and not from a malformed instruction: a result; a runtime
    error left through [sys.exit], the source line being printable; a
    runtime error whose source line cannot be printed, with the exception
    [error] then raises; the [ValueError] of [str] on an integer of more
    than 4300 digits. *)
Definition plain_outcome {A} (c : ProgramContext) (r : result fault A) : Prop :=
  match r with
  | Ok _ => True
  | Err (RuntimeError _) => source_known c
  | Err (ErrorRaised _ e) => ~ source_known c /\ source_line c = Err e
  | Err (Uncaught (ValueError text)) =>
      exists z, text = numeral z /\ 10 ^ 4300 <= Z.abs z
  | Err _ => False
  end.

(** The context with [s] in place of what was printed. *)
Definition put_stdout (s : list Z) (c : ProgramContext) : ProgramContext :=
  NewContext (program_data c) (memory c) (program_counter c) (color c) (surface c) s.

(** A computation that neither reads nor writes what was printed. *)
Definition stdout_blind {A} (m : M A) : Prop :=
  forall s c, m (put_stdout s c) = (fst (m c), put_stdout s (snd (m c))).

(** What the function of the instruction [name] can do to a context [c]:
    stop with a fault and leave [c] as it is; or, by kind of instruction,
    write one cell, return a jump target, set the colour, draw, print. *)
Inductive effect (name : string) (c : ProgramContext)
  : result fault (option Z) * ProgramContext -> Prop :=
| effect_fault e :
    effect name c (Err e, c)
| effect_write index value :
    Assembler.mem_string name Assembler.ASSIGNMENT_INSTRUCTIONS = true ->
    out_of_bounds c index = false ->
    effect name c (Ok None, set_memory c (<[Z.to_nat index := value]> (memory c)))
| effect_jump r :
    name = "jmp" ->
    effect name c (Ok r, c)
| effect_color k :
    name = "color" ->
    effect name c (Ok None, set_color c k)
| effect_draw d :
    name = "point" \/ name = "line" \/ name = "rect" ->
    effect name c (Ok None, draw c d)
| effect_print v :
    name = "log" ->
    effect name c (Ok None, print c v).

End Machine.

(** ** Further notions used by the properties of the assembler *)

Module Lexemes.

Import Lexer.

(** Every character of [w] satisfies [p]. *)
Definition all_chars (p : ascii -> bool) (w : string) : bool :=
  forallb p (list_ascii_of_string w).

(** The characters of a text [int] accepts: white space, digits,
    underscores and signs. *)
Definition literal_char (a : ascii) : bool :=
  is_space a || is_decimal a || Ascii.eqb a "_" || Ascii.eqb a "-" || Ascii.eqb a "+".

(** The number of digits of a NUMBER or ADDRESS token: the length of
    its text without the sign or the [$] in front. *)
Definition digit_count (t : Token) : nat :=
  match value t with
  | EmptyString => 0
  | String a d => if is_digit a then String.length (value t) else String.length d
  end.

(** What the rule of a token says about its text, for the four kinds of
    token whose text the assembler or the machine reads further: a number
    is an optional [-] and digits, an address [$] and digits, a meta
    variable [#] and letters, a label declaration ends with [:]. *)
Definition lexeme (t : Token) : Prop :=
  match name t with
  | NUMBER =>
      exists d, d <> EmptyString /\ all_chars is_digit d = true /\
                (value t = d \/ value t = String "-" d)
  | ADDRESS =>
      exists d, d <> EmptyString /\ all_chars is_digit d = true /\
                value t = String "$" d
  | META_VARIABLE =>
      exists a w, is_A_z a = true /\ value t = String "#" (String a w)
  | LABEL_NAME =>
      exists a w, value t = String a (w ++ ":")%string
  | _ => True
  end.

(** The text [s] is spelled by the tokens [ts], with single spaces
    between them where the text has some, up to the rest [rest] that is
    not read. *)
Inductive spelled : string -> list Token -> string -> Prop :=
| spelled_stop rest : spelled rest [] rest
| spelled_space s ts rest :
    spelled s ts rest -> spelled (String " " s) ts rest
| spelled_token t s ts rest :
    spelled s ts rest -> spelled (value t ++ s)%string (t :: ts) rest.

End Lexemes.

Module Spans.

(** The first and the last cell of a data entry, as [parse_data] computes
    them for the overlap warnings. *)
Definition span_of (e : data_entry) : Z * Z :=
  (fst e, fst e + Z.of_nat (length (snd e)) - 1).

(** [x] stands somewhere before [y] in [l]. *)
Fixpoint before {A} (x y : A) (l : list A) : Prop :=
  match l with
  | [] => False
  | h :: t => (h = x /\ y ∈ t) \/ before x y t
  end.

(** The spans are in the order of their first cells. *)
Fixpoint sorted_by_start (l : list (Z * Z)) : Prop :=
  match l with
  | [] => True
  | x :: l' => Forall (fun y => fst x <= fst y) l' /\ sorted_by_start l'
  end.

End Spans.

Module Comments.

Import Lexer.

Definition is_comment (t : Token) : bool := bool_decide (name t = COMMENT).

(** The stream without its comments. *)
Definition uncommented (tokens : list Token) : list Token :=
  List.filter (fun t => negb (is_comment t)) tokens.

(** No meta variable is directly followed by a comment. *)
Fixpoint meta_values_follow (tokens : list Token) : Prop :=
  match tokens with
  | [] => True
  | t :: rest =>
      (name t = META_VARIABLE ->
       match rest with
       | v :: _ => name v <> COMMENT
       | [] => True
       end) /\
      meta_values_follow rest
  end.

End Comments.

Module LabelTable.

Import Assembler.

(** The labels declared so far are indices between 0 and the number of
    instructions collected so far. *)
Definition labels_in_range (c : collection) : Prop :=
  instruction_index c = Z.of_nat (length (raw_instructions c)) /\
  map_Forall (fun _ index => 0 <= index <= instruction_index c) (labels c).

End LabelTable.

Module Wire.

(** The g1b file of a program that can be encoded. *)
Definition file_of (p : program) : list Byte.byte :=
  match Binary.encode p with
  | Ok file_content => file_content
  | Err _ => []
  end.

(** An instruction the machine can run without a Python exception: as
    many arguments as the arity table gives for its name, each a literal
    or a well-formed address. *)
Definition runnable (i : instruction) : Prop :=
  Instructions.ARGUMENT_COUNT_LOOKUP !! ins_name i = Some (length (ins_args i)) /\
  Forall Machine.well_formed_argument (ins_args i).

(** An entry point as it is read back: the index -1 stands for an
    absent one. *)
Definition read_back (o : option Z) : option Z :=
  match o with
  | Some i => if i =? -1 then None else Some i
  | None => None
  end.

(** The program a g1b file holds: addresses spelled by their numbers, no
    line numbers, no source, no empty data list, no entry point -1; with
    data, the number of its entries under ['data_entry_count']. *)
Definition decoded (p : program) : program :=
  Program (p_meta p)
    (map Codec.persisted_instruction (p_instructions p))
    (read_back (p_start p)) (read_back (p_tick p))
    (match p_data p with
     | Some (Some (e :: entries)) => Some (Some (e :: entries))
     | _ => None
     end)
    None
    (match p_data p with
     | Some (Some (e :: entries)) => Some (Z.of_nat (length (e :: entries)))
     | _ => None
     end).

(** What the fields of the format can hold. *)
Definition encodable_argument (a : argument) : Prop :=
  match a with
  | AInt z => Codec.fits Binary.Int32sb z
  | AStr s => exists v, py_int (tail_str s) = Some v /\ Codec.fits Binary.Int32sb v
  end.

Definition encodable_instruction (i : instruction) : Prop :=
  Instructions.ARGUMENT_COUNT_LOOKUP !! ins_name i = Some (length (ins_args i)) /\
  Forall encodable_argument (ins_args i).

Definition encodable (p : program) : Prop :=
  Codec.valid_meta (p_meta p) /\
  Codec.fits Binary.Int32sb (default (-1) (p_tick p)) /\
  Codec.fits Binary.Int32sb (default (-1) (p_start p)) /\
  Codec.fits Binary.Int32ub (Z.of_nat (length (p_instructions p))) /\
  Forall encodable_instruction (p_instructions p) /\
  Codec.valid_data (p_data p).

End Wire.

Module Debug.

(** The program without what the debug flag adds: the line numbers of
    the instructions and the source text. *)
Definition undebug (p : program) : program :=
  Program (p_meta p)
    (map (fun i => Instruction (ins_name i) (ins_args i) None) (p_instructions p))
    (p_start p) (p_tick p) (p_data p) None (p_data_entry_count p).

End Debug.

(** Runs the function of an instruction down to its outcomes. *)
Ltac run_instruction :=
  unfold VM.ins_mov, VM.ins_movp, VM.ins_add, VM.ins_sub, VM.ins_mul, VM.ins_div,
    VM.ins_mod, VM.ins_less, VM.ins_equal, VM.ins_not, VM.ins_jmp, VM.ins_color,
    VM.ins_point, VM.ins_line, VM.ins_rect, VM.ins_log,
    VM.at_, VM.memset, VM.memget, VM.format_index, VM.error, VM.raise, VM.update,
    mbind, VM.M_bind, VM.bind, mret, VM.M_ret, VM.ret;
  repeat (cbv beta;
          match goal with
          | |- context [match ?l !! ?k with _ => _ end] => destruct (l !! k) eqn:?
          | |- context [if VM.out_of_bounds ?c ?i then _ else _] =>
              destruct (VM.out_of_bounds c i) eqn:?
          | |- context [if ?x =? ?y then _ else _] => destruct (x =? y) eqn:?
          | |- context [match py_str ?x with _ => _ end] => destruct (py_str x) eqn:?
          | |- context [match VM.source_line ?c with _ => _ end] =>
              destruct (VM.source_line c) eqn:?
          end).

(** * Properties *)

(** ** Conversions between integers and their numerals *)

Section Conversions.

Lemma decimal_not_space a : is_decimal a = true -> is_space a = false.
Proof. destruct a as [[|] [|] [|] [|] [|] [|] [|] [|]]; vm_compute; congruence. Qed.

Lemma lstrip_clean a s : is_space a = false -> lstrip (String a s) = String a s.
Proof. intros H. cbn [lstrip]. rewrite H. reflexivity. Qed.

Lemma rstrip_head a s : is_space a = false -> exists r, rstrip (String a s) = String a r.
Proof.
  intros H. cbn [rstrip]. destruct (rstrip s) as [|b r].
  - rewrite H. eauto.
  - eauto.
Qed.

Lemma rstrip_clean s :
  forallb (fun a => negb (is_space a)) (list_ascii_of_string s) = true -> rstrip s = s.
Proof.
  induction s as [|a s IH]; [reflexivity|].
  cbn [list_ascii_of_string forallb rstrip]. intros H.
  apply andb_prop in H as [Ha Hs]. rewrite (IH Hs).
  destruct s; [|reflexivity].
  destruct (is_space a); [discriminate|reflexivity].
Qed.

Lemma decimals_no_space d :
  forallb is_decimal (list_ascii_of_string d) = true ->
  forallb (fun a => negb (is_space a)) (list_ascii_of_string d) = true.
Proof.
  induction d as [|a d IH]; [reflexivity|].
  cbn [list_ascii_of_string forallb]. intros H. apply andb_prop in H as [Ha Hd].
  rewrite (decimal_not_space a Ha), (IH Hd). reflexivity.
Qed.

Lemma digits_of_decimals d :
  forallb is_decimal (list_ascii_of_string d) = true ->
  digits_of true d = Some d /\ (d <> EmptyString -> digits_of false d = Some d).
Proof.
  induction d as [|a d IH]; [intros _; split; [reflexivity|congruence]|].
  cbn [list_ascii_of_string forallb digits_of]. intros H.
  apply andb_prop in H as [Ha Hd]. rewrite Ha.
  destruct (IH Hd) as [-> _]. split; reflexivity.
Qed.

Lemma uint_of_decimals d :
  forallb is_decimal (list_ascii_of_string d) = true ->
  exists u, NilEmpty.uint_of_string d = Some u.
Proof.
  induction d as [|a d IH]; [intros _; exists Decimal.Nil; reflexivity|].
  cbn [list_ascii_of_string forallb]. intros H. apply andb_prop in H as [Ha Hd].
  destruct (IH Hd) as [u Hu]. cbn [NilEmpty.uint_of_string]. rewrite Hu.
  destruct a as [[|] [|] [|] [|] [|] [|] [|] [|]]; try discriminate Ha; cbn; eauto.
Qed.

Lemma of_uint_nonneg u : 0 <= Z.of_uint u.
Proof. unfold Z.of_uint. apply N2Z.is_nonneg. Qed.

(** [int] on digits: the number they spell, unless they are more than
    the limit. *)
Lemma py_int_decimals d :
  d <> EmptyString -> forallb is_decimal (list_ascii_of_string d) = true ->
  exists u, NilEmpty.uint_of_string d = Some u /\
    py_int d = (if (int_max_str_digits <? String.length d)%nat then None
                else Some (Z.of_uint u)) /\
    py_int (String "-" d) = (if (int_max_str_digits <? String.length d)%nat then None
                             else Some (- Z.of_uint u)).
Proof.
  intros Hne Hd. destruct (uint_of_decimals d Hd) as [u Hu]. exists u.
  split; [exact Hu|].
  pose proof (rstrip_clean d (decimals_no_space d Hd)) as Hr.
  destruct (digits_of_decimals d Hd) as [_ Hdig]. specialize (Hdig Hne).
  destruct d as [|a d']; [congruence|].
  assert (Ha : is_decimal a = true).
  { cbn [list_ascii_of_string forallb] in Hd. apply andb_prop in Hd as [Ha _]. exact Ha. }
  pose proof (decimal_not_space a Ha) as Hsp.
  split.
  - unfold py_int. rewrite (lstrip_clean a d' Hsp), Hr.
    assert (Ascii.eqb a "-" = false /\ Ascii.eqb a "+" = false) as [-> ->].
    { destruct a as [[|] [|] [|] [|] [|] [|] [|] [|]]; try discriminate Ha; split; reflexivity. }
    rewrite Hdig, Hu. reflexivity.
  - unfold py_int. rewrite (lstrip_clean "-" (String a d') eq_refl).
    assert (rstrip (String "-" (String a d')) = String "-" (String a d')) as ->.
    { apply rstrip_clean. cbn [list_ascii_of_string forallb].
      change (list_ascii_of_string (String a d')) with (a :: list_ascii_of_string d').
      cbn [forallb]. rewrite Hsp.
      pose proof (decimals_no_space _ Hd) as H. cbn [list_ascii_of_string forallb] in H.
      apply andb_prop in H as [_ ->]. reflexivity. }
    cbn [Ascii.eqb Bool.eqb]. cbv iota. rewrite Hdig, Hu. reflexivity.
Qed.

Lemma string_of_uint_decimals u :
  forallb is_decimal (list_ascii_of_string (NilEmpty.string_of_uint u)) = true /\
  String.length (NilEmpty.string_of_uint u) = Decimal.nb_digits u.
Proof.
  induction u as [|u [IH1 IH2]|u [IH1 IH2]|u [IH1 IH2]|u [IH1 IH2]|u [IH1 IH2]
                  |u [IH1 IH2]|u [IH1 IH2]|u [IH1 IH2]|u [IH1 IH2]|u [IH1 IH2]];
    [split; reflexivity|..];
    cbn [NilEmpty.string_of_uint list_ascii_of_string forallb String.length Decimal.nb_digits];
    rewrite IH1, IH2; split; reflexivity.
Qed.

Lemma to_uint_not_nil p : Pos.to_uint p <> Decimal.Nil.
Proof. apply DecimalPos.Unsigned.to_uint_nonnil. Qed.

(** [int] reads the numeral of [v] back as [v], whenever [str] writes it. *)
Lemma py_int_numeral v : py_int (numeral v) = option_map (fun _ => v) (py_str v).
Proof.
  unfold py_str, numeral.
  assert (Hcase : exists u, u <> Decimal.Nil /\
            (Z.to_int v = Decimal.Pos u \/ Z.to_int v = Decimal.Neg u)).
  { destruct v as [|p|p]; cbn [Z.to_int].
    - exists (Decimal.D0 Decimal.Nil). split; [discriminate|left; reflexivity].
    - exists (Pos.to_uint p). split; [apply to_uint_not_nil|left; reflexivity].
    - exists (Pos.to_uint p). split; [apply to_uint_not_nil|right; reflexivity]. }
  destruct Hcase as (u & Hnil & Hu).
  pose proof (DecimalZ.of_to v) as Hv.
  destruct (string_of_uint_decimals u) as [Hd Hlen].
  assert (Hne : NilEmpty.string_of_uint u <> EmptyString).
  { destruct u; [congruence|discriminate..]. }
  destruct (py_int_decimals _ Hne Hd) as (u' & Hu' & Hpos & Hneg).
  rewrite NilEmpty.usu in Hu'. inversion Hu'; subst u'.
  rewrite Hlen in Hpos, Hneg.
  assert (Hz : NilZero.string_of_uint u = NilEmpty.string_of_uint u).
  { destruct u; [congruence|reflexivity..]. }
  destruct Hu as [Hu|Hu]; rewrite Hu in Hv |- *; cbn [NilZero.string_of_int];
    rewrite Hz.
  - rewrite Hpos. destruct (int_max_str_digits <? Decimal.nb_digits u)%nat;
      [reflexivity|]. cbn. f_equal. exact Hv.
  - rewrite Hneg. destruct (int_max_str_digits <? Decimal.nb_digits u)%nat;
      [reflexivity|]. cbn. f_equal. rewrite <- Hv. reflexivity.
Qed.

Lemma py_str_numeral v s : py_str v = Some s -> s = numeral v.
Proof.
  unfold py_str. destruct (Z.to_int v) as [d|d];
    destruct (int_max_str_digits <? Decimal.nb_digits d)%nat; congruence.
Qed.

(** What [str] writes, [int] reads back. *)
Lemma py_int_py_str v s : py_str v = Some s -> py_int s = Some v.
Proof.
  intros H. rewrite (py_str_numeral v s H), py_int_numeral, H. reflexivity.
Qed.

Lemma little_double_digits d :
  (Decimal.nb_digits (Decimal.Little.double d) <= S (Decimal.nb_digits d))%nat /\
  (Decimal.nb_digits (Decimal.Little.succ_double d) <= S (Decimal.nb_digits d))%nat.
Proof.
  induction d as [|d [IH1 IH2]|d [IH1 IH2]|d [IH1 IH2]|d [IH1 IH2]|d [IH1 IH2]
                  |d [IH1 IH2]|d [IH1 IH2]|d [IH1 IH2]|d [IH1 IH2]|d [IH1 IH2]];
    cbn [Decimal.Little.double Decimal.Little.succ_double Decimal.nb_digits]; lia.
Qed.

Lemma to_uint_digits p : (Decimal.nb_digits (Pos.to_uint p) <= Pos.size_nat p)%nat.
Proof.
  unfold Pos.to_uint. rewrite DecimalFacts.nb_digits_rev.
  induction p as [p IH|p IH|]; cbn [Pos.to_little_uint Pos.size_nat Decimal.nb_digits].
  - pose proof (proj2 (little_double_digits (Pos.to_little_uint p))). lia.
  - pose proof (proj1 (little_double_digits (Pos.to_little_uint p))). lia.
  - lia.
Qed.

Lemma size_nat_bound p : forall n, Z.pos p < 2 ^ Z.of_nat n -> (Pos.size_nat p <= n)%nat.
Proof.
  induction p as [p IH|p IH|]; intros n H; cbn [Pos.size_nat].
  - destruct n as [|n]; [cbn in H; lia|].
    rewrite Nat2Z.inj_succ, Z.pow_succ_r in H by lia.
    specialize (IH n). lia.
  - destruct n as [|n]; [cbn in H; lia|].
    rewrite Nat2Z.inj_succ, Z.pow_succ_r in H by lia.
    specialize (IH n). lia.
  - destruct n as [|n]; [cbn in H; lia|lia].
Qed.

(** [str] succeeds on every integer of at most 4300 binary digits. *)
Lemma py_str_small v :
  - 2 ^ 4300 < v < 2 ^ 4300 -> py_str v = Some (numeral v).
Proof.
  intros H. unfold py_str.
  assert (Hp : forall p, Z.pos p < 2 ^ 4300 ->
             (int_max_str_digits <? Decimal.nb_digits (Pos.to_uint p))%nat = false).
  { intros p Hlt. apply Nat.ltb_ge.
    pose proof (to_uint_digits p). pose proof (size_nat_bound p 4300 Hlt).
    unfold int_max_str_digits. lia. }
  destruct v as [|p|p]; cbn [Z.to_int].
  - reflexivity.
  - rewrite Hp by lia. reflexivity.
  - rewrite Hp by lia. reflexivity.
Qed.

(** The number of decimal digits and the size of a number. *)
Lemma of_uint_acc_bounds d : forall acc,
  Z.pos acc * 10 ^ Z.of_nat (Decimal.nb_digits d) <= Z.pos (Pos.of_uint_acc d acc) /\
  Z.pos (Pos.of_uint_acc d acc) < (Z.pos acc + 1) * 10 ^ Z.of_nat (Decimal.nb_digits d).
Proof.
  induction d as [|d IH|d IH|d IH|d IH|d IH|d IH|d IH|d IH|d IH|d IH]; intros acc;
    cbn [Pos.of_uint_acc Decimal.nb_digits];
    [rewrite Z.pow_0_r; lia|..];
    rewrite Nat2Z.inj_succ, Z.pow_succ_r by lia;
    assert (0 < 10 ^ Z.of_nat (Decimal.nb_digits d)) by (apply Z.pow_pos_nonneg; lia);
    match goal with
    | |- context [Pos.of_uint_acc d ?a] => destruct (IH a) as [Hlo Hhi]
    end;
    nia.
Qed.

Lemma to_uint_leading p :
  exists k d, Pos.to_uint p = d /\ (1 <= k <= 9)%positive /\
    Z.pos p = Z.pos (Pos.of_uint_acc (Decimal.del_head 1 d) k) /\
    Decimal.nb_digits d = S (Decimal.nb_digits (Decimal.del_head 1 d)).
Proof.
  pose proof (DecimalPos.Unsigned.of_to p) as Hof.
  pose proof (DecimalPos.Unsigned.to_of (Pos.to_uint p)) as Hto.
  rewrite Hof in Hto. cbn [N.to_uint] in Hto.
  destruct (Pos.to_uint p) as [|d|d|d|d|d|d|d|d|d|d] eqn:E;
    cbn [Pos.of_uint] in Hof; try discriminate Hof;
    try (inversion Hof as [Hp];
         match goal with
         | Hp : Pos.of_uint_acc d ?k = p |- _ =>
             exists k; eexists; split; [reflexivity|]; split; [lia|];
             split; [cbn [Decimal.del_head]; rewrite Hp; reflexivity|reflexivity]
         end).
  exfalso. unfold Decimal.unorm in Hto. cbn [Decimal.nzhead] in Hto.
  pose proof (DecimalFacts.nb_digits_nzhead d) as Hn.
  destruct (Decimal.nzhead d) eqn:Hz; try discriminate Hto.
  - inversion Hto; subst d. cbn in Hof. discriminate.
  - inversion Hto; subst. cbn [Decimal.nb_digits] in Hn. lia.
Qed.

Lemma to_uint_bounds p :
  10 ^ (Z.of_nat (Decimal.nb_digits (Pos.to_uint p)) - 1) <= Z.pos p /\
  Z.pos p < 10 ^ Z.of_nat (Decimal.nb_digits (Pos.to_uint p)).
Proof.
  destruct (to_uint_leading p) as (k & d & -> & Hk & -> & ->).
  destruct (of_uint_acc_bounds (Decimal.del_head 1 d) k) as [Hlo Hhi].
  rewrite Nat2Z.inj_succ.
  replace (Z.succ (Z.of_nat (Decimal.nb_digits (Decimal.del_head 1 d))) - 1)
    with (Z.of_nat (Decimal.nb_digits (Decimal.del_head 1 d))) by lia.
  rewrite Z.pow_succ_r by lia.
  assert (0 < 10 ^ Z.of_nat (Decimal.nb_digits (Decimal.del_head 1 d)))
    by (apply Z.pow_pos_nonneg; lia).
  nia.
Qed.

(** [str] refuses exactly the integers of more than 4300 digits: those
    from [10 ^ 4300] on in absolute value. *)
Lemma py_str_limit z : py_str z = None <-> 10 ^ 4300 <= Z.abs z.
Proof.
  assert (Hpos : 0 < 10 ^ 4300) by (apply Z.pow_pos_nonneg; lia).
  assert (Hp : forall p,
            (int_max_str_digits <? Decimal.nb_digits (Pos.to_uint p))%nat = true <->
            10 ^ 4300 <= Z.pos p).
  { intros p. destruct (to_uint_bounds p) as [Hlo Hhi].
    rewrite Nat.ltb_lt. unfold int_max_str_digits.
    set (n := Decimal.nb_digits (Pos.to_uint p)) in *. split.
    - intros Hn. apply Z.le_trans with (10 ^ (Z.of_nat n - 1)); [|exact Hlo].
      apply Z.pow_le_mono_r; lia.
    - intros Hz. assert (Hlt : 10 ^ 4300 < 10 ^ Z.of_nat n) by
        (eapply Z.le_lt_trans; eassumption).
      apply Z.pow_lt_mono_r_iff in Hlt; lia. }
  unfold py_str. destruct z as [|p|p]; cbn [Z.to_int].
  - change (Z.abs 0) with 0. split; [discriminate|]. intros H. exfalso.
    generalize dependent (10 ^ 4300). intros; lia.
  - change (Z.abs (Z.pos p)) with (Z.pos p). rewrite <- Hp.
    destruct (int_max_str_digits <? Decimal.nb_digits (Pos.to_uint p))%nat;
      split; congruence.
  - change (Z.abs (Z.neg p)) with (Z.pos p). rewrite <- Hp.
    destruct (int_max_str_digits <? Decimal.nb_digits (Pos.to_uint p))%nat;
      split; congruence.
Qed.

Lemma py_str_below z : Z.abs z < 10 ^ 4300 -> py_str z = Some (numeral z).
Proof.
  intros H. destruct (py_str z) as [s|] eqn:E.
  - rewrite (py_str_numeral z s E). reflexivity.
  - apply py_str_limit in E. generalize dependent (10 ^ 4300). intros; lia.
Qed.

(** [int] refuses a text that starts with a character that is no white
    space, no sign and no digit, and a text that holds a character that
    is no white space, no digit and no underscore after its first. *)
Lemma py_int_head a s :
  is_space a = false -> is_decimal a = false ->
  Ascii.eqb a "-" = false -> Ascii.eqb a "+" = false ->
  py_int (String a s) = None.
Proof.
  intros Hsp Hd Hm Hp. unfold py_int. rewrite (lstrip_clean a s Hsp).
  destruct (rstrip_head a s Hsp) as [r ->]. rewrite Hm, Hp.
  cbn [digits_of]. rewrite Hd, andb_false_r. reflexivity.
Qed.

Lemma digits_of_literal b s ds :
  digits_of b s = Some ds ->
  forallb Lexemes.literal_char (list_ascii_of_string s) = true.
Proof.
  revert b ds. induction s as [|a s IH]; intros b ds; [reflexivity|].
  cbn [digits_of list_ascii_of_string forallb]. unfold Lexemes.literal_char at 1.
  destruct (is_decimal a).
  - destruct (digits_of true s) eqn:E; [|discriminate]. intros _.
    rewrite (IH _ _ E), orb_true_r. reflexivity.
  - destruct (Ascii.eqb a "_"); [|discriminate]. destruct b; [|discriminate].
    intros E. rewrite (IH _ _ E), orb_true_r. reflexivity.
Qed.

Lemma lstrip_literal s :
  forallb Lexemes.literal_char (list_ascii_of_string (lstrip s)) = true ->
  forallb Lexemes.literal_char (list_ascii_of_string s) = true.
Proof.
  induction s as [|a s IH]; [reflexivity|].
  cbn [lstrip]. destruct (is_space a) eqn:Ha.
  - intros H. cbn [list_ascii_of_string forallb]. unfold Lexemes.literal_char at 1.
    rewrite Ha, (IH H). reflexivity.
  - exact id.
Qed.

Lemma rstrip_literal s :
  forallb Lexemes.literal_char (list_ascii_of_string (rstrip s)) = true ->
  forallb Lexemes.literal_char (list_ascii_of_string s) = true.
Proof.
  induction s as [|a s IH]; [reflexivity|].
  cbn [rstrip]. destruct (rstrip s) as [|b r] eqn:E.
  - destruct (is_space a) eqn:Ha.
    + intros _. cbn [list_ascii_of_string forallb]. unfold Lexemes.literal_char at 1.
      rewrite Ha, (IH eq_refl). reflexivity.
    + cbn [list_ascii_of_string forallb]. intros H. apply andb_prop in H as [-> _].
      rewrite (IH eq_refl). reflexivity.
  - cbn [list_ascii_of_string forallb]. intros H. apply andb_prop in H as [-> H].
    rewrite (IH H). reflexivity.
Qed.

Lemma py_int_literal s v :
  py_int s = Some v -> forallb Lexemes.literal_char (list_ascii_of_string s) = true.
Proof.
  unfold py_int. intros H. apply lstrip_literal, rstrip_literal.
  destruct (rstrip (lstrip s)) as [|a b]; [discriminate|].
  destruct (Ascii.eqb_spec a "-") as [->|_]; [|destruct (Ascii.eqb_spec a "+") as [->|_]].
  - destruct (digits_of false b) eqn:E; [|discriminate].
    cbn [list_ascii_of_string forallb]. rewrite (digits_of_literal _ _ _ E). reflexivity.
  - destruct (digits_of false b) eqn:E; [|discriminate].
    cbn [list_ascii_of_string forallb]. rewrite (digits_of_literal _ _ _ E). reflexivity.
  - destruct (digits_of false (String a b)) eqn:E; [|discriminate].
    exact (digits_of_literal _ _ _ E).
Qed.

Lemma py_int_colon w : py_int (w ++ ":") = None.
Proof.
  destruct (py_int (w ++ ":")) as [v|] eqn:E; [|reflexivity].
  apply py_int_literal in E. exfalso. revert E. clear.
  induction w as [|a w IH].
  - discriminate.
  - change (String a w ++ ":")%string with (String a (w ++ ":")).
    cbn [list_ascii_of_string forallb]. intros H. apply andb_prop in H as [_ H]. auto.
Qed.

(** The digits [int] accepts from the lexer's numbers spell a number
    that is not negative. *)
Lemma py_int_decimals_sign d n :
  d <> EmptyString -> forallb is_decimal (list_ascii_of_string d) = true ->
  (py_int d = Some n -> 0 <= n) /\ (py_int (String "-" d) = Some n -> n <= 0).
Proof.
  intros Hne Hd. destruct (py_int_decimals d Hne Hd) as (u & _ & -> & ->).
  pose proof (of_uint_nonneg u).
  destruct (int_max_str_digits <? String.length d)%nat; split; intros E;
    try discriminate; inversion E; lia.
Qed.

End Conversions.

(** ** The lexer *)

Section LexerFacts.

Import Lexer.

Lemma span_lengths p s :
  (String.length (fst (span p s)) + String.length (snd (span p s)))%nat = String.length s.
Proof.
  induction s as [|a s IH]; simpl; [reflexivity|].
  destruct (p a); [|reflexivity].
  destruct (span p s) as [w r]. simpl in *. lia.
Qed.

Lemma plus_shorter p s w r :
  plus p s = Some (w, r) -> (String.length r < String.length s)%nat.
Proof.
  unfold plus. pose proof (span_lengths p s) as H.
  destruct (span p s) as [[|a w'] r']; [discriminate|].
  intros E. inversion E; subst. simpl in H. lia.
Qed.

Lemma prefixed_shorter a p s w r :
  prefixed a (plus p s) = Some (w, r) -> (String.length r < String.length s)%nat.
Proof.
  unfold prefixed. destruct (plus p s) as [[w' r']|] eqn:E; [|discriminate].
  intros H. inversion H; subst. eapply plus_shorter; eassumption.
Qed.

(** Every rule consumes at least one character. *)
Lemma first_match_shorter s n w r :
  first_match rules s = Some (n, w, r) -> (String.length r < String.length s)%nat.
Proof.
  unfold rules, first_match.
  destruct (re_META_VARIABLE s) as [[w0 r0]|] eqn:E0.
  { intros H; inversion H; subst. unfold re_META_VARIABLE in E0.
    destruct s as [|a s]; [discriminate|].
    destruct (Ascii.eqb_spec a "#") as [->|Hne].
    - apply prefixed_shorter in E0. simpl. lia.
    - destruct a as [[|] [|] [|] [|] [|] [|] [|] [|]]; try discriminate.
      contradiction Hne. reflexivity. }
  destruct (re_NUMBER s) as [[w1 r1]|] eqn:E1.
  { intros H; inversion H; subst. unfold re_NUMBER in E1.
    destruct s as [|a s]; [discriminate|].
    destruct (Ascii.eqb_spec a "-") as [->|Hne].
    - apply prefixed_shorter in E1. simpl. lia.
    - assert (E : plus is_digit (String a s) = Some (w, r)).
      { destruct a as [[|] [|] [|] [|] [|] [|] [|] [|]]; try exact E1.
        contradiction Hne. reflexivity. }
      apply plus_shorter in E. exact E. }
  destruct (re_ADDRESS s) as [[w2 r2]|] eqn:E2.
  { intros H; inversion H; subst. unfold re_ADDRESS in E2.
    destruct s as [|a s]; [discriminate|].
    destruct (Ascii.eqb_spec a "$") as [->|Hne].
    - apply prefixed_shorter in E2. simpl. lia.
    - destruct a as [[|] [|] [|] [|] [|] [|] [|] [|]]; try discriminate.
      contradiction Hne. reflexivity. }
  destruct (re_LABEL_NAME s) as [[w3 r3]|] eqn:E3.
  { intros H; inversion H; subst. unfold re_LABEL_NAME in E3.
    destruct (plus is_word s) as [[w' r']|] eqn:E; [|discriminate].
    apply plus_shorter in E.
    destruct r' as [|a r']; [discriminate|].
    destruct (Ascii.eqb_spec a ":") as [->|Hne].
    - inversion E3; subst. simpl in E. lia.
    - destruct a as [[|] [|] [|] [|] [|] [|] [|] [|]]; try discriminate.
      contradiction Hne. reflexivity. }
  destruct (re_NAME s) as [[w4 r4]|] eqn:E4.
  { intros H; inversion H; subst. unfold re_NAME in E4.
    destruct s as [|a s]; [discriminate|].
    destruct (is_A_z a || Ascii.eqb a "_"); [|discriminate].
    pose proof (span_lengths is_word s) as Hs.
    destruct (span is_word s) as [w' r']. inversion E4; subst. simpl in *. lia. }
  destruct (re_COMMENT s) as [[w5 r5]|] eqn:E5.
  { intros H; inversion H; subst. unfold re_COMMENT in E5.
    destruct s as [|a s]; [discriminate|].
    destruct (Ascii.eqb_spec a "(") as [->|Hne].
    - pose proof (span_lengths (fun a => negb (Ascii.eqb a ")")) s) as Hs.
      destruct (span (fun a => negb (Ascii.eqb a ")")) s) as [w' r'].
      destruct r' as [|b r']; [discriminate|].
      destruct (Ascii.eqb_spec b ")") as [->|Hne].
      + inversion E5; subst. simpl in *. lia.
      + destruct b as [[|] [|] [|] [|] [|] [|] [|] [|]]; try discriminate.
        contradiction Hne. reflexivity.
    - destruct a as [[|] [|] [|] [|] [|] [|] [|] [|]]; try discriminate.
      contradiction Hne. reflexivity. }
  destruct (re_NEWLINE s) as [[w6 r6]|] eqn:E6; [|discriminate].
  intros H; inversion H; subst. unfold re_NEWLINE in E6.
  destruct s as [|a s]; [discriminate|].
  destruct (Ascii.eqb a newline); [|discriminate].
  inversion E6; subst. simpl. lia.
Qed.

(** The tokens do not depend on the fuel, once it covers the text: [lex]
    never stops for lack of it. *)
Lemma lex_from_fuel f1 : forall f2 s line col last,
  (String.length s <= f1)%nat -> (String.length s <= f2)%nat ->
  lex_from f1 s line col last = lex_from f2 s line col last.
Proof.
  induction f1 as [|f1 IH]; intros f2 s line col last H1 H2.
  - destruct s; [|simpl in H1; lia]. destruct f2; reflexivity.
  - destruct s as [|a s]; [destruct f2; reflexivity|].
    destruct f2 as [|f2]; [simpl in H2; lia|].
    simpl in H1, H2.
    assert (Hspace : forall f, lex_from (S f) (String a s) line col last =
              if Ascii.eqb a " " then lex_from f s line (col + 1) last
              else match first_match rules (String a s) with
                   | None => ([], Some (line, last))
                   | Some (n, w, r) =>
                       let '(line', col') := advance w line col in
                       let '(ts, e) := lex_from f r line' col' col in
                       (Tok n w line col :: ts, e)
                   end).
    { intros f. destruct (Ascii.eqb_spec a " ") as [->|Hne]; [reflexivity|].
      destruct a as [[|] [|] [|] [|] [|] [|] [|] [|]]; try reflexivity.
      contradiction Hne. reflexivity. }
    rewrite !Hspace. destruct (Ascii.eqb a " "); [apply IH; lia|].
    destruct (first_match rules (String a s)) as [[[n w] r]|] eqn:E; [|reflexivity].
    apply first_match_shorter in E. simpl in E.
    destruct (advance w line col) as [line' col'].
    rewrite (IH f2 r line' col' col) by lia. reflexivity.
Qed.

End LexerFacts.

(** ** The virtual machine *)

Section VMFacts.

Import VM.

(** [error] stops with the message it was called with, and leaves the
    context as it is; it leaves through [sys.exit] when the source line
    can be printed, in particular when the program has no source. *)
Lemma error_cases {A} message c :
  (exists o, source_line c = Ok o /\
             @error A message c = (Err (RuntimeError message), c)) \/
  (exists e, source_line c = Err e /\
             @error A message c = (Err (ErrorRaised message e), c)).
Proof.
  unfold error. destruct (source_line c) as [o|e]; [left|right]; eauto.
Qed.

Lemma source_known_line c :
  Machine.source_known c <-> exists o, source_line c = Ok o.
Proof.
  unfold Machine.source_known, source_line.
  destruct (p_source (program_data c)) as [source_lines|]; [|split; eauto].
  split.
  - intros (ins & line_number & text & -> & -> & Hstr & ->).
    rewrite (py_str_below _ Hstr). eauto.
  - intros [o H].
    destruct (py_index (p_instructions (program_data c)) (program_counter c))
      as [ins|]; [|discriminate].
    destruct ins as [name args [line_number|]]; cbn in H |- *; [|discriminate].
    destruct (py_str (line_number + 1)) eqn:Hstr; [|discriminate].
    destruct (py_index source_lines line_number) as [text|] eqn:Htext; [|discriminate].
    exists (Instruction name args (Some line_number)), line_number, text.
    split; [reflexivity|]. split; [reflexivity|]. split; [|congruence].
    destruct (Z.lt_ge_cases (Z.abs (line_number + 1)) (10 ^ 4300)) as [Hlt|Hge];
      [exact Hlt|].
    apply py_str_limit in Hge. congruence.
Qed.

Lemma error_context {A} message c : snd (@error A message c) = c.
Proof. unfold error. destruct (source_line c); reflexivity. Qed.

Lemma format_index_context {A} index (k : M A) c :
  snd (k c) = c -> snd (format_index index k c) = c.
Proof. unfold format_index, raise. destruct (py_str index); [exact id|reflexivity]. Qed.

Lemma memget_context index c : snd (memget index c) = c.
Proof.
  unfold memget.
  destruct (out_of_bounds c index); [apply format_index_context, error_context|].
  destruct (memory c !! Z.to_nat index); reflexivity.
Qed.

Lemma parse_argument_context arg c : snd (parse_argument arg c) = c.
Proof.
  destruct arg as [z|s]; simpl; [reflexivity|].
  destruct (py_int (tail_str s)); [apply memget_context | reflexivity].
Qed.

Lemma parse_arguments_context args c : snd (parse_arguments args c) = c.
Proof.
  induction args as [|arg rest IH]; simpl; [reflexivity|].
  unfold mbind, M_bind, bind.
  pose proof (parse_argument_context arg c) as Ha.
  destruct (parse_argument arg c) as [[v|e] c1]; simpl in Ha; subst c1; [|reflexivity].
  pose proof IH as Hr.
  destruct (parse_arguments rest c) as [[vs|e] c2]; simpl in Hr; subst c2; reflexivity.
Qed.

Lemma parse_arguments_decoded args c vs :
  fst (parse_arguments args c) = Ok vs -> parse_arguments args c = (Ok vs, c).
Proof.
  intros H. pose proof (parse_arguments_context args c) as Hc.
  destruct (parse_arguments args c) as [r c']; simpl in *; congruence.
Qed.

Lemma py_index_bounds {A} (l : list A) i x :
  py_index l i = Ok x -> i < Z.of_nat (length l).
Proof.
  unfold py_index. intros H.
  destruct (i <? 0) eqn:Hi; [lia|].
  destruct ((i <? 0) || (Z.of_nat (length l) <=? i)) eqn:Hb; [discriminate|].
  apply orb_false_iff in Hb as [_ Hb]. lia.
Qed.


Lemma run_loop_turn fuel dl c :
  program_counter c < Z.of_nat (length (p_instructions (program_data c))) ->
  run_loop (S fuel) dl c =
  match cycle dl c with
  | (Ok _, c') => run_loop fuel dl c'
  | (Err e, c') => Some (Err e, c')
  end.
Proof.
  intros H. simpl.
  destruct (Z.of_nat (length (p_instructions (program_data c))) <=? program_counter c) eqn:E;
    [lia | reflexivity].
Qed.

(** The turn of the loop on an instruction whose arguments decode to [vs]
    and which is not skipped. *)
Lemma cycle_decoded dl c ins vs (f : list Z -> M (option Z)) :
  py_index (p_instructions (program_data c)) (program_counter c) = Ok ins ->
  String.eqb (ins_name ins) "log" = false ->
  fst (parse_arguments (ins_args ins) c) = Ok vs ->
  INSTRUCTION_LOOKUP !! ins_name ins = Some f ->
  cycle dl c =
  match f vs c with
  | (Ok (Some pc), c') => (Ok tt, set_program_counter c' pc)
  | (Ok None, c') => (Ok tt, set_program_counter c' (program_counter c' + 1))
  | (Err e, c') => (Err e, c')
  end.
Proof.
  intros Hfetch Hlog Hargs Hf. unfold cycle. rewrite Hfetch, Hlog, andb_false_r.
  unfold mbind, M_bind, bind. rewrite (parse_arguments_decoded _ _ _ Hargs).
  cbv beta iota. rewrite Hf.
  destruct (f vs c) as [[[pc|]|e] c']; reflexivity.
Qed.

End VMFacts.

(** The turn of the loop on a [jmp]. *)
Lemma jmp_cycle (disable_log : bool)
    (c : VM.ProgramContext) (ins : instruction) (target cond : Z) (more : list Z) :
  py_index (p_instructions (VM.program_data c)) (VM.program_counter c) = Ok ins ->
  ins_name ins = "jmp" ->
  fst (VM.parse_arguments (ins_args ins) c) = Ok (target :: cond :: more) ->
  VM.cycle disable_log c =
    (Ok tt, VM.set_program_counter c
              (if cond =? 0 then VM.program_counter c + 1 else target)).
Proof.
  intros Hfetch Hname Hargs.
  rewrite (cycle_decoded disable_log c ins (target :: cond :: more) VM.ins_jmp Hfetch);
    [| rewrite Hname; reflexivity | exact Hargs | rewrite Hname; reflexivity].
  unfold VM.ins_jmp. vm_run. destruct (cond =? 0); reflexivity.
Qed.

(** The turn of the loop on a [div] or a [mod] whose third decoded
    argument is zero is the call of [error]. *)
Lemma div_mod_zero_cycle (disable_log : bool)
    (c : VM.ProgramContext) (ins : instruction) (vs : list Z) :
  py_index (p_instructions (VM.program_data c)) (VM.program_counter c) = Ok ins ->
  ins_name ins = "div" \/ ins_name ins = "mod" ->
  fst (VM.parse_arguments (ins_args ins) c) = Ok vs ->
  vs !! 2%nat = Some 0 ->
  VM.cycle disable_log c = VM.error VM.DivisionByZero c.
Proof.
  intros Hfetch Hname Hargs Hzero.
  destruct (@error_cases unit VM.DivisionByZero c) as [(o & _ & He)|(e & _ & He)];
    destruct Hname as [Hname|Hname].
  all: first
    [ rewrite (cycle_decoded disable_log c ins vs VM.ins_div Hfetch);
        [| rewrite Hname; reflexivity | exact Hargs | rewrite Hname; reflexivity];
      unfold VM.ins_div
    | rewrite (cycle_decoded disable_log c ins vs VM.ins_mod Hfetch);
        [| rewrite Hname; reflexivity | exact Hargs | rewrite Hname; reflexivity];
      unfold VM.ins_mod ].
  all: unfold VM.at_; rewrite Hzero;
    unfold mbind, VM.M_bind, VM.bind, VM.ret; cbn [Z.eqb];
    rewrite He; reflexivity.
Qed.

(** C3.  A [jmp] whose decoded arguments are [target] and [cond] ends
    its turn without error.  After the turn the program counter is
    [target] when [cond] is not zero, whatever [target] is (0 included),
    and one more than before when [cond] is zero; the rest of the context
    is as before.  The loop goes on from the new program counter: it
    stops there when that is at or beyond the end of the program, and
    otherwise its next turn runs the instruction at that index. *)
Theorem jmp_sets_program_counter (fuel : nat) (disable_log : bool)
    (c : VM.ProgramContext) (ins : instruction) (target cond : Z) (more : list Z) :
  py_index (p_instructions (VM.program_data c)) (VM.program_counter c) = Ok ins ->
  ins_name ins = "jmp" ->
  fst (VM.parse_arguments (ins_args ins) c) = Ok (target :: cond :: more) ->
  let c' := snd (VM.cycle disable_log c) in
  let n := Z.of_nat (length (p_instructions (VM.program_data c))) in
  fst (VM.cycle disable_log c) = Ok tt /\
  (cond <> 0 -> VM.program_counter c' = target) /\
  (cond = 0 -> VM.program_counter c' = VM.program_counter c + 1) /\
  (VM.program_data c' = VM.program_data c /\ VM.memory c' = VM.memory c /\
   VM.color c' = VM.color c /\ VM.surface c' = VM.surface c /\
   VM.stdout c' = VM.stdout c) /\
  VM.run_loop (S fuel) disable_log c = VM.run_loop fuel disable_log c' /\
  (n <= VM.program_counter c' ->
   VM.run_loop (S fuel) disable_log c = Some (Ok tt, c')) /\
  (VM.program_counter c' < n ->
   VM.run_loop (S (S fuel)) disable_log c =
     match VM.cycle disable_log c' with
     | (Ok _, c'') => VM.run_loop fuel disable_log c''
     | (Err e, c'') => Some (Err e, c'')
     end).
Proof.
  intros Hfetch Hname Hargs c' n.
  pose proof (jmp_cycle disable_log c ins target cond more Hfetch Hname Hargs) as Hcycle.
  assert (Hloop : forall f, VM.run_loop (S f) disable_log c = VM.run_loop f disable_log c').
  { intros f. rewrite run_loop_turn by (eapply py_index_bounds; eassumption).
    unfold c'. rewrite Hcycle. reflexivity. }
  assert (Hdata : VM.program_data c' = VM.program_data c)
    by (unfold c'; rewrite Hcycle; reflexivity).
  split; [rewrite Hcycle; reflexivity|].
  split; [intros Hc; unfold c'; rewrite Hcycle; cbn;
          rewrite (proj2 (Z.eqb_neq cond 0) Hc); reflexivity|].
  split; [intros ->; unfold c'; rewrite Hcycle; reflexivity|].
  split; [unfold c'; rewrite Hcycle; repeat split; reflexivity|].
  split; [apply Hloop|]. split.
  - intros Hend. rewrite Hloop. destruct fuel as [|fuel]; cbn [VM.run_loop];
      rewrite Hdata; fold n; rewrite (proj2 (Z.leb_le _ _) Hend); reflexivity.
  - intros Hin. rewrite Hloop. apply run_loop_turn. rewrite Hdata. exact Hin.
Qed.

(** C4.  When the third decoded argument of a [div] or a [mod] is zero,
    the turn ends in the runtime error "Division by zero" and the run
    stops there; the context, its memory included, is the one the
    instruction was entered with.  [error] prints the message and leaves
    through [sys.exit]; only when the program has a source text whose
    line for this instruction cannot be printed does it raise an
    exception instead, after the message. *)
Theorem div_mod_by_zero_halts (fuel : nat) (disable_log : bool)
    (c : VM.ProgramContext) (ins : instruction) (vs : list Z) :
  py_index (p_instructions (VM.program_data c)) (VM.program_counter c) = Ok ins ->
  ins_name ins = "div" \/ ins_name ins = "mod" ->
  fst (VM.parse_arguments (ins_args ins) c) = Ok vs ->
  vs !! 2%nat = Some 0 ->
  exists f,
    VM.cycle disable_log c = (Err f, c) /\
    VM.run_loop (S fuel) disable_log c = Some (Err f, c) /\
    VM.memory (snd (VM.cycle disable_log c)) = VM.memory c /\
    (f = VM.RuntimeError VM.DivisionByZero \/
     exists e, f = VM.ErrorRaised VM.DivisionByZero e) /\
    (p_source (VM.program_data c) = None -> f = VM.RuntimeError VM.DivisionByZero) /\
    (f = VM.RuntimeError VM.DivisionByZero <-> Machine.source_known c).
Proof.
  intros Hfetch Hname Hargs Hzero.
  pose proof (div_mod_zero_cycle disable_log c ins vs Hfetch Hname Hargs Hzero) as Hcycle.
  assert (Hrun : forall f, VM.cycle disable_log c = (Err f, c) ->
                 VM.run_loop (S fuel) disable_log c = Some (Err f, c)).
  { intros f Hf. rewrite run_loop_turn by (eapply py_index_bounds; eassumption).
    rewrite Hf. reflexivity. }
  destruct (@error_cases unit VM.DivisionByZero c) as [(o & Hline & He)|(e & Hline & He)];
    rewrite He in Hcycle; eexists; (split; [exact Hcycle|]);
    (split; [apply Hrun, Hcycle|]); (split; [rewrite Hcycle; reflexivity|]).
  - split; [left; reflexivity|]. split; [reflexivity|].
    split; [intros _; apply source_known_line; eauto|reflexivity].
  - split; [right; eauto|]. split.
    + intros Hnone. unfold VM.source_line in Hline. rewrite Hnone in Hline. discriminate.
    + split; [discriminate|].
      intros Hk. apply source_known_line in Hk as [o Ho]. congruence.
Qed.

(** C10 (as amended).  After a [jmp] taken to a negative [target] the loop
    does not stop, since [target] is below the number of instructions.  The
    next fetch is Python's [instructions[target]]: for
    [-len(instructions) <= target] it yields the instruction at index
    [len(instructions) + target], and execution goes on from there; for
    [target < -len(instructions)] it raises [IndexError] and the run ends
    with that exception. *)
Theorem jmp_negative_target (fuel : nat) (disable_log : bool)
    (c : VM.ProgramContext) (ins : instruction) (target cond : Z) (more : list Z) :
  py_index (p_instructions (VM.program_data c)) (VM.program_counter c) = Ok ins ->
  ins_name ins = "jmp" ->
  fst (VM.parse_arguments (ins_args ins) c) = Ok (target :: cond :: more) ->
  cond <> 0 ->
  target < 0 ->
  let instrs := p_instructions (VM.program_data c) in
  let n := Z.of_nat (length instrs) in
  let c' := VM.set_program_counter c target in
  VM.cycle disable_log c = (Ok tt, c') /\
  (n <=? VM.program_counter c') = false /\
  (- n <= target ->
     exists ins', instrs !! Z.to_nat (n + target) = Some ins' /\
                  py_index instrs target = Ok ins' /\
                  VM.run_loop (S (S fuel)) disable_log c =
                    match VM.cycle disable_log c' with
                    | (Ok _, c'') => VM.run_loop fuel disable_log c''
                    | (Err e, c'') => Some (Err e, c'')
                    end) /\
  (target < - n ->
     py_index instrs target = Err IndexError /\
     VM.run_loop (S (S fuel)) disable_log c = Some (Err (VM.Uncaught IndexError), c')).
Proof.
  intros Hfetch Hname Hargs Hcond Hneg instrs n c'.
  pose proof (jmp_cycle disable_log c ins target cond more Hfetch Hname Hargs) as Hcycle.
  assert (Hc : (cond =? 0) = false) by lia.
  rewrite Hc in Hcycle. fold c' in Hcycle.
  assert (Hpc : VM.program_counter c' < n) by (simpl; lia).
  assert (Hloop : forall f, VM.run_loop (S f) disable_log c = VM.run_loop f disable_log c').
  { intros f. rewrite run_loop_turn by (eapply py_index_bounds; eassumption).
    rewrite Hcycle. reflexivity. }
  split; [exact Hcycle|]. split; [simpl; lia|]. split.
  - intros Hlow.
    destruct (lookup_lt_is_Some_2 instrs (Z.to_nat (n + target))) as [ins' Hins']; [lia|].
    exists ins'. split; [exact Hins'|].
    assert (Hpy : py_index instrs target = Ok ins').
    { unfold py_index. fold n.
      destruct (target <? 0) eqn:E1; [|lia].
      replace (target + n) with (n + target) by lia.
      destruct ((n + target <? 0) || (n <=? n + target)) eqn:E2; [lia|].
      rewrite Hins'. reflexivity. }
    split; [exact Hpy|].
    rewrite Hloop. apply run_loop_turn. exact Hpc.
  - intros Hfar.
    assert (Hpy : py_index instrs target = Err IndexError).
    { unfold py_index. fold n.
      destruct (target <? 0) eqn:E1; [|lia].
      destruct ((target + n <? 0) || (n <=? target + n)) eqn:E2; [reflexivity|lia]. }
    split; [exact Hpy|].
    rewrite Hloop, run_loop_turn by exact Hpc.
    unfold VM.cycle. change (p_instructions (VM.program_data c')) with instrs.
    change (VM.program_counter c') with target. rewrite Hpy. reflexivity.
Qed.

(** Witness of [jmp_sets_program_counter]: [jmp 0 1] at index 3 of five
    instructions sets the program counter to 0, and the next turn runs the
    instruction at index 0; [jmp 0 0] there goes on to index 4. *)
Lemma jmp_sets_program_counter_witness :
  (let c := Examples.at_index (Examples.jump_at_three 1) 3 in
   fst (VM.cycle false c) = Ok tt /\
   VM.program_counter (snd (VM.cycle false c)) = 0 /\
   VM.memory (snd (VM.cycle false c)) = VM.memory c /\
   VM.run_loop 2 false c =
     VM.run_loop 0 false
       (VM.set_program_counter
          (VM.set_memory c (<[20%nat := 1]> (VM.memory c))) 1)) /\
  (let c := Examples.at_index (Examples.jump_at_three 0) 3 in
   fst (VM.cycle false c) = Ok tt /\
   VM.program_counter (snd (VM.cycle false c)) = 4 /\
   VM.memory (snd (VM.cycle false c)) = VM.memory c).
Proof.
  split.
  - pose proof (jmp_sets_program_counter 0 false
             (Examples.at_index (Examples.jump_at_three 1) 3)
             (Examples.jmp 0 1) 0 1 [] eq_refl eq_refl eq_refl)
      as (Hok & Htaken & _ & (_ & Hmem & _) & _ & _ & Hnext).
    split; [exact Hok|]. split; [apply Htaken; discriminate|].
    split; [exact Hmem|]. exact (Hnext eq_refl).
  - pose proof (jmp_sets_program_counter 0 false
             (Examples.at_index (Examples.jump_at_three 0) 3)
             (Examples.jmp 0 0) 0 0 [] eq_refl eq_refl eq_refl)
      as (Hok & _ & Hnot & (_ & Hmem & _) & _).
    split; [exact Hok|]. split; [exact (Hnot eq_refl)|exact Hmem].
Defined.

(** Witness of [div_mod_by_zero_halts]: [div $0 10 0] on a program
    without source text; cell 0 is as it was. *)
Lemma div_mod_by_zero_halts_witness :
  let c := Examples.fresh_context (Examples.one_instruction Examples.div_by_zero) in
  exists f,
    VM.cycle false c = (Err f, c) /\
    VM.run_loop 1 false c = Some (Err f, c) /\
    VM.memory (snd (VM.cycle false c)) = VM.memory c /\
    f = VM.RuntimeError VM.DivisionByZero.
Proof.
  destruct (div_mod_by_zero_halts 0 false
           (Examples.fresh_context (Examples.one_instruction Examples.div_by_zero))
           Examples.div_by_zero [0; 10; 0] eq_refl (or_introl eq_refl) eq_refl eq_refl)
    as (f & Hcycle & Hrun & Hmem & _ & Hnone & _).
  exists f. split; [exact Hcycle|]. split; [exact Hrun|]. split; [exact Hmem|].
  exact (Hnone eq_refl).
Defined.

(** With a source text and no line number on the instruction, the run
    stops on the same instruction with the memory unchanged, by the
    [IndexError] that [error] meets after it printed the message. *)
Lemma div_by_zero_without_line :
  let c := Examples.fresh_context Examples.div_without_line in
  VM.run_loop 1 false c =
    Some (Err (VM.ErrorRaised VM.DivisionByZero IndexError), c) /\
  ~ Machine.source_known c.
Proof.
  split; [vm_compute; reflexivity|].
  intros (ins & line_number & text & Hfetch & Hline & _).
  vm_compute in Hfetch. inversion Hfetch; subst. discriminate.
Qed.

(** C10, counterexample to the claim as stated: the one-instruction
    program [jmp -5 1] takes the jump to -5, and the next fetch raises
    [IndexError] instead of reading the instruction at index 1 + (-5). *)
Lemma jmp_far_negative_counterexample :
  let c := Examples.fresh_context (Examples.one_instruction (Examples.jmp (-5) 1)) in
  VM.start_program_thread 10 c 0 false =
    Some (Err (VM.Uncaught IndexError), VM.set_program_counter c (-5)).
Proof. vm_compute. reflexivity. Qed.

(** Witness of [jmp_negative_target]: [jmp -1 1] at index 0. *)
Lemma jmp_negative_target_witness :
  let c := Examples.fresh_context (Examples.one_instruction (Examples.jmp (-1) 1)) in
  VM.cycle false c = (Ok tt, VM.set_program_counter c (-1)) /\
  (1 <=? -1) = false.
Proof.
  pose proof (jmp_negative_target 0 false
           (Examples.fresh_context (Examples.one_instruction (Examples.jmp (-1) 1)))
           (Examples.jmp (-1) 1) (-1) 1 [] eq_refl eq_refl eq_refl
           ltac:(discriminate) eq_refl) as H.
  exact (conj (proj1 H) (proj1 (proj2 H))).
Defined.

(** Assigning to the slice [l[0:k]]. *)
Lemma py_slice_assign_prefix {A} (l : list A) (k : nat) (vals : list A) :
  py_slice_assign l 0 (Z.of_nat k) vals = vals ++ drop k l.
Proof.
  unfold py_slice_assign, py_slice_bound.
  replace (0 <? 0) with false by reflexivity.
  rewrite (proj2 (Z.ltb_ge (Z.of_nat k) 0)) by lia.
  replace (Z.to_nat (0 `min` Z.of_nat (length l))) with 0%nat by lia.
  rewrite Nat.max_0_r, take_0. simpl. f_equal.
  destruct (decide (k <= length l)%nat) as [Hle|Hgt].
  - f_equal. lia.
  - rewrite !drop_ge by lia. reflexivity.
Qed.

(** C9.  [update_reserved_memory] stores thirteen values in cells 0 to 12:
    1 or 0 for each of the eight keys as it is held down or not, then the
    memory, width, height and tickrate of the meta header, then
    [delta_ms].  The cells from index 13 on are the ones the memory had
    (a memory shorter than 13 cells grows to 13), and nothing else of the
    context changes.  [run] enters the start routine and each tick on the
    context so updated, with 0 for [delta_ms] at the start. *)
Theorem update_reserved_memory_cells (c : VM.ProgramContext) (keys : VM.keys_pressed)
    (delta_ms : Z) :
  let c' := VM.update_reserved_memory c keys delta_ms in
  let m := p_meta (VM.program_data c) in
  let held (key : bool) : Z := if key then 1 else 0 in
  let reserved (c0 : VM.ProgramContext) (delta : Z) :=
    take 13 (VM.memory c0) =
      [held (VM.K_RETURN keys); held (VM.K_RSHIFT keys);
       held (VM.K_z keys); held (VM.K_x keys);
       held (VM.K_UP keys); held (VM.K_DOWN keys);
       held (VM.K_LEFT keys); held (VM.K_RIGHT keys);
       meta_memory m; meta_width m; meta_height m; meta_tickrate m;
       delta] /\
    drop 13 (VM.memory c0) = drop 13 (VM.memory c) /\
    (forall i : nat, VM.memory c0 !! (13 + i)%nat = VM.memory c !! (13 + i)%nat) /\
    length (VM.memory c0) = Nat.max 13 (length (VM.memory c)) /\
    VM.program_data c0 = VM.program_data c /\
    VM.color c0 = VM.color c /\ VM.surface c0 = VM.surface c /\
    VM.stdout c0 = VM.stdout c in
  (reserved c' delta_ms /\ VM.program_counter c' = VM.program_counter c) /\
  (forall index, p_tick (VM.program_data c) = Some index ->
     exists c0, reserved c0 delta_ms /\ VM.program_counter c0 = index /\
       forall fuel disable_log,
         VM.run_tick fuel c keys delta_ms disable_log =
         VM.run_loop fuel disable_log c0) /\
  (forall index, p_start (VM.program_data c) = Some index ->
     exists c0, reserved c0 0 /\ VM.program_counter c0 = index /\
       forall fuel disable_log,
         VM.run_start fuel c keys disable_log =
         VM.run_loop fuel disable_log c0).
Proof.
  intros c' m held reserved.
  assert (Hres : forall delta index,
            reserved (VM.set_program_counter
                        (VM.update_reserved_memory c keys delta) index) delta).
  { intros delta index.
    assert (Hmem : VM.memory (VM.set_program_counter
                                (VM.update_reserved_memory c keys delta) index) =
                   VM.reserved_values m keys delta ++ drop 13 (VM.memory c)).
    { unfold VM.update_reserved_memory. cbn [VM.memory VM.set_memory VM.set_program_counter].
      apply (py_slice_assign_prefix (VM.memory c) 13). }
    unfold reserved. rewrite Hmem.
    split; [unfold VM.reserved_values, VM.int_of_bool; reflexivity|].
    split; [reflexivity|].
    split; [intros i; rewrite <- !lookup_drop; reflexivity|].
    split; [|repeat split; reflexivity].
    rewrite length_app, length_drop. cbn [VM.reserved_values length]. lia. }
  split; [|split].
  - split; [|reflexivity].
    replace c' with (VM.set_program_counter c' (VM.program_counter c));
      [apply Hres|reflexivity].
  - intros index Htick. eexists. split; [apply (Hres delta_ms index)|].
    split; [reflexivity|]. intros fuel disable_log.
    unfold VM.run_tick. rewrite Htick. reflexivity.
  - intros index Hstart. eexists. split; [apply (Hres 0 index)|].
    split; [reflexivity|]. intros fuel disable_log.
    unfold VM.run_start. rewrite Hstart. reflexivity.
Qed.

(** The tick routine [log $2; log $9; log $12; log $13] entered with the
    key [z] held down and 16 milliseconds since the last frame prints 1,
    the width 100, 16, and the 0 of cell 13. *)
Lemma tick_reads_reserved_cells :
  exists c,
    VM.run_tick 10 (Examples.fresh_context Examples.log_reserved) Examples.z_held 16 false =
      Some (Ok tt, c) /\
    VM.stdout c = [1; 100; 16; 0] /\
    take 13 (VM.memory c) = [0; 0; 1; 0; 0; 0; 0; 0; 128; 100; 80; 60; 16].
Proof. eexists. split; [vm_compute; reflexivity|]. split; reflexivity. Qed.

(** Witness of [update_reserved_memory_cells]: with the key [z] held
    down and 16 milliseconds since the last frame, cell 2 holds 1 and the
    other key cells 0, and the tick routine is entered at its index on
    that memory. *)
Lemma update_reserved_memory_cells_witness :
  let c := Examples.fresh_context Examples.log_reserved in
  take 13 (VM.memory (VM.update_reserved_memory c Examples.z_held 16)) =
    [0; 0; 1; 0; 0; 0; 0; 0; 128; 100; 80; 60; 16] /\
  exists c0,
    take 13 (VM.memory c0) = [0; 0; 1; 0; 0; 0; 0; 0; 128; 100; 80; 60; 16] /\
    VM.program_counter c0 = 0 /\
    VM.run_tick 10 c Examples.z_held 16 false = VM.run_loop 10 false c0.
Proof.
  pose proof (update_reserved_memory_cells
                (Examples.fresh_context Examples.log_reserved) Examples.z_held 16)
    as (((Hcells & _) & _) & Htick & _).
  split; [exact Hcells|].
  destruct (Htick 0 eq_refl) as (c0 & (Hc0 & _) & Hpc & Hrun).
  exists c0. split; [exact Hc0|]. split; [exact Hpc|]. apply Hrun.
Defined.

(** The turn of the loop on a [mov] whose decoded destination is a cell
    of the memory. *)
Lemma mov_cycle (disable_log : bool)
    (c : VM.ProgramContext) (ins : instruction) (destination v : Z) (more : list Z) :
  py_index (p_instructions (VM.program_data c)) (VM.program_counter c) = Ok ins ->
  ins_name ins = "mov" ->
  fst (VM.parse_arguments (ins_args ins) c) = Ok (destination :: v :: more) ->
  VM.out_of_bounds c destination = false ->
  VM.cycle disable_log c =
    (Ok tt, VM.set_program_counter
              (VM.set_memory c (<[Z.to_nat destination := v]> (VM.memory c)))
              (VM.program_counter c + 1)).
Proof.
  intros Hfetch Hname Hargs Hin.
  rewrite (cycle_decoded disable_log c ins (destination :: v :: more) VM.ins_mov Hfetch);
    [| rewrite Hname; reflexivity | exact Hargs | rewrite Hname; reflexivity].
  unfold VM.ins_mov. vm_run. unfold VM.memset. rewrite Hin. reflexivity.
Qed.

(** C1 (as amended).  Every operand written [$n] is read through memory,
    the destination included: an operand [$n] decodes to the value of
    cell [n], and [mov] writes its second decoded argument into the cell
    whose index is its first decoded argument.  So on zero-filled memory
    [mov $5 10] and [mov $6 $5] both write cell 0, and cells 5 and 6 stay
    0.  With the destinations written as literals, [mov 5 10] then
    [mov 6 $5] ends with 10 in cell 5 and in cell 6. *)
Theorem mov_destination_is_decoded :
  (forall c s index,
     py_int (tail_str s) = Some index ->
     VM.parse_argument (AStr s) c = VM.memget index c) /\
  (forall disable_log c ins destination v more,
     py_index (p_instructions (VM.program_data c)) (VM.program_counter c) = Ok ins ->
     ins_name ins = "mov" ->
     fst (VM.parse_arguments (ins_args ins) c) = Ok (destination :: v :: more) ->
     VM.out_of_bounds c destination = false ->
     VM.cycle disable_log c =
       (Ok tt, VM.set_program_counter
                 (VM.set_memory c (<[Z.to_nat destination := v]> (VM.memory c)))
                 (VM.program_counter c + 1))) /\
  (exists mem, Examples.final_memory 2 Examples.mov_address_destinations = Some mem /\
               mem = replicate 128 0 /\ mem !! 5%nat = Some 0 /\ mem !! 6%nat = Some 0) /\
  (exists mem, Examples.final_memory 2 Examples.mov_literal_destinations = Some mem /\
               mem !! 5%nat = Some 10 /\ mem !! 6%nat = Some 10).
Proof.
  split; [|split; [|split]].
  - intros c s index H. simpl. rewrite H. reflexivity.
  - intros disable_log c ins destination v more. apply mov_cycle.
  - eexists. split; [vm_compute; reflexivity|]. repeat split.
  - eexists. split; [vm_compute; reflexivity|]. repeat split.
Qed.

(** Witness of [mov_destination_is_decoded]: on a fresh context, [mov $5 10]
    has the decoded destination 0, the value of cell 5, and writes cell 0. *)
Lemma mov_destination_is_decoded_witness :
  let c := Examples.fresh_context
             (Examples.one_instruction (Instruction "mov" [AStr "$5"; AInt 10] None)) in
  VM.parse_argument (AStr "$5") c = VM.memget 5 c /\
  VM.cycle false c =
    (Ok tt, VM.set_program_counter
              (VM.set_memory c (<[0%nat := 10]> (VM.memory c))) 1).
Proof.
  split.
  - exact (proj1 mov_destination_is_decoded _ "$5" 5 eq_refl).
  - exact (proj1 (proj2 mov_destination_is_decoded) false
             (Examples.fresh_context
                (Examples.one_instruction (Instruction "mov" [AStr "$5"; AInt 10] None)))
             (Instruction "mov" [AStr "$5"; AInt 10] None) 0 10 []
             eq_refl eq_refl eq_refl eq_refl).
Defined.

(** C1, counterexample to the claim as stated: the program assembles and
    runs to its end, and cells 5 and 6 hold 0, not 10. *)
Lemma mov_address_destinations_counterexample :
  exists mem, Examples.final_memory 2 Examples.mov_address_destinations = Some mem /\
              mem !! 5%nat <> Some 10 /\ mem !! 6%nat <> Some 10.
Proof.
  eexists. split; [vm_compute; reflexivity|]. split; discriminate.
Qed.

(** ** The assembler *)

Section AssemblerFacts.

Import Assembler Trace.
Import Lexer.

Variable ending : option (Z * Z).

Lemma get_until_newline_from_shorter acc tokens args rest :
  get_until_newline_from ending acc tokens = Ok (args, rest) ->
  (length rest < length tokens)%nat.
Proof.
  revert acc. induction tokens as [|t ts IH]; intros acc H; simpl in H; [discriminate|].
  destruct (name t); try (apply IH in H; simpl; lia).
  inversion H; subst. simpl. lia.
Qed.

Lemma collect_token_shorter token rest c rest' c' :
  collect_token ending token rest c = Ok (rest', c') ->
  (length rest' <= length rest)%nat.
Proof.
  unfold collect_token, error. intros H.
  repeat (match type of H with
          | context [match ?x with _ => _ end] => destruct x eqn:?
          | context [if ?x then _ else _] => destruct x eqn:?
          end; try discriminate);
    inversion H; subst; simpl; try lia.
  - match goal with
    | E : next _ ?r = Ok _ |- _ => destruct r; simpl in E; inversion E; subst; simpl; lia
    end.
  - match goal with
    | E : get_until_newline _ _ = Ok _ |- _ =>
        apply get_until_newline_from_shorter in E; lia
    end.
Qed.

Lemma collect_fuel f1 : forall f2 tokens c,
  (length tokens < f1)%nat -> (length tokens < f2)%nat ->
  collect ending f1 tokens c = collect ending f2 tokens c.
Proof.
  induction f1 as [|f1 IH]; intros f2 tokens c H1 H2; [lia|].
  destruct tokens as [|t rest]; [destruct f2; reflexivity|].
  destruct f2 as [|f2]; [simpl in H2; lia|]. simpl in *.
  destruct (collect_token ending t rest c) as [[rest' c']|e] eqn:E; [|reflexivity].
  apply collect_token_shorter in E. apply IH; lia.
Qed.

(** The loop ends before its fuel does. *)
Lemma collect_total f : forall tokens c,
  (length tokens < f)%nat -> collect ending f tokens c <> None.
Proof.
  induction f as [|f IH]; intros tokens c H; [lia|].
  destruct tokens as [|t rest]; simpl; [destruct ending as [[? ?]|]; discriminate|].
  destruct (collect_token ending t rest c) as [[rest' c']|e] eqn:E; [|discriminate].
  apply collect_token_shorter in E. apply IH. simpl in H. lia.
Qed.

Lemma collect_reaches_pair s s' :
  reaches ending s s' ->
  forall f f', (length (fst s) < f)%nat -> (length (fst s') < f')%nat ->
  collect ending f (fst s) (snd s) = collect ending f' (fst s') (snd s').
Proof.
  induction 1 as [s|token rest c0 rest1 c1 s Hstep Hreach IH]; intros f f' Hf Hf'.
  - apply collect_fuel; assumption.
  - destruct f as [|f]; [lia|]. simpl in *. rewrite Hstep.
    apply collect_token_shorter in Hstep. apply IH; lia.
Qed.

Lemma collect_reaches tokens c tokens' c' f f' :
  reaches ending (tokens, c) (tokens', c') ->
  (length tokens < f)%nat -> (length tokens' < f')%nat ->
  collect ending f tokens c = collect ending f' tokens' c'.
Proof. intros H. apply (collect_reaches_pair _ _ H). Qed.

(** An error met at a position the loop reaches is the outcome of the loop. *)
Lemma collected_error tokens state token rest c e :
  reaches ending (tokens, initial state) (token :: rest, c) ->
  collect_token ending token rest c = Err e ->
  collected tokens ending state = Some (Err e).
Proof.
  intros Hreach Herr. unfold collected.
  rewrite (collect_reaches _ _ _ _ _ (S (length (token :: rest))) Hreach) by lia.
  simpl. rewrite Herr. reflexivity.
Qed.


Lemma collect_ok_reaches f : forall tokens c cf,
  collect ending f tokens c = Some (Ok cf) -> reaches ending (tokens, c) ([], cf).
Proof.
  induction f as [|f IH]; intros tokens c cf H.
  - destruct tokens; simpl in H; [|discriminate].
    destruct ending as [[? ?]|]; inversion H; subst. constructor.
  - destruct tokens as [|t rest]; simpl in H.
    + destruct ending as [[? ?]|]; inversion H; subst. constructor.
    + destruct (collect_token ending t rest c) as [[rest' c']|e] eqn:E; [|discriminate].
      econstructor; [exact E|]. apply IH. exact H.
Qed.

(** A property of the loop variables kept by every turn holds wherever
    the loop comes. *)
Lemma reaches_invariant (P : collection -> Prop) :
  (forall token rest c rest' c',
     collect_token ending token rest c = Ok (rest', c') -> P c -> P c') ->
  forall s s', reaches ending s s' -> P (snd s) -> P (snd s').
Proof.
  intros Hturn s s' H. induction H as [s|token rest c0 rest1 c1 s Hstep Hreach IH];
    [auto|]. simpl in *. intros HP. apply IH. eapply Hturn; eassumption.
Qed.

(** What a turn does to the loop variables, token kind by token kind. *)
Lemma collect_token_cases token rest c rest' c' :
  collect_token ending token rest c = Ok (rest', c') ->
  (name token = META_VARIABLE /\ compiler_state c = META /\
   exists v z, next ending rest = Ok (v, rest') /\ py_int (value v) = Some z /\
     mem_string (tail_str (value token)) META_VARIABLE_NAMES = true /\
     c' = Collection (compiler_state c) (set_meta (meta c) (tail_str (value token)) z)
            (labels c) (raw_instructions c) (instruction_index c) (warnings c)) \/
  (name token = LABEL_NAME /\ rest' = rest /\
   exists ws,
     c' = Collection PROCEDURES (meta c)
            (match labels c !! init_str (value token) with
             | Some _ => labels c
             | None => <[init_str (value token) := instruction_index c]> (labels c)
             end)
            (raw_instructions c) (instruction_index c) ws) \/
  (name token = NAME /\
   exists args,
     get_until_newline ending rest = Ok (args, rest') /\
     Instructions.ARGUMENT_COUNT_LOOKUP !! value token = Some (length args) /\
     c' = Collection (compiler_state c) (meta c) (labels c)
            (raw_instructions c ++ [(token, args)]) (instruction_index c + 1)
            (warnings c)) \/
  ((name token = COMMENT \/ name token = NEWLINE) /\ rest' = rest /\ c' = c).
Proof.
  unfold collect_token, error. intros H.
  destruct (name token) eqn:Hn; try discriminate.
  - left. split; [reflexivity|].
    destruct (bool_decide (compiler_state c = META)) eqn:Hs; cbn [negb] in H; [|discriminate].
    apply bool_decide_eq_true in Hs. split; [exact Hs|].
    destruct (mem_string (tail_str (value token)) META_VARIABLE_NAMES) eqn:Hm;
      cbn [negb] in H; [|discriminate].
    destruct (next ending rest) as [[v r]|e] eqn:Hv; [|discriminate].
    destruct (py_int (value v)) as [z|] eqn:Hz; [|discriminate].
    inversion H; subst. exists v, z. auto.
  - right; left. split; [reflexivity|].
    destruct (labels c !! init_str (value token)) eqn:Hl; inversion H; subst;
      (split; [reflexivity|]); eexists; reflexivity.
  - right; right; left. split; [reflexivity|].
    destruct (mem_string (value token) Instructions.INSTRUCTIONS);
      cbn [negb] in H; [|discriminate].
    destruct (Instructions.ARGUMENT_COUNT_LOOKUP !! value token) as [n|] eqn:Hl;
      [|discriminate].
    destruct (get_until_newline ending rest) as [[args r]|e] eqn:Hg; [|discriminate].
    destruct (length args =? n)%nat eqn:Hlen; cbn [negb] in H; [|discriminate].
    inversion H; subst. exists args. apply Nat.eqb_eq in Hlen. subst n. auto.
  - right; right; right. inversion H; subst. auto.
  - right; right; right. inversion H; subst. auto.
Qed.

End AssemblerFacts.

Section Arity.

Import Assembler Trace.
Import Lexer.

Lemma raw_instructions_arity ending s s' :
  reaches ending s s' ->
  Forall table_arity (raw_instructions (snd s)) ->
  Forall table_arity (raw_instructions (snd s')).
Proof.
  apply (reaches_invariant ending (fun c => Forall table_arity (raw_instructions c))).
  intros token rest c rest' c' Hturn HP.
  destruct (collect_token_cases ending _ _ _ _ _ Hturn)
    as [(_ & _ & v & z & _ & _ & _ & ->) | [(_ & _ & ws & ->)
       | [(_ & args & _ & Hl & ->) | (_ & _ & ->)]]]; simpl; try exact HP.
  apply Forall_app. split; [exact HP|]. constructor; [exact Hl | constructor].
Qed.

Lemma mapM_length {E A B} (f : A -> result E B) l l' :
  Binary.mapM f l = Ok l' -> length l' = length l.
Proof.
  revert l'. induction l as [|x xs IH]; intros l' H; simpl in H.
  - inversion H. reflexivity.
  - destruct (f x); [|discriminate].
    destruct (Binary.mapM f xs) eqn:Hxs; [|discriminate].
    inversion H; subst. simpl. f_equal. apply IH. reflexivity.
Qed.

Lemma parse_instruction_shape labels debug raw i w :
  parse_instruction labels debug raw = Ok (i, w) ->
  ins_name i = value (fst raw) /\
  Binary.mapM (fun t => parse_argument_token t labels) (snd raw) = Ok (ins_args i).
Proof.
  destruct raw as [tok args]. unfold parse_instruction. intros H.
  destruct (Binary.mapM _ args) as [parsed|e] eqn:E; [|discriminate].
  destruct parsed as [|a parsed]; [discriminate|].
  destruct args as [|t args]; [discriminate|].
  inversion H; subst. simpl. auto.
Qed.

Lemma parse_instructions_shape labels debug raws : forall instrs ws,
  parse_instructions labels debug raws = Ok (instrs, ws) ->
  Forall2 (fun raw i =>
             ins_name i = value (fst raw) /\
             Binary.mapM (fun t => parse_argument_token t labels) (snd raw)
               = Ok (ins_args i)) raws instrs.
Proof.
  induction raws as [|raw raws IH]; intros instrs ws H; simpl in H.
  - inversion H. constructor.
  - destruct (parse_instruction labels debug raw) as [[i w]|e] eqn:E; [|discriminate].
    destruct (parse_instructions labels debug raws) as [[is_ ws']|e] eqn:E'; [|discriminate].
    inversion H; subst. constructor; [eapply parse_instruction_shape; eauto|].
    eapply IH. reflexivity.
Qed.

(** The two passes behind a successful [assemble_tokens]. *)
Lemma assemble_tokens_ok tokens ending source_lines state debug p ws :
  assemble_tokens tokens ending source_lines state debug = Ok (p, ws) ->
  exists cf ws',
    collected tokens ending state = Some (Ok cf) /\
    parse_instructions (labels cf) debug (raw_instructions cf) = Ok (p_instructions p, ws') /\
    p_meta p = meta cf /\
    p_start p = labels cf !! "start" /\
    p_tick p = labels cf !! "tick".
Proof.
  unfold assemble_tokens, collected. intros H.
  destruct (collect ending (S (length tokens)) tokens (initial state)) as [[cf|e]|];
    try discriminate.
  destruct (parse_instructions (labels cf) debug (raw_instructions cf))
    as [[instrs ws']|e] eqn:E; [|discriminate].
  inversion H; subst. exists cf, ws'. simpl. auto.
Qed.

Lemma known_instruction name n :
  Instructions.ARGUMENT_COUNT_LOOKUP !! name = Some n ->
  mem_string name Instructions.INSTRUCTIONS = true.
Proof.
  intros H. apply elem_of_list_to_map_2 in H. cbn in H.
  repeat (apply elem_of_cons in H as [H|H]; [inversion H; subst; reflexivity|]).
  apply elem_of_nil in H. contradiction.
Qed.

End Arity.

(** C5.  The arity table has the sixteen entries of the specification.
    Every instruction of an assembled program has as many operands as the
    table gives for its name.  When the loop comes to an instruction name
    and the tokens collected up to the end of the line are not as many as
    the table says, assembling stops with the fatal error that names both
    counts, so no instruction is made of that line. *)
Theorem assembled_arity (tokens : list Lexer.Token) (ending : option (Z * Z))
    (source_lines : list string) (state : Assembler.AssemblerState) (debug : bool) :
  Instructions.ARGUMENT_COUNT_LOOKUP =
    list_to_map
      [("mov", 2); ("movp", 2); ("not", 2); ("jmp", 2); ("point", 2);
       ("add", 3); ("sub", 3); ("mul", 3); ("div", 3); ("mod", 3);
       ("less", 3); ("equal", 3); ("color", 3);
       ("line", 4); ("rect", 4); ("log", 1)]%nat /\
  (forall p ws,
     Assembler.assemble_tokens tokens ending source_lines state debug = Ok (p, ws) ->
     Forall (fun i => Instructions.ARGUMENT_COUNT_LOOKUP !! ins_name i
                      = Some (length (ins_args i)))
            (p_instructions p)) /\
  (forall token rest c expected args rest',
     Trace.reaches ending (tokens, Assembler.initial state) (token :: rest, c) ->
     Lexer.name token = Lexer.NAME ->
     Instructions.ARGUMENT_COUNT_LOOKUP !! Lexer.value token = Some expected ->
     Assembler.get_until_newline ending rest = Ok (args, rest') ->
     length args <> expected ->
     Assembler.assemble_tokens tokens ending source_lines state debug =
       Err (Assembler.Fatal
              (Assembler.WrongArgumentCount expected (Lexer.value token) (length args))
              (Lexer.lineno token) (Lexer.colno token))).
Proof.
  split; [vm_compute; reflexivity|]. split.
  - intros p ws H.
    destruct (assemble_tokens_ok _ _ _ _ _ _ _ H) as (cf & ws' & Hc & Hp & _).
    apply collect_ok_reaches in Hc.
    pose proof (raw_instructions_arity ending _ _ Hc (Forall_nil_2 _)) as Hraw.
    apply parse_instructions_shape in Hp. simpl in Hraw.
    revert Hraw. induction Hp as [|raw i raws instrs [Hn Ha] Hrest IH]; intros Hraw;
      [constructor|].
    inversion Hraw; subst. constructor; [|apply IH; assumption].
    rewrite Hn. apply mapM_length in Ha. rewrite Ha. assumption.
  - intros token rest c expected args rest' Hreach Hname Hl Hg Hlen.
    assert (Hturn : Assembler.collect_token ending token rest c =
              Err (Assembler.Fatal
                     (Assembler.WrongArgumentCount expected (Lexer.value token) (length args))
                     (Lexer.lineno token) (Lexer.colno token))).
    { unfold Assembler.collect_token. rewrite Hname, (known_instruction _ _ Hl), Hl, Hg.
      destruct (length args =? expected)%nat eqn:E; [apply Nat.eqb_eq in E; lia|].
      reflexivity. }
    pose proof (collected_error ending _ _ _ _ _ _ Hreach Hturn) as Hc.
    unfold Trace.collected in Hc. unfold Assembler.assemble_tokens. rewrite Hc.
    reflexivity.
Qed.

(** Witness of [assembled_arity]: [mov 20 1] is assembled with two
    operands, and [mov 1 2 3] is refused. *)
Lemma assembled_arity_witness :
  Forall (fun i => Instructions.ARGUMENT_COUNT_LOOKUP !! ins_name i
                   = Some (length (ins_args i)))
         [Instruction "mov" [AInt 20; AInt 1] None] /\
  Assembler.assemble_tokens (Examples.tokens_of "mov 1 2 3") None ["mov 1 2 3"]
    Assembler.META false =
    Err (Assembler.Fatal (Assembler.WrongArgumentCount 2 "mov" 3) 1 1).
Proof.
  split.
  - refine (proj1 (proj2 (assembled_arity
              (Examples.tokens_of "mov 20 1") None ["mov 20 1"] Assembler.META false))
              (Program Assembler.META_VARIABLES
                 [Instruction "mov" [AInt 20; AInt 1] None] None None None None None)
              [Assembler.TickNotFound] _).
    vm_compute. reflexivity.
  - refine (proj2 (proj2 (assembled_arity
              (Examples.tokens_of "mov 1 2 3") None ["mov 1 2 3"] Assembler.META false))
              (Lexer.Tok Lexer.NAME "mov" 1 1) _ _ 2%nat _ _ (Trace.reaches_here _ _)
              eq_refl _ eq_refl _).
    + vm_compute. reflexivity.
    + vm_compute. discriminate.
Defined.

Section MetaHeader.

Import Assembler Trace.
Import Lexer.

Lemma state_after_turn ending token rest c rest' c' :
  collect_token ending token rest c = Ok (rest', c') ->
  (name token = LABEL_NAME /\ compiler_state c' = PROCEDURES) \/
  (name token <> LABEL_NAME /\ compiler_state c' = compiler_state c).
Proof.
  intros Hturn.
  destruct (collect_token_cases ending _ _ _ _ _ Hturn)
    as [(Hn & _ & v & z & _ & _ & _ & ->) | [(Hn & _ & ws & ->)
       | [(Hn & args & _ & _ & ->) | ([Hn|Hn] & _ & ->)]]]; simpl;
    first [left; split; [assumption | reflexivity]
          | right; split; [congruence | reflexivity]].
Qed.

End MetaHeader.

(** C6 (as amended).  A meta variable met in the header state, with one of
    the four names and followed by an integer, is stored, whatever was
    stored for that name before, and the state stays the header state.  A
    label declaration puts the assembler in the procedures state; a turn on
    any other token leaves the state as it is, so the procedures state is
    never left.  A meta variable the loop comes to in the procedures state
    stops assembling with the fatal error "Found meta variable outside file
    header". *)
Theorem meta_header_gate (ending : option (Z * Z)) :
  (forall token v rest c z,
     Lexer.name token = Lexer.META_VARIABLE ->
     Assembler.compiler_state c = Assembler.META ->
     Assembler.mem_string (tail_str (Lexer.value token)) Assembler.META_VARIABLE_NAMES = true ->
     py_int (Lexer.value v) = Some z ->
     Assembler.collect_token ending token (v :: rest) c =
       Ok (rest, Assembler.Collection Assembler.META
                   (Assembler.set_meta (Assembler.meta c) (tail_str (Lexer.value token)) z)
                   (Assembler.labels c) (Assembler.raw_instructions c)
                   (Assembler.instruction_index c) (Assembler.warnings c))) /\
  (forall m z z',
     meta_memory (Assembler.set_meta (Assembler.set_meta m "memory" z) "memory" z') = z' /\
     meta_width (Assembler.set_meta (Assembler.set_meta m "width" z) "width" z') = z' /\
     meta_height (Assembler.set_meta (Assembler.set_meta m "height" z) "height" z') = z' /\
     meta_tickrate (Assembler.set_meta (Assembler.set_meta m "tickrate" z) "tickrate" z') = z') /\
  (forall token rest c,
     Lexer.name token = Lexer.LABEL_NAME ->
     exists c', Assembler.collect_token ending token rest c = Ok (rest, c') /\
                Assembler.compiler_state c' = Assembler.PROCEDURES) /\
  (forall token rest c rest' c',
     Assembler.collect_token ending token rest c = Ok (rest', c') ->
     Lexer.name token <> Lexer.LABEL_NAME ->
     Assembler.compiler_state c' = Assembler.compiler_state c) /\
  (forall s s',
     Trace.reaches ending s s' ->
     Assembler.compiler_state (snd s) = Assembler.PROCEDURES ->
     Assembler.compiler_state (snd s') = Assembler.PROCEDURES) /\
  (forall tokens state source_lines debug token rest c,
     Trace.reaches ending (tokens, Assembler.initial state) (token :: rest, c) ->
     Assembler.compiler_state c = Assembler.PROCEDURES ->
     Lexer.name token = Lexer.META_VARIABLE ->
     Assembler.assemble_tokens tokens ending source_lines state debug =
       Err (Assembler.Fatal Assembler.MetaOutsideHeader
              (Lexer.lineno token) (Lexer.colno token))).
Proof.
  repeat split.
  - intros token v rest c z Hn Hs Hm Hz. unfold Assembler.collect_token.
    rewrite Hn, Hs, Hm. simpl. rewrite Hz. reflexivity.
  - intros token rest c Hn. unfold Assembler.collect_token. rewrite Hn.
    destruct (Assembler.labels c !! init_str (Lexer.value token));
      eexists; split; reflexivity.
  - intros token rest c rest' c' Hturn Hn.
    destruct (state_after_turn _ _ _ _ _ _ Hturn) as [[? _]|[_ ?]]; [contradiction|assumption].
  - intros s s'.
    apply (reaches_invariant ending
             (fun c => Assembler.compiler_state c = Assembler.PROCEDURES)).
    intros token rest c rest' c' Hturn HP.
    destruct (state_after_turn _ _ _ _ _ _ Hturn) as [[_ ?]|[_ ?]]; congruence.
  - intros tokens state source_lines debug token rest c Hreach Hs Hn.
    assert (Hturn : Assembler.collect_token ending token rest c =
              Err (Assembler.Fatal Assembler.MetaOutsideHeader
                     (Lexer.lineno token) (Lexer.colno token))).
    { unfold Assembler.collect_token. rewrite Hn, Hs. reflexivity. }
    pose proof (collected_error ending _ _ _ _ _ _ Hreach Hturn) as Hc.
    unfold Trace.collected in Hc. unfold Assembler.assemble_tokens. rewrite Hc.
    reflexivity.
Qed.

(** Witness of [meta_header_gate]: [#memory 5] after the label [a:]. *)
Lemma meta_header_gate_witness :
  Assembler.assemble_tokens (Examples.tokens_of Examples.meta_after_label) None
    (Data.split_lines Examples.meta_after_label) Assembler.META false =
    Err (Assembler.Fatal Assembler.MetaOutsideHeader 2 1).
Proof.
  refine (proj2 (proj2 (proj2 (proj2 (proj2 (meta_header_gate None)))))
            (Examples.tokens_of Examples.meta_after_label) Assembler.META
            (Data.split_lines Examples.meta_after_label) false
            (Lexer.Tok Lexer.META_VARIABLE "#memory" 2 1)
            [Lexer.Tok Lexer.NUMBER "5" 2 9; Lexer.Tok Lexer.NEWLINE Pipeline.nl 2 10]
            _ _ _ eq_refl).
  - eapply Trace.reaches_turn; [reflexivity|].
    eapply Trace.reaches_turn; [reflexivity|].
    apply Trace.reaches_here.
  - reflexivity.
Defined.

(** C6, counterexample to the claim as stated: a meta variable is accepted
    after an instruction, and the same key is overridden twice. *)
Lemma meta_after_instruction_counterexample :
  exists p ws,
    Pipeline.assemble_source Examples.meta_after_instruction false = Ok (p, ws) /\
    p_instructions p = [Instruction "log" [AInt 1] None] /\
    meta_memory (p_meta p) = 300.
Proof. do 2 eexists. split; [vm_compute; reflexivity|]. split; reflexivity. Qed.

Section Labels.

Import Assembler Trace.
Import Lexer.

Variable ending : option (Z * Z).

(** A label keeps the index it was first given. *)
Lemma labels_kept l index s s' :
  reaches ending s s' ->
  labels (snd s) !! l = Some index -> labels (snd s') !! l = Some index.
Proof.
  apply (reaches_invariant ending (fun c => labels c !! l = Some index)).
  intros token rest c rest' c' Hturn HP.
  destruct (collect_token_cases ending _ _ _ _ _ Hturn)
    as [(_ & _ & v & z & _ & _ & _ & ->) | [(_ & _ & ws & ->)
       | [(_ & args & _ & _ & ->) | (_ & _ & ->)]]]; simpl; try exact HP.
  destruct (labels c !! init_str (value token)) eqn:E; [exact HP|].
  rewrite lookup_insert_ne; [exact HP|]. congruence.
Qed.

(** [instruction_index] counts the instructions collected so far. *)
Lemma instruction_index_counts s s' :
  reaches ending s s' ->
  instruction_index (snd s) = Z.of_nat (length (raw_instructions (snd s))) ->
  instruction_index (snd s') = Z.of_nat (length (raw_instructions (snd s'))).
Proof.
  apply (reaches_invariant ending
           (fun c => instruction_index c = Z.of_nat (length (raw_instructions c)))).
  intros token rest c rest' c' Hturn HP.
  destruct (collect_token_cases ending _ _ _ _ _ Hturn)
    as [(_ & _ & v & z & _ & _ & _ & ->) | [(_ & _ & ws & ->)
       | [(_ & args & _ & _ & ->) | (_ & _ & ->)]]]; simpl; try exact HP.
  rewrite length_app. simpl. lia.
Qed.

Lemma arity_positive name n :
  Instructions.ARGUMENT_COUNT_LOOKUP !! name = Some n -> n <> 0%nat.
Proof.
  intros H. apply elem_of_list_to_map_2 in H. cbn in H.
  repeat (apply elem_of_cons in H as [H|H]; [inversion H; subst; discriminate|]).
  apply elem_of_nil in H. contradiction.
Qed.

(** Operand resolution, token by token. *)
Lemma parse_argument_tokens_resolved lbls args parsed :
  Binary.mapM (fun t => parse_argument_token t lbls) args = Ok parsed ->
  Forall2 (fun t a =>
             name t = NAME ->
             exists index, lbls !! value t = Some index /\ a = AInt index)
          args parsed.
Proof.
  revert parsed. induction args as [|t args IH]; intros parsed H; simpl in H.
  - inversion H. constructor.
  - destruct (parse_argument_token t lbls) as [a|e] eqn:Ht; [|discriminate].
    destruct (Binary.mapM _ args) as [l|e] eqn:Hl; [|discriminate].
    inversion H; subst. constructor; [|apply IH; reflexivity].
    intros Hn. unfold parse_argument_token, error in Ht. rewrite Hn in Ht.
    destruct (lbls !! value t) as [index|]; [|discriminate].
    inversion Ht. eauto.
Qed.

Lemma parse_argument_tokens_cases lbls args :
  Forall (fun t => name t = NUMBER -> py_int (value t) <> None) args ->
  (exists parsed,
     Binary.mapM (fun t => parse_argument_token t lbls) args = Ok parsed /\
     Forall (fun t => ~ undefined_name lbls t) args) \/
  (exists t,
     undefined_name lbls t /\
     Binary.mapM (fun t => parse_argument_token t lbls) args =
       Err (Fatal (UndefinedLabel (value t)) (lineno t) (colno t))).
Proof.
  induction 1 as [|t args Ht Hargs IH]; [left; eexists; split; [reflexivity|constructor]|].
  simpl. unfold parse_argument_token at 1 3. unfold error, undefined_name in *.
  destruct (name t) eqn:Hn;
    try (destruct IH as [(parsed & -> & Hall)|(u & Hu & ->)];
         [left; eexists; split; [reflexivity|constructor; [intros [? _]; congruence|exact Hall]]
         |right; exists u; split; [exact Hu|reflexivity]]).
  - destruct (py_int (value t)) as [z|] eqn:Hz; [|exfalso; apply Ht; reflexivity].
    destruct IH as [(parsed & -> & Hall)|(u & Hu & ->)];
      [left; eexists; split; [reflexivity|constructor; [intros [? _]; congruence|exact Hall]]
      |right; exists u; split; [exact Hu|reflexivity]].
  - destruct (lbls !! value t) as [index|] eqn:Hl.
    + destruct IH as [(parsed & -> & Hall)|(u & Hu & ->)];
        [left; eexists; split; [reflexivity|constructor; [intros [_ ?]; congruence|exact Hall]]
        |right; exists u; split; [exact Hu|reflexivity]].
    + right. exists t. rewrite Hn. auto.
Qed.

Lemma parse_instructions_cases lbls debug raws :
  numbers_well_formed raws ->
  Forall (fun raw => snd raw <> []) raws ->
  (exists r,
     parse_instructions lbls debug raws = Ok r /\
     Forall (fun raw => Forall (fun t => ~ undefined_name lbls t) (snd raw)) raws) \/
  (exists t,
     undefined_name lbls t /\
     parse_instructions lbls debug raws =
       Err (Fatal (UndefinedLabel (value t)) (lineno t) (colno t))).
Proof.
  induction 1 as [|[tok args] raws Hraw Hraws IH]; intros Hne;
    [left; eexists; split; [reflexivity|constructor]|].
  inversion Hne as [|? ? Hargs Hne']; subst. simpl in *.
  destruct (parse_argument_tokens_cases lbls args Hraw) as [(parsed & Hp & Hall)|(u & Hu & Hp)].
  - unfold parse_instruction. rewrite Hp.
    pose proof (mapM_length _ _ _ Hp) as Hlen.
    destruct parsed as [|a parsed]; [destruct args; [contradiction|discriminate]|].
    destruct args as [|t args]; [contradiction|].
    destruct (IH Hne') as [(r & -> & Hall')|(u & Hu & ->)].
    + left. destruct r as [is_ ws]. eexists. split; [reflexivity|].
      constructor; assumption.
    + right. exists u. split; [exact Hu|reflexivity].
  - right. exists u. split; [exact Hu|]. unfold parse_instruction. rewrite Hp. reflexivity.
Qed.

End Labels.

Lemma collect_turn ending f token rest c :
  Assembler.collect ending (S f) (token :: rest) c =
  match Assembler.collect_token ending token rest c with
  | Err e => Some (Err e)
  | Ok (rest', c') => Assembler.collect ending f rest' c'
  end.
Proof. reflexivity. Qed.

(** C7.  Operands are resolved against the label table as it is when the
    whole stream has been read.  (1) A label declaration the first loop
    comes to, wherever it stands in the stream, is in that table; when it
    is the first declaration of its name, its index is the number of
    instructions collected before it.  (2) In an assembled program every
    operand that was a NAME token is the literal holding the index the
    table gives for that name.  (3) When some operand is a NAME the table
    does not hold, assembling stops with the fatal error "Undefined label"
    and yields no program. *)
Theorem label_resolution (tokens : list Lexer.Token) (ending : option (Z * Z))
    (source_lines : list string) (state : Assembler.AssemblerState) (debug : bool) :
  (forall token rest c cf,
     Trace.reaches ending (tokens, Assembler.initial state) (token :: rest, c) ->
     Lexer.name token = Lexer.LABEL_NAME ->
     Trace.collected tokens ending state = Some (Ok cf) ->
     exists index,
       Assembler.labels cf !! init_str (Lexer.value token) = Some index /\
       (Assembler.labels c !! init_str (Lexer.value token) = None ->
        index = Z.of_nat (length (Assembler.raw_instructions c)))) /\
  (forall p ws,
     Assembler.assemble_tokens tokens ending source_lines state debug = Ok (p, ws) ->
     exists cf,
       Trace.collected tokens ending state = Some (Ok cf) /\
       Forall2 (fun raw i =>
                  Forall2 (fun t a =>
                             Lexer.name t = Lexer.NAME ->
                             exists index,
                               Assembler.labels cf !! Lexer.value t = Some index /\
                               a = AInt index)
                          (snd raw) (ins_args i))
               (Assembler.raw_instructions cf) (p_instructions p)) /\
  (forall cf,
     Trace.collected tokens ending state = Some (Ok cf) ->
     Trace.numbers_well_formed (Assembler.raw_instructions cf) ->
     Exists (fun raw => Exists (Trace.undefined_name (Assembler.labels cf)) (snd raw))
            (Assembler.raw_instructions cf) ->
     exists t,
       Trace.undefined_name (Assembler.labels cf) t /\
       Assembler.assemble_tokens tokens ending source_lines state debug =
         Err (Assembler.Fatal (Assembler.UndefinedLabel (Lexer.value t))
                (Lexer.lineno t) (Lexer.colno t))).
Proof.
  split; [|split].
  - intros token rest c cf Hreach Hn Hc. unfold Trace.collected in Hc.
    pose proof (instruction_index_counts ending _ _ Hreach eq_refl) as Hidx.
    rewrite (collect_reaches ending _ _ _ _ _ (S (length (token :: rest))) Hreach) in Hc
      by lia.
    rewrite collect_turn in Hc.
    destruct (Assembler.collect_token ending token rest c) as [[rest' c1]|e] eqn:Hturn;
      [|discriminate].
    apply collect_ok_reaches in Hc.
    destruct (collect_token_cases ending _ _ _ _ _ Hturn)
      as [(Hn' & _) | [(_ & _ & ws & ->) | [(Hn' & _) | ([Hn'|Hn'] & _)]]];
      try congruence.
    simpl in Hidx.
    destruct (Assembler.labels c !! init_str (Lexer.value token)) as [old|] eqn:Hold.
    + exists old. split; [|discriminate].
      apply (labels_kept ending _ _ _ _ Hc). exact Hold.
    + exists (Assembler.instruction_index c). split; [|intros _; exact Hidx].
      apply (labels_kept ending _ _ _ _ Hc). simpl. apply lookup_insert_eq.
  - intros p ws H.
    destruct (assemble_tokens_ok _ _ _ _ _ _ _ H) as (cf & ws' & Hc & Hp & _).
    exists cf. split; [exact Hc|].
    apply parse_instructions_shape in Hp.
    eapply Forall2_impl; [exact Hp|]. intros raw i [_ Hargs].
    apply parse_argument_tokens_resolved. exact Hargs.
  - intros cf Hc Hwf Hex.
    pose proof (collect_ok_reaches ending _ _ _ _ Hc) as Hreach.
    pose proof (raw_instructions_arity ending _ _ Hreach (Forall_nil_2 _)) as Harity.
    simpl in Harity.
    assert (Hne : Forall (fun raw => snd raw <> []) (Assembler.raw_instructions cf)).
    { eapply Forall_impl; [exact Harity|]. intros [tok args] Ha Hnil. simpl in *.
      subst args. unfold Trace.table_arity in Ha. simpl in Ha.
      exact (arity_positive _ _ Ha eq_refl). }
    destruct (parse_instructions_cases (Assembler.labels cf) debug _ Hwf Hne)
      as [(r & _ & Hall)|(t & Ht & Hp)].
    + exfalso. apply Exists_exists in Hex as (raw & Hin & Hraw).
      rewrite Forall_forall in Hall. specialize (Hall raw Hin).
      apply Exists_exists in Hraw as (t & Hint & Ht).
      rewrite Forall_forall in Hall. exact (Hall t Hint Ht).
    + exists t. split; [exact Ht|].
      unfold Trace.collected in Hc. unfold Assembler.assemble_tokens.
      rewrite Hc, Hp. reflexivity.
Qed.

(** Witness of [label_resolution]: in [jmp end 1], [log 1], [end:] the
    operand [end] becomes the literal 2, the index of the label declared
    after the jump; in [a:], [jmp b 1] the name [b] is fatal. *)
Lemma label_resolution_witness :
  (exists cf,
     Trace.collected (Examples.tokens_of Examples.forward_reference) None Assembler.META
       = Some (Ok cf) /\
     Forall2 (fun raw i =>
                Forall2 (fun t a =>
                           Lexer.name t = Lexer.NAME ->
                           exists index,
                             Assembler.labels cf !! Lexer.value t = Some index /\
                             a = AInt index)
                        (snd raw) (ins_args i))
             (Assembler.raw_instructions cf)
             [Instruction "jmp" [AInt 2; AInt 1] None;
              Instruction "log" [AInt 1] None]) /\
  (exists t,
     Assembler.assemble_tokens (Examples.tokens_of Examples.undefined_reference) None
       [] Assembler.META false =
       Err (Assembler.Fatal (Assembler.UndefinedLabel (Lexer.value t))
              (Lexer.lineno t) (Lexer.colno t))).
Proof.
  split.
  - refine (proj1 (proj2 (label_resolution
              (Examples.tokens_of Examples.forward_reference) None [] Assembler.META false))
              (Program Assembler.META_VARIABLES
                 [Instruction "jmp" [AInt 2; AInt 1] None;
                  Instruction "log" [AInt 1] None] None None None None None)
              [Assembler.TickNotFound] _).
    vm_compute. reflexivity.
  - destruct (proj2 (proj2 (label_resolution
             (Examples.tokens_of Examples.undefined_reference) None [] Assembler.META false))
             _ eq_refl) as (t & _ & Ht).
    + repeat constructor; discriminate.
    + apply Exists_cons_hd. apply Exists_cons_hd. split; reflexivity.
    + exists t. exact Ht.
Defined.

(** The forward reference of the witness, evaluated. *)
Lemma forward_reference_assembles :
  exists p ws,
    Pipeline.assemble_source Examples.forward_reference false = Ok (p, ws) /\
    p_instructions p =
      [Instruction "jmp" [AInt 2; AInt 1] None; Instruction "log" [AInt 1] None].
Proof. do 2 eexists. split; [vm_compute; reflexivity|reflexivity]. Qed.

(** ** The data loader *)

Section DataFacts.

Import Data DataFaults.

Variable files : string -> option string.
Variable image_open : string -> option Image.
Variable memory_size : Z.

Lemma add_data_entry_cases parsed line_number entry :
  add_data_entry parsed memory_size line_number entry =
  if memory_size <? fst entry + Z.of_nat (length (snd entry))
  then ([ExceedsCapacity line_number], None)
  else ([], Some (parsed ++ [entry])).
Proof. destruct entry. reflexivity. Qed.

(** A line that is read adds exactly one entry. *)
Lemma parse_line_appends parsed n line msgs parsed' :
  parse_line files image_open parsed memory_size n line = Ok (msgs, Some parsed') ->
  exists entry, parsed' = parsed ++ [entry].
Proof.
  unfold parse_line. intros H.
  repeat (match type of H with
          | context [add_data_entry _ _ _ _] => rewrite add_data_entry_cases in H
          | context [match ?x with _ => _ end] => destruct x eqn:?
          | context [if ?x then _ else _] => destruct x eqn:?
          end; try discriminate);
    inversion H; subst; eexists; reflexivity.
Qed.

(** A faulty line is not read, whatever was read before it. *)
Lemma data_fault_not_read parsed n line :
  data_fault files image_open memory_size line ->
  forall msgs parsed',
    parse_line files image_open parsed memory_size n line <> Ok (msgs, Some parsed').
Proof.
  intros Hfault msgs parsed'. unfold parse_line.
  destruct Hfault as [Hre | a payload Hre Hhex | a t payload Hre Ht Hfile
                     | a payload address numbers Hre Ha Hnum Hcap
                     | a payload address Hre Ha Hcap
                     | a payload address file_bytes numbers Hre Ha Hfile Hparse Hcap];
    rewrite Hre.
  - discriminate.
  - destruct (py_int a); [|discriminate]. cbn. rewrite Hhex. discriminate.
  - destruct (py_int a); [|discriminate].
    destruct Ht as [-> | ->]; cbn; rewrite Hfile; discriminate.
  - rewrite Ha. cbn. destruct (HEX_REGEX payload); cbn; [|discriminate].
    rewrite Hnum, (proj2 (Z.ltb_lt _ _) Hcap). discriminate.
  - rewrite Ha. cbn -[Z.of_nat String.length]. cbn in Hcap.
    rewrite (proj2 (Z.ltb_lt _ _) Hcap). discriminate.
  - rewrite Ha. cbn. rewrite Hfile, Hparse. cbn.
    rewrite (proj2 (Z.ltb_lt _ _) Hcap). discriminate.
Qed.

Lemma parse_lines_all lines : forall n parsed msgs parsed',
  parse_lines files image_open lines n parsed memory_size = Ok (msgs, Some parsed') ->
  length parsed' = (length parsed + length lines)%nat /\
  forall line, line ∈ lines -> ~ data_fault files image_open memory_size line.
Proof.
  induction lines as [|l lines IH]; intros n parsed msgs parsed' H; simpl in H.
  - inversion H; subst. split; [simpl; lia|]. intros line Hin. inversion Hin.
  - destruct (parse_line files image_open parsed memory_size n l)
      as [[m [p1|]]|e] eqn:Hl; try discriminate.
    destruct (parse_lines files image_open lines (n + 1) p1 memory_size)
      as [[m' r]|e] eqn:Hrest; [|discriminate].
    inversion H; subst.
    destruct (IH _ _ _ _ Hrest) as [Hlen Hok].
    destruct (parse_line_appends _ _ _ _ _ Hl) as [entry ->].
    split; [rewrite Hlen, length_app; simpl; lia|].
    intros line Hin Hfault. apply elem_of_cons in Hin as [->|Hin].
    + exact (data_fault_not_read parsed n l Hfault _ _ Hl).
    + exact (Hok line Hin Hfault).
Qed.

End DataFacts.

(** C8 (as amended).  The data-load step is all or nothing: when one line
    of the data file is faulty (malformed, a bad hexadecimal payload, a
    missing file, or an entry of type [b], [s] or [f] that ends beyond
    the memory), [parse_data] returns no list, and a list it returns has
    one entry for every line.  An entry of type [F] is appended without
    the bounds check.  What [assemble] stores under ['data'] is what
    [parse_data] returned: the whole list or [None], never a part of it;
    a g1b file that is written holds the whole list. *)
Theorem data_load_all_or_nothing (files : string -> option string)
    (image_open : string -> option Data.Image) :
  (forall text memory_size line,
     line ∈ Data.split_lines text ->
     DataFaults.data_fault files image_open memory_size line ->
     ~ DataFaults.loaded (Data.parse_data files image_open text memory_size)) /\
  (forall text memory_size msgs entries,
     Data.parse_data files image_open text memory_size = Ok (msgs, Some entries) ->
     length entries = length (Data.split_lines text)) /\
  (forall line address_str path file_bytes address parsed memory_size n,
     Data.DATA_LINE_REGEX line = Some (address_str, "F"%char, path) ->
     py_int address_str = Some address ->
     files path = Some file_bytes ->
     Data.parse_line files image_open parsed memory_size n line =
       Ok ([], Some (parsed ++ [(address, Data.ords file_bytes)]))) /\
  (forall input_path path text debug p ws msgs,
     files path = Some text ->
     Assembler.assemble files image_open input_path (Some path) debug "json" =
       Ok (Assembler.Json p, ws, msgs) ->
     exists r,
       Data.parse_data files image_open text (meta_memory (p_meta p)) = Ok (msgs, r) /\
       p_data p = Some r) /\
  (forall input_path path text debug output_format file_content ws msgs,
     files path = Some text ->
     Assembler.assemble files image_open input_path (Some path) debug output_format =
       Ok (Assembler.G1b file_content, ws, msgs) ->
     exists p entries,
       Data.parse_data files image_open text (meta_memory (p_meta p))
         = Ok (msgs, Some entries) /\
       p_data p = Some (Some entries) /\
       Binary.encode p = Ok file_content).
Proof.
  split; [|split; [|split; [|split]]].
  - intros text memory_size line Hin Hfault (msgs & entries & Hload).
    unfold Data.parse_data in Hload.
    destruct (Data.parse_lines files image_open (Data.split_lines text) 0 [] memory_size)
      as [[m [parsed|]]|e] eqn:Hlines; try discriminate.
    destruct (parse_lines_all _ _ _ _ _ _ _ _ Hlines) as [_ Hok].
    exact (Hok line Hin Hfault).
  - intros text memory_size msgs entries Hload.
    unfold Data.parse_data in Hload.
    destruct (Data.parse_lines files image_open (Data.split_lines text) 0 [] memory_size)
      as [[m [parsed|]]|e] eqn:Hlines; try discriminate.
    inversion Hload; subst.
    destruct (parse_lines_all _ _ _ _ _ _ _ _ Hlines) as [Hlen _]. exact Hlen.
  - intros line address_str path file_bytes address parsed memory_size n Hre Ha Hfile.
    unfold Data.parse_line. rewrite Hre, Ha. cbn. rewrite Hfile. reflexivity.
  - intros input_path path text debug p ws msgs Hfile H.
    unfold Assembler.assemble in H.
    destruct (files input_path) as [source_code|]; [|discriminate].
    destruct (Lexer.lex _) as [tokens ending].
    destruct (Assembler.assemble_tokens _ _ _ _ _) as [[p0 ws0]|e];
      [|destruct e; discriminate].
    rewrite Hfile in H.
    destruct (Data.parse_data files image_open text (meta_memory (p_meta p0)))
      as [[m r]|e] eqn:Hdata; [|discriminate].
    cbn in H. inversion H; subst. exists r. split; [exact Hdata|reflexivity].
  - intros input_path path text debug output_format file_content ws msgs Hfile H.
    unfold Assembler.assemble in H.
    destruct (files input_path) as [source_code|]; [|discriminate].
    destruct (Lexer.lex _) as [tokens ending].
    destruct (Assembler.assemble_tokens _ _ _ _ _) as [[p0 ws0]|e];
      [|destruct e; discriminate].
    rewrite Hfile in H.
    destruct (Data.parse_data files image_open text (meta_memory (p_meta p0)))
      as [[m r]|e] eqn:Hdata; [|discriminate].
    destruct (String.eqb output_format "json"); [discriminate|].
    destruct (Binary.encode _) as [bs|e] eqn:Hencode; [|discriminate].
    inversion H; subst.
    destruct r as [entries|].
    + exists (Program (p_meta p0) (p_instructions p0) (p_start p0) (p_tick p0)
                (Some (Some entries)) (p_source p0) (p_data_entry_count p0)), entries.
      split; [exact Hdata|]. split; [reflexivity|exact Hencode].
    + exfalso. unfold Binary.encode, Binary.format_json in Hencode.
      cbn [p_instructions p_data] in Hencode.
      destruct (Binary.mapM Binary.verbose_instruction (p_instructions p0));
        discriminate.
Qed.

(** After a data error the assembler goes on: for the JSON format the
    program is written, with [None] under ['data']. *)
Lemma data_error_keeps_assembling (files : string -> option string)
    (image_open : string -> option Data.Image)
    input_path path source_code text debug p ws msgs :
  files input_path = Some source_code ->
  files path = Some text ->
  Pipeline.assemble_source source_code debug = Ok (p, ws) ->
  Data.parse_data files image_open text (meta_memory (p_meta p)) = Ok (msgs, None) ->
  Assembler.assemble files image_open input_path (Some path) debug "json" =
    Ok (Assembler.Json
          (Program (p_meta p) (p_instructions p) (p_start p) (p_tick p)
             (Some None) (p_source p) (p_data_entry_count p)), ws, msgs).
Proof.
  intros Hin Hfile Hasm Hdata.
  unfold Assembler.assemble. rewrite Hin.
  unfold Pipeline.assemble_source, Pipeline.nl in Hasm.
  destruct (Lexer.lex _) as [tokens ending].
  rewrite Hasm, Hfile, Hdata. reflexivity.
Qed.

(** Witness of [data_load_all_or_nothing]: the second line of bad.g1d has
    the payload [zz], so nothing is loaded from that file, although its
    first line is a good entry. *)
Lemma data_load_all_or_nothing_witness :
  ~ DataFaults.loaded
      (Data.parse_data Examples.files Examples.no_images
         (Pipeline.unlines ["20 b 0102"; "30 b zz"]) 128).
Proof.
  refine (proj1 (data_load_all_or_nothing Examples.files Examples.no_images)
            _ 128 "30 b zz" _ _).
  - vm_compute. apply elem_of_cons. right. apply elem_of_cons. left. reflexivity.
  - eapply DataFaults.BadHex; reflexivity.
Defined.

(** C8, counterexample to the claim as stated: the data file bad.g1d has a
    bad hexadecimal payload, and assembling prog.g1 with it to the JSON
    format is not aborted: the program is written, with a null data
    field.  The file raw.g1d holds an entry of type [F] that spans cells
    120 to 129 of a memory of 128 cells, and it is attached. *)
Lemma data_error_does_not_abort_counterexample :
  (exists p ws msgs,
     Assembler.assemble Examples.files Examples.no_images
       "prog.g1" (Some "bad.g1d") false "json" = Ok (Assembler.Json p, ws, msgs) /\
     p_data p = Some None /\ msgs = [Data.ExpectedHex 1]) /\
  (exists p ws msgs,
     Assembler.assemble Examples.files Examples.no_images
       "prog.g1" (Some "raw.g1d") false "json" = Ok (Assembler.Json p, ws, msgs) /\
     meta_memory (p_meta p) = 128 /\
     p_data p = Some (Some [(120, [48; 49; 50; 51; 52; 53; 54; 55; 56; 57])])).
Proof.
  split; do 3 eexists; (split; [vm_compute; reflexivity|]); split; reflexivity.
Qed.

(** The same entry with the type [f] goes through the bounds check, and
    nothing is loaded. *)
Lemma checked_entry_is_refused :
  Data.parse_data Examples.files Examples.no_images "120 f ten.bin" 128 =
    Ok ([Data.ExceedsCapacity 0], None).
Proof. vm_compute. reflexivity. Qed.

(** ** The binary codec *)

Section IntegerFields.

Import Binary.

Lemma Z_of_byte_of_Z z : Z_of_byte (byte_of_Z z) = z mod 256.
Proof.
  unfold Z_of_byte, byte_of_Z.
  assert (Hr : 0 <= z mod 256 < 256) by (apply Z.mod_pos_bound; lia).
  destruct (Byte.of_N (Z.to_N (z mod 256))) as [b|] eqn:E.
  - apply Byte.to_of_N in E. rewrite E. lia.
  - apply Byte.of_N_None_iff in E. lia.
Qed.

Lemma be_decode_snoc bs b : be_decode (bs ++ [b]) = be_decode bs * 256 + Z_of_byte b.
Proof. unfold be_decode. rewrite fold_left_app. reflexivity. Qed.

Lemma length_be_encode n : forall v, length (be_encode n v) = n.
Proof.
  induction n as [|n IH]; intros v; simpl; [reflexivity|].
  rewrite length_app, IH. simpl. lia.
Qed.

Lemma be_decode_encode n : forall v, be_decode (be_encode n v) = v mod 256 ^ Z.of_nat n.
Proof.
  induction n as [|n IH]; intros v.
  - simpl. rewrite Z.mod_1_r. reflexivity.
  - cbn [be_encode]. rewrite be_decode_snoc, IH, Z_of_byte_of_Z.
    rewrite Nat2Z.inj_succ, Z.pow_succ_r by lia.
    assert (0 < 256 ^ Z.of_nat n) by (apply Z.pow_pos_nonneg; lia).
    rewrite (Z.rem_mul_r v 256 (256 ^ Z.of_nat n)) by lia.
    rewrite Z.mod_mod by lia. lia.
Qed.

Lemma modulus_pos f : 0 < modulus f.
Proof. unfold modulus. apply Z.pow_pos_nonneg; lia. Qed.

Lemma modulus_even f : size f <> 0%nat -> modulus f = 2 * (modulus f / 2).
Proof.
  unfold modulus. destruct (size f) as [|n]; [contradiction|]. intros _.
  rewrite Nat2Z.inj_succ, Z.pow_succ_r by lia.
  replace (256 * 256 ^ Z.of_nat n) with ((128 * 256 ^ Z.of_nat n) * 2) by lia.
  rewrite Z.div_mul by lia. lia.
Qed.

Lemma read_app n bs rest :
  length bs = n -> read n (bs ++ rest) = Ok (bs, rest).
Proof.
  intros <-. unfold read. rewrite length_app.
  destruct (length bs <=? length bs + length rest)%nat eqn:E;
    [|apply Nat.leb_gt in E; lia].
  rewrite take_app_length, drop_app_length. reflexivity.
Qed.

(** An integer that was built is read back. *)
Lemma parse_build_int f v bs rest :
  build_int f v = Ok bs -> parse_int f (bs ++ rest) = Ok (v, rest).
Proof.
  unfold build_int, parse_int. destruct (in_range f v) eqn:Hr; [|discriminate].
  intros H. inversion H; subst. unfold mbind, Parser_bind, mret, Parser_ret.
  rewrite read_app by apply length_be_encode.
  rewrite be_decode_encode. fold (modulus f).
  pose proof (modulus_pos f) as HM.
  rewrite Z.mod_mod by lia. do 2 f_equal.
  unfold in_range in Hr. destruct (signed f) eqn:Hs; cbn [andb].
  - destruct (size f) as [|n] eqn:Hn.
    + exfalso. unfold modulus in Hr. rewrite Hn in Hr.
      change (256 ^ Z.of_nat 0 / 2) with 0 in Hr. lia.
    + pose proof (modulus_even f ltac:(lia)) as He.
      destruct (Z.leb_spec (modulus f / 2) (v mod modulus f)) as [Hge|Hlt].
      * destruct (Z.lt_ge_cases v 0) as [Hneg|Hpos].
        -- rewrite <- (Z.mod_unique v (modulus f) (-1) (v + modulus f)); lia.
        -- rewrite Z.mod_small in Hge by lia. lia.
      * destruct (Z.lt_ge_cases v 0) as [Hneg|Hpos].
        -- rewrite <- (Z.mod_unique v (modulus f) (-1) (v + modulus f)) in Hlt; lia.
        -- apply Z.mod_small. lia.
  - apply Z.mod_small. lia.
Qed.

Lemma seq_build_ok a b bs :
  seq_build a b = Ok bs -> exists x y, a = Ok x /\ b = Ok y /\ bs = x ++ y.
Proof.
  unfold seq_build. destruct a as [x|]; [|discriminate].
  destruct b as [y|]; [|discriminate]. intros H. inversion H. eauto.
Qed.

(** An array whose elements are read back is read back. *)
Lemma parse_build_each {A} (b : Builder A) (p : Parser A) (objs : list A) :
  Forall (fun x => forall bs rest, b x = Ok bs -> p (bs ++ rest) = Ok (x, rest)) objs ->
  forall bs rest,
    build_each b objs = Ok bs ->
    parse_array (length objs) p (bs ++ rest) = Ok (objs, rest).
Proof.
  induction 1 as [|x xs Hx Hxs IH]; intros bs rest H; simpl in H.
  - inversion H. reflexivity.
  - apply seq_build_ok in H as (bx & bxs & Hbx & Hbxs & ->).
    cbn [length parse_array]. unfold mbind, Parser_bind.
    rewrite <- app_assoc, (Hx _ _ Hbx), (IH _ _ Hbxs). reflexivity.
Qed.

Lemma parse_build_array {A} (b : Builder A) (p : Parser A) (count : Z) (objs : list A) :
  Forall (fun x => forall bs rest, b x = Ok bs -> p (bs ++ rest) = Ok (x, rest)) objs ->
  forall bs rest,
    build_array count b objs = Ok bs ->
    count = Z.of_nat (length objs) /\
    parse_array (Z.to_nat count) p (bs ++ rest) = Ok (objs, rest).
Proof.
  intros Hobjs bs rest H. unfold build_array in H.
  destruct (count <? 0) eqn:Hc; [discriminate|].
  destruct (Z.of_nat (length objs) =? count) eqn:Hl; [|discriminate].
  cbn in H. apply Z.eqb_eq in Hl. subst count. split; [reflexivity|].
  rewrite Nat2Z.id. apply (parse_build_each b); assumption.
Qed.

End IntegerFields.

Section Structures.

Import Binary.

Lemma parse_build_G1Argument a bs rest :
  build_G1Argument a = Ok bs -> parse_G1Argument (bs ++ rest) = Ok (a, rest).
Proof.
  unfold build_G1Argument, parse_G1Argument. intros H.
  apply seq_build_ok in H as (b1 & b2 & H1 & H2 & ->).
  unfold mbind, Parser_bind. rewrite <- app_assoc.
  rewrite (parse_build_int _ _ _ _ H1), (parse_build_int _ _ _ _ H2).
  destruct a; reflexivity.
Qed.

Lemma parse_build_G1Instruction i bs rest :
  build_G1Instruction i = Ok bs -> parse_G1Instruction (bs ++ rest) = Ok (i, rest).
Proof.
  unfold build_G1Instruction, parse_G1Instruction. intros H.
  apply seq_build_ok in H as (b1 & b2 & H1 & H2 & ->).
  unfold mbind, Parser_bind. rewrite <- app_assoc, (parse_build_int _ _ _ _ H1).
  destruct (argument_count (id i)) as [count|e]; [|discriminate].
  destruct (parse_build_array build_G1Argument parse_G1Argument count (arguments i))
    with (bs := b2) (rest := rest) as [_ Hp]; [|exact H2|].
  - apply Forall_forall. intros a _ bs' rest'. apply parse_build_G1Argument.
  - rewrite Hp. destruct i; reflexivity.
Qed.

Lemma parse_build_G1DataEntry d bs rest :
  build_G1DataEntry d = Ok bs -> parse_G1DataEntry (bs ++ rest) = Ok (d, rest).
Proof.
  unfold build_G1DataEntry, parse_G1DataEntry. intros H.
  apply seq_build_ok in H as (b1 & r1 & H1 & H & ->).
  apply seq_build_ok in H as (b2 & b3 & H2 & H3 & ->).
  unfold mbind, Parser_bind. rewrite <- !app_assoc.
  rewrite (parse_build_int _ _ _ _ H1), (parse_build_int _ _ _ _ H2).
  destruct (parse_build_array (build_int Int32sb) (parse_int Int32sb) (data_size d) (values d))
    with (bs := b3) (rest := rest) as [_ Hp]; [|exact H3|].
  - apply Forall_forall. intros v _ bs' rest'. apply parse_build_int.
  - rewrite Hp. destruct d; reflexivity.
Qed.

Lemma parse_build_meta m bs rest :
  build_meta m = Ok bs -> parse_meta (bs ++ rest) = Ok (m, rest).
Proof.
  unfold build_meta, parse_meta. intros H.
  apply seq_build_ok in H as (b1 & r1 & H1 & H & ->).
  apply seq_build_ok in H as (b2 & r2 & H2 & H & ->).
  apply seq_build_ok in H as (b3 & b4 & H3 & H4 & ->).
  unfold mbind, Parser_bind. rewrite <- !app_assoc.
  rewrite (parse_build_int _ _ _ _ H1), (parse_build_int _ _ _ _ H2),
    (parse_build_int _ _ _ _ H3), (parse_build_int _ _ _ _ H4).
  destruct m; reflexivity.
Qed.

(** What [build] wrote, [parse] reads back, whatever follows it. *)
Lemma parse_build f bs rest :
  G1BinaryFormat_build f = Ok bs -> G1BinaryFormat_parse (bs ++ rest) = Ok f.
Proof.
  unfold G1BinaryFormat_build, G1BinaryFormat_parse. intros H.
  apply seq_build_ok in H as (b0 & r0 & H0 & H & ->).
  apply seq_build_ok in H as (b1 & r1 & H1 & H & ->).
  apply seq_build_ok in H as (b2 & r2 & H2 & H & ->).
  apply seq_build_ok in H as (b3 & r3 & H3 & H & ->).
  apply seq_build_ok in H as (b4 & r4 & H4 & H & ->).
  apply seq_build_ok in H as (b5 & r5 & H5 & H & ->).
  apply seq_build_ok in H as (b6 & b7 & H6 & H7 & ->).
  inversion H0; subst.
  unfold mbind, Parser_bind. rewrite <- !app_assoc.
  rewrite (read_app _ SIGNATURE) by reflexivity.
  replace (bytes_eqb SIGNATURE SIGNATURE) with true by reflexivity. cbn [negb].
  rewrite (parse_build_meta _ _ _ H1).
  rewrite (parse_build_int _ _ _ _ H2), (parse_build_int _ _ _ _ H3),
    (parse_build_int _ _ _ _ H4).
  destruct (parse_build_array build_G1Instruction parse_G1Instruction
              (instruction_count f) (f_instructions f))
    with (bs := b5) (rest := b6 ++ b7 ++ rest) as [_ Hp]; [|exact H5|].
  { apply Forall_forall. intros i _ bs' rest'. apply parse_build_G1Instruction. }
  rewrite Hp, (parse_build_int _ _ _ _ H6).
  destruct (parse_build_array build_G1DataEntry parse_G1DataEntry
              (data_entry_count f) (f_data f))
    with (bs := b7) (rest := rest) as [_ Hp']; [|exact H7|].
  { apply Forall_forall. intros d _ bs' rest'. apply parse_build_G1DataEntry. }
  rewrite Hp'. destruct f; reflexivity.
Qed.

End Structures.

Section RoundTrip.

Import Binary Codec.

Lemma build_int_fits f v : fits f v -> exists bs, build_int f v = Ok bs.
Proof. unfold fits, build_int. intros ->. eauto. Qed.

Lemma build_array_length {A} (b : Builder A) (objs : list A) :
  build_array (Z.of_nat (length objs)) b objs = build_each b objs.
Proof.
  unfold build_array. rewrite (proj2 (Z.ltb_ge _ _)) by lia.
  rewrite Z.eqb_refl. reflexivity.
Qed.

Lemma build_each_ok {A} (b : Builder A) (objs : list A) :
  Forall (fun x => exists bs, b x = Ok bs) objs -> exists bs, build_each b objs = Ok bs.
Proof.
  induction 1 as [|x xs [bx Hx] _ [bxs Hxs]]; simpl; [eauto|].
  rewrite Hx, Hxs. simpl. eauto.
Qed.

Lemma py_str_fits v : fits Int32sb v -> py_str v = Some (numeral v).
Proof.
  unfold fits, in_range. cbn [signed]. intros H. apply andb_prop in H as [Hlo Hhi].
  apply py_str_small.
  assert (Hm : modulus Int32sb / 2 = 2 ^ 31) by reflexivity. rewrite Hm in Hlo, Hhi.
  assert (2 ^ 31 < 2 ^ 4300) by (apply Z.pow_lt_mono_r; lia). lia.
Qed.

Lemma respell_operand a : valid_argument a -> operand_of (respell a) = operand_of a.
Proof.
  destruct a as [z|s]; [reflexivity|]. intros (v & Hv & _ & Hfit). simpl.
  rewrite Hv. simpl. rewrite py_int_numeral, (py_str_fits v Hfit). reflexivity.
Qed.

Lemma respell_canonical a : canonical_argument a -> respell a = a.
Proof.
  destruct a as [z|s]; [reflexivity|]. intros [v ->]. simpl.
  rewrite py_int_numeral. destruct (py_str v); reflexivity.
Qed.

(** What [format_json] makes of a valid argument is built, and converted
    back into the respelled argument. *)
Lemma argument_formatted a :
  valid_argument a ->
  exists va, verbose_argument a = Ok va /\
             (exists bs, build_G1Argument va = Ok bs) /\
             convert_argument va = Ok (respell a).
Proof.
  destruct a as [z|s]; simpl.
  - intros Hz. eexists. split; [reflexivity|]. split; [|reflexivity].
    unfold build_G1Argument. cbn [type arg_value].
    destruct (build_int_fits Int32sb z Hz) as [bs ->]. cbn. eauto.
  - intros (v & Hv & _ & Hfit). rewrite Hv. eexists. split; [reflexivity|].
    split.
    + unfold build_G1Argument. cbn [type arg_value].
      destruct (build_int_fits Int32sb v Hfit) as [bs ->]. cbn. eauto.
    + unfold convert_argument. cbn [type arg_value].
      rewrite (py_str_fits v Hfit). reflexivity.
Qed.

Lemma arguments_formatted args :
  Forall valid_argument args ->
  exists vas, mapM verbose_argument args = Ok vas /\
              length vas = length args /\
              (exists bs, build_each build_G1Argument vas = Ok bs) /\
              mapM convert_argument vas = Ok (map respell args).
Proof.
  induction 1 as [|a args Ha _ (vas & Hm & Hlen & [bs Hb] & Hc)].
  - exists []. repeat split; eauto.
  - destruct (argument_formatted a Ha) as (va & Hva & [ba Hba] & Hca).
    exists (va :: vas). simpl. rewrite Hva, Hm, Hba, Hb, Hca, Hc, Hlen. simpl.
    repeat split; eauto.
Qed.

(** The identifier of a known instruction: it fits a byte and leads back
    to the name and to the arity. *)
Lemma instruction_id name n :
  Instructions.ARGUMENT_COUNT_LOOKUP !! name = Some n ->
  exists i, INSTRUCTION_IDS !! name = Some i /\
            fits Int8ub i /\
            argument_count i = Ok (Z.of_nat n) /\
            py_index Instructions.INSTRUCTIONS i = Ok name.
Proof.
  intros H. apply elem_of_list_to_map_2 in H. cbn in H.
  repeat (apply elem_of_cons in H as [H|H];
          [inversion H; subst; eexists; split; [vm_compute; reflexivity|];
           repeat split; reflexivity|]).
  apply elem_of_nil in H. contradiction.
Qed.

Lemma instruction_formatted i :
  valid_instruction i ->
  exists vi, verbose_instruction i = Ok vi /\
             (exists bs, build_G1Instruction vi = Ok bs) /\
             convert_instruction vi = Ok (persisted_instruction i).
Proof.
  intros [Harity Hargs]. unfold verbose_instruction.
  destruct (arguments_formatted _ Hargs) as (vas & -> & Hlen & [bs Hb] & Hc).
  destruct (instruction_id _ _ Harity) as (n & -> & Hfit & Hcount & Hname).
  eexists. split; [reflexivity|]. split.
  - unfold build_G1Instruction. cbn [id arguments]. rewrite Hcount, <- Hlen.
    rewrite build_array_length, Hb.
    destruct (build_int_fits Int8ub n Hfit) as [b ->]. cbn. eauto.
  - unfold convert_instruction, persisted_instruction. cbn [id arguments].
    rewrite Hname, Hc. reflexivity.
Qed.

Lemma instructions_formatted instrs :
  Forall valid_instruction instrs ->
  exists vis, mapM verbose_instruction instrs = Ok vis /\
              length vis = length instrs /\
              (exists bs, build_each build_G1Instruction vis = Ok bs) /\
              mapM convert_instruction vis = Ok (map persisted_instruction instrs).
Proof.
  induction 1 as [|i instrs Hi _ (vis & Hm & Hlen & [bs Hb] & Hc)].
  - exists []. repeat split; eauto.
  - destruct (instruction_formatted i Hi) as (vi & Hvi & [bi Hbi] & Hci).
    exists (vi :: vis). simpl. rewrite Hvi, Hm, Hbi, Hb, Hci, Hc, Hlen. simpl.
    repeat split; eauto.
Qed.

Lemma entry_formatted e :
  valid_entry e -> exists bs, build_G1DataEntry (verbose_data_entry e) = Ok bs.
Proof.
  intros (Ha & Hn & Hvs). unfold build_G1DataEntry, verbose_data_entry.
  cbn [address data_size values].
  destruct (build_int_fits _ _ Ha) as [b1 ->].
  destruct (build_int_fits _ _ Hn) as [b2 ->].
  rewrite build_array_length.
  destruct (build_each_ok (build_int Int32sb) (snd e)) as [b3 ->]; [|cbn; eauto].
  eapply Forall_impl; [exact Hvs|]. intros v. apply build_int_fits.
Qed.

Lemma entries_formatted entries :
  Forall valid_entry entries ->
  exists bs, build_each build_G1DataEntry (map verbose_data_entry entries) = Ok bs.
Proof.
  intros H. apply build_each_ok. apply Forall_map.
  eapply Forall_impl; [exact H|]. intros e. apply entry_formatted.
Qed.

Lemma entries_converted entries :
  map (fun d => (address d, values d)) (map verbose_data_entry entries) = entries.
Proof.
  induction entries as [|[a vs] entries IH]; simpl; [reflexivity|].
  rewrite IH. reflexivity.
Qed.

Lemma index_stored o :
  valid_index o ->
  (exists bs, build_int Int32sb (default (-1) o) = Ok bs) /\
  (if default (-1) o =? -1 then None else Some (default (-1) o)) = o.
Proof.
  destruct o as [i|]; simpl.
  - intros [Hpos Hfit]. split; [apply build_int_fits; exact Hfit|].
    destruct (i =? -1) eqn:E; [lia|reflexivity].
  - intros _. split; [eexists; reflexivity|reflexivity].
Qed.

End RoundTrip.

(** A valid program is encoded, and its file decodes to the program
    [persisted] describes. *)
Lemma valid_program_decoded (p : program) :
  Codec.valid_program p ->
  exists file_content,
    Binary.encode p = Ok file_content /\
    Binary.parse_to_program_data file_content = Ok (Codec.persisted p).
Proof.
  destruct p as [m instrs st tk d src count].
  intros (Hmeta & Hstart & Htick & Hcount & Hinstrs & Hdata). cbn in *.
  destruct Hmeta as (Hm1 & Hm2 & Hm3 & Hm4).
  destruct (instructions_formatted _ Hinstrs) as (vis & Hvis & Hlen & [bi Hbi] & Hconv).
  destruct (index_stored _ Hstart) as [[bstart Hbstart] Hstart'].
  destruct (index_stored _ Htick) as [[btick Hbtick] Htick'].
  destruct (build_int_fits _ _ Hm1) as [bm1 Hbm1].
  destruct (build_int_fits _ _ Hm2) as [bm2 Hbm2].
  destruct (build_int_fits _ _ Hm3) as [bm3 Hbm3].
  destruct (build_int_fits _ _ Hm4) as [bm4 Hbm4].
  destruct (build_int_fits _ _ Hcount) as [bc Hbc].
  set (entries := match d with Some (Some l) => l | _ => [] end).
  assert (Hentries : exists bn bd,
            Binary.build_int Binary.Int32ub (Z.of_nat (length entries)) = Ok bn /\
            Binary.build_each Binary.build_G1DataEntry
              (map Binary.verbose_data_entry entries) = Ok bd).
  { unfold entries. destruct d as [[l|]|]; simpl in Hdata.
    - destruct Hdata as [Hn Hl].
      destruct (build_int_fits _ _ Hn) as [bn ->].
      destruct (entries_formatted _ Hl) as [bd ->]. eauto.
    - contradiction.
    - do 2 eexists. split; reflexivity. }
  destruct Hentries as (bn & bd & Hbn & Hbd).
  set (f := Binary.VProgram m (default (-1) tk) (default (-1) st)
              (Z.of_nat (length instrs)) vis
              (Z.of_nat (length entries)) (map Binary.verbose_data_entry entries)).
  assert (Hformat : Binary.format_json (Program m instrs st tk d src count) = Ok f).
  { unfold Binary.format_json. cbn [p_instructions p_meta p_tick p_start p_data].
    rewrite Hvis. unfold f, entries. destruct d as [[l|]|]; simpl in Hdata.
    - rewrite length_map. reflexivity.
    - contradiction.
    - reflexivity. }
  assert (Hbuild : exists bs, Binary.G1BinaryFormat_build f = Ok bs).
  { unfold Binary.G1BinaryFormat_build, Binary.build_meta, f.
    cbn [Binary.f_meta Binary.f_tick Binary.f_start Binary.instruction_count
         Binary.f_instructions Binary.data_entry_count Binary.f_data
         meta_memory meta_width meta_height meta_tickrate].
    rewrite Hbm1, Hbm2, Hbm3, Hbm4, Hbtick, Hbstart, Hbc, Hbn.
    rewrite <- Hlen, build_array_length, Hbi.
    rewrite <- (length_map Binary.verbose_data_entry entries).
    rewrite build_array_length, Hbd. cbn. eauto. }
  destruct Hbuild as [bs Hbuild].
  exists bs. split; [unfold Binary.encode; rewrite Hformat, Hbuild; reflexivity|].
  unfold Binary.parse_to_program_data.
  rewrite <- (app_nil_r bs), (parse_build _ _ [] Hbuild). unfold f.
  cbn [Binary.f_meta Binary.f_tick Binary.f_start Binary.f_instructions Binary.f_data
       Binary.data_entry_count].
  rewrite Hconv, Hstart', Htick'. unfold Codec.persisted.
  cbn [p_instructions p_meta p_tick p_start p_data]. f_equal.
  unfold entries. destruct d as [[[|e l]|]|]; try reflexivity.
  change (map Binary.verbose_data_entry (e :: l))
    with (Binary.verbose_data_entry e :: map Binary.verbose_data_entry l).
  cbv iota.
  change (Binary.verbose_data_entry e :: map Binary.verbose_data_entry l)
    with (map Binary.verbose_data_entry (e :: l)).
  rewrite entries_converted. reflexivity.
Qed.

(** C2 (as amended).  A valid program is encoded, and the file decodes
    to a program with the same meta header, the same entry indices (an
    absent one went through -1 and is absent again), the same data
    entries (an empty list is dropped), and, instruction by instruction,
    the same name, no line number, and the same arguments except that an
    address comes back spelled [$] and the decimal numeral of its number.
    The source text is gone.  So the instructions denote the same
    operands, and they are the ones of the input wherever the input
    spells its addresses that way. *)
Theorem binary_round_trip (p : program) :
  Codec.valid_program p ->
  exists file_content q,
    Binary.encode p = Ok file_content /\
    Binary.parse_to_program_data file_content = Ok q /\
    p_meta q = p_meta p /\ p_start q = p_start p /\ p_tick q = p_tick p /\
    Forall2 (fun i j =>
               ins_name j = ins_name i /\ ins_line j = None /\
               Forall2 (fun a b =>
                          match a with
                          | AInt z => b = AInt z
                          | AStr s => exists v, py_int (tail_str s) = Some v /\
                                                b = AStr (String "$" (numeral v))
                          end) (ins_args i) (ins_args j))
            (p_instructions p) (p_instructions q) /\
    p_data q = match p_data p with
               | Some (Some (e :: entries)) => Some (Some (e :: entries))
               | _ => None
               end /\
    p_source q = None /\
    Codec.same_program p q /\
    (Codec.canonical p -> p_instructions q = p_instructions (Codec.stripped p)).
Proof.
  intros Hvalid.
  destruct (valid_program_decoded p Hvalid) as (file_content & Hencode & Hdecode).
  destruct Hvalid as (_ & _ & _ & _ & Hinstrs & _).
  exists file_content, (Codec.persisted p).
  split; [exact Hencode|]. split; [exact Hdecode|].
  split; [reflexivity|]. split; [reflexivity|]. split; [reflexivity|].
  split; [|split; [reflexivity|split; [reflexivity|split]]].
  - unfold Codec.persisted. cbn [p_instructions].
    apply Forall2_fmap_r. apply Forall_Forall2_diag.
    eapply Forall_impl; [exact Hinstrs|]. intros i [_ Hargs].
    split; [reflexivity|]. split; [reflexivity|].
    cbn [Codec.persisted_instruction ins_args].
    apply Forall2_fmap_r. apply Forall_Forall2_diag.
    eapply Forall_impl; [exact Hargs|].
    intros [z|s]; [reflexivity|]. intros (v & Hv & _).
    exists v. split; [exact Hv|]. cbn [Codec.respell]. rewrite Hv. reflexivity.
  - unfold Codec.same_program, Codec.persisted.
    cbn [p_meta p_start p_tick p_instructions p_data].
    repeat split.
    + apply Forall2_fmap_r. apply Forall_Forall2_diag.
      eapply Forall_impl; [exact Hinstrs|]. intros i [_ Hargs]. split; [reflexivity|].
      cbn [Codec.persisted_instruction ins_args]. rewrite map_map.
      apply map_ext_Forall. eapply Forall_impl; [exact Hargs|].
      intros a Ha. symmetry. apply respell_operand. exact Ha.
    + unfold Codec.data_entries. cbn [p_data].
      destruct (p_data p) as [[[|e l]|]|]; reflexivity.
  - intros Hcanon. unfold Codec.persisted, Codec.stripped. cbn [p_instructions].
    apply map_ext_Forall. eapply Forall_impl; [exact Hcanon|].
    intros i Hi. unfold Codec.persisted_instruction. f_equal.
    rewrite <- (map_id (ins_args i)) at 2.
    apply map_ext_Forall. eapply Forall_impl; [exact Hi|].
    intros a Ha. apply respell_canonical. exact Ha.
Qed.

Lemma debug_program_valid : Codec.valid_program Examples.debug_program.
Proof.
  unfold Codec.valid_program, Codec.valid_meta, Codec.valid_index, Codec.valid_data,
    Codec.fits. cbn.
  repeat split; try reflexivity; try lia.
  - apply Forall_cons_2; [|apply Forall_cons_2; [|apply Forall_nil_2]].
    + split; [reflexivity|].
      apply Forall_cons_2; [reflexivity|].
      apply Forall_cons_2; [|apply Forall_nil_2].
      exists 7. split; [reflexivity|]. split; [lia|reflexivity].
    + split; [reflexivity|].
      apply Forall_cons_2; [reflexivity|].
      apply Forall_cons_2; [reflexivity|apply Forall_nil_2].
  - apply Forall_cons_2; [|apply Forall_nil_2].
    split; [reflexivity|]. split; [reflexivity|].
    repeat (apply Forall_cons_2; [reflexivity|]). apply Forall_nil_2.
Defined.

(** Witness of [binary_round_trip]: a debug-mode program with an address
    spelled [$007], an absent start index and one data entry. *)
Lemma binary_round_trip_witness :
  exists file_content q,
    Binary.encode Examples.debug_program = Ok file_content /\
    Binary.parse_to_program_data file_content = Ok q /\
    p_meta q = Meta 128 100 100 60 /\ p_start q = None /\ p_tick q = Some 0 /\
    p_data q = Some (Some [(3, [1; -2; 3])]) /\
    p_source q = None /\
    Codec.same_program Examples.debug_program q.
Proof.
  destruct (binary_round_trip Examples.debug_program debug_program_valid)
    as (file_content & q & Hencode & Hdecode & Hmeta & Hstart & Htick & _ &
        Hdata & Hsource & Hsame & _).
  exists file_content, q.
  split; [exact Hencode|]. split; [exact Hdecode|]. split; [exact Hmeta|].
  split; [exact Hstart|]. split; [exact Htick|]. split; [exact Hdata|].
  split; [exact Hsource|exact Hsame].
Defined.

(** The decoded program of the witness, evaluated: the address is
    spelled [$7], and the key ['data_entry_count'] of the parsed file is
    still there, since the data are not empty. *)
Lemma debug_program_decoded :
  exists file_content,
    Binary.encode Examples.debug_program = Ok file_content /\
    Binary.parse_to_program_data file_content =
      Ok (Program (Meta 128 100 100 60)
            [Instruction "mov" [AInt 20; AStr "$7"] None;
             Instruction "jmp" [AInt 0; AInt (-1)] None]
            None (Some 0) (Some (Some [(3, [1; -2; 3])])) None (Some 1)).
Proof. exact (valid_program_decoded Examples.debug_program debug_program_valid). Qed.

Lemma padded_address_valid : Codec.valid_program Examples.padded_address.
Proof.
  unfold Codec.valid_program, Codec.valid_meta, Codec.valid_index, Codec.valid_data,
    Codec.fits. cbn.
  repeat split; try reflexivity.
  apply Forall_cons_2; [|apply Forall_nil_2].
  split; [reflexivity|].
  apply Forall_cons_2; [reflexivity|].
  apply Forall_cons_2; [|apply Forall_nil_2].
  exists 7. split; [reflexivity|]. split; [lia|reflexivity].
Qed.

(** C2, counterexample to the claim as stated: [mov 20 $007] assembles
    to a valid program without debug fields, data or entry indices, so
    that none of the three exceptions applies; it is encoded, and the file
    decodes to a program that is not the input: its address is [$7]. *)
Lemma respelled_address_counterexample :
  Pipeline.assemble_source "mov 20 $007" false =
    Ok (Examples.padded_address, [Assembler.TickNotFound]) /\
  Codec.valid_program Examples.padded_address /\
  Codec.stripped Examples.padded_address = Examples.padded_address /\
  exists file_content q,
    Binary.encode Examples.padded_address = Ok file_content /\
    Binary.parse_to_program_data file_content = Ok q /\
    p_instructions q = [Instruction "mov" [AInt 20; AStr "$7"] None] /\
    q <> Examples.padded_address.
Proof.
  split; [vm_compute; reflexivity|]. split; [exact padded_address_valid|].
  split; [reflexivity|].
  destruct (valid_program_decoded _ padded_address_valid) as (file_content & He & Hd).
  exists file_content, (Codec.persisted Examples.padded_address).
  split; [exact He|]. split; [exact Hd|]. split; [reflexivity|]. discriminate.
Qed.

(** * Further properties *)

(** ** The memory of the machine *)

Section MemoryCells.

Import VM.

Lemma memset_in_bounds c index value :
  out_of_bounds c index = false ->
  memset index value c = (Ok tt, set_memory c (<[Z.to_nat index := value]> (memory c))).
Proof. unfold memset. intros ->. reflexivity. Qed.

Lemma memget_in_bounds c index :
  out_of_bounds c index = false ->
  exists v, memory c !! Z.to_nat index = Some v /\ memget index c = (Ok v, c).
Proof.
  unfold memget. intros H. rewrite H. unfold out_of_bounds in H.
  destruct (lookup_lt_is_Some_2 (memory c) (Z.to_nat index)) as [v Hv]; [lia|].
  exists v. rewrite Hv. auto.
Qed.

(** A message that names an index and stops the program: the
    [ValueError] of [str] when the index has too many digits for it, and
    otherwise the runtime error, left through [sys.exit] when the source
    line can be printed. *)
Lemma index_error_cases {A} index message c :
  (10 ^ 4300 <= Z.abs index /\
   format_index index (@error A message) c =
     (Err (Uncaught (ValueError (numeral index))), c)) \/
  (Z.abs index < 10 ^ 4300 /\ Machine.source_known c /\
   format_index index (@error A message) c = (Err (RuntimeError message), c)) \/
  (Z.abs index < 10 ^ 4300 /\ ~ Machine.source_known c /\
   exists e, source_line c = Err e /\
     format_index index (@error A message) c = (Err (ErrorRaised message e), c)).
Proof.
  unfold format_index. destruct (py_str index) as [text|] eqn:Hstr.
  - assert (Hlt : Z.abs index < 10 ^ 4300).
    { destruct (Z.lt_ge_cases (Z.abs index) (10 ^ 4300)) as [Hlt|Hge]; [exact Hlt|].
      apply py_str_limit in Hge. congruence. }
    right. destruct (@error_cases A message c) as [(o & Ho & ->)|(e & He & ->)].
    + left. split; [exact Hlt|]. split; [|reflexivity].
      apply source_known_line. eauto.
    + right. split; [exact Hlt|]. split; [|eauto].
      intros Hk. apply source_known_line in Hk as [o Ho]. congruence.
  - left. split; [apply py_str_limit; exact Hstr|reflexivity].
Qed.

Lemma source_line_memory c m : source_line (set_memory c m) = source_line c.
Proof. reflexivity. Qed.

Lemma error_memory {A} message c m :
  fst (@error A message (set_memory c m)) = fst (@error A message c).
Proof.
  unfold error. rewrite source_line_memory. destruct (source_line c); reflexivity.
Qed.

End MemoryCells.

(** X1.  A write into a cell of the memory succeeds, the cell then reads
    back the value written, every other index reads as before, and the
    memory keeps its length.  A write or a read outside the memory stops
    the program and changes nothing: with the runtime error that names
    the index, left through [sys.exit], when the index has at most 4300
    digits and the source line, if the program has a source text, can be
    printed; with an exception raised after that message when the source
    line cannot be printed; with the [ValueError] of [str], before any
    message, when the index has more than 4300 digits. *)
Theorem memset_memget (c : VM.ProgramContext) (index value : Z) :
  (VM.out_of_bounds c index = false ->
   let c' := snd (VM.memset index value c) in
   fst (VM.memset index value c) = Ok tt /\
   VM.memget index c' = (Ok value, c') /\
   length (VM.memory c') = length (VM.memory c) /\
   (forall other, other <> index ->
      fst (VM.memget other c') = fst (VM.memget other c))) /\
  (VM.out_of_bounds c index = true ->
   exists f g,
     VM.memset index value c = (Err f, c) /\
     VM.memget index c = (Err g, c) /\
     (Z.abs index < 10 ^ 4300 -> Machine.source_known c ->
      f = VM.RuntimeError (VM.SetOutOfBounds index) /\
      g = VM.RuntimeError (VM.GetOutOfBounds index)) /\
     (Z.abs index < 10 ^ 4300 -> ~ Machine.source_known c ->
      exists e, f = VM.ErrorRaised (VM.SetOutOfBounds index) e /\
                g = VM.ErrorRaised (VM.GetOutOfBounds index) e) /\
     (10 ^ 4300 <= Z.abs index ->
      f = VM.Uncaught (ValueError (numeral index)) /\
      g = VM.Uncaught (ValueError (numeral index)))).
Proof.
  split.
  - intros Hin c'. unfold c'. rewrite (memset_in_bounds _ _ _ Hin). cbn [fst snd].
    assert (Hlen : length (VM.memory (VM.set_memory c (<[Z.to_nat index:=value]> (VM.memory c))))
                   = length (VM.memory c)) by (cbn; apply length_insert).
    split; [reflexivity|]. split; [|split; [exact Hlen|]].
    + unfold VM.memget, VM.out_of_bounds in *. rewrite Hlen, Hin. cbn [VM.memory VM.set_memory].
      rewrite list_lookup_insert_eq by lia. reflexivity.
    + intros other Hne. unfold VM.memget, VM.out_of_bounds in *. rewrite Hlen.
      destruct ((other <? 0) || (Z.of_nat (length (VM.memory c)) <=? other)) eqn:Ho.
      * unfold VM.format_index, VM.raise.
        destruct (py_str other); [apply error_memory|reflexivity].
      * cbn [VM.memory VM.set_memory]. rewrite list_lookup_insert_ne by lia.
        destruct (VM.memory c !! Z.to_nat other); reflexivity.
  - intros Hout. unfold VM.memset, VM.memget. rewrite Hout.
    destruct (@index_error_cases unit index (VM.SetOutOfBounds index) c)
      as [[Hs ->]|[(Hs & Hk & ->)|(Hs & Hk & e & He & ->)]];
      destruct (@index_error_cases Z index (VM.GetOutOfBounds index) c)
      as [[Hs' ->]|[(Hs' & Hk' & ->)|(Hs' & Hk' & e' & He' & ->)]];
      try contradiction; try (exfalso; generalize dependent (10 ^ 4300); intros; lia);
      do 2 eexists; (split; [reflexivity|]); (split; [reflexivity|]).
    + split; [intros; exfalso; generalize dependent (10 ^ 4300); intros; lia|].
      split; [intros; exfalso; generalize dependent (10 ^ 4300); intros; lia|].
      intros _. split; reflexivity.
    + split; [intros _ _; split; reflexivity|]. split; [contradiction|].
      intros; exfalso; generalize dependent (10 ^ 4300); intros; lia.
    + split; [contradiction|]. split;
        [|intros; exfalso; generalize dependent (10 ^ 4300); intros; lia].
      intros _ _. exists e. split; [reflexivity|]. congruence.
Qed.

(** Witness of [memset_memget]: cell 5 of a fresh memory of 128 cells, and
    index 128 outside it. *)
Lemma memset_memget_witness :
  let c := Examples.fresh_context (Examples.one_instruction (Examples.jmp 0 0)) in
  VM.memget 5 (snd (VM.memset 5 42 c)) = (Ok 42, snd (VM.memset 5 42 c)) /\
  exists f g,
    VM.memset 128 42 c = (Err f, c) /\ VM.memget 128 c = (Err g, c) /\
    f = VM.RuntimeError (VM.SetOutOfBounds 128) /\
    g = VM.RuntimeError (VM.GetOutOfBounds 128).
Proof.
  split.
  - exact (proj1 (proj2 (proj1 (memset_memget
             (Examples.fresh_context (Examples.one_instruction (Examples.jmp 0 0))) 5 42)
             eq_refl))).
  - destruct (proj2 (memset_memget
             (Examples.fresh_context (Examples.one_instruction (Examples.jmp 0 0))) 128 42)
             eq_refl) as (f & g & Hset & Hget & Hknown & _).
    exists f, g. split; [exact Hset|]. split; [exact Hget|].
    apply Hknown; [vm_compute; reflexivity|exact I].
Defined.

(** ** What one instruction can do *)

Section Effects.

Import VM Machine.

Lemma instruction_effect name (f : list Z -> M (option Z)) args c :
  INSTRUCTION_LOOKUP !! name = Some f -> effect name c (f args c).
Proof.
  intros H. apply elem_of_list_to_map_2 in H. cbn in H.
  repeat (apply elem_of_cons in H as [H|H];
          [inversion H; subst; clear H; run_instruction;
           first [ apply effect_fault
                 | apply effect_write; [reflexivity|assumption]
                 | apply effect_jump; reflexivity
                 | apply effect_color; reflexivity
                 | apply effect_draw; auto
                 | apply effect_print; reflexivity ]|]).
  apply elem_of_nil in H. contradiction.
Qed.


(** The turn of the loop: a fault that leaves the context as it is, or
    the effect of the instruction fetched followed by the move of the
    program counter; a skipped [log] only moves the program counter. *)
Lemma cycle_effect dl c :
  (exists e, cycle dl c = (Err e, c)) \/
  (exists ins r c1,
     py_index (p_instructions (program_data c)) (program_counter c) = Ok ins /\
     (effect (ins_name ins) c (Ok r, c1) \/
      (dl = true /\ ins_name ins = "log" /\ r = None /\ c1 = c)) /\
     cycle dl c =
       (Ok tt, set_program_counter c1
                 (match r with
                  | Some pc => pc
                  | None => program_counter c1 + 1
                  end))).
Proof.
  unfold cycle.
  destruct (py_index (p_instructions (program_data c)) (program_counter c))
    as [ins|e] eqn:Hfetch; [|left; eauto].
  destruct (dl && String.eqb (ins_name ins) "log") eqn:Hskip.
  - right. apply andb_true_iff in Hskip as [-> Hlog]. apply String.eqb_eq in Hlog.
    exists ins, None, c. split; [reflexivity|]. split; [right; auto|reflexivity].
  - unfold mbind, M_bind, bind.
    pose proof (parse_arguments_context (ins_args ins) c) as Hctx.
    destruct (parse_arguments (ins_args ins) c) as [[vs|e] c0]; simpl in Hctx; subst c0;
      [|left; eauto].
    destruct (INSTRUCTION_LOOKUP !! ins_name ins) as [f|] eqn:Hf; [|left; eauto].
    pose proof (instruction_effect _ f vs c Hf) as Heff.
    destruct (f vs c) as [[r|e] c1] eqn:Hrun.
    + right. exists ins, r, c1. split; [reflexivity|]. split; [left; exact Heff|].
      unfold update. destruct r; reflexivity.
    + left. inversion Heff; subst. eauto.
Qed.

End Effects.

Section Turns.

Import VM Machine.

Lemma py_index_elem {A} (l : list A) i x : py_index l i = Ok x -> x ∈ l.
Proof.
  unfold py_index. destruct (_ || _); [discriminate|].
  destruct (l !! _) eqn:E; [|discriminate]. intros H. inversion H; subst.
  eapply list_elem_of_lookup_2. exact E.
Qed.

(** An effect keeps the program, the program counter and the length of
    the memory. *)
Lemma effect_shape name c r c1 :
  effect name c (r, c1) ->
  program_data c1 = program_data c /\
  program_counter c1 = program_counter c /\
  length (memory c1) = length (memory c).
Proof.
  intros H. inversion H; subst; cbn; repeat split; try reflexivity.
  apply length_insert.
Qed.

Lemma effect_no_jump name c r c1 :
  effect name c (Ok r, c1) -> name <> "jmp" -> r = None.
Proof. intros H Hn. inversion H; subst; try reflexivity. contradiction. Qed.

End Turns.

Lemma turn_shape (disable_log : bool) (c : VM.ProgramContext) :
  p_instructions (VM.program_data (snd (VM.cycle disable_log c)))
    = p_instructions (VM.program_data c) /\
  length (VM.memory (snd (VM.cycle disable_log c))) = length (VM.memory c).
Proof.
  destruct (cycle_effect disable_log c) as [[e ->]|(ins & r & c1 & Hfetch & Heff & ->)].
  - cbn. auto.
  - cbn [fst snd]. destruct Heff as [Heff|(_ & _ & _ & ->)]; [|cbn; auto].
    destruct (effect_shape _ _ _ _ Heff) as (Hpd & _ & Hlen).
    cbn. rewrite Hpd. auto.
Qed.

(** X2.  One turn of the loop keeps the program and the length of the
    memory, and writes at most one memory cell: either the memory is as
    before, or the instruction fetched is an assignment instruction and
    one cell inside the memory has a new value.  A turn that faults leaves
    the whole context as it was. *)
Theorem turn_writes_one_cell (disable_log : bool) (c : VM.ProgramContext) :
  let c' := snd (VM.cycle disable_log c) in
  p_instructions (VM.program_data c') = p_instructions (VM.program_data c) /\
  length (VM.memory c') = length (VM.memory c) /\
  (VM.memory c' = VM.memory c \/
   exists ins index value,
     py_index (p_instructions (VM.program_data c)) (VM.program_counter c) = Ok ins /\
     Assembler.mem_string (ins_name ins) Assembler.ASSIGNMENT_INSTRUCTIONS = true /\
     VM.out_of_bounds c index = false /\
     VM.memory c' = <[Z.to_nat index := value]> (VM.memory c)) /\
  (forall e, fst (VM.cycle disable_log c) = Err e -> c' = c).
Proof.
  intros c'. unfold c'.
  destruct (cycle_effect disable_log c) as [[e ->]|(ins & r & c1 & Hfetch & Heff & ->)].
  - cbn. repeat split; auto.
  - cbn [fst snd]. destruct Heff as [Heff|(_ & _ & _ & ->)].
    + destruct (effect_shape _ _ _ _ Heff) as (Hpd & _ & Hlen).
      cbn. rewrite Hpd. split; [reflexivity|]. split; [exact Hlen|]. split; [|discriminate].
      inversion Heff; subst; cbn; auto.
      right. exists ins, index, value. auto.
    + cbn. repeat split; auto. discriminate.
Qed.

(** X3.  However a run of the loop ends, the program is the one it was
    started with and the memory has the length it had; when the run ends
    normally the program counter is at or beyond the end of the
    instructions. *)
Theorem run_keeps_shape (fuel : nat) (disable_log : bool) (c c' : VM.ProgramContext)
    (r : result VM.fault unit) :
  VM.run_loop fuel disable_log c = Some (r, c') ->
  p_instructions (VM.program_data c') = p_instructions (VM.program_data c) /\
  length (VM.memory c') = length (VM.memory c) /\
  (r = Ok tt ->
   Z.of_nat (length (p_instructions (VM.program_data c'))) <= VM.program_counter c').
Proof.
  revert c. induction fuel as [|fuel IH]; intros c H; simpl in H.
  - destruct (_ <=? _) eqn:E; [|discriminate]. inversion H; subst.
    repeat split. intros _. lia.
  - destruct (_ <=? _) eqn:E.
    + inversion H; subst. repeat split. intros _. lia.
    + destruct (turn_shape disable_log c) as [Hpd Hlen].
      destruct (VM.cycle disable_log c) as [[[]|e] c1] eqn:Hc; cbn [snd] in *.
      * destruct (IH _ H) as (Hpd' & Hlen' & Hend).
        split; [congruence|]. split; [congruence|exact Hend].
      * inversion H; subst. split; [exact Hpd|]. split; [exact Hlen|discriminate].
Qed.

(** Witness of [run_keeps_shape]: the run of [jmp 0 0] from index 0. *)
Lemma run_keeps_shape_witness :
  let c := Examples.fresh_context (Examples.one_instruction (Examples.jmp 0 0)) in
  p_instructions (VM.program_data (VM.set_program_counter c 1))
    = p_instructions (VM.program_data c) /\
  length (VM.memory (VM.set_program_counter c 1)) = length (VM.memory c) /\
  ((Ok tt : result VM.fault unit) = Ok tt ->
   Z.of_nat (length (p_instructions (VM.program_data (VM.set_program_counter c 1)))) <= 1).
Proof.
  exact (run_keeps_shape 1 false
           (Examples.fresh_context (Examples.one_instruction (Examples.jmp 0 0)))
           (VM.set_program_counter
              (Examples.fresh_context (Examples.one_instruction (Examples.jmp 0 0))) 1)
           (Ok tt) eq_refl).
Defined.

(** X4.  A program without [jmp] cannot loop: from the program counter
    [pc] a run takes at most [len(instructions) - pc] turns, so that much
    fuel always gives an outcome. *)
Theorem jump_free_run_ends (fuel : nat) (disable_log : bool) (c : VM.ProgramContext) :
  Machine.jump_free (VM.program_data c) ->
  (Z.to_nat (Z.of_nat (length (p_instructions (VM.program_data c)))
             - VM.program_counter c) <= fuel)%nat ->
  exists r c', VM.run_loop fuel disable_log c = Some (r, c').
Proof.
  revert c. induction fuel as [|fuel IH]; intros c Hfree Hfuel; simpl.
  - destruct (_ <=? _) eqn:E; [eauto|lia].
  - destruct (_ <=? _) eqn:E; [eauto|].
    destruct (cycle_effect disable_log c) as [[e ->]|(ins & r & c1 & Hfetch & Heff & ->)];
      [eauto|].
    assert (Hname : ins_name ins <> "jmp").
    { apply py_index_elem in Hfetch. unfold Machine.jump_free in Hfree.
      rewrite Forall_forall in Hfree. exact (Hfree ins Hfetch). }
    assert (Hstep : r = None /\ VM.program_data c1 = VM.program_data c /\
                    VM.program_counter c1 = VM.program_counter c).
    { destruct Heff as [Heff|(_ & _ & -> & ->)]; [|auto].
      destruct (effect_shape _ _ _ _ Heff) as (Hpd & Hpc & _).
      split; [|auto]. destruct r as [pc|]; [|reflexivity].
      exact (effect_no_jump _ _ _ _ Heff Hname). }
    destruct Hstep as (-> & Hpd & Hpc).
    apply IH.
    + unfold Machine.jump_free in *. cbn. rewrite Hpd. exact Hfree.
    + cbn. rewrite Hpd, Hpc. lia.
Qed.

(** Witness of [jump_free_run_ends]: the assembled program [mov 5 10],
    [mov 6 $5] ends within two turns. *)
Lemma jump_free_run_ends_witness :
  exists r c',
    VM.run_loop 2 false
      (Examples.fresh_context
         (Program Assembler.META_VARIABLES
            [Instruction "mov" [AInt 5; AInt 10] None;
             Instruction "mov" [AInt 6; AStr "$5"] None] None None None None None))
    = Some (r, c').
Proof.
  apply jump_free_run_ends.
  - repeat (apply Forall_cons_2; [discriminate|]). apply Forall_nil_2.
  - vm_compute. lia.
Defined.

(** X5.  A [jmp] whose decoded target is its own index and whose decoded
    condition is not zero never lets the run end: no amount of fuel gives
    an outcome. *)
Theorem self_jump_never_ends (fuel : nat) (disable_log : bool)
    (c : VM.ProgramContext) (ins : instruction) (cond : Z) (more : list Z) :
  py_index (p_instructions (VM.program_data c)) (VM.program_counter c) = Ok ins ->
  ins_name ins = "jmp" ->
  fst (VM.parse_arguments (ins_args ins) c) = Ok (VM.program_counter c :: cond :: more) ->
  cond <> 0 ->
  VM.run_loop fuel disable_log c = None.
Proof.
  intros Hfetch Hname Hargs Hcond.
  pose proof (jmp_cycle disable_log c ins _ cond more Hfetch Hname Hargs) as Hcycle.
  assert (Hc : (cond =? 0) = false) by lia. rewrite Hc in Hcycle.
  assert (Hsame : VM.set_program_counter c (VM.program_counter c) = c)
    by (destruct c; reflexivity).
  rewrite Hsame in Hcycle.
  pose proof (py_index_bounds _ _ _ Hfetch) as Hpc.
  induction fuel as [|fuel IH]; simpl.
  - destruct (_ <=? _) eqn:E; [lia|reflexivity].
  - destruct (_ <=? _) eqn:E; [lia|]. rewrite Hcycle. exact IH.
Qed.

(** Witness of [self_jump_never_ends]: [jmp 0 1] at index 0. *)
Lemma self_jump_never_ends_witness :
  VM.run_loop 1000 false
    (Examples.fresh_context (Examples.one_instruction (Examples.jmp 0 1))) = None.
Proof.
  exact (self_jump_never_ends 1000 false
           (Examples.fresh_context (Examples.one_instruction (Examples.jmp 0 1)))
           (Examples.jmp 0 1) 1 [] eq_refl eq_refl eq_refl ltac:(discriminate)).
Defined.

(** ** Runs with [log] disabled *)

Section DisableLog.

Import VM Machine.

Lemma blind_bind {A B} (m : M A) (k : A -> M B) :
  stdout_blind m -> (forall a, stdout_blind (k a)) -> stdout_blind (bind m k).
Proof.
  intros Hm Hk s c. unfold bind. rewrite Hm.
  destruct (m c) as [[a|e] c1]; cbn [fst snd]; [apply Hk|reflexivity].
Qed.

Lemma blind_ret {A} (a : A) : stdout_blind (ret a).
Proof. intros s c. reflexivity. Qed.

Lemma blind_raise {A} e : stdout_blind (@raise A e).
Proof. intros s c. reflexivity. Qed.

Lemma blind_at args i : stdout_blind (at_ args i).
Proof. unfold at_. destruct (args !! i); [apply blind_ret|apply blind_raise]. Qed.

Lemma blind_error {A} message : stdout_blind (@error A message).
Proof.
  intros s c. unfold error.
  change (source_line (put_stdout s c)) with (source_line c).
  destruct (source_line c); reflexivity.
Qed.

Lemma blind_format_index {A} index (k : M A) :
  stdout_blind k -> stdout_blind (format_index index k).
Proof.
  unfold format_index. destruct (py_str index); [exact id|intros _; apply blind_raise].
Qed.

Lemma blind_memget index : stdout_blind (memget index).
Proof.
  intros s c. unfold memget.
  change (out_of_bounds (put_stdout s c) index) with (out_of_bounds c index).
  change (memory (put_stdout s c)) with (memory c).
  destruct (out_of_bounds c index);
    [apply (blind_format_index index _ (blind_error _))|].
  destruct (memory c !! _); reflexivity.
Qed.

Lemma blind_memset index value : stdout_blind (memset index value).
Proof.
  intros s c. unfold memset.
  change (out_of_bounds (put_stdout s c) index) with (out_of_bounds c index).
  destruct (out_of_bounds c index);
    [apply (blind_format_index index _ (blind_error _))|reflexivity].
Qed.

Lemma blind_set_color k : stdout_blind (update (fun c => set_color c k)).
Proof. intros s c. reflexivity. Qed.

Lemma blind_draw (d : Z * Z * Z -> draw_call) :
  stdout_blind (update (fun c => draw c (d (color c)))).
Proof. intros s c. reflexivity. Qed.

Lemma blind_parse_arguments args : stdout_blind (parse_arguments args).
Proof.
  induction args as [|arg rest IH]; [apply blind_ret|].
  cbn [parse_arguments]. unfold mbind, M_bind.
  apply blind_bind.
  - destruct arg as [z|a]; cbn [parse_argument]; [apply blind_ret|].
    destruct (py_int (tail_str a)); [apply blind_memget|apply blind_raise].
  - intros v. apply blind_bind; [exact IH|]. intros vs. apply blind_ret.
Qed.

(** Every instruction but [log] is blind to what was printed. *)
Lemma instruction_blind name (f : list Z -> M (option Z)) args :
  INSTRUCTION_LOOKUP !! name = Some f -> name <> "log" -> stdout_blind (f args).
Proof.
  intros H Hname. apply elem_of_list_to_map_2 in H. cbn in H.
  repeat (apply elem_of_cons in H as [H|H];
          [inversion H; subst; clear H; try congruence;
           unfold ins_mov, ins_movp, ins_add, ins_sub, ins_mul, ins_div, ins_mod,
             ins_less, ins_equal, ins_not, ins_jmp, ins_color, ins_point, ins_line,
             ins_rect, mbind, M_bind, mret, M_ret;
           repeat first
             [ apply blind_bind; [|intros ?]
             | apply blind_ret | apply blind_raise | apply blind_at
             | apply blind_error
             | apply blind_memget | apply blind_memset | apply blind_set_color
             | apply (blind_draw (fun k => SetAt _ _ k))
             | apply (blind_draw (fun k => DrawLine k _ _ _ _))
             | apply (blind_draw (fun k => DrawRect k _ _ _ _))
             | match goal with
               | |- stdout_blind (if ?b then _ else _) => destruct b
               end ]|]).
  apply elem_of_nil in H. contradiction.
Qed.

(** A turn that ends normally with [log] enabled is matched, with [log]
    disabled, by a turn that does the same to everything but what was
    printed. *)
Lemma cycle_disable_log s c u c1 :
  cycle false c = (Ok u, c1) -> cycle true (put_stdout s c) = (Ok tt, put_stdout s c1).
Proof.
  unfold cycle. cbn [program_data program_counter put_stdout andb].
  destruct (py_index (p_instructions (program_data c)) (program_counter c))
    as [ins|e]; [|discriminate].
  destruct (String.eqb (ins_name ins) "log") eqn:Hlog.
  - apply String.eqb_eq in Hlog. rewrite Hlog.
    assert (Hl : INSTRUCTION_LOOKUP !! "log" = Some ins_log) by reflexivity.
    rewrite Hl. unfold mbind, M_bind, bind.
    pose proof (parse_arguments_context (ins_args ins) c) as Hctx.
    destruct (parse_arguments (ins_args ins) c) as [[vs|e] c0]; simpl in Hctx; subst c0;
      [|discriminate].
    unfold ins_log, at_, update, mbind, M_bind, bind, mret, M_ret, ret, raise.
    destruct (vs !! 0%nat) as [a0|]; [|discriminate].
    destruct (py_str a0); [|discriminate].
    intros H. inversion H; subst. reflexivity.
  - unfold mbind, M_bind, bind. rewrite blind_parse_arguments.
    destruct (parse_arguments (ins_args ins) c) as [[vs|e] c0]; cbn [fst snd];
      [|discriminate].
    destruct (INSTRUCTION_LOOKUP !! ins_name ins) as [f|] eqn:Hf; [|discriminate].
    assert (Hname : ins_name ins <> "log")
      by (intros E; rewrite E in Hlog; discriminate).
    rewrite (instruction_blind _ f vs Hf Hname s c0).
    destruct (f vs c0) as [[r|e] c2]; cbn [fst snd]; [|discriminate].
    unfold update. intros H. inversion H; subst. destruct r; reflexivity.
Qed.

Lemma run_disable_log fuel s c c' :
  run_loop fuel false c = Some (Ok tt, c') ->
  run_loop fuel true (put_stdout s c) = Some (Ok tt, put_stdout s c').
Proof.
  revert c. induction fuel as [|fuel IH]; intros c; simpl.
  - destruct (_ <=? _); [|discriminate]. intros H. inversion H; subst. reflexivity.
  - destruct (_ <=? _); [intros H; inversion H; subst; reflexivity|].
    destruct (cycle false c) as [[u|e] c1] eqn:Hcycle; [|discriminate].
    rewrite (cycle_disable_log s c u c1 Hcycle). apply IH.
Qed.

End DisableLog.

(** X6.  Disabling [log] does not change a run that ends normally: with
    the same number of turns it ends normally too, in the same context
    (memory, colour, drawing calls, program counter), except that nothing
    was printed. *)
Theorem disable_log_same_run (fuel : nat) (c c' : VM.ProgramContext) :
  VM.run_loop fuel false c = Some (Ok tt, c') ->
  VM.run_loop fuel true c = Some (Ok tt, Machine.put_stdout (VM.stdout c) c').
Proof.
  intros H. apply (run_disable_log fuel (VM.stdout c)) in H.
  destruct c; exact H.
Qed.

(** Witness of [disable_log_same_run]: the run of [log 7]. *)
Lemma disable_log_same_run_witness :
  let c := Examples.fresh_context
             (Examples.one_instruction (Instruction "log" [AInt 7] None)) in
  VM.run_loop 1 true c
  = Some (Ok tt, Machine.put_stdout (VM.stdout c)
                   (VM.set_program_counter (VM.print c 7) 1)).
Proof.
  exact (disable_log_same_run 1
           (Examples.fresh_context
              (Examples.one_instruction (Instruction "log" [AInt 7] None)))
           (VM.set_program_counter
              (VM.print
                 (Examples.fresh_context
                    (Examples.one_instruction (Instruction "log" [AInt 7] None))) 7) 1)
           eq_refl).
Defined.

(** ** Loading the data entries *)

Section LoadData.

Import VM Machine.

(** A slice assignment of as many values as the slice has cells, inside
    the list. *)
Lemma py_slice_assign_inside {A} (l : list A) (a : Z) (vals : list A) :
  0 <= a -> a + Z.of_nat (length vals) <= Z.of_nat (length l) ->
  py_slice_assign l a (a + Z.of_nat (length vals)) vals
  = take (Z.to_nat a) l ++ vals ++ drop (Z.to_nat a + length vals) l.
Proof.
  intros Ha Hb. unfold py_slice_assign, py_slice_bound.
  rewrite (proj2 (Z.ltb_ge a 0)) by lia.
  rewrite (proj2 (Z.ltb_ge (a + Z.of_nat (length vals)) 0)) by lia.
  replace (Z.to_nat (a `min` Z.of_nat (length l))) with (Z.to_nat a) by lia.
  replace (Z.to_nat ((a + Z.of_nat (length vals)) `min` Z.of_nat (length l))
             `max` Z.to_nat a)%nat
    with (Z.to_nat a + length vals)%nat by lia.
  reflexivity.
Qed.

Lemma slice_inside_length {A} (l : list A) (a : nat) (vals : list A) :
  (a + length vals <= length l)%nat ->
  length (take a l ++ vals ++ drop (a + length vals) l) = length l.
Proof. intros H. rewrite !length_app, length_take, length_drop. lia. Qed.

Lemma slice_inside_written {A} (l : list A) (a : nat) (vals : list A) k v :
  (a + length vals <= length l)%nat ->
  vals !! k = Some v ->
  (take a l ++ vals ++ drop (a + length vals) l) !! (a + k)%nat = Some v.
Proof.
  intros H Hk.
  rewrite lookup_app_r by (rewrite length_take; lia).
  rewrite length_take. replace (a + k - a `min` length l)%nat with k by lia.
  rewrite lookup_app_l by (eapply lookup_lt_Some; exact Hk). exact Hk.
Qed.

Lemma slice_inside_kept {A} (l : list A) (a : nat) (vals : list A) i :
  (a + length vals <= length l)%nat ->
  ~ (a <= i < a + length vals)%nat ->
  (take a l ++ vals ++ drop (a + length vals) l) !! i = l !! i.
Proof.
  intros H Hi. destruct (decide (i < a)%nat) as [Hlt|Hge].
  - rewrite lookup_app_l by (rewrite length_take; lia).
    apply lookup_take_lt. exact Hlt.
  - rewrite lookup_app_r by (rewrite length_take; lia).
    rewrite lookup_app_r by (rewrite length_take; lia).
    rewrite lookup_drop, length_take. f_equal. lia.
Qed.

Lemma load_data_fits amount entries : forall mem,
  Z.of_nat (length mem) = Z.max amount 0 ->
  Forall (fits_memory amount) entries ->
  exists mem',
    load_data amount mem entries = Ok mem' /\
    length mem' = length mem /\
    (forall i, (forall e, e ∈ entries -> ~ covers e (Z.of_nat i)) -> mem' !! i = mem !! i) /\
    (forall before e after k v,
       entries = before ++ e :: after ->
       snd e !! k = Some v ->
       (forall e', e' ∈ after -> ~ covers e' (fst e + Z.of_nat k)) ->
       mem' !! (Z.to_nat (fst e) + k)%nat = Some v).
Proof.
  induction entries as [|[address data_numbers] rest IH]; intros mem Hlen Hfit.
  - exists mem. split; [reflexivity|]. split; [reflexivity|]. split; [reflexivity|].
    intros [|? ?] ? ? ? ? H; discriminate.
  - apply Forall_cons in Hfit as [[Ha Hb] Hrest]. cbn [fst snd] in Ha, Hb.
    cbn [load_data]. rewrite (proj2 (Z.ltb_ge _ _)) by lia.
    rewrite py_slice_assign_inside by lia.
    assert (Hin : (Z.to_nat address + length data_numbers <= length mem)%nat) by lia.
    set (mem1 := take (Z.to_nat address) mem ++ data_numbers ++
                 drop (Z.to_nat address + length data_numbers) mem).
    assert (Hlen1 : length mem1 = length mem) by (apply slice_inside_length; exact Hin).
    destruct (IH mem1) as (mem' & Hload & Hlen' & Hkept & Hwritten);
      [rewrite Hlen1; exact Hlen | exact Hrest |].
    exists mem'. split; [exact Hload|]. split; [congruence|]. split.
    + intros i Hi. rewrite Hkept by (intros e He; apply Hi; right; exact He).
      apply slice_inside_kept; [exact Hin|].
      intros Hc. apply (Hi (address, data_numbers)); [left|].
      unfold covers. cbn [fst snd]. lia.
    + intros [|b before] e after k v Heq Hk Hafter; simpl in Heq; inversion Heq; subst.
      * cbn [fst snd] in *.
        rewrite Hkept.
        -- apply slice_inside_written; assumption.
        -- intros e' He'. replace (Z.of_nat (Z.to_nat address + k)) with (address + Z.of_nat k)
             by lia. apply Hafter. exact He'.
      * eapply Hwritten; [reflexivity|exact Hk|exact Hafter].
Qed.


End LoadData.

(** X7.  When every data entry lies inside the memory, the context is
    made: the memory has the size the meta header asks for, a cell that no
    entry covers holds 0, and a cell holds the value of the last entry
    that covers it. *)
Theorem new_context_loads_data (pd : program) (entries : list data_entry) :
  Forall (Machine.fits_memory (meta_memory (p_meta pd))) entries ->
  exists c,
    VM.new_ProgramContext pd (Some entries) = Ok c /\
    VM.program_data c = pd /\
    length (VM.memory c) = Z.to_nat (meta_memory (p_meta pd)) /\
    (forall i, (i < length (VM.memory c))%nat ->
       (forall e, e ∈ entries -> ~ Machine.covers e (Z.of_nat i)) ->
       VM.memory c !! i = Some 0) /\
    (forall before e after k v,
       entries = before ++ e :: after ->
       snd e !! k = Some v ->
       (forall e', e' ∈ after -> ~ Machine.covers e' (fst e + Z.of_nat k)) ->
       VM.memory c !! (Z.to_nat (fst e) + k)%nat = Some v).
Proof.
  intros Hfit. unfold VM.new_ProgramContext.
  set (amount := meta_memory (p_meta pd)) in *.
  destruct (load_data_fits amount entries (replicate (Z.to_nat amount) 0))
    as (mem' & Hload & Hlen & Hkept & Hwritten);
    [rewrite length_replicate; lia | exact Hfit |].
  rewrite Hload. eexists. split; [reflexivity|]. cbn [VM.program_data VM.memory].
  rewrite length_replicate in Hlen.
  split; [reflexivity|]. split; [exact Hlen|]. split; [|exact Hwritten].
  intros i Hi Hfree. rewrite (Hkept i Hfree).
  apply lookup_replicate_2. lia.
Qed.

(** Witness of [new_context_loads_data]: two entries in the default
    memory of 128 cells, the second inside the first. *)
Lemma new_context_loads_data_witness :
  exists c,
    VM.new_ProgramContext (Examples.one_instruction (Examples.jmp 0 0))
      (Some [(20, [1; 2; 3]); (21, [9])]) = Ok c /\
    VM.memory c !! 19%nat = Some 0 /\
    VM.memory c !! 20%nat = Some 1 /\
    VM.memory c !! 21%nat = Some 9.
Proof.
  destruct (new_context_loads_data (Examples.one_instruction (Examples.jmp 0 0))
              [(20, [1; 2; 3]); (21, [9])]) as (c & Hc & _ & Hlen & Hzero & Hval).
  - repeat (apply Forall_cons_2; [split; vm_compute; congruence|]). apply Forall_nil_2.
  - exists c. split; [exact Hc|]. split; [|split].
    + apply Hzero; [rewrite Hlen; vm_compute; lia|].
      intros e He [H1 H2].
      repeat (apply elem_of_cons in He as [->|He]; [cbn in H1, H2; lia|]).
      apply elem_of_nil in He. contradiction.
    + apply (Hval [] (20, [1; 2; 3]) [(21, [9])] 0%nat 1); [reflexivity|reflexivity|].
      intros e He [H1 H2].
      repeat (apply elem_of_cons in He as [->|He]; [cbn in H1, H2; lia|]).
      apply elem_of_nil in He. contradiction.
    + apply (Hval [(20, [1; 2; 3])] (21, [9]) [] 0%nat 9); [reflexivity|reflexivity|].
      intros e He. apply elem_of_nil in He. contradiction.
Defined.



(** ** The arity table and the functions of the instructions *)

Section Arities.

Import VM Machine.

Lemma plain_exit {A} c message o :
  source_line c = Ok o -> @plain_outcome A c (Err (RuntimeError message)).
Proof. intros H. apply source_known_line. eauto. Qed.

Lemma plain_raised {A} c message e :
  source_line c = Err e -> @plain_outcome A c (Err (ErrorRaised message e)).
Proof.
  intros H. split; [|exact H].
  intros Hk. apply source_known_line in Hk as [o Ho]. congruence.
Qed.

Lemma plain_digits {A} c z :
  py_str z = None -> @plain_outcome A c (Err (Uncaught (ValueError (numeral z)))).
Proof. intros H. exists z. split; [reflexivity|]. apply py_str_limit. exact H. Qed.

Lemma memget_plain index c : plain_outcome c (fst (memget index c)).
Proof.
  unfold memget. destruct (out_of_bounds c index) eqn:Hb.
  - destruct (@index_error_cases Z index (GetOutOfBounds index) c)
      as [[Hs ->]|[(Hs & Hk & ->)|(Hs & Hk & e & He & ->)]]; cbn [fst].
    + apply plain_digits. apply py_str_limit. exact Hs.
    + exact Hk.
    + split; assumption.
  - destruct (memget_in_bounds c index Hb) as (v & -> & _). exact I.
Qed.

Lemma parse_arguments_well_formed args c :
  Forall well_formed_argument args ->
  (exists vs, parse_arguments args c = (Ok vs, c) /\ length vs = length args) \/
  (exists f, parse_arguments args c = (Err f, c) /\
             @plain_outcome unit c (Err f)).
Proof.
  induction 1 as [|arg rest Harg Hrest IH]; [left; exists []; auto|].
  cbn [parse_arguments]. unfold mbind, M_bind, bind.
  assert (Hone : (exists v, parse_argument arg c = (Ok v, c)) \/
                 (exists f, parse_argument arg c = (Err f, c) /\
                            @plain_outcome unit c (Err f))).
  { destruct arg as [z|s]; cbn [parse_argument]; [left; eauto|].
    cbn in Harg. destruct (py_int (tail_str s)) as [index|]; [|contradiction].
    pose proof (memget_plain index c) as Hp.
    pose proof (memget_context index c) as Hc.
    destruct (memget index c) as [[v|f] c1]; cbn [fst snd] in Hp, Hc; subst c1;
      [left; eauto|right; eauto]. }
  destruct Hone as [[v ->]|(f & -> & Hf)]; [|right; eauto].
  destruct IH as [(vs & -> & Hlen)|(f & -> & Hf)]; [|right; eauto].
  left. exists (v :: vs). split; [reflexivity|]. simpl. lia.
Qed.

(** Every name of the arity table has a function, which reads no more
    arguments than the table gives. *)
Lemma function_reads_its_arity name n :
  Instructions.ARGUMENT_COUNT_LOOKUP !! name = Some n ->
  exists f : list Z -> M (option Z),
    INSTRUCTION_LOOKUP !! name = Some f /\
    forall vs c, length vs = n -> plain_outcome c (fst (f vs c)).
Proof.
  intros H. apply elem_of_list_to_map_2 in H. cbn in H.
  repeat (apply elem_of_cons in H as [H|H];
          [inversion H; subst; clear H; eexists; split; [reflexivity|];
           intros vs c Hlen;
           destruct vs as [|? [|? [|? [|? [|? ?]]]]]; try discriminate Hlen;
           cbn [snd];
           unfold ins_mov, ins_movp, ins_add, ins_sub, ins_mul, ins_div, ins_mod,
             ins_less, ins_equal, ins_not, ins_jmp, ins_color, ins_point, ins_line,
             ins_rect, ins_log, at_, mbind, M_bind, bind, mret, M_ret, ret;
           cbn [lookup list_lookup];
           unfold memset, memget, format_index, error, raise, update;
           repeat (cbv beta iota;
                   match goal with
                   | |- context [match ?l !! ?k with _ => _ end] => destruct (l !! k) eqn:?
                   | |- context [if out_of_bounds ?c ?i then _ else _] =>
                       destruct (out_of_bounds c i) eqn:?
                   | |- context [if ?x =? ?y then _ else _] => destruct (x =? y) eqn:?
                   | |- context [match py_str ?x with _ => _ end] =>
                       destruct (py_str x) eqn:?
                   | |- context [match source_line ?c with _ => _ end] =>
                       destruct (source_line c) eqn:?
                   end);
           cbn [fst]; try exact I;
           first
             [ eapply plain_exit; eassumption
             | eapply plain_raised; eassumption
             | eapply plain_digits; eassumption
             | match goal with
               | Hb : out_of_bounds c ?i = false, Hl : memory c !! Z.to_nat ?i = None |- _ =>
                   destruct (memget_in_bounds c i Hb) as (? & ? & _); congruence
               end ]|]).
  apply elem_of_nil in H. contradiction.
Qed.

End Arities.

(** X9.  An instruction as the assembler writes it (as many arguments as
    the arity table gives for its name, every address a [$] followed by a
    number) never makes the turn of the loop raise [IndexError] or
    [KeyError] from decoding the arguments, finding the function or
    reading its arguments.  The turn ends normally; or in a runtime
    error left through [sys.exit]; or, when the program has a source text
    whose line for this instruction cannot be printed, in a runtime error
    followed by the exception [error] meets there; or in the [ValueError]
    of [str] on an integer of more than 4300 digits that a message or
    [log] had to print.  (The calls into pygame are the log of the calls
    made.) *)
Theorem turn_raises_no_exception (disable_log : bool) (c : VM.ProgramContext)
    (ins : instruction) :
  py_index (p_instructions (VM.program_data c)) (VM.program_counter c) = Ok ins ->
  Instructions.ARGUMENT_COUNT_LOOKUP !! ins_name ins = Some (length (ins_args ins)) ->
  Forall Machine.well_formed_argument (ins_args ins) ->
  exists c',
    VM.cycle disable_log c = (Ok tt, c') \/
    (exists msg, VM.cycle disable_log c = (Err (VM.RuntimeError msg), c') /\
                 Machine.source_known c) \/
    (exists msg e, VM.cycle disable_log c = (Err (VM.ErrorRaised msg e), c') /\
                   VM.source_line c = Err e /\ ~ Machine.source_known c) \/
    (exists z, VM.cycle disable_log c =
                 (Err (VM.Uncaught (ValueError (numeral z))), c') /\
               10 ^ 4300 <= Z.abs z).
Proof.
  intros Hfetch Hcount Hargs. unfold VM.cycle. rewrite Hfetch.
  destruct (disable_log && String.eqb (ins_name ins) "log"); [eauto|].
  unfold mbind, VM.M_bind, VM.bind.
  assert (Hplain : forall (f : VM.fault), @Machine.plain_outcome unit c (Err f) ->
            (exists msg, f = VM.RuntimeError msg /\ Machine.source_known c) \/
            (exists msg e, f = VM.ErrorRaised msg e /\
                           VM.source_line c = Err e /\ ~ Machine.source_known c) \/
            (exists z, f = VM.Uncaught (ValueError (numeral z)) /\
                       10 ^ 4300 <= Z.abs z)).
  { intros f Hf. destruct f as [msg|msg e|a u m|e]; cbn in Hf.
    - left. eauto.
    - right; left. destruct Hf. eauto 6.
    - contradiction.
    - destruct e; try contradiction. destruct Hf as (z & -> & Hz). right; right. eauto. }
  assert (Hstop : forall (f : VM.fault) c1, @Machine.plain_outcome unit c (Err f) ->
            exists c' : VM.ProgramContext,
              (@Err VM.fault unit f, c1) = (Ok tt, c') \/
              (exists msg, (@Err VM.fault unit f, c1) = (Err (VM.RuntimeError msg), c') /\
                           Machine.source_known c) \/
              (exists msg e,
                 (@Err VM.fault unit f, c1) = (Err (VM.ErrorRaised msg e), c') /\
                 VM.source_line c = Err e /\ ~ Machine.source_known c) \/
              (exists z, (@Err VM.fault unit f, c1) =
                           (Err (VM.Uncaught (ValueError (numeral z))), c') /\
                         10 ^ 4300 <= Z.abs z)).
  { intros f c1 Hf. exists c1.
    destruct (Hplain f Hf) as [(msg & -> & Hk)|[(msg & e & -> & He & Hk)|(z & -> & Hz)]].
    - right; left. eauto.
    - right; right; left. eauto 6.
    - right; right; right. eauto. }
  destruct (parse_arguments_well_formed (ins_args ins) c Hargs)
    as [(vs & -> & Hlen)|(f & -> & Hf)].
  - destruct (function_reads_its_arity _ _ Hcount) as (f & -> & Hf).
    specialize (Hf vs c Hlen). destruct (f vs c) as [[r|e] c1]; cbn [fst] in Hf.
    + unfold VM.update. eauto.
    + apply Hstop. destruct e as [| | |[]]; exact Hf.
  - apply Hstop. exact Hf.
Qed.

(** Witness of [turn_raises_no_exception]: [mov 5 $200] in a memory of 128
    cells. *)
Lemma turn_raises_no_exception_witness :
  let c := Examples.fresh_context
             (Examples.one_instruction (Instruction "mov" [AInt 5; AStr "$200"] None)) in
  exists c',
    VM.cycle false c = (Ok tt, c') \/
    (exists msg, VM.cycle false c = (Err (VM.RuntimeError msg), c') /\
                 Machine.source_known c) \/
    (exists msg e, VM.cycle false c = (Err (VM.ErrorRaised msg e), c') /\
                   VM.source_line c = Err e /\ ~ Machine.source_known c) \/
    (exists z, VM.cycle false c =
                 (Err (VM.Uncaught (ValueError (numeral z))), c') /\
               10 ^ 4300 <= Z.abs z).
Proof.
  apply (turn_raises_no_exception false
           (Examples.fresh_context
              (Examples.one_instruction (Instruction "mov" [AInt 5; AStr "$200"] None)))
           (Instruction "mov" [AInt 5; AStr "$200"] None)).
  - reflexivity.
  - reflexivity.
  - apply Forall_cons_2; [exact I|]. apply Forall_cons_2; [discriminate|]. apply Forall_nil_2.
Defined.

(** That turn, evaluated, and the same instruction in a hand-written
    program with a source text and no line numbers. *)
Lemma read_outside_memory :
  let i := Instruction "mov" [AInt 5; AStr "$200"] None in
  (let c := Examples.fresh_context (Examples.one_instruction i) in
   VM.cycle false c = (Err (VM.RuntimeError (VM.GetOutOfBounds 200)), c)) /\
  (let c := Examples.fresh_context
              (Program Assembler.META_VARIABLES [i] None None None
                 (Some ["mov 5 $200"]) None) in
   VM.cycle false c =
     (Err (VM.ErrorRaised (VM.GetOutOfBounds 200) IndexError), c)).
Proof. split; vm_compute; reflexivity. Qed.

(** ** The texts of the tokens *)

Section LexemeFacts.

Import Lexer Lexemes.

Lemma span_all p s : all_chars p (fst (span p s)) = true.
Proof.
  induction s as [|a s IH]; [reflexivity|]. simpl.
  destruct (p a) eqn:Ha; [|reflexivity].
  destruct (span p s) as [w r]. unfold all_chars in *. simpl in *.
  rewrite Ha. exact IH.
Qed.

Lemma plus_all p s w r :
  plus p s = Some (w, r) -> w <> EmptyString /\ all_chars p w = true.
Proof.
  unfold plus. pose proof (span_all p s) as H.
  destruct (span p s) as [[|a w'] r']; [discriminate|].
  intros E. inversion E; subst. split; [discriminate|exact H].
Qed.

Lemma ascii_neq_eqb (a b : ascii) : a <> b -> Ascii.eqb a b = false.
Proof. intros H. destruct (Ascii.eqb_spec a b); [contradiction|reflexivity]. Qed.

Lemma re_NUMBER_lexeme s w r :
  re_NUMBER s = Some (w, r) ->
  exists d, d <> EmptyString /\ all_chars is_digit d = true /\
            (w = d \/ w = String "-" d).
Proof.
  unfold re_NUMBER. destruct s as [|a s]; [discriminate|].
  destruct (Ascii.eqb_spec a "-") as [->|Hne].
  - unfold prefixed. destruct (plus is_digit s) as [[d r']|] eqn:E; [|discriminate].
    intros H. inversion H; subst. apply plus_all in E as [Hd Ha]. eauto.
  - intros H.
    assert (E : plus is_digit (String a s) = Some (w, r)).
    { destruct a as [[|] [|] [|] [|] [|] [|] [|] [|]]; try exact H.
      contradiction Hne. reflexivity. }
    apply plus_all in E as [Hd Ha]. eauto.
Qed.

Lemma re_ADDRESS_lexeme s w r :
  re_ADDRESS s = Some (w, r) ->
  exists d, d <> EmptyString /\ all_chars is_digit d = true /\ w = String "$" d.
Proof.
  unfold re_ADDRESS. destruct s as [|a s]; [discriminate|].
  destruct (Ascii.eqb_spec a "$") as [->|Hne].
  - unfold prefixed. destruct (plus is_digit s) as [[d r']|] eqn:E; [|discriminate].
    intros H. inversion H; subst. apply plus_all in E as [Hd Ha]. eauto.
  - destruct a as [[|] [|] [|] [|] [|] [|] [|] [|]]; try discriminate.
    contradiction Hne. reflexivity.
Qed.

Lemma re_META_VARIABLE_lexeme s w r :
  re_META_VARIABLE s = Some (w, r) ->
  exists a w', is_A_z a = true /\ w = String "#" (String a w').
Proof.
  unfold re_META_VARIABLE. destruct s as [|a s]; [discriminate|].
  destruct (Ascii.eqb_spec a "#") as [->|Hne].
  - unfold prefixed. destruct (plus is_A_z s) as [[d r']|] eqn:E; [|discriminate].
    intros H. inversion H; subst. apply plus_all in E as [Hd Ha].
    destruct d as [|b d]; [contradiction|]. unfold all_chars in Ha. simpl in Ha.
    apply andb_true_iff in Ha as [Hb _]. eauto.
  - destruct a as [[|] [|] [|] [|] [|] [|] [|] [|]]; try discriminate.
    contradiction Hne. reflexivity.
Qed.

Lemma re_LABEL_NAME_lexeme s w r :
  re_LABEL_NAME s = Some (w, r) -> exists a w', w = String a (w' ++ ":")%string.
Proof.
  unfold re_LABEL_NAME. destruct (plus is_word s) as [[w' r']|] eqn:E; [|discriminate].
  apply plus_all in E as [Hd _].
  destruct r' as [|a r']; [discriminate|].
  destruct (Ascii.eqb_spec a ":") as [->|Hne].
  - intros H. inversion H; subst. destruct w' as [|b w']; [contradiction|].
    exists b, w'. reflexivity.
  - destruct a as [[|] [|] [|] [|] [|] [|] [|] [|]]; try discriminate.
    contradiction Hne. reflexivity.
Qed.

Lemma first_match_lexeme s n w r line col :
  first_match rules s = Some (n, w, r) -> lexeme (Tok n w line col).
Proof.
  unfold rules, first_match, lexeme. cbn [name value].
  destruct (re_META_VARIABLE s) as [[w0 r0]|] eqn:E0.
  { intros H; inversion H; subst. eapply re_META_VARIABLE_lexeme; eassumption. }
  destruct (re_NUMBER s) as [[w1 r1]|] eqn:E1.
  { intros H; inversion H; subst. eapply re_NUMBER_lexeme; eassumption. }
  destruct (re_ADDRESS s) as [[w2 r2]|] eqn:E2.
  { intros H; inversion H; subst. eapply re_ADDRESS_lexeme; eassumption. }
  destruct (re_LABEL_NAME s) as [[w3 r3]|] eqn:E3.
  { intros H; inversion H; subst. eapply re_LABEL_NAME_lexeme; eassumption. }
  destruct (re_NAME s) as [[w4 r4]|]; [intros H; inversion H; subst; exact I|].
  destruct (re_COMMENT s) as [[w5 r5]|]; [intros H; inversion H; subst; exact I|].
  destruct (re_NEWLINE s) as [[w6 r6]|]; [intros H; inversion H; subst; exact I|].
  discriminate.
Qed.

Lemma lex_from_lexemes fuel : forall s line col last,
  Forall lexeme (fst (lex_from fuel s line col last)).
Proof.
  induction fuel as [|fuel IH]; intros s line col last; [constructor|].
  destruct s as [|a s]; [constructor|].
  assert (Hspace : lex_from (S fuel) (String a s) line col last =
            if Ascii.eqb a " " then lex_from fuel s line (col + 1) last
            else match first_match rules (String a s) with
                 | None => ([], Some (line, last))
                 | Some (n, w, r) =>
                     let '(line', col') := advance w line col in
                     let '(ts, e) := lex_from fuel r line' col' col in
                     (Tok n w line col :: ts, e)
                 end).
  { destruct (Ascii.eqb_spec a " ") as [->|Hne]; [reflexivity|].
    destruct a as [[|] [|] [|] [|] [|] [|] [|] [|]]; try reflexivity.
    contradiction Hne. reflexivity. }
  rewrite Hspace. destruct (Ascii.eqb a " "); [apply IH|].
  destruct (first_match rules (String a s)) as [[[n w] r]|] eqn:E; [|constructor].
  destruct (advance w line col) as [line' col'].
  pose proof (IH r line' col' col) as Hrest.
  destruct (lex_from fuel r line' col' col) as [ts e]. simpl in *.
  constructor; [|exact Hrest]. eapply first_match_lexeme. exact E.
Qed.

(** [int] on digits. *)
(** [int] on the digits of a token: a number that is not negative when
    they are at most 4300, and [ValueError] when they are more. *)
Lemma py_int_digits d :
  d <> EmptyString -> all_chars is_digit d = true ->
  if (String.length d <=? int_max_str_digits)%nat
  then (exists n, py_int d = Some n /\ 0 <= n) /\
       (exists n, py_int (String "-" d) = Some n /\ n <= 0)
  else py_int d = None /\ py_int (String "-" d) = None.
Proof.
  intros Hne Hd. destruct (py_int_decimals d Hne Hd) as (u & _ & -> & ->).
  pose proof (of_uint_nonneg u).
  destruct (String.length d <=? int_max_str_digits)%nat eqn:E.
  - apply Nat.leb_le in E. rewrite (proj2 (Nat.ltb_ge _ _)) by lia.
    split; eexists; (split; [reflexivity|lia]).
  - apply Nat.leb_gt in E. rewrite (proj2 (Nat.ltb_lt _ _)) by lia.
    split; reflexivity.
Qed.

Lemma py_int_letter a w : is_A_z a = true -> py_int (String a w) = None.
Proof.
  intros Ha. apply py_int_head;
    destruct a as [[|] [|] [|] [|] [|] [|] [|] [|]]; try discriminate Ha; reflexivity.
Qed.

Lemma digit_count_plain t d :
  d <> EmptyString -> all_chars is_digit d = true -> value t = d ->
  digit_count t = String.length d.
Proof.
  intros Hne Hd Hv. unfold digit_count. rewrite Hv.
  destruct d as [|a d]; [contradiction|].
  unfold all_chars in Hd. cbn [list_ascii_of_string forallb] in Hd.
  apply andb_prop in Hd as [-> _]. reflexivity.
Qed.

Lemma digit_count_prefixed t a d :
  is_digit a = false -> value t = String a d -> digit_count t = String.length d.
Proof. intros Ha Hv. unfold digit_count. rewrite Hv, Ha. reflexivity. Qed.

End LexemeFacts.

(** X10.  What becomes of a token of the lexer when it stands as an
    operand.  A NUMBER of at most 4300 digits is read by [int] and gives
    a literal; with more digits [int] raises [ValueError].  An ADDRESS
    is kept as its text; the machine decodes it as a read of a cell of
    non-negative index when it has at most 4300 digits, and raises
    [ValueError] when it has more.  A META_VARIABLE or a LABEL_NAME is
    accepted as well and kept as its text; decoding it in the machine
    raises [ValueError]. *)
Theorem lexed_operands (s : string) (t : Lexer.Token) (labels : gmap string Z)
    (c : VM.ProgramContext) :
  t ∈ fst (Lexer.lex s) ->
  match Lexer.name t with
  | Lexer.NUMBER =>
      if (Lexemes.digit_count t <=? 4300)%nat
      then exists z, py_int (Lexer.value t) = Some z /\
                     Assembler.parse_argument_token t labels = Ok (AInt z)
      else Assembler.parse_argument_token t labels =
             Err (Assembler.Raised (ValueError (Lexer.value t)))
  | Lexer.ADDRESS =>
      Assembler.parse_argument_token t labels = Ok (AStr (Lexer.value t)) /\
      if (Lexemes.digit_count t <=? 4300)%nat
      then exists n, 0 <= n /\ py_int (tail_str (Lexer.value t)) = Some n /\
                     VM.parse_argument (AStr (Lexer.value t)) c = VM.memget n c
      else VM.parse_argument (AStr (Lexer.value t)) c
           = (Err (VM.Uncaught (ValueError (tail_str (Lexer.value t)))), c)
  | Lexer.META_VARIABLE | Lexer.LABEL_NAME =>
      Assembler.parse_argument_token t labels = Ok (AStr (Lexer.value t)) /\
      VM.parse_argument (AStr (Lexer.value t)) c
      = (Err (VM.Uncaught (ValueError (tail_str (Lexer.value t)))), c)
  | _ => True
  end.
Proof.
  intros Hin.
  pose proof (lex_from_lexemes (String.length s) s 1 1 1) as Hall.
  rewrite Forall_forall in Hall. specialize (Hall t Hin).
  unfold Lexemes.lexeme in Hall. unfold Assembler.parse_argument_token.
  change 4300%nat with int_max_str_digits.
  destruct (Lexer.name t); try exact I.
  - destruct Hall as (a & w & Ha & Hv). split; [reflexivity|].
    rewrite Hv. cbn [VM.parse_argument tail_str].
    rewrite (py_int_letter a w Ha). reflexivity.
  - destruct Hall as (d & Hne & Hd & [Hv|Hv]).
    + rewrite (digit_count_plain t d Hne Hd Hv), Hv.
      pose proof (py_int_digits d Hne Hd) as H.
      destruct (String.length d <=? int_max_str_digits)%nat.
      * destruct H as [(n & -> & _) _]. eauto.
      * destruct H as [-> _]. reflexivity.
    + rewrite (digit_count_prefixed t "-" d eq_refl Hv), Hv.
      pose proof (py_int_digits d Hne Hd) as H.
      destruct (String.length d <=? int_max_str_digits)%nat.
      * destruct H as [_ (n & -> & _)]. eauto.
      * destruct H as [_ ->]. reflexivity.
  - destruct Hall as (d & Hne & Hd & Hv). split; [reflexivity|].
    rewrite (digit_count_prefixed t "$" d eq_refl Hv), Hv.
    cbn [VM.parse_argument tail_str].
    pose proof (py_int_digits d Hne Hd) as H.
    destruct (String.length d <=? int_max_str_digits)%nat.
    + destruct H as [(n & Hn & Hpos) _]. exists n. rewrite Hn. auto.
    + destruct H as [-> _]. reflexivity.
  - destruct Hall as (a & w & Hv). split; [reflexivity|].
    rewrite Hv. cbn [VM.parse_argument tail_str].
    rewrite (py_int_colon w). reflexivity.
Qed.

(** Witness of [lexed_operands]: the address in [mov $007 #abc], read as
    cell 7, and the meta variable, refused by [int]. *)
Lemma lexed_operands_witness :
  let c := Examples.fresh_context (Examples.one_instruction (Examples.jmp 0 0)) in
  (Assembler.parse_argument_token (Lexer.Tok Lexer.ADDRESS "$007" 1 5) ∅
     = Ok (AStr "$007") /\
   exists n, 0 <= n /\ py_int "007" = Some n /\
             VM.parse_argument (AStr "$007") c = VM.memget n c) /\
  (Assembler.parse_argument_token (Lexer.Tok Lexer.META_VARIABLE "#abc" 1 10) ∅
     = Ok (AStr "#abc") /\
   VM.parse_argument (AStr "#abc") c = (Err (VM.Uncaught (ValueError "abc")), c)).
Proof.
  split.
  - apply (lexed_operands "mov $007 #abc" (Lexer.Tok Lexer.ADDRESS "$007" 1 5) ∅
             (Examples.fresh_context (Examples.one_instruction (Examples.jmp 0 0)))).
    vm_compute. apply list_elem_of_further. apply list_elem_of_here.
  - apply (lexed_operands "mov $007 #abc" (Lexer.Tok Lexer.META_VARIABLE "#abc" 1 10) ∅
             (Examples.fresh_context (Examples.one_instruction (Examples.jmp 0 0)))).
    vm_compute. do 2 apply list_elem_of_further. apply list_elem_of_here.
Defined.

(** ** Labels and entry points *)

Section EntryPoints.

Import Assembler Trace Lexer LabelTable.

Variable ending : option (Z * Z).

Lemma labels_in_range_kept s s' :
  reaches ending s s' -> labels_in_range (snd s) -> labels_in_range (snd s').
Proof.
  apply (reaches_invariant ending labels_in_range).
  intros token rest c rest' c' Hturn [Hindex Hlabels].
  destruct (collect_token_cases ending _ _ _ _ _ Hturn)
    as [(_ & _ & v & z & _ & _ & _ & ->) | [(_ & _ & ws & ->)
       | [(_ & args & _ & _ & ->) | (_ & _ & ->)]]]; unfold labels_in_range; cbn.
  - split; assumption.
  - split; [assumption|].
    destruct (labels c !! init_str (value token)); [assumption|].
    apply map_Forall_insert_2; [lia|assumption].
  - split; [rewrite length_app; simpl; lia|].
    eapply map_Forall_impl; [exact Hlabels|]. cbn. intros _ index H. lia.
  - split; assumption.
Qed.

End EntryPoints.

(** X11.  The entry points of an assembled program are indices into its
    instructions or the index right after the last one: [start] and
    [tick], when present, lie between 0 and the number of instructions,
    so that fetching the instruction there raises no [IndexError]. *)
Theorem entry_points_in_range (tokens : list Lexer.Token) (ending : option (Z * Z))
    (source_lines : list string) (state : Assembler.AssemblerState) (debug : bool)
    (p : program) (ws : list Assembler.warning) :
  Assembler.assemble_tokens tokens ending source_lines state debug = Ok (p, ws) ->
  forall index, p_start p = Some index \/ p_tick p = Some index ->
    0 <= index <= Z.of_nat (length (p_instructions p)) /\
    (index < Z.of_nat (length (p_instructions p)) ->
     exists ins, py_index (p_instructions p) index = Ok ins).
Proof.
  intros H index Hentry.
  destruct (assemble_tokens_ok _ _ _ _ _ _ _ H) as (cf & ws' & Hc & Hparse & _ & Hs & Ht).
  apply collect_ok_reaches in Hc.
  pose proof (labels_in_range_kept ending _ _ Hc) as Hrange.
  destruct Hrange as [Hindex Hlabels]; [split; [reflexivity|apply map_Forall_empty]|].
  cbn [snd] in Hindex, Hlabels.
  apply parse_instructions_shape in Hparse. apply Forall2_length in Hparse.
  assert (Hbound : 0 <= index <= Z.of_nat (length (p_instructions p))).
  { rewrite <- Hparse, <- Hindex. rewrite Hs, Ht in Hentry.
    destruct Hentry as [He|He]; exact (Hlabels _ _ He). }
  split; [exact Hbound|]. intros Hlt. unfold py_index.
  rewrite (proj2 (Z.ltb_ge index 0)) by lia.
  rewrite (proj2 (Z.ltb_ge index 0)) by lia.
  rewrite (proj2 (Z.leb_gt _ _)) by lia. cbn [orb].
  destruct (lookup_lt_is_Some_2 (p_instructions p) (Z.to_nat index)) as [ins Hins]; [lia|].
  rewrite Hins. eauto.
Qed.

(** Witness of [entry_points_in_range]: a [tick] label after the only
    instruction. *)
Lemma entry_points_in_range_witness :
  let p := Program Assembler.META_VARIABLES [Instruction "log" [AInt 1] None]
             None (Some 1) None None None in
  0 <= 1 <= Z.of_nat (length (p_instructions p)) /\
  (1 < Z.of_nat (length (p_instructions p)) ->
   exists ins, py_index (p_instructions p) 1 = Ok ins).
Proof.
  refine (entry_points_in_range
            (Examples.tokens_of (Pipeline.unlines ["log 1"; "tick:"])) None []
            Assembler.META false
            (Program Assembler.META_VARIABLES [Instruction "log" [AInt 1] None]
               None (Some 1) None None None)
            [] _ 1 _).
  - vm_compute. reflexivity.
  - right. reflexivity.
Defined.

(** ** The debug flag *)

Section DebugFlag.

Import Assembler Debug.

Lemma parse_instruction_debug labels raw :
  parse_instruction labels false raw =
  match parse_instruction labels true raw with
  | Ok (i, w) => Ok (Instruction (ins_name i) (ins_args i) None, w)
  | Err e => Err e
  end.
Proof.
  unfold parse_instruction. destruct raw as [t ts].
  destruct (Binary.mapM _ ts) as [[|a args]|e]; try reflexivity.
  destruct ts; reflexivity.
Qed.

Lemma parse_instructions_debug labels raws :
  parse_instructions labels false raws =
  match parse_instructions labels true raws with
  | Ok (instrs, ws) =>
      Ok (map (fun i => Instruction (ins_name i) (ins_args i) None) instrs, ws)
  | Err e => Err e
  end.
Proof.
  induction raws as [|raw raws IH]; [reflexivity|].
  cbn [parse_instructions]. rewrite parse_instruction_debug, IH.
  destruct (parse_instruction labels true raw) as [[i w]|e]; [|reflexivity].
  destruct (parse_instructions labels true raws) as [[instrs ws]|e]; reflexivity.
Qed.

End DebugFlag.

(** X12.  The debug flag only adds: assembling without it fails exactly
    when assembling with it fails, with the same error, and otherwise
    gives the same warnings and the same program less the line numbers of
    the instructions and the source text.  With the flag every instruction
    has a line number and the program holds the source lines. *)
Theorem debug_only_adds (tokens : list Lexer.Token) (ending : option (Z * Z))
    (source_lines : list string) (state : Assembler.AssemblerState) :
  Assembler.assemble_tokens tokens ending source_lines state false =
    match Assembler.assemble_tokens tokens ending source_lines state true with
    | Ok (p, ws) => Ok (Debug.undebug p, ws)
    | Err e => Err e
    end /\
  forall p ws,
    Assembler.assemble_tokens tokens ending source_lines state true = Ok (p, ws) ->
    p_source p = Some source_lines /\
    Forall (fun i => ins_line i <> None) (p_instructions p).
Proof.
  unfold Assembler.assemble_tokens.
  destruct (Assembler.collect ending (S (length tokens)) tokens (Assembler.initial state))
    as [[c|e]|]; [|split; [reflexivity|discriminate]..].
  rewrite parse_instructions_debug. split.
  - destruct (Assembler.parse_instructions (Assembler.labels c) true
                (Assembler.raw_instructions c)) as [[instrs ws]|e]; reflexivity.
  - intros p ws H.
    destruct (Assembler.parse_instructions (Assembler.labels c) true
                (Assembler.raw_instructions c)) as [[instrs ws']|e] eqn:Hparse;
      [|discriminate].
    inversion H; subst. cbn [p_source p_instructions]. split; [reflexivity|].
    clear H. revert instrs ws' Hparse.
    induction (Assembler.raw_instructions c) as [|raw raws IH]; intros instrs ws' Hparse.
    + inversion Hparse. constructor.
    + cbn [Assembler.parse_instructions] in Hparse.
      destruct (Assembler.parse_instruction (Assembler.labels c) true raw)
        as [[i w]|e] eqn:Hi; [|discriminate].
      destruct (Assembler.parse_instructions (Assembler.labels c) true raws)
        as [[instrs' ws'']|e]; [|discriminate].
      inversion Hparse; subst. constructor; [|eapply IH; reflexivity].
      unfold Assembler.parse_instruction in Hi. destruct raw as [t ts].
      destruct (Binary.mapM _ ts) as [[|a args]|e]; try discriminate.
      destruct ts; [discriminate|]. inversion Hi; subst. discriminate.
Qed.

(** ** Data files *)

Section DataLines.

Import Data DataFaults Lexemes Machine.

Variable files : string -> option string.
Variable image_open : string -> option Image.
Variable memory_size : Z.

Lemma span_append p s : s = (fst (Lexer.span p s) ++ snd (Lexer.span p s))%string.
Proof.
  induction s as [|a s IH]; [reflexivity|]. simpl.
  destruct (p a); [|reflexivity].
  destruct (Lexer.span p s) as [w r]. exact (f_equal (String a) IH).
Qed.

Lemma DATA_LINE_REGEX_cases line :
  DATA_LINE_REGEX line =
  match Lexer.plus Lexer.is_digit line with
  | Some (w, String c1 (String t (String c3 (String a rest)))) =>
      if Ascii.eqb c1 " " && Ascii.eqb c3 " " && is_data_type t
      then Some (w, t, String a rest) else None
  | _ => None
  end.
Proof.
  unfold DATA_LINE_REGEX.
  destruct (Lexer.plus Lexer.is_digit line) as [[w [|c1 [|t [|c3 [|a rest]]]]]|];
    try reflexivity;
    try (destruct c1 as [[|] [|] [|] [|] [|] [|] [|] [|]]; reflexivity).
  - destruct c1 as [[|] [|] [|] [|] [|] [|] [|] [|]]; try reflexivity;
      destruct c3 as [[|] [|] [|] [|] [|] [|] [|] [|]]; reflexivity.
  - destruct (Ascii.eqb_spec c1 " ") as [->|H1].
    + destruct (Ascii.eqb_spec c3 " ") as [->|H3]; [reflexivity|].
      destruct c3 as [[|] [|] [|] [|] [|] [|] [|] [|]]; try reflexivity.
      contradiction H3. reflexivity.
    + destruct c1 as [[|] [|] [|] [|] [|] [|] [|] [|]]; try reflexivity.
      contradiction H1. reflexivity.
Qed.

(** The groups of a matched line: the address is made of digits, so
    that the number [int] reads from it is not negative; the type is one
    of the four letters. *)
Lemma DATA_LINE_REGEX_groups line address_str data_type data :
  DATA_LINE_REGEX line = Some (address_str, data_type, data) ->
  (forall address, py_int address_str = Some address -> 0 <= address) /\
  is_data_type data_type = true /\
  line = (address_str ++ String " " (String data_type (String " " data)))%string.
Proof.
  rewrite DATA_LINE_REGEX_cases.
  destruct (Lexer.plus Lexer.is_digit line) as [[w [|c1 [|t [|c3 [|a rest]]]]]|] eqn:E;
    try discriminate.
  destruct (Ascii.eqb_spec c1 " ") as [->|]; [|discriminate].
  destruct (Ascii.eqb_spec c3 " ") as [->|]; [|discriminate].
  destruct (is_data_type t) eqn:Ht; [|discriminate].
  cbn [andb]. intros H. inversion H; subst.
  split; [|split; [exact Ht|]].
  - apply plus_all in E as [Hne Hd]. intros address.
    exact (proj1 (py_int_decimals_sign address_str address Hne Hd)).
  - unfold Lexer.plus in E. pose proof (span_append Lexer.is_digit line) as Hs.
    destruct (Lexer.span Lexer.is_digit line) as [[|b w'] r']; [discriminate|].
    cbn [fst snd] in Hs. inversion E as [[Hw Hr]]. congruence.
Qed.

Lemma split_lines_newline s :
  exists l ls, split_lines (s ++ Pipeline.nl) = l :: ls /\ EmptyString ∈ ls.
Proof.
  induction s as [|a s (l & ls & IH & Hin)].
  - exists EmptyString, [EmptyString]. split; [reflexivity|apply list_elem_of_here].
  - change (String a s ++ Pipeline.nl)%string with (String a (s ++ Pipeline.nl)).
    cbn [split_lines]. rewrite IH. destruct (Ascii.eqb a Lexer.newline).
    + exists EmptyString, (l :: ls). split; [reflexivity|].
      apply list_elem_of_further. exact Hin.
    + exists (String a l), ls. split; [reflexivity|exact Hin].
Qed.

Lemma blank_line_not_loaded text :
  EmptyString ∈ split_lines text ->
  ~ loaded (parse_data files image_open text memory_size).
Proof.
  intros Hin (msgs & entries & Hload). unfold parse_data in Hload.
  destruct (parse_lines files image_open (split_lines text) 0 [] memory_size)
    as [[m [parsed|]]|e] eqn:Hlines; try discriminate.
  destruct (parse_lines_all _ _ _ _ _ _ _ _ Hlines) as [_ Hok].
  apply (Hok EmptyString Hin). apply Malformed. reflexivity.
Qed.

Lemma hex_value_digit a x : hex_value a = Some x -> 0 <= x < 16.
Proof.
  unfold hex_value.
  destruct ((48 <=? ord a) && (ord a <=? 57)) eqn:E1;
    [apply andb_true_iff in E1; intros H; inversion H; lia|].
  destruct ((97 <=? ord a) && (ord a <=? 102)) eqn:E2;
    [apply andb_true_iff in E2; intros H; inversion H; lia|].
  destruct ((65 <=? ord a) && (ord a <=? 70)) eqn:E3;
    [apply andb_true_iff in E3; intros H; inversion H; lia|].
  discriminate.
Qed.

Lemma hex_pairs_bytes data :
  (forall l, hex_pairs data = Some l ->
     Forall (fun v => 0 <= v < 256) l /\ (2 * length l)%nat = String.length data) /\
  (forall a l, hex_pairs (String a data) = Some l ->
     Forall (fun v => 0 <= v < 256) l /\ (2 * length l)%nat = S (String.length data)).
Proof.
  induction data as [|b data [IH1 IH2]].
  - split; [|discriminate]. intros l H. inversion H. split; [constructor|reflexivity].
  - split; [exact (IH2 b)|].
    intros a l H. cbn [hex_pairs] in H.
    destruct (hex_value a) as [x|] eqn:Hx; [|discriminate].
    destruct (hex_value b) as [y|] eqn:Hy; [|discriminate].
    destruct (hex_pairs data) as [l'|] eqn:Hl; [|discriminate].
    inversion H; subst. destruct (IH1 l' eq_refl) as [Hall Hlen].
    apply hex_value_digit in Hx, Hy.
    split; [constructor; [lia|exact Hall]|]. simpl in *. lia.
Qed.

(** A line that is read and is not of type [F] adds an entry that lies
    inside the memory. *)
Lemma parse_line_fits parsed n line msgs parsed' :
  parse_line files image_open parsed memory_size n line = Ok (msgs, Some parsed') ->
  (forall address_str path, DATA_LINE_REGEX line <> Some (address_str, "F"%char, path)) ->
  exists e, parsed' = parsed ++ [e] /\ fits_memory memory_size e.
Proof.
  unfold parse_line. intros H HnoF.
  destruct (DATA_LINE_REGEX line) as [[[address_str t] data]|] eqn:Hre; [|discriminate].
  destruct (DATA_LINE_REGEX_groups _ _ _ _ Hre) as (Hsign & _ & _).
  destruct (py_int address_str) as [address|] eqn:Ha; [|discriminate].
  pose proof (Hsign address eq_refl) as Hpos.
  assert (Hadd : forall numbers,
            @Ok py_exception _ (add_data_entry parsed memory_size n (address, numbers))
              = Ok (msgs, Some parsed') ->
            exists e, parsed' = parsed ++ [e] /\ fits_memory memory_size e).
  { intros numbers Hn. rewrite add_data_entry_cases in Hn. cbn [fst snd] in Hn.
    destruct (memory_size <? address + Z.of_nat (length numbers)) eqn:Hcap;
      [discriminate|].
    inversion Hn; subst. eexists. split; [reflexivity|].
    split; cbn [fst snd]; lia. }
  destruct (Ascii.eqb t "b").
  { destruct (negb (HEX_REGEX data)); [discriminate|].
    destruct (hex_pairs data) as [numbers|]; [|discriminate].
    exact (Hadd _ H). }
  destruct (Ascii.eqb t "s"); [exact (Hadd _ H)|].
  destruct (Ascii.eqb t "f" || Ascii.eqb t "F"); [|discriminate].
  destruct (files data) as [file_bytes|]; [|discriminate].
  destruct (Ascii.eqb_spec t "F") as [->|_].
  { exfalso. exact (HnoF _ _ eq_refl). }
  destruct (parse_file image_open file_bytes (splitext_ext data)) as [numbers|e];
    [|discriminate].
  exact (Hadd _ H).
Qed.

Lemma parse_lines_fit lines : forall n parsed msgs parsed',
  parse_lines files image_open lines n parsed memory_size = Ok (msgs, Some parsed') ->
  (forall line, line ∈ lines ->
     forall address_str path,
       DATA_LINE_REGEX line <> Some (address_str, "F"%char, path)) ->
  Forall (fits_memory memory_size) parsed ->
  Forall (fits_memory memory_size) parsed'.
Proof.
  induction lines as [|l lines IH]; intros n parsed msgs parsed' H HnoF Hfit; simpl in H.
  - inversion H; subst. exact Hfit.
  - destruct (parse_line files image_open parsed memory_size n l)
      as [[m [p1|]]|e] eqn:Hl; try discriminate.
    destruct (parse_lines files image_open lines (n + 1) p1 memory_size)
      as [[m' r]|e] eqn:Hrest; [|discriminate].
    inversion H; subst.
    destruct (parse_line_fits _ _ _ _ _ Hl (HnoF l (list_elem_of_here _ _)))
      as (e & -> & He).
    apply (IH _ _ _ _ Hrest).
    + intros line Hin. apply HnoF. apply list_elem_of_further. exact Hin.
    + apply Forall_app. split; [exact Hfit|]. constructor; [exact He|constructor].
Qed.

End DataLines.

(** X13.  A data file with an empty line is never loaded, and a file
    that ends with a newline has one: its last line is empty.  The same
    holds for the empty file. *)
Theorem blank_line_refused (files : string -> option string)
    (image_open : string -> option Data.Image) (memory_size : Z) :
  (forall text, EmptyString ∈ Data.split_lines text ->
     ~ DataFaults.loaded (Data.parse_data files image_open text memory_size)) /\
  (forall s,
     ~ DataFaults.loaded
         (Data.parse_data files image_open (s ++ Pipeline.nl) memory_size)) /\
  Data.parse_data files image_open EmptyString memory_size
    = Ok ([Data.ExpectedSyntax 0], None).
Proof.
  split; [|split].
  - intros text. apply blank_line_not_loaded.
  - intros s. apply blank_line_not_loaded.
    destruct (split_lines_newline s) as (l & ls & -> & Hin).
    apply list_elem_of_further. exact Hin.
  - reflexivity.
Qed.

(** X14.  An entry of type [b] that is read holds one value for every
    two characters of its payload, each between 0 and 255, at an address
    that is not negative, and ends inside the memory. *)
Theorem byte_line_entry (files : string -> option string)
    (image_open : string -> option Data.Image) (parsed : list data_entry)
    (memory_size n : Z) (line address_str payload : string)
    (msgs : list Data.data_message) (parsed' : list data_entry) :
  Data.DATA_LINE_REGEX line = Some (address_str, "b"%char, payload) ->
  Data.parse_line files image_open parsed memory_size n line = Ok (msgs, Some parsed') ->
  exists address numbers,
    parsed' = parsed ++ [(address, numbers)] /\
    py_int address_str = Some address /\
    0 <= address /\
    address + Z.of_nat (length numbers) <= memory_size /\
    (2 * length numbers)%nat = String.length payload /\
    Forall (fun v => 0 <= v < 256) numbers.
Proof.
  intros Hre H. unfold Data.parse_line in H. rewrite Hre in H.
  destruct (DATA_LINE_REGEX_groups _ _ _ _ Hre) as (Hsign & _ & _).
  destruct (py_int address_str) as [address|] eqn:Ha; [|discriminate].
  pose proof (Hsign address eq_refl) as Hpos.
  cbn [Ascii.eqb Bool.eqb] in H. cbv iota in H.
  destruct (negb (Data.HEX_REGEX payload)); [discriminate|].
  destruct (Data.hex_pairs payload) as [numbers|] eqn:Hhex; [|discriminate].
  rewrite add_data_entry_cases in H. cbn [fst snd] in H.
  destruct (memory_size <? address + Z.of_nat (length numbers)) eqn:Hcap; [discriminate|].
  inversion H; subst.
  destruct (proj1 (hex_pairs_bytes payload) numbers Hhex) as [Hall Hlen].
  exists address, numbers. repeat split; try assumption; lia.
Qed.

(** Witness of [byte_line_entry]: the line [20 b 01ff]. *)
Lemma byte_line_entry_witness :
  exists address numbers,
    [(20, [1; 255])] = [] ++ [(address, numbers)] /\
    py_int "20" = Some address /\
    0 <= address /\
    address + Z.of_nat (length numbers) <= 128 /\
    (2 * length numbers)%nat = String.length "01ff" /\
    Forall (fun v => 0 <= v < 256) numbers.
Proof.
  exact (byte_line_entry Examples.files Examples.no_images [] 128 0 "20 b 01ff" "20" "01ff"
           [] [(20, [1; 255])] eq_refl eq_refl).
Defined.

Lemma new_context_made (pd : program) (entries : list data_entry) :
  Forall (Machine.fits_memory (meta_memory (p_meta pd))) entries ->
  exists c,
    VM.new_ProgramContext pd (Some entries) = Ok c /\
    length (VM.memory c) = Z.to_nat (meta_memory (p_meta pd)).
Proof.
  intros Hfit. unfold VM.new_ProgramContext.
  destruct (load_data_fits (meta_memory (p_meta pd)) entries
              (replicate (Z.to_nat (meta_memory (p_meta pd))) 0))
    as (mem' & Hload & Hlen & _); [rewrite length_replicate; lia | exact Hfit |].
  rewrite Hload. eexists. split; [reflexivity|]. cbn [VM.memory].
  rewrite Hlen. apply length_replicate.
Qed.

(** X15.  The data the assembler attaches is data the machine accepts:
    when the data file has no line of type [F], the list [parse_data]
    returns for the memory size of the program is loaded by the
    constructor of the context without [G1PyException]. *)
Theorem checked_data_is_loadable (files : string -> option string)
    (image_open : string -> option Data.Image) (text : string) (pd : program)
    (msgs : list Data.data_message) (entries : list data_entry) :
  Data.parse_data files image_open text (meta_memory (p_meta pd))
    = Ok (msgs, Some entries) ->
  (forall line, line ∈ Data.split_lines text ->
     forall address_str path,
       Data.DATA_LINE_REGEX line <> Some (address_str, "F"%char, path)) ->
  exists c,
    VM.new_ProgramContext pd (Some entries) = Ok c /\
    length (VM.memory c) = Z.to_nat (meta_memory (p_meta pd)).
Proof.
  intros Hload HnoF. apply new_context_made.
  unfold Data.parse_data in Hload.
  destruct (Data.parse_lines files image_open (Data.split_lines text) 0 []
              (meta_memory (p_meta pd))) as [[m [parsed|]]|e] eqn:Hlines;
    try discriminate.
  inversion Hload; subst.
  eapply parse_lines_fit; [exact Hlines|exact HnoF|constructor].
Qed.

(** Witness of [checked_data_is_loadable]: the data file [20 b 0102]. *)
Lemma checked_data_is_loadable_witness :
  exists c,
    VM.new_ProgramContext (Examples.one_instruction (Examples.jmp 0 0))
      (Some [(20, [1; 2])]) = Ok c /\
    length (VM.memory c)
    = Z.to_nat (meta_memory (p_meta (Examples.one_instruction (Examples.jmp 0 0)))).
Proof.
  apply (checked_data_is_loadable Examples.files Examples.no_images "20 b 0102"
           (Examples.one_instruction (Examples.jmp 0 0)) [] [(20, [1; 2])]).
  - vm_compute. reflexivity.
  - intros line Hin address_str path.
    apply list_elem_of_singleton in Hin. subst line. vm_compute. discriminate.
Defined.

(** ** The overlap warnings *)

Section Overlaps.

Import Data Spans.

Lemma insert_span_elem z l x : x ∈ insert_span z l <-> x = z \/ x ∈ l.
Proof.
  induction l as [|h t IH]; simpl.
  - rewrite list_elem_of_singleton. rewrite elem_of_nil. tauto.
  - destruct (fst z <? fst h).
    + rewrite elem_of_cons. tauto.
    + rewrite !elem_of_cons, IH. tauto.
Qed.

Lemma insert_span_before z l x y :
  before x y l -> before x y (insert_span z l).
Proof.
  induction l as [|h t IH]; simpl; [tauto|].
  destruct (fst z <? fst h); simpl; [tauto|].
  intros [[-> Hy]|H]; [left|right; exact (IH H)].
  split; [reflexivity|]. apply insert_span_elem. right. exact Hy.
Qed.

Lemma insert_span_new z l x :
  x ∈ l -> before x z (insert_span z l) \/ before z x (insert_span z l).
Proof.
  induction l as [|h t IH]; simpl; [intros H; apply elem_of_nil in H; contradiction|].
  intros Hx. destruct (fst z <? fst h); simpl.
  - right. left. split; [reflexivity|exact Hx].
  - apply elem_of_cons in Hx as [->|Hx].
    + left. left. split; [reflexivity|]. apply insert_span_elem. left. reflexivity.
    + destruct (IH Hx) as [H|H]; [left|right]; right; exact H.
Qed.

Lemma insert_span_sorted z l :
  sorted_by_start l -> sorted_by_start (insert_span z l).
Proof.
  induction l as [|h t IH]; simpl; [intros _; split; [constructor|exact I]|].
  intros [Hh Ht]. destruct (fst z <? fst h) eqn:E; simpl.
  - split; [|split; assumption].
    constructor; [lia|]. eapply Forall_impl; [exact Hh|]. cbn. intros y Hy. lia.
  - split; [|exact (IH Ht)].
    apply Forall_forall. intros y Hy. apply insert_span_elem in Hy as [->|Hy]; [lia|].
    rewrite Forall_forall in Hh. exact (Hh y Hy).
Qed.

Lemma fold_insert_elem l : forall acc x,
  x ∈ fold_left (fun acc x => insert_span x acc) l acc <-> x ∈ acc \/ x ∈ l.
Proof.
  induction l as [|h t IH]; intros acc x; simpl.
  - rewrite elem_of_nil. tauto.
  - rewrite IH, insert_span_elem, elem_of_cons. tauto.
Qed.

Lemma fold_insert_before l : forall acc x y,
  before x y acc -> before x y (fold_left (fun acc x => insert_span x acc) l acc).
Proof.
  induction l as [|h t IH]; intros acc x y H; simpl; [exact H|].
  apply IH. apply insert_span_before. exact H.
Qed.

Lemma fold_insert_later l : forall acc x y,
  x ∈ acc -> y ∈ l ->
  before x y (fold_left (fun acc x => insert_span x acc) l acc) \/
  before y x (fold_left (fun acc x => insert_span x acc) l acc).
Proof.
  induction l as [|h t IH]; intros acc x y Hx Hy; simpl;
    [apply elem_of_nil in Hy; contradiction|].
  apply elem_of_cons in Hy as [->|Hy].
  - destruct (insert_span_new h acc x Hx) as [H|H]; [left|right];
      apply fold_insert_before; exact H.
  - apply IH; [|exact Hy]. apply insert_span_elem. right. exact Hx.
Qed.

Lemma fold_insert_pair l : forall acc x y,
  before x y l ->
  before x y (fold_left (fun acc x => insert_span x acc) l acc) \/
  before y x (fold_left (fun acc x => insert_span x acc) l acc).
Proof.
  induction l as [|h t IH]; intros acc x y H; simpl in *; [contradiction|].
  destruct H as [[-> Hy]|H]; [|exact (IH _ _ _ H)].
  apply fold_insert_later; [|exact Hy]. apply insert_span_elem. left. reflexivity.
Qed.

Lemma fold_insert_sorted l : forall acc,
  sorted_by_start acc ->
  sorted_by_start (fold_left (fun acc x => insert_span x acc) l acc).
Proof.
  induction l as [|h t IH]; intros acc H; simpl; [exact H|].
  apply IH. apply insert_span_sorted. exact H.
Qed.

Lemma sorted_before l u v : sorted_by_start l -> before u v l -> fst u <= fst v.
Proof.
  induction l as [|h t IH]; simpl; [tauto|].
  intros [Hh Ht] [[-> Hv]|H]; [|exact (IH Ht H)].
  rewrite Forall_forall in Hh. exact (Hh v Hv).
Qed.

Lemma before_elems {A} (l : list A) x y : before x y l -> x ∈ l /\ y ∈ l.
Proof.
  induction l as [|h t IH]; simpl; [tauto|].
  intros [[-> Hy]|H].
  - split; [apply list_elem_of_here|apply list_elem_of_further; exact Hy].
  - destruct (IH H). split; apply list_elem_of_further; assumption.
Qed.

Lemma lookup_before {A} (l : list A) : forall p q x y,
  l !! p = Some x -> l !! q = Some y -> (p < q)%nat -> before x y l.
Proof.
  induction l as [|h t IH]; intros p q x y Hp Hq Hlt; [discriminate|].
  destruct q as [|q]; [lia|]. simpl in Hq. destruct p as [|p]; simpl in Hp.
  - inversion Hp; subst. left. split; [reflexivity|].
    eapply list_elem_of_lookup_2. exact Hq.
  - right. apply (IH p q); [assumption..|lia].
Qed.

(** The scan of the sorted spans reports the pairs in order whose second
    span starts no later than the first one ends, and only those. *)
Lemma overlaps_reported l u v :
  DataOverlap u v ∈ overlaps l <-> before u v l /\ fst v <= snd u.
Proof.
  induction l as [|h t IH]; simpl.
  - rewrite elem_of_nil. tauto.
  - rewrite elem_of_app, IH, list_elem_of_omap. split.
    + intros [(sj & Hin & Hsj)|[H1 H2]]; [|tauto].
      destruct (fst sj <=? snd h) eqn:E; [|discriminate].
      inversion Hsj; subst. split; [left; auto|lia].
    + intros [[[-> Hv]|H] Hle]; [left|right; tauto].
      exists v. split; [exact Hv|]. rewrite (proj2 (Z.leb_le _ _) Hle). reflexivity.
Qed.

Lemma overlaps_only l m : m ∈ overlaps l -> exists u v, m = DataOverlap u v.
Proof.
  induction l as [|h t IH]; simpl; [intros H; apply elem_of_nil in H; contradiction|].
  intros H. apply elem_of_app in H as [H|H]; [|exact (IH H)].
  apply list_elem_of_omap in H as (sj & _ & Hsj).
  destruct (fst sj <=? snd h); [|discriminate]. inversion Hsj. eauto.
Qed.

Lemma parse_line_quiet files image_open parsed memory_size n line msgs parsed' :
  parse_line files image_open parsed memory_size n line = Ok (msgs, Some parsed') ->
  msgs = [].
Proof.
  unfold parse_line. intros H.
  repeat (match type of H with
          | context [add_data_entry _ _ _ _] => rewrite add_data_entry_cases in H
          | context [match ?x with _ => _ end] => destruct x eqn:?
          | context [if ?x then _ else _] => destruct x eqn:?
          end; try discriminate);
    inversion H; subst; reflexivity.
Qed.

Lemma parse_lines_quiet files image_open memory_size lines : forall n parsed msgs parsed',
  parse_lines files image_open lines n parsed memory_size = Ok (msgs, Some parsed') ->
  msgs = [].
Proof.
  induction lines as [|l lines IH]; intros n parsed msgs parsed' H; simpl in H.
  - inversion H. reflexivity.
  - destruct (parse_line files image_open parsed memory_size n l)
      as [[m [p1|]]|e] eqn:Hl; try discriminate.
    destruct (parse_lines files image_open lines (n + 1) p1 memory_size)
      as [[m' r]|e] eqn:Hrest; [|discriminate].
    inversion H; subst.
    rewrite (parse_line_quiet _ _ _ _ _ _ _ _ Hl), (IH _ _ _ _ Hrest). reflexivity.
Qed.

End Overlaps.

(** X16.  When a data file is loaded, the messages printed are exactly
    the overlap warnings.  Two entries at different places of the list
    that share a cell are reported, and every warning names the spans of
    two entries of which the second starts where the first starts or
    later, and no later than the first ends. *)
Theorem overlaps_are_reported (files : string -> option string)
    (image_open : string -> option Data.Image) (text : string) (memory_size : Z)
    (msgs : list Data.data_message) (entries : list data_entry) :
  Data.parse_data files image_open text memory_size = Ok (msgs, Some entries) ->
  msgs = Data.overlap_warnings entries /\
  (forall p q e1 e2 i,
     entries !! p = Some e1 -> entries !! q = Some e2 -> p <> q ->
     Machine.covers e1 i -> Machine.covers e2 i ->
     Data.DataOverlap (Spans.span_of e1) (Spans.span_of e2) ∈ msgs \/
     Data.DataOverlap (Spans.span_of e2) (Spans.span_of e1) ∈ msgs) /\
  (forall m, m ∈ msgs ->
     exists e1 e2,
       e1 ∈ entries /\ e2 ∈ entries /\
       m = Data.DataOverlap (Spans.span_of e1) (Spans.span_of e2) /\
       fst e1 <= fst e2 <= fst e1 + Z.of_nat (length (snd e1)) - 1).
Proof.
  intros Hload. unfold Data.parse_data in Hload.
  destruct (Data.parse_lines files image_open (Data.split_lines text) 0 [] memory_size)
    as [[m0 [parsed|]]|e] eqn:Hlines; try discriminate.
  inversion Hload; subst. rewrite (parse_lines_quiet _ _ _ _ _ _ _ _ Hlines).
  cbn [app]. split; [reflexivity|].
  set (sorted := fold_left (fun acc x => Data.insert_span x acc)
                   (map Spans.span_of entries) []).
  assert (Hw : Data.overlap_warnings entries = Data.overlaps sorted) by reflexivity.
  rewrite Hw. clear Hw.
  assert (Hsorted : Spans.sorted_by_start sorted)
    by (apply fold_insert_sorted; exact I).
  split.
  - assert (Hpair : forall p q e1 e2 i,
              entries !! p = Some e1 -> entries !! q = Some e2 -> (p < q)%nat ->
              Machine.covers e1 i -> Machine.covers e2 i ->
              Data.DataOverlap (Spans.span_of e1) (Spans.span_of e2)
                ∈ Data.overlaps sorted \/
              Data.DataOverlap (Spans.span_of e2) (Spans.span_of e1)
                ∈ Data.overlaps sorted).
    { intros p q e1 e2 i Hp Hq Hlt [H1 H1'] [H2 H2'].
      assert (Hb : Spans.before (Spans.span_of e1) (Spans.span_of e2)
                     (map Spans.span_of entries)).
      { apply (lookup_before _ p q); [| |exact Hlt];
          rewrite list_lookup_fmap; [rewrite Hp|rewrite Hq]; reflexivity. }
      destruct (fold_insert_pair _ [] _ _ Hb) as [H|H]; [left|right];
        apply overlaps_reported; (split; [exact H|]);
        pose proof (sorted_before _ _ _ Hsorted H) as Hle;
        unfold Spans.span_of in *; cbn [fst snd] in *; lia. }
    intros p q e1 e2 i Hp Hq Hne H1 H2.
    destruct (decide (p < q)%nat) as [Hlt|Hge].
    + exact (Hpair p q e1 e2 i Hp Hq Hlt H1 H2).
    + destruct (Hpair q p e2 e1 i Hq Hp ltac:(lia) H2 H1) as [H|H]; [right|left]; exact H.
  - intros m Hm. destruct (overlaps_only _ _ Hm) as (u & v & ->).
    apply overlaps_reported in Hm as [Hb Hle].
    pose proof (sorted_before _ _ _ Hsorted Hb) as Hstart.
    apply before_elems in Hb as [Hu Hv].
    apply fold_insert_elem in Hu as [Hu|Hu]; [apply elem_of_nil in Hu; contradiction|].
    apply fold_insert_elem in Hv as [Hv|Hv]; [apply elem_of_nil in Hv; contradiction|].
    apply list_elem_of_fmap in Hu as (e1 & -> & He1).
    apply list_elem_of_fmap in Hv as (e2 & -> & He2).
    exists e1, e2. unfold Spans.span_of in *. cbn [fst snd] in *.
    repeat split; try assumption; lia.
Qed.

(** Witness of [overlaps_are_reported]: two entries of a data file that
    share cell 21. *)
Lemma overlaps_are_reported_witness :
  Data.DataOverlap (20, 21) (21, 21) ∈ [Data.DataOverlap (20, 21) (21, 21)] \/
  Data.DataOverlap (21, 21) (20, 21) ∈ [Data.DataOverlap (20, 21) (21, 21)].
Proof.
  refine (proj1 (proj2 (overlaps_are_reported Examples.files Examples.no_images
                          (Pipeline.unlines ["20 b 0102"; "21 b 03"]) 128
                          [Data.DataOverlap (20, 21) (21, 21)]
                          [(20, [1; 2]); (21, [3])] _))
            0%nat 1%nat (20, [1; 2]) (21, [3]) 21 eq_refl eq_refl _ _ _).
  - vm_compute. reflexivity.
  - discriminate.
  - unfold Machine.covers. cbn. lia.
  - unfold Machine.covers. cbn. lia.
Defined.

(** ** Images *)

Section Images.

Import Data.

Lemma land_shiftl_low x y : 0 <= y < 256 -> Z.land (Z.shiftl x 8) y = 0.
Proof.
  intros Hy. apply Z.bits_inj'. intros n Hn.
  rewrite Z.land_spec, Z.bits_0.
  destruct (Z.lt_ge_cases n 8) as [Hlt|Hge].
  - rewrite Z.shiftl_spec_low by lia. reflexivity.
  - destruct (Z.eq_dec y 0) as [->|Hne]; [rewrite Z.bits_0; apply andb_false_r|].
    rewrite (Z.bits_above_log2 y n); [apply andb_false_r|lia|].
    assert (Z.log2 y < 8) by (apply Z.log2_lt_pow2; lia). lia.
Qed.

Lemma lor_shiftl_add x y : 0 <= y < 256 -> Z.lor (Z.shiftl x 8) y = x * 256 + y.
Proof.
  intros Hy. pose proof (Z.add_lor_land (Z.shiftl x 8) y) as H.
  rewrite (land_shiftl_low x y Hy) in H.
  rewrite Z.shiftl_mul_pow2 in * by lia. change (2 ^ 8) with 256 in *. lia.
Qed.

(** The three channels are read back from the packed pixel. *)
Lemma packed_channels r g b :
  0 <= r < 256 -> 0 <= g < 256 -> 0 <= b < 256 ->
  let v := Z.lor (Z.shiftl (Z.lor (Z.shiftl b 8) g) 8) r in
  Z.land v 255 = r /\ Z.land (Z.shiftr v 8) 255 = g /\ Z.shiftr v 16 = b.
Proof.
  intros Hr Hg Hb v. unfold v.
  rewrite (lor_shiftl_add b g Hg), (lor_shiftl_add _ r Hr).
  change 255 with (Z.ones 8). rewrite !Z.land_ones by lia.
  rewrite !Z.shiftr_div_pow2 by lia.
  change (2 ^ 8) with 256. change (2 ^ 16) with 65536.
  repeat split; Z.div_mod_to_equations; lia.
Qed.

Lemma lookup_flat_map_rows {A B} (f : A -> list B) (W : nat) (l : list A) :
  (forall a, length (f a) = W) ->
  forall i j a, l !! i = Some a -> (j < W)%nat ->
    flat_map f l !! (i * W + j)%nat = f a !! j.
Proof.
  intros Hrow. induction l as [|h t IH]; intros i j a Hi Hj; [discriminate|].
  simpl. destruct i as [|i]; simpl in Hi.
  - inversion Hi; subst. rewrite lookup_app_l by (rewrite Hrow; lia). reflexivity.
  - rewrite lookup_app_r by (rewrite Hrow; lia).
    rewrite Hrow. replace (S i * W + j - W)%nat with (i * W + j)%nat by lia.
    apply IH; assumption.
Qed.

Lemma length_flat_map_rows {A B} (f : A -> list B) (W : nat) (l : list A) :
  (forall a, length (f a) = W) -> length (flat_map f l) = (length l * W)%nat.
Proof.
  intros Hrow. induction l as [|h t IH]; [reflexivity|].
  simpl. rewrite length_app, Hrow, IH. reflexivity.
Qed.

Lemma length_range n : length (range n) = Z.to_nat n.
Proof. unfold range. rewrite length_map, length_seq. reflexivity. Qed.

Lemma lookup_range n k : 0 <= k < n -> range n !! Z.to_nat k = Some k.
Proof.
  intros Hk. unfold range. rewrite list_lookup_fmap, lookup_seq_lt by lia.
  simpl. f_equal. lia.
Qed.

End Images.

(** X17.  The layout [img_to_simg] gives an image: the width, the
    height, then one value for each pixel, row by row, so that the pixel
    of column [j] and row [i] is at index [2 + i * width + j]; the list
    has [2 + width * height] values.  The value of a pixel packs its three
    channels, blue above green above red, and each channel of 0 to 255 is
    read back from it by shifting and masking. *)
Theorem img_to_simg_layout (img : Data.Image) :
  length (Data.img_to_simg img)
    = (2 + Z.to_nat (Data.img_height img) * Z.to_nat (Data.img_width img))%nat /\
  Data.img_to_simg img !! 0%nat = Some (Data.img_width img) /\
  Data.img_to_simg img !! 1%nat = Some (Data.img_height img) /\
  forall i j,
    0 <= i < Data.img_height img -> 0 <= j < Data.img_width img ->
    exists v,
      Data.img_to_simg img !! Z.to_nat (2 + i * Data.img_width img + j) = Some v /\
      forall r g b,
        Data.getpixel img j i = (r, g, b) ->
        0 <= r < 256 -> 0 <= g < 256 -> 0 <= b < 256 ->
        Z.land v 255 = r /\ Z.land (Z.shiftr v 8) 255 = g /\ Z.shiftr v 16 = b.
Proof.
  unfold Data.img_to_simg.
  set (row := fun i : Z =>
         map (fun j : Z =>
                let '(r, g, b) := Data.getpixel img j i in
                Z.lor (Z.shiftl (Z.lor (Z.shiftl b 8) g) 8) r)
             (Data.range (Data.img_width img))).
  assert (Hrow : forall i, length (row i) = Z.to_nat (Data.img_width img))
    by (intros i; unfold row; rewrite length_map; apply length_range).
  split; [|split; [reflexivity|split; [reflexivity|]]].
  - rewrite length_app, (length_flat_map_rows row _ _ Hrow), length_range. reflexivity.
  - intros i j Hi Hj.
    replace (Z.to_nat (2 + i * Data.img_width img + j))
      with (2 + (Z.to_nat i * Z.to_nat (Data.img_width img) + Z.to_nat j))%nat by nia.
    rewrite (lookup_app_r [_; _]) by (simpl; lia).
    replace (2 + (Z.to_nat i * Z.to_nat (Data.img_width img) + Z.to_nat j) - length [Data.img_width img; Data.img_height img])%nat
      with (Z.to_nat i * Z.to_nat (Data.img_width img) + Z.to_nat j)%nat by (simpl; lia).
    rewrite (lookup_flat_map_rows row _ _ Hrow (Z.to_nat i) (Z.to_nat j) i);
      [|apply lookup_range; exact Hi|lia].
    unfold row. rewrite list_lookup_fmap, (lookup_range _ j Hj). cbn [fmap option_fmap option_map].
    eexists. split; [reflexivity|].
    intros r g b Hpix Hr Hg Hb. rewrite Hpix.
    exact (packed_channels r g b Hr Hg Hb).
Qed.

(** ** Decoding g1b files *)

Section Decoding.

Import Binary Wire.

Lemma parse_array_Forall {A} (p : Parser A) (P : A -> Prop) :
  (forall bs x rest, p bs = Ok (x, rest) -> P x) ->
  forall count bs xs rest,
    parse_array count p bs = Ok (xs, rest) -> length xs = count /\ Forall P xs.
Proof.
  intros Hp. induction count as [|count IH]; intros bs xs rest H; simpl in H.
  - inversion H. split; [reflexivity|constructor].
  - unfold mbind, Parser_bind in H.
    destruct (p bs) as [[x bs1]|e] eqn:Hx; [|discriminate].
    destruct (parse_array count p bs1) as [[xs' bs2]|e] eqn:Hxs; [|discriminate].
    inversion H; subst. destruct (IH _ _ _ Hxs) as [Hlen Hall].
    split; [simpl; lia|]. constructor; [exact (Hp _ _ _ Hx)|exact Hall].
Qed.

(** The two tables have their entries at the same indices. *)
Lemma tables_aligned i name c :
  py_index Instructions.INSTRUCTIONS i = Ok name ->
  py_index Instructions.ARGUMENT_COUNTS i = Ok c ->
  Instructions.ARGUMENT_COUNT_LOOKUP !! name = Some c.
Proof.
  unfold py_index. cbn [length Instructions.INSTRUCTIONS Instructions.ARGUMENT_COUNTS].
  set (j := if i <? 0 then i + Z.of_nat 16 else i).
  destruct ((j <? 0) || (Z.of_nat 16 <=? j)) eqn:Hb; [discriminate|].
  apply orb_false_iff in Hb as [H0 H16].
  apply Z.ltb_ge in H0. apply Z.leb_gt in H16.
  assert (Hk : (Z.to_nat j < 16)%nat) by lia.
  destruct (Z.to_nat j) as [|[|[|[|[|[|[|[|[|[|[|[|[|[|[|[|k]]]]]]]]]]]]]]]]; try lia;
    cbn; intros Hn Hc; inversion Hn; inversion Hc; reflexivity.
Qed.

Lemma parse_G1Instruction_arity bs vi rest :
  parse_G1Instruction bs = Ok (vi, rest) ->
  exists c, py_index Instructions.ARGUMENT_COUNTS (id vi) = Ok c /\
            length (arguments vi) = c.
Proof.
  unfold parse_G1Instruction, mbind, Parser_bind. intros H.
  destruct (parse_int Int8ub bs) as [[i bs1]|e]; [|discriminate].
  unfold argument_count in H.
  destruct (py_index Instructions.ARGUMENT_COUNTS i) as [c|e] eqn:Hc; [|discriminate].
  destruct (parse_array (Z.to_nat (Z.of_nat c)) parse_G1Argument bs1)
    as [[args bs2]|e] eqn:Hargs; [|discriminate].
  inversion H; subst. cbn [id arguments]. exists c. split; [exact Hc|].
  destruct (parse_array_Forall parse_G1Argument (fun _ => True)
              (fun _ _ _ _ => I) _ _ _ _ Hargs) as [Hlen _]. lia.
Qed.

Lemma G1BinaryFormat_parse_arities file_content f :
  G1BinaryFormat_parse file_content = Ok f ->
  Forall (fun vi => exists c, py_index Instructions.ARGUMENT_COUNTS (id vi) = Ok c /\
                              length (arguments vi) = c) (f_instructions f).
Proof.
  unfold G1BinaryFormat_parse, mbind, Parser_bind. intros H.
  destruct (read (length SIGNATURE) file_content) as [[sig b0]|e]; [|discriminate].
  destruct (negb (bytes_eqb sig SIGNATURE)); [discriminate|].
  destruct (parse_meta b0) as [[m b1]|e]; [|discriminate].
  destruct (parse_int Int32sb b1) as [[t b2]|e]; [|discriminate].
  destruct (parse_int Int32sb b2) as [[s b3]|e]; [|discriminate].
  destruct (parse_int Int32ub b3) as [[ic b4]|e]; [|discriminate].
  destruct (parse_array (Z.to_nat ic) parse_G1Instruction b4) as [[ins b5]|e] eqn:Hins;
    [|discriminate].
  destruct (parse_int Int32ub b5) as [[dc b6]|e]; [|discriminate].
  destruct (parse_array (Z.to_nat dc) parse_G1DataEntry b6) as [[ds b7]|e]; [|discriminate].
  inversion H; subst. cbn [f_instructions].
  exact (proj2 (parse_array_Forall _ _ parse_G1Instruction_arity _ _ _ _ Hins)).
Qed.

Lemma convert_argument_well_formed va a :
  convert_argument va = Ok a -> Machine.well_formed_argument a.
Proof.
  unfold convert_argument. destruct (type va =? ARG_TYPE_LITERAL).
  - intros H. inversion H. exact I.
  - destruct (py_str (arg_value va)) as [text|] eqn:Hstr; [|discriminate].
    intros H. inversion H. cbn. rewrite (py_int_py_str _ _ Hstr). discriminate.
Qed.

Lemma converted_arguments : forall vas args,
  mapM convert_argument vas = Ok args ->
  length args = length vas /\ Forall Machine.well_formed_argument args.
Proof.
  induction vas as [|va vas IH]; intros args H; simpl in H.
  - inversion H. split; [reflexivity|constructor].
  - destruct (convert_argument va) as [a|e] eqn:Ha; [|discriminate].
    destruct (mapM convert_argument vas) as [args'|e]; [|discriminate].
    inversion H; subst. destruct (IH _ eq_refl) as [Hlen Hall].
    split; [simpl; lia|].
    constructor; [exact (convert_argument_well_formed _ _ Ha)|exact Hall].
Qed.

Lemma converted_runnable : forall vis instrs,
  Forall (fun vi => exists c, py_index Instructions.ARGUMENT_COUNTS (id vi) = Ok c /\
                              length (arguments vi) = c) vis ->
  mapM convert_instruction vis = Ok instrs ->
  Forall (fun i => runnable i /\ ins_line i = None) instrs.
Proof.
  induction vis as [|vi vis IH]; intros instrs Hall H; simpl in H.
  - inversion H. constructor.
  - apply Forall_cons in Hall as [(c & Hc & Hlen) Hall].
    destruct (convert_instruction vi) as [i|e] eqn:Hi; [|discriminate].
    destruct (mapM convert_instruction vis) as [instrs'|e] eqn:Hrest; [|discriminate].
    inversion H; subst. constructor; [|exact (IH _ Hall eq_refl)].
    unfold convert_instruction in Hi.
    destruct (py_index Instructions.INSTRUCTIONS (id vi)) as [name|e] eqn:Hname;
      [|discriminate].
    destruct (mapM convert_argument (arguments vi)) as [args|e] eqn:Hargs;
      [|discriminate].
    destruct (converted_arguments _ _ Hargs) as [Hlen' Hwf].
    inversion Hi; subst. cbn [ins_name ins_args ins_line]. split; [|reflexivity].
    split; [cbn [ins_name ins_args]; rewrite Hlen'; exact (tables_aligned _ _ _ Hname Hc)|].
    exact Hwf.
Qed.

End Decoding.

(** X18.  Whatever the bytes of a g1b file are, a program decoded from
    them has, for every instruction, a name of the arity table, as many
    arguments as the table gives for it, and arguments that are literals
    or addresses whose number [int] accepts.  It has neither line numbers
    nor source, and its data, when present, is a list. *)
Theorem decoded_program_is_runnable (file_content : list Byte.byte) (p : program) :
  Binary.parse_to_program_data file_content = Ok p ->
  Forall (fun i => Wire.runnable i /\ ins_line i = None) (p_instructions p) /\
  p_source p = None /\
  p_data p <> Some None.
Proof.
  unfold Binary.parse_to_program_data. intros H.
  destruct (Binary.G1BinaryFormat_parse file_content) as [f|e] eqn:Hf; [|discriminate].
  destruct (Binary.mapM Binary.convert_instruction (Binary.f_instructions f))
    as [instrs|e] eqn:Hinstrs; [|discriminate].
  inversion H; subst. cbn [p_instructions p_source p_data].
  split; [|split; [reflexivity|destruct (Binary.f_data f); discriminate]].
  exact (converted_runnable _ _ (G1BinaryFormat_parse_arities _ _ Hf) Hinstrs).
Qed.

(** Witness of [decoded_program_is_runnable]: the file of the debug-mode
    example. *)
Lemma decoded_program_is_runnable_witness :
  Forall (fun i => Wire.runnable i /\ ins_line i = None)
         (p_instructions (Codec.persisted Examples.debug_program)) /\
  p_source (Codec.persisted Examples.debug_program) = None /\
  p_data (Codec.persisted Examples.debug_program) <> Some None.
Proof.
  apply (decoded_program_is_runnable (Wire.file_of Examples.debug_program)).
  vm_compute. reflexivity.
Defined.

(** X19.  Bytes after the last field of a g1b file are ignored: the file
    of a program followed by anything decodes as the file alone. *)
Theorem trailing_bytes_ignored (p : program) (file_content rest : list Byte.byte) :
  Binary.encode p = Ok file_content ->
  Binary.parse_to_program_data (file_content ++ rest)
  = Binary.parse_to_program_data file_content.
Proof.
  unfold Binary.encode. intros H.
  destruct (Binary.format_json p) as [f|e]; [|discriminate].
  destruct (Binary.G1BinaryFormat_build f) as [bs|e] eqn:Hb; [|discriminate].
  inversion H; subst. unfold Binary.parse_to_program_data.
  rewrite (parse_build f file_content rest Hb).
  pose proof (parse_build f file_content [] Hb) as Hnil.
  rewrite app_nil_r in Hnil. rewrite Hnil. reflexivity.
Qed.

(** Witness of [trailing_bytes_ignored]: the file of the debug-mode
    example followed by two bytes. *)
Lemma trailing_bytes_ignored_witness :
  Binary.parse_to_program_data
    (Wire.file_of Examples.debug_program ++ [Byte.x00; Byte.xff])
  = Binary.parse_to_program_data (Wire.file_of Examples.debug_program).
Proof.
  apply (trailing_bytes_ignored Examples.debug_program).
  vm_compute. reflexivity.
Defined.

(** ** What can be encoded *)

Section Encoding.

Import Binary Codec Wire.

Lemma build_int_ok f v : (exists bs, build_int f v = Ok bs) <-> fits f v.
Proof.
  unfold build_int, fits. destruct (in_range f v); split; eauto.
  - intros [bs H]. discriminate.
  - discriminate.
Qed.

Lemma seq_build_both a b :
  (exists bs, a +++ b = Ok bs) <-> (exists x, a = Ok x) /\ (exists y, b = Ok y).
Proof.
  unfold seq_build. destruct a as [x|e], b as [y|e']; split;
    try (intros [bs H]; discriminate); try (intros [[? ?] [? ?]]; discriminate); eauto.
Qed.

Lemma build_each_all {A} (b : Builder A) (objs : list A) :
  (exists bs, build_each b objs = Ok bs) <-> Forall (fun x => exists bs, b x = Ok bs) objs.
Proof.
  induction objs as [|x xs IH]; simpl.
  - split; [constructor|eauto].
  - rewrite seq_build_both, IH, Forall_cons. reflexivity.
Qed.

Lemma build_array_all {A} (count : Z) (b : Builder A) (objs : list A) :
  (exists bs, build_array count b objs = Ok bs) <->
  count = Z.of_nat (length objs) /\ Forall (fun x => exists bs, b x = Ok bs) objs.
Proof.
  unfold build_array. rewrite <- build_each_all.
  destruct (count <? 0) eqn:Hneg; cbn [orb].
  - apply Z.ltb_lt in Hneg.
    split; [intros [bs H]; discriminate|]. intros [-> _]. lia.
  - destruct (Z.of_nat (length objs) =? count) eqn:Hc; cbn [negb].
    + apply Z.eqb_eq in Hc. split; [intros H; split; [lia|exact H]|tauto].
    + apply Z.eqb_neq in Hc. split; [intros [bs H]; discriminate|]. intros [-> _]. lia.
Qed.

Lemma mapM_Forall2 {E A B} (f : A -> result E B) l : forall l',
  mapM f l = Ok l' <-> Forall2 (fun x y => f x = Ok y) l l'.
Proof.
  induction l as [|x xs IH]; intros l'; simpl.
  - split; [intros H; inversion H; constructor|intros H; inversion H; reflexivity].
  - split.
    + destruct (f x) as [y|e] eqn:Hy; [|discriminate].
      destruct (mapM f xs) as [ys|e] eqn:Hys; [|discriminate].
      intros H. inversion H; subst. constructor; [exact Hy|]. apply IH. reflexivity.
    + intros H. inversion H as [|? y ? ys Hy Hys]; subst.
      rewrite Hy. apply IH in Hys. rewrite Hys. reflexivity.
Qed.

Lemma mapM_all {E A B} (f : A -> result E B) l :
  (exists l', mapM f l = Ok l') <-> Forall (fun x => exists y, f x = Ok y) l.
Proof.
  induction l as [|x xs IH]; simpl.
  - split; [constructor|eauto].
  - rewrite Forall_cons, <- IH. destruct (f x) as [y|e].
    + destruct (mapM f xs) as [ys|e'].
      * split; eauto.
      * split; [intros [? H]; discriminate|]. intros [_ [? H]]. discriminate.
    + split; [intros [? H]; discriminate|]. intros [[? H] _]. discriminate.
Qed.

(** An argument can be written exactly when its number fits the signed
    field of four bytes. *)
Lemma argument_encodable a :
  (exists va, verbose_argument a = Ok va /\ exists bs, build_G1Argument va = Ok bs) <->
  encodable_argument a.
Proof.
  unfold build_G1Argument. destruct a as [z|s]; cbn [verbose_argument encodable_argument].
  - split.
    + intros (va & Hva & Hb). inversion Hva; subst. cbn [type arg_value] in Hb.
      apply seq_build_both in Hb as [_ Hv]. apply build_int_ok. exact Hv.
    + intros Hz. eexists. split; [reflexivity|]. cbn [type arg_value].
      apply seq_build_both. split; [eexists; reflexivity|]. apply build_int_ok. exact Hz.
  - destruct (py_int (tail_str s)) as [v|].
    + split.
      * intros (va & Hva & Hb). inversion Hva; subst. cbn [type arg_value] in Hb.
        apply seq_build_both in Hb as [_ Hv]. exists v. split; [reflexivity|].
        apply build_int_ok. exact Hv.
      * intros (v' & Hv' & Hfit). inversion Hv'; subst v'.
        eexists. split; [reflexivity|]. cbn [type arg_value].
        apply seq_build_both. split; [eexists; reflexivity|]. apply build_int_ok. exact Hfit.
    + split; [intros (va & Hva & _); discriminate|intros (v & Hv & _); discriminate].
Qed.

(** The index of a name in the instruction table. *)
Lemma instruction_index name i :
  INSTRUCTION_IDS !! name = Some i ->
  py_index Instructions.INSTRUCTIONS i = Ok name /\ fits Int8ub i /\
  exists c, py_index Instructions.ARGUMENT_COUNTS i = Ok c.
Proof.
  intros H. apply elem_of_list_to_map_2 in H. cbn in H.
  repeat (apply elem_of_cons in H as [H|H];
          [inversion H; subst; split; [reflexivity|split; [reflexivity|eexists; reflexivity]]|]).
  apply elem_of_nil in H. contradiction.
Qed.

Lemma mapM_build {E A B} (f : A -> result E B) (b : Builder B) (P : A -> Prop) :
  (forall x, (exists y, f x = Ok y /\ exists bs, b y = Ok bs) <-> P x) ->
  forall l,
    (exists l', mapM f l = Ok l' /\ length l' = length l /\
                Forall (fun y => exists bs, b y = Ok bs) l') <-> Forall P l.
Proof.
  intros Hone. induction l as [|x xs IH]; simpl.
  - split; [constructor|]. intros _. exists []. split; [reflexivity|]. split; [reflexivity|constructor].
  - rewrite Forall_cons, <- IH, <- Hone. split.
    + intros (l' & H & Hlen & Hall).
      destruct (f x) as [y|e]; [|discriminate].
      destruct (mapM f xs) as [ys|e]; [|discriminate].
      inversion H; subst. apply Forall_cons in Hall as [Hy Hys].
      simpl in Hlen. split; [eauto|]. exists ys. split; [reflexivity|]. split; [lia|exact Hys].
    + intros [(y & -> & Hy) (ys & -> & Hlen & Hys)].
      exists (y :: ys). split; [reflexivity|]. split; [simpl; lia|].
      constructor; assumption.
Qed.

(** An instruction can be written exactly when its name is in the
    table, it has the arity of the table and its arguments fit. *)
Lemma instruction_encodable i :
  (exists vi, verbose_instruction i = Ok vi /\ exists bs, build_G1Instruction vi = Ok bs) <->
  encodable_instruction i.
Proof.
  unfold verbose_instruction, build_G1Instruction, encodable_instruction.
  rewrite <- (mapM_build verbose_argument build_G1Argument encodable_argument
                argument_encodable (ins_args i)).
  split.
  - intros (vi & Hvi & Hb).
    destruct (mapM verbose_argument (ins_args i)) as [vas|e] eqn:Hvas; [|discriminate].
    destruct (INSTRUCTION_IDS !! ins_name i) as [n|] eqn:Hid; [|discriminate].
    inversion Hvi; subst. cbn [id arguments] in Hb.
    apply seq_build_both in Hb as [_ Hb].
    destruct (instruction_index _ _ Hid) as (Hname & _ & c & Hc).
    unfold argument_count in Hb. rewrite Hc in Hb.
    apply build_array_all in Hb as [Hcount Hall].
    pose proof (mapM_length _ _ _ Hvas) as Hlen.
    split.
    + rewrite (tables_aligned _ _ _ Hname Hc). f_equal. lia.
    + exists vas. auto.
  - intros [Hcount (vas & Hvas & Hlen & Hall)].
    destruct (instruction_id _ _ Hcount) as (n & Hid & Hfit & Hc & _).
    rewrite Hvas, Hid. eexists. split; [reflexivity|]. cbn [id arguments].
    apply seq_build_both. split; [apply build_int_ok; exact Hfit|].
    rewrite Hc. apply build_array_all. split; [lia|exact Hall].
Qed.

Lemma entry_encodable e :
  (exists bs, build_G1DataEntry (verbose_data_entry e) = Ok bs) <-> valid_entry e.
Proof.
  unfold build_G1DataEntry, verbose_data_entry, valid_entry.
  cbn [address data_size values].
  rewrite !seq_build_both, !build_int_ok, build_array_all.
  split.
  - intros (Ha & Hn & _ & Hall). split; [exact Ha|]. split; [exact Hn|].
    eapply Forall_impl; [exact Hall|]. intros v Hv. apply build_int_ok. exact Hv.
  - intros (Ha & Hn & Hall). split; [exact Ha|]. split; [exact Hn|]. split; [reflexivity|].
    eapply Forall_impl; [exact Hall|]. intros v Hv. apply build_int_ok. exact Hv.
Qed.

Lemma meta_encodable m : (exists bs, build_meta m = Ok bs) <-> valid_meta m.
Proof.
  unfold build_meta, valid_meta. rewrite !seq_build_both, !build_int_ok. reflexivity.
Qed.

End Encoding.

(** X20.  Encoding succeeds exactly when everything fits the fields of
    the format: the meta values their unsigned fields, the entry points,
    the literals and the numbers of the addresses the signed field of
    four bytes, every instruction name in the table with the arity of the
    table, the data present as a list whose addresses, sizes and values
    fit. *)
Theorem encode_succeeds_iff_fits (p : program) :
  (exists file_content, Binary.encode p = Ok file_content) <-> Wire.encodable p.
Proof.
  unfold Binary.encode, Binary.format_json, Wire.encodable.
  rewrite <- (mapM_build Binary.verbose_instruction Binary.build_G1Instruction
                Wire.encodable_instruction instruction_encodable (p_instructions p)).
  rewrite <- meta_encodable, <- !build_int_ok.
  split.
  - intros [file_content H].
    destruct (Binary.mapM Binary.verbose_instruction (p_instructions p))
      as [vis|e] eqn:Hvis; [|discriminate].
    pose proof (mapM_length _ _ _ Hvis) as Hlen.
    assert (Hbuilt : exists f bs,
              Binary.G1BinaryFormat_build f = Ok bs /\
              Binary.f_meta f = p_meta p /\
              Binary.f_tick f = default (-1) (p_tick p) /\
              Binary.f_start f = default (-1) (p_start p) /\
              Binary.instruction_count f = Z.of_nat (length (p_instructions p)) /\
              Binary.f_instructions f = vis /\
              match p_data p with
              | Some (Some entries) =>
                  Binary.data_entry_count f = Z.of_nat (length entries) /\
                  Binary.f_data f = map Binary.verbose_data_entry entries
              | Some None => False
              | None => True
              end).
    { destruct (p_data p) as [[entries|]|]; try discriminate;
        match type of H with
        | match Binary.G1BinaryFormat_build ?f with _ => _ end = _ =>
            destruct (Binary.G1BinaryFormat_build f) as [bs|e] eqn:Hb; [|discriminate];
            exists f, bs; split; [exact Hb|];
            cbn [Binary.f_meta Binary.f_tick Binary.f_start Binary.instruction_count
                 Binary.f_instructions Binary.data_entry_count Binary.f_data];
            rewrite ?length_map; auto 10
        end. }
    destruct Hbuilt as (f & bs & Hb & Hm & Ht & Hs & Hic & Hins & Hdata).
    unfold Binary.G1BinaryFormat_build in Hb.
    assert (Hall : exists bs', Binary.G1BinaryFormat_build f = Ok bs') by eauto.
    unfold Binary.G1BinaryFormat_build in Hall.
    rewrite !seq_build_both, !build_array_all in Hall.
    destruct Hall as (_ & Hmeta & Htick & Hstart & Hcount & (_ & Hi) & Hdc & (_ & Hd)).
    rewrite Hm in Hmeta. rewrite Ht in Htick. rewrite Hs in Hstart.
    rewrite Hic in Hcount. rewrite Hins in Hi.
    split; [exact Hmeta|]. split; [exact Htick|]. split; [exact Hstart|].
    split; [exact Hcount|]. split; [exists vis; auto|].
    unfold Codec.valid_data. destruct (p_data p) as [[entries|]|]; [|contradiction|exact I].
    destruct Hdata as [Hdc' Hd']. rewrite Hdc' in Hdc. rewrite Hd' in Hd.
    split; [apply build_int_ok; exact Hdc|].
    apply Forall_forall. intros e He. apply entry_encodable.
    rewrite Forall_forall in Hd. apply Hd. apply list_elem_of_fmap. eauto.
  - intros (Hmeta & Htick & Hstart & Hcount & (vis & Hvis & Hlen & Hi) & Hdata).
    rewrite Hvis. unfold Codec.valid_data in Hdata.
    destruct (p_data p) as [[entries|]|]; [|contradiction|].
    + destruct Hdata as [Hdc Hd].
      match goal with
      | |- exists _, match Binary.G1BinaryFormat_build ?f with _ => _ end = _ =>
          assert (Hb : exists bs, Binary.G1BinaryFormat_build f = Ok bs)
      end.
      { unfold Binary.G1BinaryFormat_build.
        cbn [Binary.f_meta Binary.f_tick Binary.f_start Binary.instruction_count
             Binary.f_instructions Binary.data_entry_count Binary.f_data].
        rewrite !seq_build_both, !build_array_all, length_map.
        split; [eauto|]. split; [exact Hmeta|]. split; [exact Htick|].
        split; [exact Hstart|]. split; [exact Hcount|].
        split; [split; [lia|exact Hi]|]. split; [apply build_int_ok; exact Hdc|].
        split; [reflexivity|].
        apply Forall_forall. intros d Hdin. apply list_elem_of_fmap in Hdin as (e & -> & He).
        apply entry_encodable. rewrite Forall_forall in Hd. exact (Hd e He). }
      destruct Hb as [bs ->]. eauto.
    + match goal with
      | |- exists _, match Binary.G1BinaryFormat_build ?f with _ => _ end = _ =>
          assert (Hb : exists bs, Binary.G1BinaryFormat_build f = Ok bs)
      end.
      { unfold Binary.G1BinaryFormat_build.
        cbn [Binary.f_meta Binary.f_tick Binary.f_start Binary.instruction_count
             Binary.f_instructions Binary.data_entry_count Binary.f_data].
        rewrite !seq_build_both, !build_array_all.
        split; [eauto|]. split; [exact Hmeta|]. split; [exact Htick|].
        split; [exact Hstart|]. split; [exact Hcount|].
        split; [split; [lia|exact Hi]|]. split; [apply build_int_ok; reflexivity|].
        split; [reflexivity|constructor]. }
      destruct Hb as [bs ->]. eauto.
Qed.

(** ** Truncated files *)

Section Truncation.

Import Binary.

Lemma truncated_bind {A B} (p : Parser A) (k : A -> Parser B) (x : A)
    (bs1 bs2 : list Byte.byte) (n : nat) :
  (forall rest, p (bs1 ++ rest) = Ok (x, rest)) ->
  (forall m, (m < length bs1)%nat -> p (take m bs1) = Err StreamError) ->
  ((length bs1 <= n)%nat -> k x (take (n - length bs1) bs2) = Err StreamError) ->
  (@mbind Parser Parser_bind _ _ k p) (take n (bs1 ++ bs2)) = Err StreamError.
Proof.
  intros Hsound Htrunc Hk. unfold mbind, Parser_bind.
  destruct (decide (n < length bs1)%nat) as [Hlt|Hge].
  - rewrite take_app_le by lia. rewrite (Htrunc n Hlt). reflexivity.
  - rewrite take_app_ge by lia. rewrite Hsound. apply Hk. lia.
Qed.

Lemma build_int_length f v bs : build_int f v = Ok bs -> length bs = size f.
Proof.
  unfold build_int. destruct (in_range f v); [|discriminate].
  intros H. inversion H. apply length_be_encode.
Qed.

Lemma truncated_int f v bs n :
  build_int f v = Ok bs -> (n < length bs)%nat ->
  parse_int f (take n bs) = Err StreamError.
Proof.
  intros Hb Hn. rewrite (build_int_length _ _ _ Hb) in Hn.
  unfold parse_int, mbind, Parser_bind, read.
  rewrite length_take. rewrite (proj2 (Nat.leb_gt _ _)) by lia. reflexivity.
Qed.

Lemma truncated_each {A} (b : Builder A) (p : Parser A) :
  (forall x bs rest, b x = Ok bs -> p (bs ++ rest) = Ok (x, rest)) ->
  (forall x bs n, b x = Ok bs -> (n < length bs)%nat -> p (take n bs) = Err StreamError) ->
  forall objs bs n,
    build_each b objs = Ok bs -> (n < length bs)%nat ->
    parse_array (length objs) p (take n bs) = Err StreamError.
Proof.
  intros Hsound Htrunc. induction objs as [|x xs IH]; intros bs n Hb Hn; simpl in Hb.
  - inversion Hb; subst. simpl in Hn. lia.
  - apply seq_build_ok in Hb as (b1 & b2 & Hx & Hxs & ->).
    rewrite length_app in Hn. cbn [length parse_array].
    apply (truncated_bind p _ x b1 b2 n).
    + intros rest. exact (Hsound _ _ _ Hx).
    + intros m Hm. exact (Htrunc _ _ _ Hx Hm).
    + intros Hge. unfold mbind, Parser_bind.
      rewrite (IH b2 (n - length b1)%nat Hxs) by lia. reflexivity.
Qed.

Lemma truncated_array {A} (b : Builder A) (p : Parser A) :
  (forall x bs rest, b x = Ok bs -> p (bs ++ rest) = Ok (x, rest)) ->
  (forall x bs n, b x = Ok bs -> (n < length bs)%nat -> p (take n bs) = Err StreamError) ->
  forall count objs bs n,
    build_array count b objs = Ok bs -> (n < length bs)%nat ->
    parse_array (Z.to_nat count) p (take n bs) = Err StreamError.
Proof.
  intros Hsound Htrunc count objs bs n Hb Hn. unfold build_array in Hb.
  destruct (count <? 0); [discriminate|]. cbn [orb] in Hb.
  destruct (Z.of_nat (length objs) =? count) eqn:Hc; [|discriminate].
  apply Z.eqb_eq in Hc. subst count. rewrite Nat2Z.id.
  exact (truncated_each b p Hsound Htrunc objs bs n Hb Hn).
Qed.

Lemma truncated_G1Argument a bs n :
  build_G1Argument a = Ok bs -> (n < length bs)%nat ->
  parse_G1Argument (take n bs) = Err StreamError.
Proof.
  unfold build_G1Argument, parse_G1Argument. intros Hb Hn.
  apply seq_build_ok in Hb as (b1 & b2 & H1 & H2 & ->). rewrite length_app in Hn.
  apply (truncated_bind _ _ (type a) b1 b2 n).
  - intros rest. exact (parse_build_int _ _ _ _ H1).
  - intros m Hm. exact (truncated_int _ _ _ _ H1 Hm).
  - intros Hge. unfold mbind, Parser_bind.
    rewrite (truncated_int _ _ _ (n - length b1)%nat H2) by lia. reflexivity.
Qed.

Lemma truncated_G1Instruction i bs n :
  build_G1Instruction i = Ok bs -> (n < length bs)%nat ->
  parse_G1Instruction (take n bs) = Err StreamError.
Proof.
  unfold build_G1Instruction, parse_G1Instruction. intros Hb Hn.
  apply seq_build_ok in Hb as (b1 & b2 & H1 & H2 & ->). rewrite length_app in Hn.
  apply (truncated_bind _ _ (id i) b1 b2 n).
  - intros rest. exact (parse_build_int _ _ _ _ H1).
  - intros m Hm. exact (truncated_int _ _ _ _ H1 Hm).
  - intros Hge. destruct (argument_count (id i)) as [count|e]; [|discriminate].
    unfold mbind, Parser_bind.
    rewrite (truncated_array build_G1Argument parse_G1Argument
               parse_build_G1Argument truncated_G1Argument
               count (arguments i) b2 (n - length b1)%nat H2) by lia.
    reflexivity.
Qed.

Lemma truncated_G1DataEntry d bs n :
  build_G1DataEntry d = Ok bs -> (n < length bs)%nat ->
  parse_G1DataEntry (take n bs) = Err StreamError.
Proof.
  unfold build_G1DataEntry, parse_G1DataEntry. intros Hb Hn.
  apply seq_build_ok in Hb as (b1 & b23 & H1 & Hb & ->).
  apply seq_build_ok in Hb as (b2 & b3 & H2 & H3 & ->).
  rewrite !length_app in Hn.
  apply (truncated_bind _ _ (address d) b1 (b2 ++ b3) n).
  - intros rest. exact (parse_build_int _ _ _ _ H1).
  - intros m Hm. exact (truncated_int _ _ _ _ H1 Hm).
  - intros Hge1. apply (truncated_bind _ _ (data_size d) b2 b3).
    + intros rest. exact (parse_build_int _ _ _ _ H2).
    + intros m Hm. exact (truncated_int _ _ _ _ H2 Hm).
    + intros Hge2. unfold mbind, Parser_bind.
      rewrite (truncated_array (build_int Int32sb) (parse_int Int32sb)
                 (parse_build_int Int32sb) (truncated_int Int32sb)
                 (data_size d) (values d) b3 (n - length b1 - length b2)%nat H3) by lia.
      reflexivity.
Qed.

Lemma truncated_meta m bs n :
  build_meta m = Ok bs -> (n < length bs)%nat ->
  parse_meta (take n bs) = Err StreamError.
Proof.
  unfold build_meta, parse_meta. intros Hb Hn.
  apply seq_build_ok in Hb as (b1 & r1 & H1 & Hb & ->).
  apply seq_build_ok in Hb as (b2 & r2 & H2 & Hb & ->).
  apply seq_build_ok in Hb as (b3 & b4 & H3 & H4 & ->).
  rewrite !length_app in Hn.
  apply (truncated_bind _ _ (meta_memory m) b1 (b2 ++ b3 ++ b4) n);
    [intros rest; exact (parse_build_int _ _ _ _ H1)
    |intros k Hk; exact (truncated_int _ _ _ _ H1 Hk)|intros Hge1].
  apply (truncated_bind _ _ (meta_width m) b2 (b3 ++ b4));
    [intros rest; exact (parse_build_int _ _ _ _ H2)
    |intros k Hk; exact (truncated_int _ _ _ _ H2 Hk)|intros Hge2].
  apply (truncated_bind _ _ (meta_height m) b3 b4);
    [intros rest; exact (parse_build_int _ _ _ _ H3)
    |intros k Hk; exact (truncated_int _ _ _ _ H3 Hk)|intros Hge3].
  unfold mbind, Parser_bind.
  rewrite (truncated_int _ _ _ (n - length b1 - length b2 - length b3)%nat H4) by lia.
  reflexivity.
Qed.

Lemma truncated_format f bs n :
  G1BinaryFormat_build f = Ok bs -> (n < length bs)%nat ->
  G1BinaryFormat_parse (take n bs) = Err StreamError.
Proof.
  unfold G1BinaryFormat_build, G1BinaryFormat_parse. intros Hb Hn.
  apply seq_build_ok in Hb as (b0 & r0 & H0 & Hb & ->).
  apply seq_build_ok in Hb as (b1 & r1 & H1 & Hb & ->).
  apply seq_build_ok in Hb as (b2 & r2 & H2 & Hb & ->).
  apply seq_build_ok in Hb as (b3 & r3 & H3 & Hb & ->).
  apply seq_build_ok in Hb as (b4 & r4 & H4 & Hb & ->).
  apply seq_build_ok in Hb as (b5 & r5 & H5 & Hb & ->).
  apply seq_build_ok in Hb as (b6 & b7 & H6 & H7 & ->).
  inversion H0; subst b0. rewrite !length_app in Hn.
  match goal with
  | |- match ?m _ with _ => _ end = _ =>
      assert (Hm : m (take n (SIGNATURE ++ b1 ++ b2 ++ b3 ++ b4 ++ b5 ++ b6 ++ b7))
                   = Err StreamError)
  end.
  { apply (truncated_bind _ _ SIGNATURE SIGNATURE).
    - intros rest. apply read_app. reflexivity.
    - intros m Hm. unfold read. rewrite length_take.
      rewrite (proj2 (Nat.leb_gt _ _)) by lia. reflexivity.
    - intros Hge0. unfold bytes_eqb. rewrite bool_decide_eq_true_2 by reflexivity.
      cbn [negb].
      apply (truncated_bind _ _ (f_meta f) b1);
        [intros rest; exact (parse_build_meta _ _ _ H1)
        |intros k Hk; exact (truncated_meta _ _ _ H1 Hk)|intros Hge1].
      apply (truncated_bind _ _ (f_tick f) b2);
        [intros rest; exact (parse_build_int _ _ _ _ H2)
        |intros k Hk; exact (truncated_int _ _ _ _ H2 Hk)|intros Hge2].
      apply (truncated_bind _ _ (f_start f) b3);
        [intros rest; exact (parse_build_int _ _ _ _ H3)
        |intros k Hk; exact (truncated_int _ _ _ _ H3 Hk)|intros Hge3].
      apply (truncated_bind _ _ (instruction_count f) b4);
        [intros rest; exact (parse_build_int _ _ _ _ H4)
        |intros k Hk; exact (truncated_int _ _ _ _ H4 Hk)|intros Hge4].
      apply (truncated_bind _ _ (f_instructions f) b5);
        [intros rest;
         exact (proj2 (parse_build_array build_G1Instruction parse_G1Instruction _ _
                         (Forall_true _ _ parse_build_G1Instruction) _ rest H5))
        |intros k Hk;
         exact (truncated_array _ _ parse_build_G1Instruction truncated_G1Instruction
                  _ _ _ _ H5 Hk)
        |intros Hge5].
      apply (truncated_bind _ _ (data_entry_count f) b6);
        [intros rest; exact (parse_build_int _ _ _ _ H6)
        |intros k Hk; exact (truncated_int _ _ _ _ H6 Hk)|intros Hge6].
      unfold mbind, Parser_bind.
      rewrite (truncated_array _ _ parse_build_G1DataEntry truncated_G1DataEntry
                 _ _ b7 _ H7) by lia.
      reflexivity. }
  rewrite Hm. reflexivity.
Qed.

End Truncation.

(** X21.  A g1b file cut short is rejected: every proper prefix of the
    file of a program fails to decode, with the error of the end of the
    input, and is never read as a shorter program. *)
Theorem truncated_file_rejected (p : program) (file_content : list Byte.byte) (n : nat) :
  Binary.encode p = Ok file_content ->
  (n < length file_content)%nat ->
  Binary.parse_to_program_data (take n file_content)
  = Err (Binary.Construct Binary.StreamError).
Proof.
  unfold Binary.encode. intros H Hn.
  destruct (Binary.format_json p) as [f|e]; [|discriminate].
  destruct (Binary.G1BinaryFormat_build f) as [bs|e] eqn:Hb; [|discriminate].
  inversion H; subst. unfold Binary.parse_to_program_data.
  rewrite (truncated_format f file_content n Hb Hn). reflexivity.
Qed.

(** Witness of [truncated_file_rejected]: the first forty bytes of the
    file of the debug-mode example. *)
Lemma truncated_file_rejected_witness :
  Binary.parse_to_program_data (take 40 (Wire.file_of Examples.debug_program))
  = Err (Binary.Construct Binary.StreamError).
Proof.
  apply (truncated_file_rejected Examples.debug_program).
  - vm_compute. reflexivity.
  - vm_compute. lia.
Defined.

(** ** The size of a file *)

Section FileSize.

Import Binary.

Lemma build_each_length {A} (b : Builder A) (len : A -> nat) :
  (forall x bs, b x = Ok bs -> length bs = len x) ->
  forall objs bs, build_each b objs = Ok bs -> length bs = sum_list (map len objs).
Proof.
  intros Hlen. induction objs as [|x xs IH]; intros bs Hb; simpl in Hb.
  - inversion Hb. reflexivity.
  - apply seq_build_ok in Hb as (b1 & b2 & Hx & Hxs & ->).
    rewrite length_app, (Hlen _ _ Hx), (IH _ Hxs). reflexivity.
Qed.

Lemma build_array_size {A} (b : Builder A) (len : A -> nat) :
  (forall x bs, b x = Ok bs -> length bs = len x) ->
  forall count objs bs,
    build_array count b objs = Ok bs -> length bs = sum_list (map len objs).
Proof.
  intros Hlen count objs bs Hb. unfold build_array in Hb.
  destruct ((count <? 0) || negb (Z.of_nat (length objs) =? count)); [discriminate|].
  exact (build_each_length b len Hlen objs bs Hb).
Qed.

Lemma sum_list_constant {A} (l : list A) k :
  sum_list (map (fun _ => k) l) = (k * length l)%nat.
Proof. induction l as [|x xs IH]; simpl; [lia|]. rewrite IH. lia. Qed.

Lemma G1Argument_size a bs : build_G1Argument a = Ok bs -> length bs = 5%nat.
Proof.
  unfold build_G1Argument. intros Hb.
  apply seq_build_ok in Hb as (b1 & b2 & H1 & H2 & ->).
  rewrite length_app, (build_int_length _ _ _ H1), (build_int_length _ _ _ H2).
  reflexivity.
Qed.

Lemma G1Instruction_size i bs :
  build_G1Instruction i = Ok bs -> length bs = (1 + 5 * length (arguments i))%nat.
Proof.
  unfold build_G1Instruction. intros Hb.
  apply seq_build_ok in Hb as (b1 & b2 & H1 & H2 & ->).
  destruct (argument_count (id i)) as [count|e]; [|discriminate].
  rewrite length_app, (build_int_length _ _ _ H1).
  rewrite (build_array_size build_G1Argument (fun _ => 5%nat) G1Argument_size _ _ _ H2).
  rewrite sum_list_constant. reflexivity.
Qed.

Lemma G1DataEntry_size d bs :
  build_G1DataEntry d = Ok bs -> length bs = (8 + 4 * length (values d))%nat.
Proof.
  unfold build_G1DataEntry. intros Hb.
  apply seq_build_ok in Hb as (b1 & b23 & H1 & Hb & ->).
  apply seq_build_ok in Hb as (b2 & b3 & H2 & H3 & ->).
  rewrite !length_app, (build_int_length _ _ _ H1), (build_int_length _ _ _ H2).
  rewrite (build_array_size (build_int Int32sb) (fun _ => 4%nat)
             (fun v bs H => build_int_length Int32sb v bs H) _ _ _ H3).
  rewrite sum_list_constant. reflexivity.
Qed.

Lemma meta_size m bs : build_meta m = Ok bs -> length bs = 10%nat.
Proof.
  unfold build_meta. intros Hb.
  apply seq_build_ok in Hb as (b1 & r1 & H1 & Hb & ->).
  apply seq_build_ok in Hb as (b2 & r2 & H2 & Hb & ->).
  apply seq_build_ok in Hb as (b3 & b4 & H3 & H4 & ->).
  rewrite !length_app, (build_int_length _ _ _ H1), (build_int_length _ _ _ H2),
    (build_int_length _ _ _ H3), (build_int_length _ _ _ H4).
  reflexivity.
Qed.

Lemma format_size f bs :
  G1BinaryFormat_build f = Ok bs ->
  length bs =
    (28 + sum_list (map (fun i => 1 + 5 * length (arguments i)) (f_instructions f))
        + sum_list (map (fun d => 8 + 4 * length (values d)) (f_data f)))%nat.
Proof.
  unfold G1BinaryFormat_build. intros Hb.
  apply seq_build_ok in Hb as (b0 & r0 & H0 & Hb & ->).
  apply seq_build_ok in Hb as (b1 & r1 & H1 & Hb & ->).
  apply seq_build_ok in Hb as (b2 & r2 & H2 & Hb & ->).
  apply seq_build_ok in Hb as (b3 & r3 & H3 & Hb & ->).
  apply seq_build_ok in Hb as (b4 & r4 & H4 & Hb & ->).
  apply seq_build_ok in Hb as (b5 & r5 & H5 & Hb & ->).
  apply seq_build_ok in Hb as (b6 & b7 & H6 & H7 & ->).
  inversion H0; subst b0.
  rewrite !length_app, (meta_size _ _ H1), (build_int_length _ _ _ H2),
    (build_int_length _ _ _ H3), (build_int_length _ _ _ H4), (build_int_length _ _ _ H6).
  rewrite (build_array_size _ _ G1Instruction_size _ _ _ H5).
  rewrite (build_array_size _ _ G1DataEntry_size _ _ _ H7).
  cbn [length SIGNATURE size Int32sb Int32ub]. lia.
Qed.

Lemma verbose_sizes instrs : forall vis,
  mapM verbose_instruction instrs = Ok vis ->
  map (fun vi => 1 + 5 * length (arguments vi))%nat vis
  = map (fun i => 1 + 5 * length (ins_args i))%nat instrs.
Proof.
  induction instrs as [|i instrs IH]; intros vis H; simpl in H.
  - inversion H. reflexivity.
  - destruct (verbose_instruction i) as [vi|e] eqn:Hvi; [|discriminate].
    destruct (mapM verbose_instruction instrs) as [vis'|e]; [|discriminate].
    inversion H; subst. cbn [map]. rewrite (IH vis' eq_refl). f_equal.
    unfold verbose_instruction in Hvi.
    destruct (mapM verbose_argument (ins_args i)) as [vas|e] eqn:Hvas; [|discriminate].
    destruct (INSTRUCTION_IDS !! ins_name i); [|discriminate].
    inversion Hvi; subst. cbn [arguments]. rewrite (mapM_length _ _ _ Hvas). reflexivity.
Qed.

End FileSize.

(** X22.  The size of a g1b file: 28 bytes for the signature, the meta
    values, the entry points and the two counts, then one byte and five
    per argument for every instruction, then eight bytes and four per
    value for every data entry. *)
Theorem file_size (p : program) (file_content : list Byte.byte) :
  Binary.encode p = Ok file_content ->
  length file_content =
    (28 + sum_list (map (fun i => 1 + 5 * length (ins_args i)) (p_instructions p))
        + sum_list (map (fun e => 8 + 4 * length (snd e)) (Codec.data_entries p)))%nat.
Proof.
  unfold Binary.encode, Binary.format_json. intros H.
  destruct (Binary.mapM Binary.verbose_instruction (p_instructions p))
    as [vis|e] eqn:Hvis; [|discriminate].
  rewrite <- (verbose_sizes _ _ Hvis). unfold Codec.data_entries.
  destruct (p_data p) as [[entries|]|]; try discriminate;
    match type of H with
    | match Binary.G1BinaryFormat_build ?f with _ => _ end = _ =>
        destruct (Binary.G1BinaryFormat_build f) as [bs|e] eqn:Hb; [|discriminate];
        inversion H; subst; rewrite (format_size _ _ Hb);
        cbn [Binary.f_instructions Binary.f_data]
    end.
  - rewrite map_map. reflexivity.
  - reflexivity.
Qed.

(** Witness of [file_size]: the file of the debug-mode example has 70
    bytes. *)
Lemma file_size_witness :
  length (Wire.file_of Examples.debug_program) = 70%nat.
Proof.
  exact (file_size Examples.debug_program (Wire.file_of Examples.debug_program) eq_refl).
Defined.

(** ** Division *)

(** X23.  [div] and [mod] are the floor division of Python and its
    remainder: for a divisor [d] that is not zero and a destination inside
    the memory, [div] ends normally with a quotient [q] in the
    destination cell and [mod] with a remainder [r], every other cell and
    the rest of the context being as before, where [a = d * q + r] and
    [r] is zero or has the sign of [d] and is smaller in absolute value. *)
Theorem div_mod_floor (c : VM.ProgramContext) (dest a d : Z) (more : list Z) :
  VM.out_of_bounds c dest = false ->
  d <> 0 ->
  let stored (out : result VM.fault (option Z) * VM.ProgramContext) (v : Z) :=
    fst out = Ok None /\
    VM.memory (snd out) !! Z.to_nat dest = Some v /\
    (forall i : nat, i <> Z.to_nat dest ->
       VM.memory (snd out) !! i = VM.memory c !! i) /\
    length (VM.memory (snd out)) = length (VM.memory c) /\
    VM.program_data (snd out) = VM.program_data c /\
    VM.program_counter (snd out) = VM.program_counter c /\
    VM.color (snd out) = VM.color c /\ VM.surface (snd out) = VM.surface c /\
    VM.stdout (snd out) = VM.stdout c in
  exists q r,
    stored (VM.ins_div (dest :: a :: d :: more) c) q /\
    stored (VM.ins_mod (dest :: a :: d :: more) c) r /\
    a = d * q + r /\
    (0 <= r < d \/ d < r <= 0).
Proof.
  intros Hin Hd stored. exists (a / d), (a mod d).
  assert (Hz : (d =? 0) = false) by (apply Z.eqb_neq; exact Hd).
  assert (Hstored : forall v,
            stored (Ok None, VM.set_memory c (<[Z.to_nat dest := v]> (VM.memory c))) v).
  { intros v. unfold stored. cbn [fst snd VM.memory VM.set_memory].
    unfold VM.out_of_bounds in Hin. apply orb_false_iff in Hin as [Hlo Hhi].
    apply Z.ltb_ge in Hlo. apply Z.leb_gt in Hhi.
    split; [reflexivity|]. split; [apply list_lookup_insert_eq; lia|].
    split; [intros i Hi; apply list_lookup_insert_ne; congruence|].
    split; [apply length_insert|]. repeat split. }
  assert (Hdiv : VM.ins_div (dest :: a :: d :: more) c =
                 (Ok None, VM.set_memory c (<[Z.to_nat dest := a / d]> (VM.memory c)))).
  { unfold VM.ins_div, VM.at_, mbind, VM.M_bind, VM.bind, mret, VM.M_ret, VM.ret.
    cbn [lookup list_lookup]. rewrite Hz. cbv beta iota.
    rewrite (memset_in_bounds c dest (a / d) Hin). reflexivity. }
  assert (Hmod : VM.ins_mod (dest :: a :: d :: more) c =
                 (Ok None, VM.set_memory c (<[Z.to_nat dest := a mod d]> (VM.memory c)))).
  { unfold VM.ins_mod, VM.at_, mbind, VM.M_bind, VM.bind, mret, VM.M_ret, VM.ret.
    cbn [lookup list_lookup]. rewrite Hz. cbv beta iota.
    rewrite (memset_in_bounds c dest (a mod d) Hin). reflexivity. }
  split; [rewrite Hdiv; apply Hstored|]. split; [rewrite Hmod; apply Hstored|].
  split; [apply Z.div_mod; exact Hd|].
  destruct (Z.lt_ge_cases 0 d) as [Hpos|Hneg].
  - left. apply Z.mod_pos_bound. exact Hpos.
  - right. apply Z.mod_neg_bound. lia.
Qed.

(** Witness of [div_mod_floor]: [-7] by [2] in cell 20 gives the quotient
    [-4] and the remainder [1]. *)
Lemma div_mod_floor_witness :
  let c := Examples.fresh_context (Examples.one_instruction (Examples.jmp 0 0)) in
  VM.memory (snd (VM.ins_div [20; -7; 2] c)) !! 20%nat = Some (-4) /\
  VM.memory (snd (VM.ins_mod [20; -7; 2] c)) !! 20%nat = Some 1 /\
  VM.memory (snd (VM.ins_div [20; -7; 2] c)) !! 21%nat = Some 0.
Proof.
  destruct (div_mod_floor
              (Examples.fresh_context (Examples.one_instruction (Examples.jmp 0 0)))
              20 (-7) 2 [] eq_refl ltac:(discriminate))
    as (q & r & (_ & Hq & Hother & _) & (_ & Hr & _) & Heq & Hsign).
  assert (r = 1) by lia. assert (q = -4) by lia. subst q r.
  split; [exact Hq|]. split; [exact Hr|].
  exact (Hother 21%nat ltac:(discriminate)).
Defined.

(** ** The tokens spell the text *)

Section Spelling.

Import Lexer Lexemes.

Lemma string_app_assoc (a b c : string) : ((a ++ b) ++ c = a ++ (b ++ c))%string.
Proof.
  induction a as [|x a IH]; [reflexivity|].
  change (String x ((a ++ b) ++ c) = String x (a ++ (b ++ c)))%string.
  rewrite IH. reflexivity.
Qed.

Lemma plus_append p s w r : plus p s = Some (w, r) -> s = (w ++ r)%string.
Proof.
  unfold plus. pose proof (span_append p s) as Hs.
  destruct (span p s) as [[|a w'] r']; [discriminate|].
  cbn [fst snd] in Hs. intros E. inversion E as [[Hw Hr]]. congruence.
Qed.

Lemma prefixed_append a p s w r :
  prefixed a (plus p s) = Some (w, r) -> String a s = (w ++ r)%string.
Proof.
  unfold prefixed. destruct (plus p s) as [[w' r']|] eqn:E; [|discriminate].
  intros H. inversion H; subst. apply plus_append in E. rewrite E. reflexivity.
Qed.

(** The lexeme of a rule is a prefix of the text. *)
Lemma first_match_append s n w r :
  first_match rules s = Some (n, w, r) -> s = (w ++ r)%string.
Proof.
  unfold rules, first_match.
  destruct (re_META_VARIABLE s) as [[w0 r0]|] eqn:E0.
  { intros H; inversion H; subst. unfold re_META_VARIABLE in E0.
    destruct s as [|a s]; [discriminate|].
    destruct (Ascii.eqb_spec a "#") as [->|Hne].
    - apply prefixed_append in E0. exact E0.
    - destruct a as [[|] [|] [|] [|] [|] [|] [|] [|]]; try discriminate.
      contradiction Hne. reflexivity. }
  destruct (re_NUMBER s) as [[w1 r1]|] eqn:E1.
  { intros H; inversion H; subst. unfold re_NUMBER in E1.
    destruct s as [|a s]; [discriminate|].
    destruct (Ascii.eqb_spec a "-") as [->|Hne].
    - apply prefixed_append in E1. exact E1.
    - assert (E : plus is_digit (String a s) = Some (w, r)).
      { destruct a as [[|] [|] [|] [|] [|] [|] [|] [|]]; try exact E1.
        contradiction Hne. reflexivity. }
      apply plus_append in E. exact E. }
  destruct (re_ADDRESS s) as [[w2 r2]|] eqn:E2.
  { intros H; inversion H; subst. unfold re_ADDRESS in E2.
    destruct s as [|a s]; [discriminate|].
    destruct (Ascii.eqb_spec a "$") as [->|Hne].
    - apply prefixed_append in E2. exact E2.
    - destruct a as [[|] [|] [|] [|] [|] [|] [|] [|]]; try discriminate.
      contradiction Hne. reflexivity. }
  destruct (re_LABEL_NAME s) as [[w3 r3]|] eqn:E3.
  { intros H; inversion H; subst. unfold re_LABEL_NAME in E3.
    destruct (plus is_word s) as [[w' r']|] eqn:E; [|discriminate].
    apply plus_append in E.
    destruct r' as [|a r']; [discriminate|].
    destruct (Ascii.eqb_spec a ":") as [->|Hne].
    - inversion E3; subst. rewrite string_app_assoc. reflexivity.
    - destruct a as [[|] [|] [|] [|] [|] [|] [|] [|]]; try discriminate.
      contradiction Hne. reflexivity. }
  destruct (re_NAME s) as [[w4 r4]|] eqn:E4.
  { intros H; inversion H; subst. unfold re_NAME in E4.
    destruct s as [|a s]; [discriminate|].
    destruct (is_A_z a || Ascii.eqb a "_"); [|discriminate].
    pose proof (span_append is_word s) as Hs.
    destruct (span is_word s) as [w' r']. cbn [fst snd] in Hs.
    inversion E4 as [[Hw Hr]]. rewrite Hs, Hr. reflexivity. }
  destruct (re_COMMENT s) as [[w5 r5]|] eqn:E5.
  { intros H; inversion H; subst. unfold re_COMMENT in E5.
    destruct s as [|a s]; [discriminate|].
    destruct (Ascii.eqb_spec a "(") as [->|Hne].
    - pose proof (span_append (fun a => negb (Ascii.eqb a ")")) s) as Hs.
      destruct (span (fun a => negb (Ascii.eqb a ")")) s) as [w' r'].
      destruct r' as [|b r']; [discriminate|].
      destruct (Ascii.eqb_spec b ")") as [->|Hne].
      + cbn [fst snd] in Hs. inversion E5 as [[Hw Hr]]. rewrite Hs, Hr.
        change (String "(" (w' ++ String ")" r) = String "(" ((w' ++ ")") ++ r))%string.
        rewrite string_app_assoc. reflexivity.
      + destruct b as [[|] [|] [|] [|] [|] [|] [|] [|]]; try discriminate.
        contradiction Hne. reflexivity.
    - destruct a as [[|] [|] [|] [|] [|] [|] [|] [|]]; try discriminate.
      contradiction Hne. reflexivity. }
  destruct (re_NEWLINE s) as [[w6 r6]|] eqn:E6; [|discriminate].
  intros H; inversion H; subst. unfold re_NEWLINE in E6.
  destruct s as [|a s]; [discriminate|].
  destruct (Ascii.eqb a newline); [|discriminate].
  inversion E6; subst. reflexivity.
Qed.

Lemma lex_from_spelled fuel : forall s line col last,
  (String.length s <= fuel)%nat ->
  exists rest,
    spelled s (fst (lex_from fuel s line col last)) rest /\
    match snd (lex_from fuel s line col last) with
    | None => rest = EmptyString
    | Some _ => first_match rules rest = None /\ rest <> EmptyString
    end.
Proof.
  induction fuel as [|fuel IH]; intros s line col last Hlen.
  - destruct s; [|simpl in Hlen; lia]. exists EmptyString. split; [constructor|reflexivity].
  - destruct s as [|a s]; [exists EmptyString; split; [constructor|reflexivity]|].
    simpl in Hlen.
    assert (Hspace : lex_from (S fuel) (String a s) line col last =
              if Ascii.eqb a " " then lex_from fuel s line (col + 1) last
              else match first_match rules (String a s) with
                   | None => ([], Some (line, last))
                   | Some (n, w, r) =>
                       let '(line', col') := advance w line col in
                       let '(ts, e) := lex_from fuel r line' col' col in
                       (Tok n w line col :: ts, e)
                   end).
    { destruct (Ascii.eqb_spec a " ") as [->|Hne]; [reflexivity|].
      destruct a as [[|] [|] [|] [|] [|] [|] [|] [|]]; try reflexivity.
      contradiction Hne. reflexivity. }
    rewrite Hspace. destruct (Ascii.eqb_spec a " ") as [->|Hne].
    + destruct (IH s line (col + 1) last) as (rest & Hsp & Hrest); [lia|].
      exists rest. split; [constructor; exact Hsp|exact Hrest].
    + destruct (first_match rules (String a s)) as [[[n w] r]|] eqn:E.
      * pose proof (first_match_shorter _ _ _ _ E) as Hshort. simpl in Hshort.
        pose proof (first_match_append _ _ _ _ E) as Happ.
        destruct (advance w line col) as [line' col'].
        destruct (IH r line' col' col) as (rest & Hsp & Hrest); [lia|].
        destruct (lex_from fuel r line' col' col) as [ts e]. cbn [fst snd] in *.
        exists rest. split; [|exact Hrest].
        rewrite Happ. exact (spelled_token (Tok n w line col) r ts rest Hsp).
      * exists (String a s). split; [constructor|]. cbn [snd]. split; [exact E|discriminate].
Qed.

End Spelling.

(** X24.  The lexer loses nothing but spaces: the texts of the tokens, in
    order and with the spaces between them, spell the source up to the
    point where lexing stops.  Without a lexing error that is the end of
    the source; with one it is a place where no rule matches. *)
Theorem tokens_spell_source (s : string) :
  exists rest,
    Lexemes.spelled s (fst (Lexer.lex s)) rest /\
    match snd (Lexer.lex s) with
    | None => rest = EmptyString
    | Some _ => Lexer.first_match Lexer.rules rest = None /\ rest <> EmptyString
    end.
Proof. apply lex_from_spelled. reflexivity. Qed.

(** ** The program a file holds *)

Section Decoded.

Import Binary Codec Wire.

(** The arguments of a file that was built hold numbers of 32 bits. *)
Lemma built_arguments vi :
  (exists bs, build_G1Instruction vi = Ok bs) ->
  Forall (fun va => fits Int32sb (arg_value va)) (arguments vi).
Proof.
  unfold build_G1Instruction. rewrite seq_build_both. intros [_ H].
  destruct (argument_count (id vi)) as [count|e]; [|destruct H; discriminate].
  apply build_array_all in H as [_ H].
  eapply Forall_impl; [exact H|]. intros va Hva. unfold build_G1Argument in Hva.
  apply seq_build_both in Hva as [_ Hv]. apply build_int_ok. exact Hv.
Qed.

Lemma built_instructions f bs :
  G1BinaryFormat_build f = Ok bs ->
  Forall (fun vi => exists b, build_G1Instruction vi = Ok b) (f_instructions f).
Proof.
  intros Hb. assert (Hall : exists bs', G1BinaryFormat_build f = Ok bs') by eauto.
  unfold G1BinaryFormat_build in Hall.
  rewrite !seq_build_both, !build_array_all in Hall.
  destruct Hall as (_ & _ & _ & _ & _ & (_ & Hi) & _). exact Hi.
Qed.

Lemma verbose_converted a va :
  verbose_argument a = Ok va -> fits Int32sb (arg_value va) ->
  convert_argument va = Ok (respell a) /\ verbose_argument (respell a) = Ok va.
Proof.
  destruct a as [z|s]; cbn [verbose_argument respell].
  - intros H _. inversion H. split; reflexivity.
  - destruct (py_int (tail_str s)) as [v|]; [|discriminate].
    intros H Hfit. inversion H; subst. cbn [arg_value] in Hfit.
    unfold convert_argument. cbn [type arg_value verbose_argument tail_str].
    rewrite py_int_numeral, (py_str_fits v Hfit). split; reflexivity.
Qed.

Lemma verbose_arguments_converted args : forall vas,
  mapM verbose_argument args = Ok vas ->
  Forall (fun va => fits Int32sb (arg_value va)) vas ->
  mapM convert_argument vas = Ok (map respell args) /\
  mapM verbose_argument (map respell args) = Ok vas.
Proof.
  induction args as [|a args IH]; intros vas H Hfit; simpl in H.
  - inversion H. split; reflexivity.
  - destruct (verbose_argument a) as [va|e] eqn:Ha; [|discriminate].
    destruct (mapM verbose_argument args) as [vas'|e]; [|discriminate].
    inversion H; subst. apply Forall_cons in Hfit as [Hva Hvas].
    destruct (verbose_converted _ _ Ha Hva) as [Hc Hr].
    destruct (IH _ eq_refl Hvas) as [Hcs Hrs].
    simpl. rewrite Hc, Hcs, Hr, Hrs. split; reflexivity.
Qed.

Lemma verbose_instruction_converted i vi :
  verbose_instruction i = Ok vi ->
  (exists b, build_G1Instruction vi = Ok b) ->
  convert_instruction vi = Ok (persisted_instruction i) /\
  verbose_instruction (persisted_instruction i) = Ok vi.
Proof.
  unfold verbose_instruction, convert_instruction, persisted_instruction.
  destruct (mapM verbose_argument (ins_args i)) as [vas|e] eqn:Hvas; [|discriminate].
  destruct (INSTRUCTION_IDS !! ins_name i) as [n|] eqn:Hid; [|discriminate].
  intros H Hb. inversion H; subst. apply built_arguments in Hb.
  cbn [id arguments ins_name ins_args] in *.
  destruct (instruction_index _ _ Hid) as (-> & _).
  destruct (verbose_arguments_converted _ _ Hvas Hb) as [-> ->].
  rewrite Hid. split; reflexivity.
Qed.

Lemma verbose_instructions_converted instrs : forall vis,
  mapM verbose_instruction instrs = Ok vis ->
  Forall (fun vi => exists b, build_G1Instruction vi = Ok b) vis ->
  mapM convert_instruction vis = Ok (map persisted_instruction instrs) /\
  mapM verbose_instruction (map persisted_instruction instrs) = Ok vis.
Proof.
  induction instrs as [|i instrs IH]; intros vis H Hb; simpl in H.
  - inversion H. split; reflexivity.
  - destruct (verbose_instruction i) as [vi|e] eqn:Hvi; [|discriminate].
    destruct (mapM verbose_instruction instrs) as [vis'|e]; [|discriminate].
    inversion H; subst. apply Forall_cons in Hb as [Hbi Hbs].
    destruct (verbose_instruction_converted _ _ Hvi Hbi) as [Hc Hr].
    destruct (IH _ eq_refl Hbs) as [Hcs Hrs].
    simpl. rewrite Hc, Hcs, Hr, Hrs. split; reflexivity.
Qed.

Lemma read_back_stored o :
  (if default (-1) o =? -1 then None else Some (default (-1) o)) = read_back o /\
  default (-1) (read_back o) = default (-1) o.
Proof.
  destruct o as [i|]; cbn; [|split; reflexivity].
  destruct (i =? -1) eqn:E; cbn; [|split; reflexivity].
  apply Z.eqb_eq in E. subst. split; reflexivity.
Qed.

Lemma format_json_decoded p f bs :
  format_json p = Ok f -> G1BinaryFormat_build f = Ok bs ->
  format_json (decoded p) = Ok f /\
  mapM convert_instruction (f_instructions f)
    = Ok (map persisted_instruction (p_instructions p)).
Proof.
  intros Hf Hb. pose proof (built_instructions f bs Hb) as Hbuilt.
  unfold format_json in Hf |- *. unfold decoded.
  cbn [p_instructions p_meta p_start p_tick p_data].
  destruct (mapM verbose_instruction (p_instructions p)) as [vis|e] eqn:Hvis;
    [|discriminate].
  assert (Hins : f_instructions f = vis).
  { destruct (p_data p) as [[entries|]|]; try discriminate; inversion Hf; reflexivity. }
  rewrite Hins in Hbuilt |- *.
  destruct (verbose_instructions_converted _ _ Hvis Hbuilt) as [Hc ->].
  split; [|exact Hc]. rewrite length_map.
  rewrite (proj2 (read_back_stored (p_start p))), (proj2 (read_back_stored (p_tick p))).
  destruct (p_data p) as [[[|e entries]|]|]; try discriminate; exact Hf.
Qed.

Lemma respell_twice a : respell (respell a) = respell a.
Proof.
  destruct a as [z|s]; [reflexivity|]. cbn [respell].
  destruct (py_int (tail_str s)) as [v|] eqn:Hv.
  - cbn [respell tail_str]. rewrite py_int_numeral.
    destruct (py_str v); reflexivity.
  - cbn [respell]. rewrite Hv. reflexivity.
Qed.

End Decoded.

(** X25.  What a g1b file holds.  Whenever a program is encoded, the
    file decodes, without any further condition, to the program with its
    addresses spelled by their numbers and without line numbers, source,
    empty data list or an entry point equal to -1 (which is read as
    absent); when the data are not empty, the decoded program also has
    the number of data entries under the key ['data_entry_count'], which
    the decoder does not delete then.  Encoding the decoded program gives
    the same file again, and decoding that file the same program. *)
Theorem file_holds_decoded (p : program) (file_content : list Byte.byte) :
  Binary.encode p = Ok file_content ->
  Binary.parse_to_program_data file_content = Ok (Wire.decoded p) /\
  p_data_entry_count (Wire.decoded p) =
    match p_data p with
    | Some (Some (e :: entries)) => Some (Z.of_nat (length (e :: entries)))
    | _ => None
    end /\
  Binary.encode (Wire.decoded p) = Ok file_content /\
  Wire.decoded (Wire.decoded p) = Wire.decoded p.
Proof.
  unfold Binary.encode. intros H.
  destruct (Binary.format_json p) as [f|e] eqn:Hf; [|discriminate].
  destruct (Binary.G1BinaryFormat_build f) as [bs|e] eqn:Hb; [|discriminate].
  inversion H; subst.
  destruct (format_json_decoded p f file_content Hf Hb) as [Hdec Hconv].
  rewrite Hdec, Hb.
  split; [|split; [reflexivity|split; [reflexivity|]]].
  - unfold Binary.parse_to_program_data.
    pose proof (parse_build f file_content [] Hb) as Hp. rewrite app_nil_r in Hp.
    rewrite Hp, Hconv. unfold Binary.format_json in Hf.
    destruct (Binary.mapM Binary.verbose_instruction (p_instructions p))
      as [vis|e] eqn:Hvis; [|discriminate].
    unfold Wire.decoded.
    destruct (p_data p) as [[[|e entries]|]|]; try discriminate;
      inversion Hf; subst f;
      cbn [Binary.f_instructions Binary.f_meta Binary.f_start Binary.f_tick Binary.f_data
           Binary.data_entry_count];
      rewrite (proj1 (read_back_stored (p_start p))),
        (proj1 (read_back_stored (p_tick p))); try reflexivity.
    cbn [map]. rewrite entries_converted. destruct e.
    rewrite length_map. reflexivity.
  - unfold Wire.decoded.
    cbn [p_meta p_instructions p_start p_tick p_data p_source p_data_entry_count].
    f_equal.
    + rewrite map_map. apply map_ext. intros i.
      unfold Codec.persisted_instruction. cbn [ins_name ins_args]. f_equal.
      rewrite map_map. apply map_ext. intros a. apply respell_twice.
    + destruct (p_start p) as [i|]; [|reflexivity]. cbn.
      destruct (i =? -1) eqn:E; [reflexivity|]. cbn. rewrite E. reflexivity.
    + destruct (p_tick p) as [i|]; [|reflexivity]. cbn.
      destruct (i =? -1) eqn:E; [reflexivity|]. cbn. rewrite E. reflexivity.
    + destruct (p_data p) as [[[|e entries]|]|]; reflexivity.
    + destruct (p_data p) as [[[|e entries]|]|]; reflexivity.
Qed.

(** Witness of [file_holds_decoded]: a program with the entry point -1,
    an address below zero and two data entries; the decoded program has 2
    under ['data_entry_count']. *)
Lemma file_holds_decoded_witness :
  let p := Program Assembler.META_VARIABLES
             [Instruction "log" [AStr "$-05"] (Some 0)] (Some (-1)) (Some 0)
             (Some (Some [(20, [1; -2]); (30, [])])) (Some ["log $-05"]) None in
  Binary.parse_to_program_data (Wire.file_of p)
  = Ok (Program Assembler.META_VARIABLES
          [Instruction "log" [AStr "$-5"] None] None (Some 0)
          (Some (Some [(20, [1; -2]); (30, [])])) None (Some 2)).
Proof.
  exact (proj1 (file_holds_decoded
                  (Program Assembler.META_VARIABLES
                     [Instruction "log" [AStr "$-05"] (Some 0)] (Some (-1)) (Some 0)
                     (Some (Some [(20, [1; -2]); (30, [])])) (Some ["log $-05"]) None)
                  (Wire.file_of
                     (Program Assembler.META_VARIABLES
                        [Instruction "log" [AStr "$-05"] (Some 0)] (Some (-1)) (Some 0)
                        (Some (Some [(20, [1; -2]); (30, [])])) (Some ["log $-05"]) None))
                  eq_refl)).
Defined.

(** ** Comments *)

Section CommentsIgnored.

Import Assembler Lexer Comments.

Variable ending : option (Z * Z).

Lemma uncommented_cons t ts :
  uncommented (t :: ts) = if is_comment t then uncommented ts else t :: uncommented ts.
Proof. unfold uncommented. simpl. destruct (is_comment t); reflexivity. Qed.

Lemma is_comment_name t : is_comment t = true <-> name t = COMMENT.
Proof. unfold is_comment. apply bool_decide_eq_true. Qed.

Lemma uncommented_length ts : (length (uncommented ts) <= length ts)%nat.
Proof.
  induction ts as [|t ts IH]; [reflexivity|].
  rewrite uncommented_cons. destruct (is_comment t); simpl; lia.
Qed.

Lemma meta_values_follow_drop k : forall ts,
  meta_values_follow ts -> meta_values_follow (drop k ts).
Proof.
  induction k as [|k IH]; intros ts H; [exact H|].
  destruct ts as [|t ts]; [exact I|]. simpl. apply IH. exact (proj2 H).
Qed.

Lemma get_until_newline_from_suffix acc ts args rest :
  get_until_newline_from ending acc ts = Ok (args, rest) -> exists k, rest = drop k ts.
Proof.
  revert acc. induction ts as [|t ts IH]; intros acc H; simpl in H; [discriminate|].
  destruct (name t);
    try (destruct (IH _ H) as [k ->]; exists (S k); reflexivity).
  inversion H; subst. exists 1%nat. reflexivity.
Qed.

Lemma get_until_newline_from_uncommented ts : forall acc,
  get_until_newline_from ending acc (uncommented ts) =
  match get_until_newline_from ending acc ts with
  | Ok (args, rest) => Ok (args, uncommented rest)
  | Err e => Err e
  end.
Proof.
  induction ts as [|t ts IH]; intros acc; [reflexivity|].
  rewrite uncommented_cons. destruct (is_comment t) eqn:Hc.
  - apply is_comment_name in Hc. simpl. rewrite Hc. apply IH.
  - simpl. destruct (name t); try apply IH. reflexivity.
Qed.

Lemma collect_token_suffix t rest c rest' c' :
  collect_token ending t rest c = Ok (rest', c') -> exists k, rest' = drop k rest.
Proof.
  intros H. destruct (collect_token_cases ending _ _ _ _ _ H)
    as [(_ & _ & v & z & Hnext & _) | [(_ & -> & _)
       | [(_ & args & Hargs & _) | (_ & -> & _)]]].
  - destruct rest as [|v' rest0]; simpl in Hnext; inversion Hnext; subst.
    exists 1%nat. reflexivity.
  - exists 0%nat. reflexivity.
  - exact (get_until_newline_from_suffix _ _ _ _ Hargs).
  - exists 0%nat. reflexivity.
Qed.

Lemma collect_token_uncommented t rest c :
  (name t = META_VARIABLE ->
   match rest with v :: _ => name v <> COMMENT | [] => True end) ->
  collect_token ending t (uncommented rest) c =
  match collect_token ending t rest c with
  | Ok (rest', c') => Ok (uncommented rest', c')
  | Err e => Err e
  end.
Proof.
  intros Hmeta. unfold collect_token, error.
  destruct (name t) eqn:Hname; try reflexivity.
  - destruct (negb (bool_decide (compiler_state c = META))); [reflexivity|].
    destruct (negb (mem_string (tail_str (value t)) META_VARIABLE_NAMES)); [reflexivity|].
    destruct rest as [|v rest0]; [reflexivity|].
    specialize (Hmeta eq_refl). rewrite uncommented_cons.
    destruct (is_comment v) eqn:Hc; [apply is_comment_name in Hc; contradiction|].
    simpl. destruct (py_int (value v)); reflexivity.
  - destruct (labels c !! init_str (value t)); reflexivity.
  - destruct (negb (mem_string (value t) Instructions.INSTRUCTIONS)); [reflexivity|].
    destruct (Instructions.ARGUMENT_COUNT_LOOKUP !! value t) as [n|]; [|reflexivity].
    unfold get_until_newline. rewrite get_until_newline_from_uncommented.
    destruct (get_until_newline_from ending [] rest) as [[args rest']|e]; [|reflexivity].
    destruct (negb (length args =? n)%nat); reflexivity.
Qed.

Lemma collect_uncommented f : forall ts c,
  (length ts < f)%nat -> meta_values_follow ts ->
  collect ending f (uncommented ts) c = collect ending f ts c.
Proof.
  induction f as [|f IH]; intros ts c Hlen Hgood; [lia|].
  destruct ts as [|t rest]; [reflexivity|]. simpl in Hlen. destruct Hgood as [Hmeta Hrest].
  rewrite uncommented_cons. destruct (is_comment t) eqn:Hc.
  - apply is_comment_name in Hc.
    rewrite (collect_fuel ending (S f) f) by (pose proof (uncommented_length rest); lia).
    rewrite IH by (assumption || lia).
    rewrite collect_turn. unfold collect_token. rewrite Hc. reflexivity.
  - rewrite !collect_turn. rewrite (collect_token_uncommented t rest c Hmeta).
    destruct (collect_token ending t rest c) as [[rest' c']|e] eqn:Ht; [|reflexivity].
    pose proof (collect_token_shorter ending _ _ _ _ _ Ht) as Hshort.
    destruct (collect_token_suffix _ _ _ _ _ Ht) as [k ->].
    apply IH; [lia|]. apply meta_values_follow_drop. exact Hrest.
Qed.

End CommentsIgnored.

(** X26.  Comments do not change what is assembled: when no meta
    variable is directly followed by a comment, the token stream without
    its comments gives the same program and warnings, or the same error at
    the same place, as the stream with them.  (After a meta variable the
    next token is read as its value, whatever it is.) *)
Theorem comments_are_ignored (tokens : list Lexer.Token) (ending : option (Z * Z))
    (source_lines : list string) (state : Assembler.AssemblerState) (debug : bool) :
  Comments.meta_values_follow tokens ->
  Assembler.assemble_tokens (Comments.uncommented tokens) ending source_lines state debug
  = Assembler.assemble_tokens tokens ending source_lines state debug.
Proof.
  intros Hgood. unfold Assembler.assemble_tokens.
  rewrite (collect_fuel ending (S (length (Comments.uncommented tokens)))
             (S (length tokens)))
    by (pose proof (uncommented_length tokens); lia).
  rewrite (collect_uncommented ending _ _ _ (Nat.lt_succ_diag_r _) Hgood).
  reflexivity.
Qed.

(** Witness of [comments_are_ignored]: a line with two comments. *)
Lemma comments_are_ignored_witness :
  Assembler.assemble_tokens
    (Comments.uncommented (Examples.tokens_of "mov 20 (to) 3 (three)"))
    None [] Assembler.META false
  = Assembler.assemble_tokens (Examples.tokens_of "mov 20 (to) 3 (three)")
      None [] Assembler.META false.
Proof.
  apply (comments_are_ignored (Examples.tokens_of "mov 20 (to) 3 (three)")).
  vm_compute. repeat split; discriminate.
Defined.
